(** * Century21 listing scraper: the content-extraction engine

    A shallow embedding of [Century21RobustScraper]
    (app/integrations/century21/data_scraper.py) and the properties of its
    text normaliser, structural extractor, description segmenter and record
    consolidator.

    Modelling conventions.
    - A Python [str] is a list of Unicode code points ([list N]).  Character
      classes and case mappings are those of CPython 3.11 (Unicode 14.0.0),
      over all code points: [is_space] is [str.isspace] (which is also what
      the pattern [\s] matches), [is_digit] is [\d], [is_word] is [\w],
      [lower] is [str.lower] and [capitalize] is [str.capitalize], with the
      final-sigma rule.  Their tables are in the module [Unicode].
    - A Python [float] is a binary64 number, given by its value: [float] of
      a numeral and the subtraction round to the nearest float, ties to
      even, and overflow to infinity; the sign of zero is not kept.
    - A Python [dict] is an association list in insertion order with unique
      keys: assignment to a present key keeps its position, a new key goes
      last.
    - The DOM is seen through the queries the scraper issues: a page is the
      record of the answers BeautifulSoup gives to those queries.
    - Exceptions are values: fallible code returns [result]. *)

From Stdlib Require Import List NArith ZArith QArith Qround Ascii Lia Bool.
From Stdlib Require Import Sorting.Sorted Sorting.Permutation.
From Stdlib Require Strings.String.
Import ListNotations.
Import String.StringSyntax.

(** ** Unicode tables *)

Module Unicode.

Open Scope N_scope.

(** The characters with a decimal digit value (category Nd), in runs of
    ten from a zero: what [\d] matches and [float] reads as digits. *)
Definition decimal_digits : list (N * N) :=
  [
   (48, 57); (1632, 1641); (1776, 1785); (1984, 1993); (2406, 2415);
   (2534, 2543); (2662, 2671); (2790, 2799); (2918, 2927); (3046, 3055);
   (3174, 3183); (3302, 3311); (3430, 3439); (3558, 3567); (3664, 3673);
   (3792, 3801); (3872, 3881); (4160, 4169); (4240, 4249); (6112, 6121);
   (6160, 6169); (6470, 6479); (6608, 6617); (6784, 6793); (6800, 6809);
   (6992, 7001); (7088, 7097); (7232, 7241); (7248, 7257); (42528, 42537);
   (43216, 43225); (43264, 43273); (43472, 43481); (43504, 43513);
   (43600, 43609); (44016, 44025); (65296, 65305); (66720, 66729);
   (68912, 68921); (69734, 69743); (69872, 69881); (69942, 69951);
   (70096, 70105); (70384, 70393); (70736, 70745); (70864, 70873);
   (71248, 71257); (71360, 71369); (71472, 71481); (71904, 71913);
   (72016, 72025); (72784, 72793); (73040, 73049); (73120, 73129);
   (92768, 92777); (92864, 92873); (93008, 93017); (120782, 120831);
   (123200, 123209); (123632, 123641); (125264, 125273); (130032, 130041)
  ].

(** The characters [\w] matches: the alphanumerics and the underscore. *)
Definition word_characters : list (N * N) :=
  [
   (48, 57); (65, 90); (95, 95); (97, 122); (170, 170); (178, 179);
   (181, 181); (185, 186); (188, 190); (192, 214); (216, 246); (248, 705);
   (710, 721); (736, 740); (748, 748); (750, 750); (880, 884); (886, 887);
   (890, 893); (895, 895); (902, 902); (904, 906); (908, 908); (910, 929);
   (931, 1013); (1015, 1153); (1162, 1327); (1329, 1366); (1369, 1369);
   (1376, 1416); (1488, 1514); (1519, 1522); (1568, 1610); (1632, 1641);
   (1646, 1647); (1649, 1747); (1749, 1749); (1765, 1766); (1774, 1788);
   (1791, 1791); (1808, 1808); (1810, 1839); (1869, 1957); (1969, 1969);
   (1984, 2026); (2036, 2037); (2042, 2042); (2048, 2069); (2074, 2074);
   (2084, 2084); (2088, 2088); (2112, 2136); (2144, 2154); (2160, 2183);
   (2185, 2190); (2208, 2249); (2308, 2361); (2365, 2365); (2384, 2384);
   (2392, 2401); (2406, 2415); (2417, 2432); (2437, 2444); (2447, 2448);
   (2451, 2472); (2474, 2480); (2482, 2482); (2486, 2489); (2493, 2493);
   (2510, 2510); (2524, 2525); (2527, 2529); (2534, 2545); (2548, 2553);
   (2556, 2556); (2565, 2570); (2575, 2576); (2579, 2600); (2602, 2608);
   (2610, 2611); (2613, 2614); (2616, 2617); (2649, 2652); (2654, 2654);
   (2662, 2671); (2674, 2676); (2693, 2701); (2703, 2705); (2707, 2728);
   (2730, 2736); (2738, 2739); (2741, 2745); (2749, 2749); (2768, 2768);
   (2784, 2785); (2790, 2799); (2809, 2809); (2821, 2828); (2831, 2832);
   (2835, 2856); (2858, 2864); (2866, 2867); (2869, 2873); (2877, 2877);
   (2908, 2909); (2911, 2913); (2918, 2927); (2929, 2935); (2947, 2947);
   (2949, 2954); (2958, 2960); (2962, 2965); (2969, 2970); (2972, 2972);
   (2974, 2975); (2979, 2980); (2984, 2986); (2990, 3001); (3024, 3024);
   (3046, 3058); (3077, 3084); (3086, 3088); (3090, 3112); (3114, 3129);
   (3133, 3133); (3160, 3162); (3165, 3165); (3168, 3169); (3174, 3183);
   (3192, 3198); (3200, 3200); (3205, 3212); (3214, 3216); (3218, 3240);
   (3242, 3251); (3253, 3257); (3261, 3261); (3293, 3294); (3296, 3297);
   (3302, 3311); (3313, 3314); (3332, 3340); (3342, 3344); (3346, 3386);
   (3389, 3389); (3406, 3406); (3412, 3414); (3416, 3425); (3430, 3448);
   (3450, 3455); (3461, 3478); (3482, 3505); (3507, 3515); (3517, 3517);
   (3520, 3526); (3558, 3567); (3585, 3632); (3634, 3635); (3648, 3654);
   (3664, 3673); (3713, 3714); (3716, 3716); (3718, 3722); (3724, 3747);
   (3749, 3749); (3751, 3760); (3762, 3763); (3773, 3773); (3776, 3780);
   (3782, 3782); (3792, 3801); (3804, 3807); (3840, 3840); (3872, 3891);
   (3904, 3911); (3913, 3948); (3976, 3980); (4096, 4138); (4159, 4169);
   (4176, 4181); (4186, 4189); (4193, 4193); (4197, 4198); (4206, 4208);
   (4213, 4225); (4238, 4238); (4240, 4249); (4256, 4293); (4295, 4295);
   (4301, 4301); (4304, 4346); (4348, 4680); (4682, 4685); (4688, 4694);
   (4696, 4696); (4698, 4701); (4704, 4744); (4746, 4749); (4752, 4784);
   (4786, 4789); (4792, 4798); (4800, 4800); (4802, 4805); (4808, 4822);
   (4824, 4880); (4882, 4885); (4888, 4954); (4969, 4988); (4992, 5007);
   (5024, 5109); (5112, 5117); (5121, 5740); (5743, 5759); (5761, 5786);
   (5792, 5866); (5870, 5880); (5888, 5905); (5919, 5937); (5952, 5969);
   (5984, 5996); (5998, 6000); (6016, 6067); (6103, 6103); (6108, 6108);
   (6112, 6121); (6128, 6137); (6160, 6169); (6176, 6264); (6272, 6276);
   (6279, 6312); (6314, 6314); (6320, 6389); (6400, 6430); (6470, 6509);
   (6512, 6516); (6528, 6571); (6576, 6601); (6608, 6618); (6656, 6678);
   (6688, 6740); (6784, 6793); (6800, 6809); (6823, 6823); (6917, 6963);
   (6981, 6988); (6992, 7001); (7043, 7072); (7086, 7141); (7168, 7203);
   (7232, 7241); (7245, 7293); (7296, 7304); (7312, 7354); (7357, 7359);
   (7401, 7404); (7406, 7411); (7413, 7414); (7418, 7418); (7424, 7615);
   (7680, 7957); (7960, 7965); (7968, 8005); (8008, 8013); (8016, 8023);
   (8025, 8025); (8027, 8027); (8029, 8029); (8031, 8061); (8064, 8116);
   (8118, 8124); (8126, 8126); (8130, 8132); (8134, 8140); (8144, 8147);
   (8150, 8155); (8160, 8172); (8178, 8180); (8182, 8188); (8304, 8305);
   (8308, 8313); (8319, 8329); (8336, 8348); (8450, 8450); (8455, 8455);
   (8458, 8467); (8469, 8469); (8473, 8477); (8484, 8484); (8486, 8486);
   (8488, 8488); (8490, 8493); (8495, 8505); (8508, 8511); (8517, 8521);
   (8526, 8526); (8528, 8585); (9312, 9371); (9450, 9471); (10102, 10131);
   (11264, 11492); (11499, 11502); (11506, 11507); (11517, 11517);
   (11520, 11557); (11559, 11559); (11565, 11565); (11568, 11623);
   (11631, 11631); (11648, 11670); (11680, 11686); (11688, 11694);
   (11696, 11702); (11704, 11710); (11712, 11718); (11720, 11726);
   (11728, 11734); (11736, 11742); (11823, 11823); (12293, 12295);
   (12321, 12329); (12337, 12341); (12344, 12348); (12353, 12438);
   (12445, 12447); (12449, 12538); (12540, 12543); (12549, 12591);
   (12593, 12686); (12690, 12693); (12704, 12735); (12784, 12799);
   (12832, 12841); (12872, 12879); (12881, 12895); (12928, 12937);
   (12977, 12991); (13312, 19903); (19968, 42124); (42192, 42237);
   (42240, 42508); (42512, 42539); (42560, 42606); (42623, 42653);
   (42656, 42735); (42775, 42783); (42786, 42888); (42891, 42954);
   (42960, 42961); (42963, 42963); (42965, 42969); (42994, 43009);
   (43011, 43013); (43015, 43018); (43020, 43042); (43056, 43061);
   (43072, 43123); (43138, 43187); (43216, 43225); (43250, 43255);
   (43259, 43259); (43261, 43262); (43264, 43301); (43312, 43334);
   (43360, 43388); (43396, 43442); (43471, 43481); (43488, 43492);
   (43494, 43518); (43520, 43560); (43584, 43586); (43588, 43595);
   (43600, 43609); (43616, 43638); (43642, 43642); (43646, 43695);
   (43697, 43697); (43701, 43702); (43705, 43709); (43712, 43712);
   (43714, 43714); (43739, 43741); (43744, 43754); (43762, 43764);
   (43777, 43782); (43785, 43790); (43793, 43798); (43808, 43814);
   (43816, 43822); (43824, 43866); (43868, 43881); (43888, 44002);
   (44016, 44025); (44032, 55203); (55216, 55238); (55243, 55291);
   (63744, 64109); (64112, 64217); (64256, 64262); (64275, 64279);
   (64285, 64285); (64287, 64296); (64298, 64310); (64312, 64316);
   (64318, 64318); (64320, 64321); (64323, 64324); (64326, 64433);
   (64467, 64829); (64848, 64911); (64914, 64967); (65008, 65019);
   (65136, 65140); (65142, 65276); (65296, 65305); (65313, 65338);
   (65345, 65370); (65382, 65470); (65474, 65479); (65482, 65487);
   (65490, 65495); (65498, 65500); (65536, 65547); (65549, 65574);
   (65576, 65594); (65596, 65597); (65599, 65613); (65616, 65629);
   (65664, 65786); (65799, 65843); (65856, 65912); (65930, 65931);
   (66176, 66204); (66208, 66256); (66273, 66299); (66304, 66339);
   (66349, 66378); (66384, 66421); (66432, 66461); (66464, 66499);
   (66504, 66511); (66513, 66517); (66560, 66717); (66720, 66729);
   (66736, 66771); (66776, 66811); (66816, 66855); (66864, 66915);
   (66928, 66938); (66940, 66954); (66956, 66962); (66964, 66965);
   (66967, 66977); (66979, 66993); (66995, 67001); (67003, 67004);
   (67072, 67382); (67392, 67413); (67424, 67431); (67456, 67461);
   (67463, 67504); (67506, 67514); (67584, 67589); (67592, 67592);
   (67594, 67637); (67639, 67640); (67644, 67644); (67647, 67669);
   (67672, 67702); (67705, 67742); (67751, 67759); (67808, 67826);
   (67828, 67829); (67835, 67867); (67872, 67897); (67968, 68023);
   (68028, 68047); (68050, 68096); (68112, 68115); (68117, 68119);
   (68121, 68149); (68160, 68168); (68192, 68222); (68224, 68255);
   (68288, 68295); (68297, 68324); (68331, 68335); (68352, 68405);
   (68416, 68437); (68440, 68466); (68472, 68497); (68521, 68527);
   (68608, 68680); (68736, 68786); (68800, 68850); (68858, 68899);
   (68912, 68921); (69216, 69246); (69248, 69289); (69296, 69297);
   (69376, 69415); (69424, 69445); (69457, 69460); (69488, 69505);
   (69552, 69579); (69600, 69622); (69635, 69687); (69714, 69743);
   (69745, 69746); (69749, 69749); (69763, 69807); (69840, 69864);
   (69872, 69881); (69891, 69926); (69942, 69951); (69956, 69956);
   (69959, 69959); (69968, 70002); (70006, 70006); (70019, 70066);
   (70081, 70084); (70096, 70106); (70108, 70108); (70113, 70132);
   (70144, 70161); (70163, 70187); (70272, 70278); (70280, 70280);
   (70282, 70285); (70287, 70301); (70303, 70312); (70320, 70366);
   (70384, 70393); (70405, 70412); (70415, 70416); (70419, 70440);
   (70442, 70448); (70450, 70451); (70453, 70457); (70461, 70461);
   (70480, 70480); (70493, 70497); (70656, 70708); (70727, 70730);
   (70736, 70745); (70751, 70753); (70784, 70831); (70852, 70853);
   (70855, 70855); (70864, 70873); (71040, 71086); (71128, 71131);
   (71168, 71215); (71236, 71236); (71248, 71257); (71296, 71338);
   (71352, 71352); (71360, 71369); (71424, 71450); (71472, 71483);
   (71488, 71494); (71680, 71723); (71840, 71922); (71935, 71942);
   (71945, 71945); (71948, 71955); (71957, 71958); (71960, 71983);
   (71999, 71999); (72001, 72001); (72016, 72025); (72096, 72103);
   (72106, 72144); (72161, 72161); (72163, 72163); (72192, 72192);
   (72203, 72242); (72250, 72250); (72272, 72272); (72284, 72329);
   (72349, 72349); (72368, 72440); (72704, 72712); (72714, 72750);
   (72768, 72768); (72784, 72812); (72818, 72847); (72960, 72966);
   (72968, 72969); (72971, 73008); (73030, 73030); (73040, 73049);
   (73056, 73061); (73063, 73064); (73066, 73097); (73112, 73112);
   (73120, 73129); (73440, 73458); (73648, 73648); (73664, 73684);
   (73728, 74649); (74752, 74862); (74880, 75075); (77712, 77808);
   (77824, 78894); (82944, 83526); (92160, 92728); (92736, 92766);
   (92768, 92777); (92784, 92862); (92864, 92873); (92880, 92909);
   (92928, 92975); (92992, 92995); (93008, 93017); (93019, 93025);
   (93027, 93047); (93053, 93071); (93760, 93846); (93952, 94026);
   (94032, 94032); (94099, 94111); (94176, 94177); (94179, 94179);
   (94208, 100343); (100352, 101589); (101632, 101640); (110576, 110579);
   (110581, 110587); (110589, 110590); (110592, 110882); (110928, 110930);
   (110948, 110951); (110960, 111355); (113664, 113770); (113776, 113788);
   (113792, 113800); (113808, 113817); (119520, 119539); (119648, 119672);
   (119808, 119892); (119894, 119964); (119966, 119967); (119970, 119970);
   (119973, 119974); (119977, 119980); (119982, 119993); (119995, 119995);
   (119997, 120003); (120005, 120069); (120071, 120074); (120077, 120084);
   (120086, 120092); (120094, 120121); (120123, 120126); (120128, 120132);
   (120134, 120134); (120138, 120144); (120146, 120485); (120488, 120512);
   (120514, 120538); (120540, 120570); (120572, 120596); (120598, 120628);
   (120630, 120654); (120656, 120686); (120688, 120712); (120714, 120744);
   (120746, 120770); (120772, 120779); (120782, 120831); (122624, 122654);
   (123136, 123180); (123191, 123197); (123200, 123209); (123214, 123214);
   (123536, 123565); (123584, 123627); (123632, 123641); (124896, 124902);
   (124904, 124907); (124909, 124910); (124912, 124926); (124928, 125124);
   (125127, 125135); (125184, 125251); (125259, 125259); (125264, 125273);
   (126065, 126123); (126125, 126127); (126129, 126132); (126209, 126253);
   (126255, 126269); (126464, 126467); (126469, 126495); (126497, 126498);
   (126500, 126500); (126503, 126503); (126505, 126514); (126516, 126519);
   (126521, 126521); (126523, 126523); (126530, 126530); (126535, 126535);
   (126537, 126537); (126539, 126539); (126541, 126543); (126545, 126546);
   (126548, 126548); (126551, 126551); (126553, 126553); (126555, 126555);
   (126557, 126557); (126559, 126559); (126561, 126562); (126564, 126564);
   (126567, 126570); (126572, 126578); (126580, 126583); (126585, 126588);
   (126590, 126590); (126592, 126601); (126603, 126619); (126625, 126627);
   (126629, 126633); (126635, 126651); (127232, 127244); (130032, 130041);
   (131072, 173791); (173824, 177976); (177984, 178205); (178208, 183969);
   (183984, 191456); (194560, 195101); (196608, 201546)
  ].

(** The full lower-case mapping of [str.lower], for the characters it
    changes (capital sigma apart, which depends on its context). *)
Definition lowercase : list (N * list N) :=
  [
   (65, [97]); (66, [98]); (67, [99]); (68, [100]); (69, [101]);
   (70, [102]); (71, [103]); (72, [104]); (73, [105]); (74, [106]);
   (75, [107]); (76, [108]); (77, [109]); (78, [110]); (79, [111]);
   (80, [112]); (81, [113]); (82, [114]); (83, [115]); (84, [116]);
   (85, [117]); (86, [118]); (87, [119]); (88, [120]); (89, [121]);
   (90, [122]); (192, [224]); (193, [225]); (194, [226]); (195, [227]);
   (196, [228]); (197, [229]); (198, [230]); (199, [231]); (200, [232]);
   (201, [233]); (202, [234]); (203, [235]); (204, [236]); (205, [237]);
   (206, [238]); (207, [239]); (208, [240]); (209, [241]); (210, [242]);
   (211, [243]); (212, [244]); (213, [245]); (214, [246]); (216, [248]);
   (217, [249]); (218, [250]); (219, [251]); (220, [252]); (221, [253]);
   (222, [254]); (256, [257]); (258, [259]); (260, [261]); (262, [263]);
   (264, [265]); (266, [267]); (268, [269]); (270, [271]); (272, [273]);
   (274, [275]); (276, [277]); (278, [279]); (280, [281]); (282, [283]);
   (284, [285]); (286, [287]); (288, [289]); (290, [291]); (292, [293]);
   (294, [295]); (296, [297]); (298, [299]); (300, [301]); (302, [303]);
   (304, [105; 775]); (306, [307]); (308, [309]); (310, [311]);
   (313, [314]); (315, [316]); (317, [318]); (319, [320]); (321, [322]);
   (323, [324]); (325, [326]); (327, [328]); (330, [331]); (332, [333]);
   (334, [335]); (336, [337]); (338, [339]); (340, [341]); (342, [343]);
   (344, [345]); (346, [347]); (348, [349]); (350, [351]); (352, [353]);
   (354, [355]); (356, [357]); (358, [359]); (360, [361]); (362, [363]);
   (364, [365]); (366, [367]); (368, [369]); (370, [371]); (372, [373]);
   (374, [375]); (376, [255]); (377, [378]); (379, [380]); (381, [382]);
   (385, [595]); (386, [387]); (388, [389]); (390, [596]); (391, [392]);
   (393, [598]); (394, [599]); (395, [396]); (398, [477]); (399, [601]);
   (400, [603]); (401, [402]); (403, [608]); (404, [611]); (406, [617]);
   (407, [616]); (408, [409]); (412, [623]); (413, [626]); (415, [629]);
   (416, [417]); (418, [419]); (420, [421]); (422, [640]); (423, [424]);
   (425, [643]); (428, [429]); (430, [648]); (431, [432]); (433, [650]);
   (434, [651]); (435, [436]); (437, [438]); (439, [658]); (440, [441]);
   (444, [445]); (452, [454]); (453, [454]); (455, [457]); (456, [457]);
   (458, [460]); (459, [460]); (461, [462]); (463, [464]); (465, [466]);
   (467, [468]); (469, [470]); (471, [472]); (473, [474]); (475, [476]);
   (478, [479]); (480, [481]); (482, [483]); (484, [485]); (486, [487]);
   (488, [489]); (490, [491]); (492, [493]); (494, [495]); (497, [499]);
   (498, [499]); (500, [501]); (502, [405]); (503, [447]); (504, [505]);
   (506, [507]); (508, [509]); (510, [511]); (512, [513]); (514, [515]);
   (516, [517]); (518, [519]); (520, [521]); (522, [523]); (524, [525]);
   (526, [527]); (528, [529]); (530, [531]); (532, [533]); (534, [535]);
   (536, [537]); (538, [539]); (540, [541]); (542, [543]); (544, [414]);
   (546, [547]); (548, [549]); (550, [551]); (552, [553]); (554, [555]);
   (556, [557]); (558, [559]); (560, [561]); (562, [563]); (570, [11365]);
   (571, [572]); (573, [410]); (574, [11366]); (577, [578]); (579, [384]);
   (580, [649]); (581, [652]); (582, [583]); (584, [585]); (586, [587]);
   (588, [589]); (590, [591]); (880, [881]); (882, [883]); (886, [887]);
   (895, [1011]); (902, [940]); (904, [941]); (905, [942]); (906, [943]);
   (908, [972]); (910, [973]); (911, [974]); (913, [945]); (914, [946]);
   (915, [947]); (916, [948]); (917, [949]); (918, [950]); (919, [951]);
   (920, [952]); (921, [953]); (922, [954]); (923, [955]); (924, [956]);
   (925, [957]); (926, [958]); (927, [959]); (928, [960]); (929, [961]);
   (932, [964]); (933, [965]); (934, [966]); (935, [967]); (936, [968]);
   (937, [969]); (938, [970]); (939, [971]); (975, [983]); (984, [985]);
   (986, [987]); (988, [989]); (990, [991]); (992, [993]); (994, [995]);
   (996, [997]); (998, [999]); (1000, [1001]); (1002, [1003]);
   (1004, [1005]); (1006, [1007]); (1012, [952]); (1015, [1016]);
   (1017, [1010]); (1018, [1019]); (1021, [891]); (1022, [892]);
   (1023, [893]); (1024, [1104]); (1025, [1105]); (1026, [1106]);
   (1027, [1107]); (1028, [1108]); (1029, [1109]); (1030, [1110]);
   (1031, [1111]); (1032, [1112]); (1033, [1113]); (1034, [1114]);
   (1035, [1115]); (1036, [1116]); (1037, [1117]); (1038, [1118]);
   (1039, [1119]); (1040, [1072]); (1041, [1073]); (1042, [1074]);
   (1043, [1075]); (1044, [1076]); (1045, [1077]); (1046, [1078]);
   (1047, [1079]); (1048, [1080]); (1049, [1081]); (1050, [1082]);
   (1051, [1083]); (1052, [1084]); (1053, [1085]); (1054, [1086]);
   (1055, [1087]); (1056, [1088]); (1057, [1089]); (1058, [1090]);
   (1059, [1091]); (1060, [1092]); (1061, [1093]); (1062, [1094]);
   (1063, [1095]); (1064, [1096]); (1065, [1097]); (1066, [1098]);
   (1067, [1099]); (1068, [1100]); (1069, [1101]); (1070, [1102]);
   (1071, [1103]); (1120, [1121]); (1122, [1123]); (1124, [1125]);
   (1126, [1127]); (1128, [1129]); (1130, [1131]); (1132, [1133]);
   (1134, [1135]); (1136, [1137]); (1138, [1139]); (1140, [1141]);
   (1142, [1143]); (1144, [1145]); (1146, [1147]); (1148, [1149]);
   (1150, [1151]); (1152, [1153]); (1162, [1163]); (1164, [1165]);
   (1166, [1167]); (1168, [1169]); (1170, [1171]); (1172, [1173]);
   (1174, [1175]); (1176, [1177]); (1178, [1179]); (1180, [1181]);
   (1182, [1183]); (1184, [1185]); (1186, [1187]); (1188, [1189]);
   (1190, [1191]); (1192, [1193]); (1194, [1195]); (1196, [1197]);
   (1198, [1199]); (1200, [1201]); (1202, [1203]); (1204, [1205]);
   (1206, [1207]); (1208, [1209]); (1210, [1211]); (1212, [1213]);
   (1214, [1215]); (1216, [1231]); (1217, [1218]); (1219, [1220]);
   (1221, [1222]); (1223, [1224]); (1225, [1226]); (1227, [1228]);
   (1229, [1230]); (1232, [1233]); (1234, [1235]); (1236, [1237]);
   (1238, [1239]); (1240, [1241]); (1242, [1243]); (1244, [1245]);
   (1246, [1247]); (1248, [1249]); (1250, [1251]); (1252, [1253]);
   (1254, [1255]); (1256, [1257]); (1258, [1259]); (1260, [1261]);
   (1262, [1263]); (1264, [1265]); (1266, [1267]); (1268, [1269]);
   (1270, [1271]); (1272, [1273]); (1274, [1275]); (1276, [1277]);
   (1278, [1279]); (1280, [1281]); (1282, [1283]); (1284, [1285]);
   (1286, [1287]); (1288, [1289]); (1290, [1291]); (1292, [1293]);
   (1294, [1295]); (1296, [1297]); (1298, [1299]); (1300, [1301]);
   (1302, [1303]); (1304, [1305]); (1306, [1307]); (1308, [1309]);
   (1310, [1311]); (1312, [1313]); (1314, [1315]); (1316, [1317]);
   (1318, [1319]); (1320, [1321]); (1322, [1323]); (1324, [1325]);
   (1326, [1327]); (1329, [1377]); (1330, [1378]); (1331, [1379]);
   (1332, [1380]); (1333, [1381]); (1334, [1382]); (1335, [1383]);
   (1336, [1384]); (1337, [1385]); (1338, [1386]); (1339, [1387]);
   (1340, [1388]); (1341, [1389]); (1342, [1390]); (1343, [1391]);
   (1344, [1392]); (1345, [1393]); (1346, [1394]); (1347, [1395]);
   (1348, [1396]); (1349, [1397]); (1350, [1398]); (1351, [1399]);
   (1352, [1400]); (1353, [1401]); (1354, [1402]); (1355, [1403]);
   (1356, [1404]); (1357, [1405]); (1358, [1406]); (1359, [1407]);
   (1360, [1408]); (1361, [1409]); (1362, [1410]); (1363, [1411]);
   (1364, [1412]); (1365, [1413]); (1366, [1414]); (4256, [11520]);
   (4257, [11521]); (4258, [11522]); (4259, [11523]); (4260, [11524]);
   (4261, [11525]); (4262, [11526]); (4263, [11527]); (4264, [11528]);
   (4265, [11529]); (4266, [11530]); (4267, [11531]); (4268, [11532]);
   (4269, [11533]); (4270, [11534]); (4271, [11535]); (4272, [11536]);
   (4273, [11537]); (4274, [11538]); (4275, [11539]); (4276, [11540]);
   (4277, [11541]); (4278, [11542]); (4279, [11543]); (4280, [11544]);
   (4281, [11545]); (4282, [11546]); (4283, [11547]); (4284, [11548]);
   (4285, [11549]); (4286, [11550]); (4287, [11551]); (4288, [11552]);
   (4289, [11553]); (4290, [11554]); (4291, [11555]); (4292, [11556]);
   (4293, [11557]); (4295, [11559]); (4301, [11565]); (5024, [43888]);
   (5025, [43889]); (5026, [43890]); (5027, [43891]); (5028, [43892]);
   (5029, [43893]); (5030, [43894]); (5031, [43895]); (5032, [43896]);
   (5033, [43897]); (5034, [43898]); (5035, [43899]); (5036, [43900]);
   (5037, [43901]); (5038, [43902]); (5039, [43903]); (5040, [43904]);
   (5041, [43905]); (5042, [43906]); (5043, [43907]); (5044, [43908]);
   (5045, [43909]); (5046, [43910]); (5047, [43911]); (5048, [43912]);
   (5049, [43913]); (5050, [43914]); (5051, [43915]); (5052, [43916]);
   (5053, [43917]); (5054, [43918]); (5055, [43919]); (5056, [43920]);
   (5057, [43921]); (5058, [43922]); (5059, [43923]); (5060, [43924]);
   (5061, [43925]); (5062, [43926]); (5063, [43927]); (5064, [43928]);
   (5065, [43929]); (5066, [43930]); (5067, [43931]); (5068, [43932]);
   (5069, [43933]); (5070, [43934]); (5071, [43935]); (5072, [43936]);
   (5073, [43937]); (5074, [43938]); (5075, [43939]); (5076, [43940]);
   (5077, [43941]); (5078, [43942]); (5079, [43943]); (5080, [43944]);
   (5081, [43945]); (5082, [43946]); (5083, [43947]); (5084, [43948]);
   (5085, [43949]); (5086, [43950]); (5087, [43951]); (5088, [43952]);
   (5089, [43953]); (5090, [43954]); (5091, [43955]); (5092, [43956]);
   (5093, [43957]); (5094, [43958]); (5095, [43959]); (5096, [43960]);
   (5097, [43961]); (5098, [43962]); (5099, [43963]); (5100, [43964]);
   (5101, [43965]); (5102, [43966]); (5103, [43967]); (5104, [5112]);
   (5105, [5113]); (5106, [5114]); (5107, [5115]); (5108, [5116]);
   (5109, [5117]); (7312, [4304]); (7313, [4305]); (7314, [4306]);
   (7315, [4307]); (7316, [4308]); (7317, [4309]); (7318, [4310]);
   (7319, [4311]); (7320, [4312]); (7321, [4313]); (7322, [4314]);
   (7323, [4315]); (7324, [4316]); (7325, [4317]); (7326, [4318]);
   (7327, [4319]); (7328, [4320]); (7329, [4321]); (7330, [4322]);
   (7331, [4323]); (7332, [4324]); (7333, [4325]); (7334, [4326]);
   (7335, [4327]); (7336, [4328]); (7337, [4329]); (7338, [4330]);
   (7339, [4331]); (7340, [4332]); (7341, [4333]); (7342, [4334]);
   (7343, [4335]); (7344, [4336]); (7345, [4337]); (7346, [4338]);
   (7347, [4339]); (7348, [4340]); (7349, [4341]); (7350, [4342]);
   (7351, [4343]); (7352, [4344]); (7353, [4345]); (7354, [4346]);
   (7357, [4349]); (7358, [4350]); (7359, [4351]); (7680, [7681]);
   (7682, [7683]); (7684, [7685]); (7686, [7687]); (7688, [7689]);
   (7690, [7691]); (7692, [7693]); (7694, [7695]); (7696, [7697]);
   (7698, [7699]); (7700, [7701]); (7702, [7703]); (7704, [7705]);
   (7706, [7707]); (7708, [7709]); (7710, [7711]); (7712, [7713]);
   (7714, [7715]); (7716, [7717]); (7718, [7719]); (7720, [7721]);
   (7722, [7723]); (7724, [7725]); (7726, [7727]); (7728, [7729]);
   (7730, [7731]); (7732, [7733]); (7734, [7735]); (7736, [7737]);
   (7738, [7739]); (7740, [7741]); (7742, [7743]); (7744, [7745]);
   (7746, [7747]); (7748, [7749]); (7750, [7751]); (7752, [7753]);
   (7754, [7755]); (7756, [7757]); (7758, [7759]); (7760, [7761]);
   (7762, [7763]); (7764, [7765]); (7766, [7767]); (7768, [7769]);
   (7770, [7771]); (7772, [7773]); (7774, [7775]); (7776, [7777]);
   (7778, [7779]); (7780, [7781]); (7782, [7783]); (7784, [7785]);
   (7786, [7787]); (7788, [7789]); (7790, [7791]); (7792, [7793]);
   (7794, [7795]); (7796, [7797]); (7798, [7799]); (7800, [7801]);
   (7802, [7803]); (7804, [7805]); (7806, [7807]); (7808, [7809]);
   (7810, [7811]); (7812, [7813]); (7814, [7815]); (7816, [7817]);
   (7818, [7819]); (7820, [7821]); (7822, [7823]); (7824, [7825]);
   (7826, [7827]); (7828, [7829]); (7838, [223]); (7840, [7841]);
   (7842, [7843]); (7844, [7845]); (7846, [7847]); (7848, [7849]);
   (7850, [7851]); (7852, [7853]); (7854, [7855]); (7856, [7857]);
   (7858, [7859]); (7860, [7861]); (7862, [7863]); (7864, [7865]);
   (7866, [7867]); (7868, [7869]); (7870, [7871]); (7872, [7873]);
   (7874, [7875]); (7876, [7877]); (7878, [7879]); (7880, [7881]);
   (7882, [7883]); (7884, [7885]); (7886, [7887]); (7888, [7889]);
   (7890, [7891]); (7892, [7893]); (7894, [7895]); (7896, [7897]);
   (7898, [7899]); (7900, [7901]); (7902, [7903]); (7904, [7905]);
   (7906, [7907]); (7908, [7909]); (7910, [7911]); (7912, [7913]);
   (7914, [7915]); (7916, [7917]); (7918, [7919]); (7920, [7921]);
   (7922, [7923]); (7924, [7925]); (7926, [7927]); (7928, [7929]);
   (7930, [7931]); (7932, [7933]); (7934, [7935]); (7944, [7936]);
   (7945, [7937]); (7946, [7938]); (7947, [7939]); (7948, [7940]);
   (7949, [7941]); (7950, [7942]); (7951, [7943]); (7960, [7952]);
   (7961, [7953]); (7962, [7954]); (7963, [7955]); (7964, [7956]);
   (7965, [7957]); (7976, [7968]); (7977, [7969]); (7978, [7970]);
   (7979, [7971]); (7980, [7972]); (7981, [7973]); (7982, [7974]);
   (7983, [7975]); (7992, [7984]); (7993, [7985]); (7994, [7986]);
   (7995, [7987]); (7996, [7988]); (7997, [7989]); (7998, [7990]);
   (7999, [7991]); (8008, [8000]); (8009, [8001]); (8010, [8002]);
   (8011, [8003]); (8012, [8004]); (8013, [8005]); (8025, [8017]);
   (8027, [8019]); (8029, [8021]); (8031, [8023]); (8040, [8032]);
   (8041, [8033]); (8042, [8034]); (8043, [8035]); (8044, [8036]);
   (8045, [8037]); (8046, [8038]); (8047, [8039]); (8072, [8064]);
   (8073, [8065]); (8074, [8066]); (8075, [8067]); (8076, [8068]);
   (8077, [8069]); (8078, [8070]); (8079, [8071]); (8088, [8080]);
   (8089, [8081]); (8090, [8082]); (8091, [8083]); (8092, [8084]);
   (8093, [8085]); (8094, [8086]); (8095, [8087]); (8104, [8096]);
   (8105, [8097]); (8106, [8098]); (8107, [8099]); (8108, [8100]);
   (8109, [8101]); (8110, [8102]); (8111, [8103]); (8120, [8112]);
   (8121, [8113]); (8122, [8048]); (8123, [8049]); (8124, [8115]);
   (8136, [8050]); (8137, [8051]); (8138, [8052]); (8139, [8053]);
   (8140, [8131]); (8152, [8144]); (8153, [8145]); (8154, [8054]);
   (8155, [8055]); (8168, [8160]); (8169, [8161]); (8170, [8058]);
   (8171, [8059]); (8172, [8165]); (8184, [8056]); (8185, [8057]);
   (8186, [8060]); (8187, [8061]); (8188, [8179]); (8486, [969]);
   (8490, [107]); (8491, [229]); (8498, [8526]); (8544, [8560]);
   (8545, [8561]); (8546, [8562]); (8547, [8563]); (8548, [8564]);
   (8549, [8565]); (8550, [8566]); (8551, [8567]); (8552, [8568]);
   (8553, [8569]); (8554, [8570]); (8555, [8571]); (8556, [8572]);
   (8557, [8573]); (8558, [8574]); (8559, [8575]); (8579, [8580]);
   (9398, [9424]); (9399, [9425]); (9400, [9426]); (9401, [9427]);
   (9402, [9428]); (9403, [9429]); (9404, [9430]); (9405, [9431]);
   (9406, [9432]); (9407, [9433]); (9408, [9434]); (9409, [9435]);
   (9410, [9436]); (9411, [9437]); (9412, [9438]); (9413, [9439]);
   (9414, [9440]); (9415, [9441]); (9416, [9442]); (9417, [9443]);
   (9418, [9444]); (9419, [9445]); (9420, [9446]); (9421, [9447]);
   (9422, [9448]); (9423, [9449]); (11264, [11312]); (11265, [11313]);
   (11266, [11314]); (11267, [11315]); (11268, [11316]); (11269, [11317]);
   (11270, [11318]); (11271, [11319]); (11272, [11320]); (11273, [11321]);
   (11274, [11322]); (11275, [11323]); (11276, [11324]); (11277, [11325]);
   (11278, [11326]); (11279, [11327]); (11280, [11328]); (11281, [11329]);
   (11282, [11330]); (11283, [11331]); (11284, [11332]); (11285, [11333]);
   (11286, [11334]); (11287, [11335]); (11288, [11336]); (11289, [11337]);
   (11290, [11338]); (11291, [11339]); (11292, [11340]); (11293, [11341]);
   (11294, [11342]); (11295, [11343]); (11296, [11344]); (11297, [11345]);
   (11298, [11346]); (11299, [11347]); (11300, [11348]); (11301, [11349]);
   (11302, [11350]); (11303, [11351]); (11304, [11352]); (11305, [11353]);
   (11306, [11354]); (11307, [11355]); (11308, [11356]); (11309, [11357]);
   (11310, [11358]); (11311, [11359]); (11360, [11361]); (11362, [619]);
   (11363, [7549]); (11364, [637]); (11367, [11368]); (11369, [11370]);
   (11371, [11372]); (11373, [593]); (11374, [625]); (11375, [592]);
   (11376, [594]); (11378, [11379]); (11381, [11382]); (11390, [575]);
   (11391, [576]); (11392, [11393]); (11394, [11395]); (11396, [11397]);
   (11398, [11399]); (11400, [11401]); (11402, [11403]); (11404, [11405]);
   (11406, [11407]); (11408, [11409]); (11410, [11411]); (11412, [11413]);
   (11414, [11415]); (11416, [11417]); (11418, [11419]); (11420, [11421]);
   (11422, [11423]); (11424, [11425]); (11426, [11427]); (11428, [11429]);
   (11430, [11431]); (11432, [11433]); (11434, [11435]); (11436, [11437]);
   (11438, [11439]); (11440, [11441]); (11442, [11443]); (11444, [11445]);
   (11446, [11447]); (11448, [11449]); (11450, [11451]); (11452, [11453]);
   (11454, [11455]); (11456, [11457]); (11458, [11459]); (11460, [11461]);
   (11462, [11463]); (11464, [11465]); (11466, [11467]); (11468, [11469]);
   (11470, [11471]); (11472, [11473]); (11474, [11475]); (11476, [11477]);
   (11478, [11479]); (11480, [11481]); (11482, [11483]); (11484, [11485]);
   (11486, [11487]); (11488, [11489]); (11490, [11491]); (11499, [11500]);
   (11501, [11502]); (11506, [11507]); (42560, [42561]); (42562, [42563]);
   (42564, [42565]); (42566, [42567]); (42568, [42569]); (42570, [42571]);
   (42572, [42573]); (42574, [42575]); (42576, [42577]); (42578, [42579]);
   (42580, [42581]); (42582, [42583]); (42584, [42585]); (42586, [42587]);
   (42588, [42589]); (42590, [42591]); (42592, [42593]); (42594, [42595]);
   (42596, [42597]); (42598, [42599]); (42600, [42601]); (42602, [42603]);
   (42604, [42605]); (42624, [42625]); (42626, [42627]); (42628, [42629]);
   (42630, [42631]); (42632, [42633]); (42634, [42635]); (42636, [42637]);
   (42638, [42639]); (42640, [42641]); (42642, [42643]); (42644, [42645]);
   (42646, [42647]); (42648, [42649]); (42650, [42651]); (42786, [42787]);
   (42788, [42789]); (42790, [42791]); (42792, [42793]); (42794, [42795]);
   (42796, [42797]); (42798, [42799]); (42802, [42803]); (42804, [42805]);
   (42806, [42807]); (42808, [42809]); (42810, [42811]); (42812, [42813]);
   (42814, [42815]); (42816, [42817]); (42818, [42819]); (42820, [42821]);
   (42822, [42823]); (42824, [42825]); (42826, [42827]); (42828, [42829]);
   (42830, [42831]); (42832, [42833]); (42834, [42835]); (42836, [42837]);
   (42838, [42839]); (42840, [42841]); (42842, [42843]); (42844, [42845]);
   (42846, [42847]); (42848, [42849]); (42850, [42851]); (42852, [42853]);
   (42854, [42855]); (42856, [42857]); (42858, [42859]); (42860, [42861]);
   (42862, [42863]); (42873, [42874]); (42875, [42876]); (42877, [7545]);
   (42878, [42879]); (42880, [42881]); (42882, [42883]); (42884, [42885]);
   (42886, [42887]); (42891, [42892]); (42893, [613]); (42896, [42897]);
   (42898, [42899]); (42902, [42903]); (42904, [42905]); (42906, [42907]);
   (42908, [42909]); (42910, [42911]); (42912, [42913]); (42914, [42915]);
   (42916, [42917]); (42918, [42919]); (42920, [42921]); (42922, [614]);
   (42923, [604]); (42924, [609]); (42925, [620]); (42926, [618]);
   (42928, [670]); (42929, [647]); (42930, [669]); (42931, [43859]);
   (42932, [42933]); (42934, [42935]); (42936, [42937]); (42938, [42939]);
   (42940, [42941]); (42942, [42943]); (42944, [42945]); (42946, [42947]);
   (42948, [42900]); (42949, [642]); (42950, [7566]); (42951, [42952]);
   (42953, [42954]); (42960, [42961]); (42966, [42967]); (42968, [42969]);
   (42997, [42998]); (65313, [65345]); (65314, [65346]); (65315, [65347]);
   (65316, [65348]); (65317, [65349]); (65318, [65350]); (65319, [65351]);
   (65320, [65352]); (65321, [65353]); (65322, [65354]); (65323, [65355]);
   (65324, [65356]); (65325, [65357]); (65326, [65358]); (65327, [65359]);
   (65328, [65360]); (65329, [65361]); (65330, [65362]); (65331, [65363]);
   (65332, [65364]); (65333, [65365]); (65334, [65366]); (65335, [65367]);
   (65336, [65368]); (65337, [65369]); (65338, [65370]); (66560, [66600]);
   (66561, [66601]); (66562, [66602]); (66563, [66603]); (66564, [66604]);
   (66565, [66605]); (66566, [66606]); (66567, [66607]); (66568, [66608]);
   (66569, [66609]); (66570, [66610]); (66571, [66611]); (66572, [66612]);
   (66573, [66613]); (66574, [66614]); (66575, [66615]); (66576, [66616]);
   (66577, [66617]); (66578, [66618]); (66579, [66619]); (66580, [66620]);
   (66581, [66621]); (66582, [66622]); (66583, [66623]); (66584, [66624]);
   (66585, [66625]); (66586, [66626]); (66587, [66627]); (66588, [66628]);
   (66589, [66629]); (66590, [66630]); (66591, [66631]); (66592, [66632]);
   (66593, [66633]); (66594, [66634]); (66595, [66635]); (66596, [66636]);
   (66597, [66637]); (66598, [66638]); (66599, [66639]); (66736, [66776]);
   (66737, [66777]); (66738, [66778]); (66739, [66779]); (66740, [66780]);
   (66741, [66781]); (66742, [66782]); (66743, [66783]); (66744, [66784]);
   (66745, [66785]); (66746, [66786]); (66747, [66787]); (66748, [66788]);
   (66749, [66789]); (66750, [66790]); (66751, [66791]); (66752, [66792]);
   (66753, [66793]); (66754, [66794]); (66755, [66795]); (66756, [66796]);
   (66757, [66797]); (66758, [66798]); (66759, [66799]); (66760, [66800]);
   (66761, [66801]); (66762, [66802]); (66763, [66803]); (66764, [66804]);
   (66765, [66805]); (66766, [66806]); (66767, [66807]); (66768, [66808]);
   (66769, [66809]); (66770, [66810]); (66771, [66811]); (66928, [66967]);
   (66929, [66968]); (66930, [66969]); (66931, [66970]); (66932, [66971]);
   (66933, [66972]); (66934, [66973]); (66935, [66974]); (66936, [66975]);
   (66937, [66976]); (66938, [66977]); (66940, [66979]); (66941, [66980]);
   (66942, [66981]); (66943, [66982]); (66944, [66983]); (66945, [66984]);
   (66946, [66985]); (66947, [66986]); (66948, [66987]); (66949, [66988]);
   (66950, [66989]); (66951, [66990]); (66952, [66991]); (66953, [66992]);
   (66954, [66993]); (66956, [66995]); (66957, [66996]); (66958, [66997]);
   (66959, [66998]); (66960, [66999]); (66961, [67000]); (66962, [67001]);
   (66964, [67003]); (66965, [67004]); (68736, [68800]); (68737, [68801]);
   (68738, [68802]); (68739, [68803]); (68740, [68804]); (68741, [68805]);
   (68742, [68806]); (68743, [68807]); (68744, [68808]); (68745, [68809]);
   (68746, [68810]); (68747, [68811]); (68748, [68812]); (68749, [68813]);
   (68750, [68814]); (68751, [68815]); (68752, [68816]); (68753, [68817]);
   (68754, [68818]); (68755, [68819]); (68756, [68820]); (68757, [68821]);
   (68758, [68822]); (68759, [68823]); (68760, [68824]); (68761, [68825]);
   (68762, [68826]); (68763, [68827]); (68764, [68828]); (68765, [68829]);
   (68766, [68830]); (68767, [68831]); (68768, [68832]); (68769, [68833]);
   (68770, [68834]); (68771, [68835]); (68772, [68836]); (68773, [68837]);
   (68774, [68838]); (68775, [68839]); (68776, [68840]); (68777, [68841]);
   (68778, [68842]); (68779, [68843]); (68780, [68844]); (68781, [68845]);
   (68782, [68846]); (68783, [68847]); (68784, [68848]); (68785, [68849]);
   (68786, [68850]); (71840, [71872]); (71841, [71873]); (71842, [71874]);
   (71843, [71875]); (71844, [71876]); (71845, [71877]); (71846, [71878]);
   (71847, [71879]); (71848, [71880]); (71849, [71881]); (71850, [71882]);
   (71851, [71883]); (71852, [71884]); (71853, [71885]); (71854, [71886]);
   (71855, [71887]); (71856, [71888]); (71857, [71889]); (71858, [71890]);
   (71859, [71891]); (71860, [71892]); (71861, [71893]); (71862, [71894]);
   (71863, [71895]); (71864, [71896]); (71865, [71897]); (71866, [71898]);
   (71867, [71899]); (71868, [71900]); (71869, [71901]); (71870, [71902]);
   (71871, [71903]); (93760, [93792]); (93761, [93793]); (93762, [93794]);
   (93763, [93795]); (93764, [93796]); (93765, [93797]); (93766, [93798]);
   (93767, [93799]); (93768, [93800]); (93769, [93801]); (93770, [93802]);
   (93771, [93803]); (93772, [93804]); (93773, [93805]); (93774, [93806]);
   (93775, [93807]); (93776, [93808]); (93777, [93809]); (93778, [93810]);
   (93779, [93811]); (93780, [93812]); (93781, [93813]); (93782, [93814]);
   (93783, [93815]); (93784, [93816]); (93785, [93817]); (93786, [93818]);
   (93787, [93819]); (93788, [93820]); (93789, [93821]); (93790, [93822]);
   (93791, [93823]); (125184, [125218]); (125185, [125219]);
   (125186, [125220]); (125187, [125221]); (125188, [125222]);
   (125189, [125223]); (125190, [125224]); (125191, [125225]);
   (125192, [125226]); (125193, [125227]); (125194, [125228]);
   (125195, [125229]); (125196, [125230]); (125197, [125231]);
   (125198, [125232]); (125199, [125233]); (125200, [125234]);
   (125201, [125235]); (125202, [125236]); (125203, [125237]);
   (125204, [125238]); (125205, [125239]); (125206, [125240]);
   (125207, [125241]); (125208, [125242]); (125209, [125243]);
   (125210, [125244]); (125211, [125245]); (125212, [125246]);
   (125213, [125247]); (125214, [125248]); (125215, [125249]);
   (125216, [125250]); (125217, [125251])
  ].

(** The full title-case mapping, which [str.capitalize] applies to the first
    character, for the characters it changes. *)
Definition titlecase : list (N * list N) :=
  [
   (97, [65]); (98, [66]); (99, [67]); (100, [68]); (101, [69]);
   (102, [70]); (103, [71]); (104, [72]); (105, [73]); (106, [74]);
   (107, [75]); (108, [76]); (109, [77]); (110, [78]); (111, [79]);
   (112, [80]); (113, [81]); (114, [82]); (115, [83]); (116, [84]);
   (117, [85]); (118, [86]); (119, [87]); (120, [88]); (121, [89]);
   (122, [90]); (181, [924]); (223, [83; 115]); (224, [192]); (225, [193]);
   (226, [194]); (227, [195]); (228, [196]); (229, [197]); (230, [198]);
   (231, [199]); (232, [200]); (233, [201]); (234, [202]); (235, [203]);
   (236, [204]); (237, [205]); (238, [206]); (239, [207]); (240, [208]);
   (241, [209]); (242, [210]); (243, [211]); (244, [212]); (245, [213]);
   (246, [214]); (248, [216]); (249, [217]); (250, [218]); (251, [219]);
   (252, [220]); (253, [221]); (254, [222]); (255, [376]); (257, [256]);
   (259, [258]); (261, [260]); (263, [262]); (265, [264]); (267, [266]);
   (269, [268]); (271, [270]); (273, [272]); (275, [274]); (277, [276]);
   (279, [278]); (281, [280]); (283, [282]); (285, [284]); (287, [286]);
   (289, [288]); (291, [290]); (293, [292]); (295, [294]); (297, [296]);
   (299, [298]); (301, [300]); (303, [302]); (305, [73]); (307, [306]);
   (309, [308]); (311, [310]); (314, [313]); (316, [315]); (318, [317]);
   (320, [319]); (322, [321]); (324, [323]); (326, [325]); (328, [327]);
   (329, [700; 78]); (331, [330]); (333, [332]); (335, [334]); (337, [336]);
   (339, [338]); (341, [340]); (343, [342]); (345, [344]); (347, [346]);
   (349, [348]); (351, [350]); (353, [352]); (355, [354]); (357, [356]);
   (359, [358]); (361, [360]); (363, [362]); (365, [364]); (367, [366]);
   (369, [368]); (371, [370]); (373, [372]); (375, [374]); (378, [377]);
   (380, [379]); (382, [381]); (383, [83]); (384, [579]); (387, [386]);
   (389, [388]); (392, [391]); (396, [395]); (402, [401]); (405, [502]);
   (409, [408]); (410, [573]); (414, [544]); (417, [416]); (419, [418]);
   (421, [420]); (424, [423]); (429, [428]); (432, [431]); (436, [435]);
   (438, [437]); (441, [440]); (445, [444]); (447, [503]); (452, [453]);
   (454, [453]); (455, [456]); (457, [456]); (458, [459]); (460, [459]);
   (462, [461]); (464, [463]); (466, [465]); (468, [467]); (470, [469]);
   (472, [471]); (474, [473]); (476, [475]); (477, [398]); (479, [478]);
   (481, [480]); (483, [482]); (485, [484]); (487, [486]); (489, [488]);
   (491, [490]); (493, [492]); (495, [494]); (496, [74; 780]); (497, [498]);
   (499, [498]); (501, [500]); (505, [504]); (507, [506]); (509, [508]);
   (511, [510]); (513, [512]); (515, [514]); (517, [516]); (519, [518]);
   (521, [520]); (523, [522]); (525, [524]); (527, [526]); (529, [528]);
   (531, [530]); (533, [532]); (535, [534]); (537, [536]); (539, [538]);
   (541, [540]); (543, [542]); (547, [546]); (549, [548]); (551, [550]);
   (553, [552]); (555, [554]); (557, [556]); (559, [558]); (561, [560]);
   (563, [562]); (572, [571]); (575, [11390]); (576, [11391]); (578, [577]);
   (583, [582]); (585, [584]); (587, [586]); (589, [588]); (591, [590]);
   (592, [11375]); (593, [11373]); (594, [11376]); (595, [385]);
   (596, [390]); (598, [393]); (599, [394]); (601, [399]); (603, [400]);
   (604, [42923]); (608, [403]); (609, [42924]); (611, [404]);
   (613, [42893]); (614, [42922]); (616, [407]); (617, [406]);
   (618, [42926]); (619, [11362]); (620, [42925]); (623, [412]);
   (625, [11374]); (626, [413]); (629, [415]); (637, [11364]); (640, [422]);
   (642, [42949]); (643, [425]); (647, [42929]); (648, [430]); (649, [580]);
   (650, [433]); (651, [434]); (652, [581]); (658, [439]); (669, [42930]);
   (670, [42928]); (837, [921]); (881, [880]); (883, [882]); (887, [886]);
   (891, [1021]); (892, [1022]); (893, [1023]); (912, [921; 776; 769]);
   (940, [902]); (941, [904]); (942, [905]); (943, [906]);
   (944, [933; 776; 769]); (945, [913]); (946, [914]); (947, [915]);
   (948, [916]); (949, [917]); (950, [918]); (951, [919]); (952, [920]);
   (953, [921]); (954, [922]); (955, [923]); (956, [924]); (957, [925]);
   (958, [926]); (959, [927]); (960, [928]); (961, [929]); (962, [931]);
   (963, [931]); (964, [932]); (965, [933]); (966, [934]); (967, [935]);
   (968, [936]); (969, [937]); (970, [938]); (971, [939]); (972, [908]);
   (973, [910]); (974, [911]); (976, [914]); (977, [920]); (981, [934]);
   (982, [928]); (983, [975]); (985, [984]); (987, [986]); (989, [988]);
   (991, [990]); (993, [992]); (995, [994]); (997, [996]); (999, [998]);
   (1001, [1000]); (1003, [1002]); (1005, [1004]); (1007, [1006]);
   (1008, [922]); (1009, [929]); (1010, [1017]); (1011, [895]);
   (1013, [917]); (1016, [1015]); (1019, [1018]); (1072, [1040]);
   (1073, [1041]); (1074, [1042]); (1075, [1043]); (1076, [1044]);
   (1077, [1045]); (1078, [1046]); (1079, [1047]); (1080, [1048]);
   (1081, [1049]); (1082, [1050]); (1083, [1051]); (1084, [1052]);
   (1085, [1053]); (1086, [1054]); (1087, [1055]); (1088, [1056]);
   (1089, [1057]); (1090, [1058]); (1091, [1059]); (1092, [1060]);
   (1093, [1061]); (1094, [1062]); (1095, [1063]); (1096, [1064]);
   (1097, [1065]); (1098, [1066]); (1099, [1067]); (1100, [1068]);
   (1101, [1069]); (1102, [1070]); (1103, [1071]); (1104, [1024]);
   (1105, [1025]); (1106, [1026]); (1107, [1027]); (1108, [1028]);
   (1109, [1029]); (1110, [1030]); (1111, [1031]); (1112, [1032]);
   (1113, [1033]); (1114, [1034]); (1115, [1035]); (1116, [1036]);
   (1117, [1037]); (1118, [1038]); (1119, [1039]); (1121, [1120]);
   (1123, [1122]); (1125, [1124]); (1127, [1126]); (1129, [1128]);
   (1131, [1130]); (1133, [1132]); (1135, [1134]); (1137, [1136]);
   (1139, [1138]); (1141, [1140]); (1143, [1142]); (1145, [1144]);
   (1147, [1146]); (1149, [1148]); (1151, [1150]); (1153, [1152]);
   (1163, [1162]); (1165, [1164]); (1167, [1166]); (1169, [1168]);
   (1171, [1170]); (1173, [1172]); (1175, [1174]); (1177, [1176]);
   (1179, [1178]); (1181, [1180]); (1183, [1182]); (1185, [1184]);
   (1187, [1186]); (1189, [1188]); (1191, [1190]); (1193, [1192]);
   (1195, [1194]); (1197, [1196]); (1199, [1198]); (1201, [1200]);
   (1203, [1202]); (1205, [1204]); (1207, [1206]); (1209, [1208]);
   (1211, [1210]); (1213, [1212]); (1215, [1214]); (1218, [1217]);
   (1220, [1219]); (1222, [1221]); (1224, [1223]); (1226, [1225]);
   (1228, [1227]); (1230, [1229]); (1231, [1216]); (1233, [1232]);
   (1235, [1234]); (1237, [1236]); (1239, [1238]); (1241, [1240]);
   (1243, [1242]); (1245, [1244]); (1247, [1246]); (1249, [1248]);
   (1251, [1250]); (1253, [1252]); (1255, [1254]); (1257, [1256]);
   (1259, [1258]); (1261, [1260]); (1263, [1262]); (1265, [1264]);
   (1267, [1266]); (1269, [1268]); (1271, [1270]); (1273, [1272]);
   (1275, [1274]); (1277, [1276]); (1279, [1278]); (1281, [1280]);
   (1283, [1282]); (1285, [1284]); (1287, [1286]); (1289, [1288]);
   (1291, [1290]); (1293, [1292]); (1295, [1294]); (1297, [1296]);
   (1299, [1298]); (1301, [1300]); (1303, [1302]); (1305, [1304]);
   (1307, [1306]); (1309, [1308]); (1311, [1310]); (1313, [1312]);
   (1315, [1314]); (1317, [1316]); (1319, [1318]); (1321, [1320]);
   (1323, [1322]); (1325, [1324]); (1327, [1326]); (1377, [1329]);
   (1378, [1330]); (1379, [1331]); (1380, [1332]); (1381, [1333]);
   (1382, [1334]); (1383, [1335]); (1384, [1336]); (1385, [1337]);
   (1386, [1338]); (1387, [1339]); (1388, [1340]); (1389, [1341]);
   (1390, [1342]); (1391, [1343]); (1392, [1344]); (1393, [1345]);
   (1394, [1346]); (1395, [1347]); (1396, [1348]); (1397, [1349]);
   (1398, [1350]); (1399, [1351]); (1400, [1352]); (1401, [1353]);
   (1402, [1354]); (1403, [1355]); (1404, [1356]); (1405, [1357]);
   (1406, [1358]); (1407, [1359]); (1408, [1360]); (1409, [1361]);
   (1410, [1362]); (1411, [1363]); (1412, [1364]); (1413, [1365]);
   (1414, [1366]); (1415, [1333; 1410]); (5112, [5104]); (5113, [5105]);
   (5114, [5106]); (5115, [5107]); (5116, [5108]); (5117, [5109]);
   (7296, [1042]); (7297, [1044]); (7298, [1054]); (7299, [1057]);
   (7300, [1058]); (7301, [1058]); (7302, [1066]); (7303, [1122]);
   (7304, [42570]); (7545, [42877]); (7549, [11363]); (7566, [42950]);
   (7681, [7680]); (7683, [7682]); (7685, [7684]); (7687, [7686]);
   (7689, [7688]); (7691, [7690]); (7693, [7692]); (7695, [7694]);
   (7697, [7696]); (7699, [7698]); (7701, [7700]); (7703, [7702]);
   (7705, [7704]); (7707, [7706]); (7709, [7708]); (7711, [7710]);
   (7713, [7712]); (7715, [7714]); (7717, [7716]); (7719, [7718]);
   (7721, [7720]); (7723, [7722]); (7725, [7724]); (7727, [7726]);
   (7729, [7728]); (7731, [7730]); (7733, [7732]); (7735, [7734]);
   (7737, [7736]); (7739, [7738]); (7741, [7740]); (7743, [7742]);
   (7745, [7744]); (7747, [7746]); (7749, [7748]); (7751, [7750]);
   (7753, [7752]); (7755, [7754]); (7757, [7756]); (7759, [7758]);
   (7761, [7760]); (7763, [7762]); (7765, [7764]); (7767, [7766]);
   (7769, [7768]); (7771, [7770]); (7773, [7772]); (7775, [7774]);
   (7777, [7776]); (7779, [7778]); (7781, [7780]); (7783, [7782]);
   (7785, [7784]); (7787, [7786]); (7789, [7788]); (7791, [7790]);
   (7793, [7792]); (7795, [7794]); (7797, [7796]); (7799, [7798]);
   (7801, [7800]); (7803, [7802]); (7805, [7804]); (7807, [7806]);
   (7809, [7808]); (7811, [7810]); (7813, [7812]); (7815, [7814]);
   (7817, [7816]); (7819, [7818]); (7821, [7820]); (7823, [7822]);
   (7825, [7824]); (7827, [7826]); (7829, [7828]); (7830, [72; 817]);
   (7831, [84; 776]); (7832, [87; 778]); (7833, [89; 778]);
   (7834, [65; 702]); (7835, [7776]); (7841, [7840]); (7843, [7842]);
   (7845, [7844]); (7847, [7846]); (7849, [7848]); (7851, [7850]);
   (7853, [7852]); (7855, [7854]); (7857, [7856]); (7859, [7858]);
   (7861, [7860]); (7863, [7862]); (7865, [7864]); (7867, [7866]);
   (7869, [7868]); (7871, [7870]); (7873, [7872]); (7875, [7874]);
   (7877, [7876]); (7879, [7878]); (7881, [7880]); (7883, [7882]);
   (7885, [7884]); (7887, [7886]); (7889, [7888]); (7891, [7890]);
   (7893, [7892]); (7895, [7894]); (7897, [7896]); (7899, [7898]);
   (7901, [7900]); (7903, [7902]); (7905, [7904]); (7907, [7906]);
   (7909, [7908]); (7911, [7910]); (7913, [7912]); (7915, [7914]);
   (7917, [7916]); (7919, [7918]); (7921, [7920]); (7923, [7922]);
   (7925, [7924]); (7927, [7926]); (7929, [7928]); (7931, [7930]);
   (7933, [7932]); (7935, [7934]); (7936, [7944]); (7937, [7945]);
   (7938, [7946]); (7939, [7947]); (7940, [7948]); (7941, [7949]);
   (7942, [7950]); (7943, [7951]); (7952, [7960]); (7953, [7961]);
   (7954, [7962]); (7955, [7963]); (7956, [7964]); (7957, [7965]);
   (7968, [7976]); (7969, [7977]); (7970, [7978]); (7971, [7979]);
   (7972, [7980]); (7973, [7981]); (7974, [7982]); (7975, [7983]);
   (7984, [7992]); (7985, [7993]); (7986, [7994]); (7987, [7995]);
   (7988, [7996]); (7989, [7997]); (7990, [7998]); (7991, [7999]);
   (8000, [8008]); (8001, [8009]); (8002, [8010]); (8003, [8011]);
   (8004, [8012]); (8005, [8013]); (8016, [933; 787]); (8017, [8025]);
   (8018, [933; 787; 768]); (8019, [8027]); (8020, [933; 787; 769]);
   (8021, [8029]); (8022, [933; 787; 834]); (8023, [8031]); (8032, [8040]);
   (8033, [8041]); (8034, [8042]); (8035, [8043]); (8036, [8044]);
   (8037, [8045]); (8038, [8046]); (8039, [8047]); (8048, [8122]);
   (8049, [8123]); (8050, [8136]); (8051, [8137]); (8052, [8138]);
   (8053, [8139]); (8054, [8154]); (8055, [8155]); (8056, [8184]);
   (8057, [8185]); (8058, [8170]); (8059, [8171]); (8060, [8186]);
   (8061, [8187]); (8064, [8072]); (8065, [8073]); (8066, [8074]);
   (8067, [8075]); (8068, [8076]); (8069, [8077]); (8070, [8078]);
   (8071, [8079]); (8080, [8088]); (8081, [8089]); (8082, [8090]);
   (8083, [8091]); (8084, [8092]); (8085, [8093]); (8086, [8094]);
   (8087, [8095]); (8096, [8104]); (8097, [8105]); (8098, [8106]);
   (8099, [8107]); (8100, [8108]); (8101, [8109]); (8102, [8110]);
   (8103, [8111]); (8112, [8120]); (8113, [8121]); (8114, [8122; 837]);
   (8115, [8124]); (8116, [902; 837]); (8118, [913; 834]);
   (8119, [913; 834; 837]); (8126, [921]); (8130, [8138; 837]);
   (8131, [8140]); (8132, [905; 837]); (8134, [919; 834]);
   (8135, [919; 834; 837]); (8144, [8152]); (8145, [8153]);
   (8146, [921; 776; 768]); (8147, [921; 776; 769]); (8150, [921; 834]);
   (8151, [921; 776; 834]); (8160, [8168]); (8161, [8169]);
   (8162, [933; 776; 768]); (8163, [933; 776; 769]); (8164, [929; 787]);
   (8165, [8172]); (8166, [933; 834]); (8167, [933; 776; 834]);
   (8178, [8186; 837]); (8179, [8188]); (8180, [911; 837]);
   (8182, [937; 834]); (8183, [937; 834; 837]); (8526, [8498]);
   (8560, [8544]); (8561, [8545]); (8562, [8546]); (8563, [8547]);
   (8564, [8548]); (8565, [8549]); (8566, [8550]); (8567, [8551]);
   (8568, [8552]); (8569, [8553]); (8570, [8554]); (8571, [8555]);
   (8572, [8556]); (8573, [8557]); (8574, [8558]); (8575, [8559]);
   (8580, [8579]); (9424, [9398]); (9425, [9399]); (9426, [9400]);
   (9427, [9401]); (9428, [9402]); (9429, [9403]); (9430, [9404]);
   (9431, [9405]); (9432, [9406]); (9433, [9407]); (9434, [9408]);
   (9435, [9409]); (9436, [9410]); (9437, [9411]); (9438, [9412]);
   (9439, [9413]); (9440, [9414]); (9441, [9415]); (9442, [9416]);
   (9443, [9417]); (9444, [9418]); (9445, [9419]); (9446, [9420]);
   (9447, [9421]); (9448, [9422]); (9449, [9423]); (11312, [11264]);
   (11313, [11265]); (11314, [11266]); (11315, [11267]); (11316, [11268]);
   (11317, [11269]); (11318, [11270]); (11319, [11271]); (11320, [11272]);
   (11321, [11273]); (11322, [11274]); (11323, [11275]); (11324, [11276]);
   (11325, [11277]); (11326, [11278]); (11327, [11279]); (11328, [11280]);
   (11329, [11281]); (11330, [11282]); (11331, [11283]); (11332, [11284]);
   (11333, [11285]); (11334, [11286]); (11335, [11287]); (11336, [11288]);
   (11337, [11289]); (11338, [11290]); (11339, [11291]); (11340, [11292]);
   (11341, [11293]); (11342, [11294]); (11343, [11295]); (11344, [11296]);
   (11345, [11297]); (11346, [11298]); (11347, [11299]); (11348, [11300]);
   (11349, [11301]); (11350, [11302]); (11351, [11303]); (11352, [11304]);
   (11353, [11305]); (11354, [11306]); (11355, [11307]); (11356, [11308]);
   (11357, [11309]); (11358, [11310]); (11359, [11311]); (11361, [11360]);
   (11365, [570]); (11366, [574]); (11368, [11367]); (11370, [11369]);
   (11372, [11371]); (11379, [11378]); (11382, [11381]); (11393, [11392]);
   (11395, [11394]); (11397, [11396]); (11399, [11398]); (11401, [11400]);
   (11403, [11402]); (11405, [11404]); (11407, [11406]); (11409, [11408]);
   (11411, [11410]); (11413, [11412]); (11415, [11414]); (11417, [11416]);
   (11419, [11418]); (11421, [11420]); (11423, [11422]); (11425, [11424]);
   (11427, [11426]); (11429, [11428]); (11431, [11430]); (11433, [11432]);
   (11435, [11434]); (11437, [11436]); (11439, [11438]); (11441, [11440]);
   (11443, [11442]); (11445, [11444]); (11447, [11446]); (11449, [11448]);
   (11451, [11450]); (11453, [11452]); (11455, [11454]); (11457, [11456]);
   (11459, [11458]); (11461, [11460]); (11463, [11462]); (11465, [11464]);
   (11467, [11466]); (11469, [11468]); (11471, [11470]); (11473, [11472]);
   (11475, [11474]); (11477, [11476]); (11479, [11478]); (11481, [11480]);
   (11483, [11482]); (11485, [11484]); (11487, [11486]); (11489, [11488]);
   (11491, [11490]); (11500, [11499]); (11502, [11501]); (11507, [11506]);
   (11520, [4256]); (11521, [4257]); (11522, [4258]); (11523, [4259]);
   (11524, [4260]); (11525, [4261]); (11526, [4262]); (11527, [4263]);
   (11528, [4264]); (11529, [4265]); (11530, [4266]); (11531, [4267]);
   (11532, [4268]); (11533, [4269]); (11534, [4270]); (11535, [4271]);
   (11536, [4272]); (11537, [4273]); (11538, [4274]); (11539, [4275]);
   (11540, [4276]); (11541, [4277]); (11542, [4278]); (11543, [4279]);
   (11544, [4280]); (11545, [4281]); (11546, [4282]); (11547, [4283]);
   (11548, [4284]); (11549, [4285]); (11550, [4286]); (11551, [4287]);
   (11552, [4288]); (11553, [4289]); (11554, [4290]); (11555, [4291]);
   (11556, [4292]); (11557, [4293]); (11559, [4295]); (11565, [4301]);
   (42561, [42560]); (42563, [42562]); (42565, [42564]); (42567, [42566]);
   (42569, [42568]); (42571, [42570]); (42573, [42572]); (42575, [42574]);
   (42577, [42576]); (42579, [42578]); (42581, [42580]); (42583, [42582]);
   (42585, [42584]); (42587, [42586]); (42589, [42588]); (42591, [42590]);
   (42593, [42592]); (42595, [42594]); (42597, [42596]); (42599, [42598]);
   (42601, [42600]); (42603, [42602]); (42605, [42604]); (42625, [42624]);
   (42627, [42626]); (42629, [42628]); (42631, [42630]); (42633, [42632]);
   (42635, [42634]); (42637, [42636]); (42639, [42638]); (42641, [42640]);
   (42643, [42642]); (42645, [42644]); (42647, [42646]); (42649, [42648]);
   (42651, [42650]); (42787, [42786]); (42789, [42788]); (42791, [42790]);
   (42793, [42792]); (42795, [42794]); (42797, [42796]); (42799, [42798]);
   (42803, [42802]); (42805, [42804]); (42807, [42806]); (42809, [42808]);
   (42811, [42810]); (42813, [42812]); (42815, [42814]); (42817, [42816]);
   (42819, [42818]); (42821, [42820]); (42823, [42822]); (42825, [42824]);
   (42827, [42826]); (42829, [42828]); (42831, [42830]); (42833, [42832]);
   (42835, [42834]); (42837, [42836]); (42839, [42838]); (42841, [42840]);
   (42843, [42842]); (42845, [42844]); (42847, [42846]); (42849, [42848]);
   (42851, [42850]); (42853, [42852]); (42855, [42854]); (42857, [42856]);
   (42859, [42858]); (42861, [42860]); (42863, [42862]); (42874, [42873]);
   (42876, [42875]); (42879, [42878]); (42881, [42880]); (42883, [42882]);
   (42885, [42884]); (42887, [42886]); (42892, [42891]); (42897, [42896]);
   (42899, [42898]); (42900, [42948]); (42903, [42902]); (42905, [42904]);
   (42907, [42906]); (42909, [42908]); (42911, [42910]); (42913, [42912]);
   (42915, [42914]); (42917, [42916]); (42919, [42918]); (42921, [42920]);
   (42933, [42932]); (42935, [42934]); (42937, [42936]); (42939, [42938]);
   (42941, [42940]); (42943, [42942]); (42945, [42944]); (42947, [42946]);
   (42952, [42951]); (42954, [42953]); (42961, [42960]); (42967, [42966]);
   (42969, [42968]); (42998, [42997]); (43859, [42931]); (43888, [5024]);
   (43889, [5025]); (43890, [5026]); (43891, [5027]); (43892, [5028]);
   (43893, [5029]); (43894, [5030]); (43895, [5031]); (43896, [5032]);
   (43897, [5033]); (43898, [5034]); (43899, [5035]); (43900, [5036]);
   (43901, [5037]); (43902, [5038]); (43903, [5039]); (43904, [5040]);
   (43905, [5041]); (43906, [5042]); (43907, [5043]); (43908, [5044]);
   (43909, [5045]); (43910, [5046]); (43911, [5047]); (43912, [5048]);
   (43913, [5049]); (43914, [5050]); (43915, [5051]); (43916, [5052]);
   (43917, [5053]); (43918, [5054]); (43919, [5055]); (43920, [5056]);
   (43921, [5057]); (43922, [5058]); (43923, [5059]); (43924, [5060]);
   (43925, [5061]); (43926, [5062]); (43927, [5063]); (43928, [5064]);
   (43929, [5065]); (43930, [5066]); (43931, [5067]); (43932, [5068]);
   (43933, [5069]); (43934, [5070]); (43935, [5071]); (43936, [5072]);
   (43937, [5073]); (43938, [5074]); (43939, [5075]); (43940, [5076]);
   (43941, [5077]); (43942, [5078]); (43943, [5079]); (43944, [5080]);
   (43945, [5081]); (43946, [5082]); (43947, [5083]); (43948, [5084]);
   (43949, [5085]); (43950, [5086]); (43951, [5087]); (43952, [5088]);
   (43953, [5089]); (43954, [5090]); (43955, [5091]); (43956, [5092]);
   (43957, [5093]); (43958, [5094]); (43959, [5095]); (43960, [5096]);
   (43961, [5097]); (43962, [5098]); (43963, [5099]); (43964, [5100]);
   (43965, [5101]); (43966, [5102]); (43967, [5103]); (64256, [70; 102]);
   (64257, [70; 105]); (64258, [70; 108]); (64259, [70; 102; 105]);
   (64260, [70; 102; 108]); (64261, [83; 116]); (64262, [83; 116]);
   (64275, [1348; 1398]); (64276, [1348; 1381]); (64277, [1348; 1387]);
   (64278, [1358; 1398]); (64279, [1348; 1389]); (65345, [65313]);
   (65346, [65314]); (65347, [65315]); (65348, [65316]); (65349, [65317]);
   (65350, [65318]); (65351, [65319]); (65352, [65320]); (65353, [65321]);
   (65354, [65322]); (65355, [65323]); (65356, [65324]); (65357, [65325]);
   (65358, [65326]); (65359, [65327]); (65360, [65328]); (65361, [65329]);
   (65362, [65330]); (65363, [65331]); (65364, [65332]); (65365, [65333]);
   (65366, [65334]); (65367, [65335]); (65368, [65336]); (65369, [65337]);
   (65370, [65338]); (66600, [66560]); (66601, [66561]); (66602, [66562]);
   (66603, [66563]); (66604, [66564]); (66605, [66565]); (66606, [66566]);
   (66607, [66567]); (66608, [66568]); (66609, [66569]); (66610, [66570]);
   (66611, [66571]); (66612, [66572]); (66613, [66573]); (66614, [66574]);
   (66615, [66575]); (66616, [66576]); (66617, [66577]); (66618, [66578]);
   (66619, [66579]); (66620, [66580]); (66621, [66581]); (66622, [66582]);
   (66623, [66583]); (66624, [66584]); (66625, [66585]); (66626, [66586]);
   (66627, [66587]); (66628, [66588]); (66629, [66589]); (66630, [66590]);
   (66631, [66591]); (66632, [66592]); (66633, [66593]); (66634, [66594]);
   (66635, [66595]); (66636, [66596]); (66637, [66597]); (66638, [66598]);
   (66639, [66599]); (66776, [66736]); (66777, [66737]); (66778, [66738]);
   (66779, [66739]); (66780, [66740]); (66781, [66741]); (66782, [66742]);
   (66783, [66743]); (66784, [66744]); (66785, [66745]); (66786, [66746]);
   (66787, [66747]); (66788, [66748]); (66789, [66749]); (66790, [66750]);
   (66791, [66751]); (66792, [66752]); (66793, [66753]); (66794, [66754]);
   (66795, [66755]); (66796, [66756]); (66797, [66757]); (66798, [66758]);
   (66799, [66759]); (66800, [66760]); (66801, [66761]); (66802, [66762]);
   (66803, [66763]); (66804, [66764]); (66805, [66765]); (66806, [66766]);
   (66807, [66767]); (66808, [66768]); (66809, [66769]); (66810, [66770]);
   (66811, [66771]); (66967, [66928]); (66968, [66929]); (66969, [66930]);
   (66970, [66931]); (66971, [66932]); (66972, [66933]); (66973, [66934]);
   (66974, [66935]); (66975, [66936]); (66976, [66937]); (66977, [66938]);
   (66979, [66940]); (66980, [66941]); (66981, [66942]); (66982, [66943]);
   (66983, [66944]); (66984, [66945]); (66985, [66946]); (66986, [66947]);
   (66987, [66948]); (66988, [66949]); (66989, [66950]); (66990, [66951]);
   (66991, [66952]); (66992, [66953]); (66993, [66954]); (66995, [66956]);
   (66996, [66957]); (66997, [66958]); (66998, [66959]); (66999, [66960]);
   (67000, [66961]); (67001, [66962]); (67003, [66964]); (67004, [66965]);
   (68800, [68736]); (68801, [68737]); (68802, [68738]); (68803, [68739]);
   (68804, [68740]); (68805, [68741]); (68806, [68742]); (68807, [68743]);
   (68808, [68744]); (68809, [68745]); (68810, [68746]); (68811, [68747]);
   (68812, [68748]); (68813, [68749]); (68814, [68750]); (68815, [68751]);
   (68816, [68752]); (68817, [68753]); (68818, [68754]); (68819, [68755]);
   (68820, [68756]); (68821, [68757]); (68822, [68758]); (68823, [68759]);
   (68824, [68760]); (68825, [68761]); (68826, [68762]); (68827, [68763]);
   (68828, [68764]); (68829, [68765]); (68830, [68766]); (68831, [68767]);
   (68832, [68768]); (68833, [68769]); (68834, [68770]); (68835, [68771]);
   (68836, [68772]); (68837, [68773]); (68838, [68774]); (68839, [68775]);
   (68840, [68776]); (68841, [68777]); (68842, [68778]); (68843, [68779]);
   (68844, [68780]); (68845, [68781]); (68846, [68782]); (68847, [68783]);
   (68848, [68784]); (68849, [68785]); (68850, [68786]); (71872, [71840]);
   (71873, [71841]); (71874, [71842]); (71875, [71843]); (71876, [71844]);
   (71877, [71845]); (71878, [71846]); (71879, [71847]); (71880, [71848]);
   (71881, [71849]); (71882, [71850]); (71883, [71851]); (71884, [71852]);
   (71885, [71853]); (71886, [71854]); (71887, [71855]); (71888, [71856]);
   (71889, [71857]); (71890, [71858]); (71891, [71859]); (71892, [71860]);
   (71893, [71861]); (71894, [71862]); (71895, [71863]); (71896, [71864]);
   (71897, [71865]); (71898, [71866]); (71899, [71867]); (71900, [71868]);
   (71901, [71869]); (71902, [71870]); (71903, [71871]); (93792, [93760]);
   (93793, [93761]); (93794, [93762]); (93795, [93763]); (93796, [93764]);
   (93797, [93765]); (93798, [93766]); (93799, [93767]); (93800, [93768]);
   (93801, [93769]); (93802, [93770]); (93803, [93771]); (93804, [93772]);
   (93805, [93773]); (93806, [93774]); (93807, [93775]); (93808, [93776]);
   (93809, [93777]); (93810, [93778]); (93811, [93779]); (93812, [93780]);
   (93813, [93781]); (93814, [93782]); (93815, [93783]); (93816, [93784]);
   (93817, [93785]); (93818, [93786]); (93819, [93787]); (93820, [93788]);
   (93821, [93789]); (93822, [93790]); (93823, [93791]); (125218, [125184]);
   (125219, [125185]); (125220, [125186]); (125221, [125187]);
   (125222, [125188]); (125223, [125189]); (125224, [125190]);
   (125225, [125191]); (125226, [125192]); (125227, [125193]);
   (125228, [125194]); (125229, [125195]); (125230, [125196]);
   (125231, [125197]); (125232, [125198]); (125233, [125199]);
   (125234, [125200]); (125235, [125201]); (125236, [125202]);
   (125237, [125203]); (125238, [125204]); (125239, [125205]);
   (125240, [125206]); (125241, [125207]); (125242, [125208]);
   (125243, [125209]); (125244, [125210]); (125245, [125211]);
   (125246, [125212]); (125247, [125213]); (125248, [125214]);
   (125249, [125215]); (125250, [125216]); (125251, [125217])
  ].

(** The case-ignorable characters, which the final-sigma rule skips. *)
Definition case_ignorable : list (N * N) :=
  [
   (39, 39); (46, 46); (58, 58); (94, 94); (96, 96); (168, 168); (173, 173);
   (175, 175); (180, 180); (183, 184); (688, 879); (884, 885); (890, 890);
   (900, 901); (903, 903); (1155, 1161); (1369, 1369); (1375, 1375);
   (1425, 1469); (1471, 1471); (1473, 1474); (1476, 1477); (1479, 1479);
   (1524, 1524); (1536, 1541); (1552, 1562); (1564, 1564); (1600, 1600);
   (1611, 1631); (1648, 1648); (1750, 1757); (1759, 1768); (1770, 1773);
   (1807, 1807); (1809, 1809); (1840, 1866); (1958, 1968); (2027, 2037);
   (2042, 2042); (2045, 2045); (2070, 2093); (2137, 2139); (2184, 2184);
   (2192, 2193); (2200, 2207); (2249, 2306); (2362, 2362); (2364, 2364);
   (2369, 2376); (2381, 2381); (2385, 2391); (2402, 2403); (2417, 2417);
   (2433, 2433); (2492, 2492); (2497, 2500); (2509, 2509); (2530, 2531);
   (2558, 2558); (2561, 2562); (2620, 2620); (2625, 2626); (2631, 2632);
   (2635, 2637); (2641, 2641); (2672, 2673); (2677, 2677); (2689, 2690);
   (2748, 2748); (2753, 2757); (2759, 2760); (2765, 2765); (2786, 2787);
   (2810, 2815); (2817, 2817); (2876, 2876); (2879, 2879); (2881, 2884);
   (2893, 2893); (2901, 2902); (2914, 2915); (2946, 2946); (3008, 3008);
   (3021, 3021); (3072, 3072); (3076, 3076); (3132, 3132); (3134, 3136);
   (3142, 3144); (3146, 3149); (3157, 3158); (3170, 3171); (3201, 3201);
   (3260, 3260); (3263, 3263); (3270, 3270); (3276, 3277); (3298, 3299);
   (3328, 3329); (3387, 3388); (3393, 3396); (3405, 3405); (3426, 3427);
   (3457, 3457); (3530, 3530); (3538, 3540); (3542, 3542); (3633, 3633);
   (3636, 3642); (3654, 3662); (3761, 3761); (3764, 3772); (3782, 3782);
   (3784, 3789); (3864, 3865); (3893, 3893); (3895, 3895); (3897, 3897);
   (3953, 3966); (3968, 3972); (3974, 3975); (3981, 3991); (3993, 4028);
   (4038, 4038); (4141, 4144); (4146, 4151); (4153, 4154); (4157, 4158);
   (4184, 4185); (4190, 4192); (4209, 4212); (4226, 4226); (4229, 4230);
   (4237, 4237); (4253, 4253); (4348, 4348); (4957, 4959); (5906, 5908);
   (5938, 5939); (5970, 5971); (6002, 6003); (6068, 6069); (6071, 6077);
   (6086, 6086); (6089, 6099); (6103, 6103); (6109, 6109); (6155, 6159);
   (6211, 6211); (6277, 6278); (6313, 6313); (6432, 6434); (6439, 6440);
   (6450, 6450); (6457, 6459); (6679, 6680); (6683, 6683); (6742, 6742);
   (6744, 6750); (6752, 6752); (6754, 6754); (6757, 6764); (6771, 6780);
   (6783, 6783); (6823, 6823); (6832, 6862); (6912, 6915); (6964, 6964);
   (6966, 6970); (6972, 6972); (6978, 6978); (7019, 7027); (7040, 7041);
   (7074, 7077); (7080, 7081); (7083, 7085); (7142, 7142); (7144, 7145);
   (7149, 7149); (7151, 7153); (7212, 7219); (7222, 7223); (7288, 7293);
   (7376, 7378); (7380, 7392); (7394, 7400); (7405, 7405); (7412, 7412);
   (7416, 7417); (7468, 7530); (7544, 7544); (7579, 7679); (8125, 8125);
   (8127, 8129); (8141, 8143); (8157, 8159); (8173, 8175); (8189, 8190);
   (8203, 8207); (8216, 8217); (8228, 8228); (8231, 8231); (8234, 8238);
   (8288, 8292); (8294, 8303); (8305, 8305); (8319, 8319); (8336, 8348);
   (8400, 8432); (11388, 11389); (11503, 11505); (11631, 11631);
   (11647, 11647); (11744, 11775); (11823, 11823); (12293, 12293);
   (12330, 12333); (12337, 12341); (12347, 12347); (12441, 12446);
   (12540, 12542); (40981, 40981); (42232, 42237); (42508, 42508);
   (42607, 42610); (42612, 42621); (42623, 42623); (42652, 42655);
   (42736, 42737); (42752, 42785); (42864, 42864); (42888, 42890);
   (42994, 42996); (43000, 43001); (43010, 43010); (43014, 43014);
   (43019, 43019); (43045, 43046); (43052, 43052); (43204, 43205);
   (43232, 43249); (43263, 43263); (43302, 43309); (43335, 43345);
   (43392, 43394); (43443, 43443); (43446, 43449); (43452, 43453);
   (43471, 43471); (43493, 43494); (43561, 43566); (43569, 43570);
   (43573, 43574); (43587, 43587); (43596, 43596); (43632, 43632);
   (43644, 43644); (43696, 43696); (43698, 43700); (43703, 43704);
   (43710, 43711); (43713, 43713); (43741, 43741); (43756, 43757);
   (43763, 43764); (43766, 43766); (43867, 43871); (43881, 43883);
   (44005, 44005); (44008, 44008); (44013, 44013); (64286, 64286);
   (64434, 64450); (65024, 65039); (65043, 65043); (65056, 65071);
   (65106, 65106); (65109, 65109); (65279, 65279); (65287, 65287);
   (65294, 65294); (65306, 65306); (65342, 65342); (65344, 65344);
   (65392, 65392); (65438, 65439); (65507, 65507); (65529, 65531);
   (66045, 66045); (66272, 66272); (66422, 66426); (67456, 67461);
   (67463, 67504); (67506, 67514); (68097, 68099); (68101, 68102);
   (68108, 68111); (68152, 68154); (68159, 68159); (68325, 68326);
   (68900, 68903); (69291, 69292); (69446, 69456); (69506, 69509);
   (69633, 69633); (69688, 69702); (69744, 69744); (69747, 69748);
   (69759, 69761); (69811, 69814); (69817, 69818); (69821, 69821);
   (69826, 69826); (69837, 69837); (69888, 69890); (69927, 69931);
   (69933, 69940); (70003, 70003); (70016, 70017); (70070, 70078);
   (70089, 70092); (70095, 70095); (70191, 70193); (70196, 70196);
   (70198, 70199); (70206, 70206); (70367, 70367); (70371, 70378);
   (70400, 70401); (70459, 70460); (70464, 70464); (70502, 70508);
   (70512, 70516); (70712, 70719); (70722, 70724); (70726, 70726);
   (70750, 70750); (70835, 70840); (70842, 70842); (70847, 70848);
   (70850, 70851); (71090, 71093); (71100, 71101); (71103, 71104);
   (71132, 71133); (71219, 71226); (71229, 71229); (71231, 71232);
   (71339, 71339); (71341, 71341); (71344, 71349); (71351, 71351);
   (71453, 71455); (71458, 71461); (71463, 71467); (71727, 71735);
   (71737, 71738); (71995, 71996); (71998, 71998); (72003, 72003);
   (72148, 72151); (72154, 72155); (72160, 72160); (72193, 72202);
   (72243, 72248); (72251, 72254); (72263, 72263); (72273, 72278);
   (72281, 72283); (72330, 72342); (72344, 72345); (72752, 72758);
   (72760, 72765); (72767, 72767); (72850, 72871); (72874, 72880);
   (72882, 72883); (72885, 72886); (73009, 73014); (73018, 73018);
   (73020, 73021); (73023, 73029); (73031, 73031); (73104, 73105);
   (73109, 73109); (73111, 73111); (73459, 73460); (78896, 78904);
   (92912, 92916); (92976, 92982); (92992, 92995); (94031, 94031);
   (94095, 94111); (94176, 94177); (94179, 94180); (110576, 110579);
   (110581, 110587); (110589, 110590); (113821, 113822); (113824, 113827);
   (118528, 118573); (118576, 118598); (119143, 119145); (119155, 119170);
   (119173, 119179); (119210, 119213); (119362, 119364); (121344, 121398);
   (121403, 121452); (121461, 121461); (121476, 121476); (121499, 121503);
   (121505, 121519); (122880, 122886); (122888, 122904); (122907, 122913);
   (122915, 122916); (122918, 122922); (123184, 123197); (123566, 123566);
   (123628, 123631); (125136, 125142); (125252, 125259); (127995, 127999);
   (917505, 917505); (917536, 917631); (917760, 917999)
  ].

(** The cased characters among those that are not case-ignorable. *)
Definition cased_letters : list (N * N) :=
  [
   (65, 90); (97, 122); (170, 170); (181, 181); (186, 186); (192, 214);
   (216, 246); (248, 442); (444, 447); (452, 659); (661, 687); (880, 883);
   (886, 887); (891, 893); (895, 895); (902, 902); (904, 906); (908, 908);
   (910, 929); (931, 1013); (1015, 1153); (1162, 1327); (1329, 1366);
   (1376, 1416); (4256, 4293); (4295, 4295); (4301, 4301); (4304, 4346);
   (4349, 4351); (5024, 5109); (5112, 5117); (7296, 7304); (7312, 7354);
   (7357, 7359); (7424, 7467); (7531, 7543); (7545, 7578); (7680, 7957);
   (7960, 7965); (7968, 8005); (8008, 8013); (8016, 8023); (8025, 8025);
   (8027, 8027); (8029, 8029); (8031, 8061); (8064, 8116); (8118, 8124);
   (8126, 8126); (8130, 8132); (8134, 8140); (8144, 8147); (8150, 8155);
   (8160, 8172); (8178, 8180); (8182, 8188); (8450, 8450); (8455, 8455);
   (8458, 8467); (8469, 8469); (8473, 8477); (8484, 8484); (8486, 8486);
   (8488, 8488); (8490, 8493); (8495, 8500); (8505, 8505); (8508, 8511);
   (8517, 8521); (8526, 8526); (8544, 8575); (8579, 8580); (9398, 9449);
   (11264, 11387); (11390, 11492); (11499, 11502); (11506, 11507);
   (11520, 11557); (11559, 11559); (11565, 11565); (42560, 42605);
   (42624, 42651); (42786, 42863); (42865, 42887); (42891, 42894);
   (42896, 42954); (42960, 42961); (42963, 42963); (42965, 42969);
   (42997, 42998); (43002, 43002); (43824, 43866); (43872, 43880);
   (43888, 43967); (64256, 64262); (64275, 64279); (65313, 65338);
   (65345, 65370); (66560, 66639); (66736, 66771); (66776, 66811);
   (66928, 66938); (66940, 66954); (66956, 66962); (66964, 66965);
   (66967, 66977); (66979, 66993); (66995, 67001); (67003, 67004);
   (68736, 68786); (68800, 68850); (71840, 71903); (93760, 93823);
   (119808, 119892); (119894, 119964); (119966, 119967); (119970, 119970);
   (119973, 119974); (119977, 119980); (119982, 119993); (119995, 119995);
   (119997, 120003); (120005, 120069); (120071, 120074); (120077, 120084);
   (120086, 120092); (120094, 120121); (120123, 120126); (120128, 120132);
   (120134, 120134); (120138, 120144); (120146, 120485); (120488, 120512);
   (120514, 120538); (120540, 120570); (120572, 120596); (120598, 120628);
   (120630, 120654); (120656, 120686); (120688, 120712); (120714, 120744);
   (120746, 120770); (120772, 120779); (122624, 122633); (122635, 122654);
   (125184, 125251); (127280, 127305); (127312, 127337); (127344, 127369)
  ].

(** The characters a literal of the section-name patterns matches under
    [re.IGNORECASE]: its case variants and the characters whose simple case
    mapping meets them (dotted and dotless i, long s). *)
Definition ignorecase : list (N * list N) :=
  [
   (32, [32]); (65, [65; 97]); (66, [66; 98]); (67, [67; 99]);
   (68, [68; 100]); (69, [69; 101]); (80, [80; 112]); (83, [83; 115; 383]);
   (97, [65; 97]); (98, [66; 98]); (99, [67; 99]); (101, [69; 101]);
   (105, [73; 105; 304; 305]); (106, [74; 106]); (108, [76; 108]);
   (109, [77; 109]); (110, [78; 110]); (111, [79; 111]); (112, [80; 112]);
   (113, [81; 113]); (114, [82; 114]); (115, [83; 115; 383]);
   (116, [84; 116]); (117, [85; 117]); (118, [86; 118]); (122, [90; 122]);
   (237, [205; 237]); (243, [211; 243])
  ].

(** Membership in a list of ranges in increasing order. *)
Fixpoint in_ranges (c : N) (rs : list (N * N)) : bool :=
  match rs with
  | [] => false
  | (lo, hi) :: r =>
      if c <? lo then false
      else if c <=? hi then true
      else in_ranges c r
  end.

(** The first character of the range that holds [c]. *)
Fixpoint range_start (c : N) (rs : list (N * N)) : option N :=
  match rs with
  | [] => None
  | (lo, hi) :: r =>
      if c <? lo then None
      else if c <=? hi then Some lo
      else range_start c r
  end.

(** The entry of [c] in a table in increasing order of its keys. *)
Fixpoint lookup (c : N) (t : list (N * list N)) : option (list N) :=
  match t with
  | [] => None
  | (k, v) :: r =>
      if c =? k then Some v
      else if c <? k then None
      else lookup c r
  end.

End Unicode.

Delimit Scope string_scope with string.
Bind Scope string_scope with String.string.

Set Implicit Arguments.

(** ** Unicode strings *)

Module Str.

Open Scope N_scope.

Definition str := list N.

(** Literals are written as UTF-8 Rocq strings and decoded to code points. *)
Fixpoint utf8_go (acc : N) (need : nat) (bs : list N) : str :=
  match bs with
  | [] => []
  | b :: t =>
      match need with
      | O => if b <? 128 then b :: utf8_go 0 0%nat t
             else if b <? 224 then utf8_go (b mod 32) 1%nat t
             else if b <? 240 then utf8_go (b mod 16) 2%nat t
             else utf8_go (b mod 8) 3%nat t
      | S O => (acc * 64 + b mod 64) :: utf8_go 0 0%nat t
      | S n => utf8_go (acc * 64 + b mod 64) n t
      end
  end.

Definition u (s : String.string) : str :=
  utf8_go 0 0%nat (map N_of_ascii (String.list_ascii_of_string s)).

Definition LF : N := 10.
Definition SP : N := 32.
Definition COMMA : N := 44.
Definition HYPHEN : N := 45.
Definition DOT : N := 46.
Definition COLON : N := 58.
Definition UNDERSCORE : N := 95.

(** [str.isspace], equally the class [\s] of a Unicode pattern. *)
Definition is_space (c : N) : bool :=
  ((9 <=? c) && (c <=? 13)) || ((28 <=? c) && (c <=? 32))
  || (c =? 133) || (c =? 160) || (c =? 5760)
  || ((8192 <=? c) && (c <=? 8202))
  || (c =? 8232) || (c =? 8233) || (c =? 8239) || (c =? 8287) || (c =? 12288).

(** The zero-width marks: the class of U+200B to U+200D, U+2060 and U+FEFF. *)
Definition is_invisible (c : N) : bool :=
  ((8203 <=? c) && (c <=? 8205)) || (c =? 8288) || (c =? 65279).

(** The class [\d]: the decimal digits of every script. *)
Definition is_digit (c : N) : bool :=
  Unicode.in_ranges c Unicode.decimal_digits.

(** The value [float] gives a decimal digit: its place in its run of ten. *)
Definition digit_value (c : N) : N :=
  match Unicode.range_start c Unicode.decimal_digits with
  | Some zero => (c - zero) mod 10
  | None => 0
  end.

(** The class [\w]: alphanumerics and the underscore. *)
Definition is_word (c : N) : bool :=
  Unicode.in_ranges c Unicode.word_characters.

(** The upper-case letters of Basic Latin and of the Latin-1 Supplement. *)
Definition is_upper (c : N) : bool :=
  ((65 <=? c) && (c <=? 90))
  || ((192 <=? c) && (c <=? 222) && negb (c =? 215)).

(** The class [[•*>]] and the class [[•*>-]]. *)
Definition is_bullet (c : N) : bool := (c =? 8226) || (c =? 42) || (c =? 62).
Definition is_bullet_or_hyphen (c : N) : bool := is_bullet c || (c =? HYPHEN).

(** [c.lower()] and [c.title()] for one character: the full case mappings,
    which may give several characters. *)
Definition lower_full (c : N) : str :=
  match Unicode.lookup c Unicode.lowercase with
  | Some l => l
  | None => [c]
  end.
Definition title_full (c : N) : str :=
  match Unicode.lookup c Unicode.titlecase with
  | Some l => l
  | None => [c]
  end.

Definition case_ignorable (c : N) : bool :=
  Unicode.in_ranges c Unicode.case_ignorable.
Definition cased (c : N) : bool :=
  Unicode.in_ranges c Unicode.cased_letters.

Definition SIGMA : N := 931.
Definition FINAL_SIGMA : N := 962.
Definition SMALL_SIGMA : N := 963.

(** The look-ahead of the final-sigma rule: past the case-ignorable
    characters, the text ends or goes on with a character that is not
    cased. *)
Fixpoint final_after (t : str) : bool :=
  match t with
  | [] => true
  | c :: r => if case_ignorable c then final_after r else negb (cased c)
  end.

(** Lower-casing from a position of the text; [after_cased] tells whether
    the last character before it that is not case-ignorable is cased.  A
    capital sigma becomes a final sigma after a cased character and before
    the end of a word, a small sigma elsewhere. *)
Fixpoint lower_from (after_cased : bool) (s : str) : str :=
  match s with
  | [] => []
  | c :: t =>
      (if c =? SIGMA
       then [if after_cased && final_after t then FINAL_SIGMA
             else SMALL_SIGMA]
       else lower_full c)
      ++ lower_from (if case_ignorable c then after_cased else cased c) t
  end.

(** [s.lower()] *)
Definition lower (s : str) : str := lower_from false s.

(** [s.capitalize()]: the first character in title case, the rest in
    lower case. *)
Definition capitalize (s : str) : str :=
  match s with
  | [] => []
  | c :: t =>
      title_full c
      ++ lower_from (if case_ignorable c then false else cased c) t
  end.

(** A literal [p] of a pattern compiled with [re.IGNORECASE] matches [c]. *)
Definition ci_eqb (p c : N) : bool :=
  existsb (N.eqb c)
    (match Unicode.lookup p Unicode.ignorecase with
     | Some l => l
     | None => [p]
     end).

(** The literal text [p], matched ignoring case, starts [s]. *)
Fixpoint starts_with_ci (p s : str) : bool :=
  match p, s with
  | [], _ => true
  | _ :: _, [] => false
  | a :: p', b :: s' => ci_eqb a b && starts_with_ci p' s'
  end.

Fixpoint str_eqb (a b : str) : bool :=
  match a, b with
  | [], [] => true
  | x :: a', y :: b' => (x =? y) && str_eqb a' b'
  | _, _ => false
  end.

(** [a < b] on strings: lexicographic on code points. *)
Fixpoint str_ltb (a b : str) : bool :=
  match a, b with
  | _, [] => false
  | [], _ :: _ => true
  | x :: a', y :: b' => (x <? y) || ((x =? y) && str_ltb a' b')
  end.

(** [s.startswith(p)] *)
Fixpoint starts_with (p s : str) : bool :=
  match p, s with
  | [], _ => true
  | _ :: _, [] => false
  | a :: p', b :: s' => (a =? b) && starts_with p' s'
  end.

(** [sub in s] *)
Fixpoint contains (sub s : str) : bool :=
  starts_with sub s
  || match s with
     | [] => false
     | _ :: t => contains sub t
     end.

(** [c in s] for a single character [c]. *)
Definition has_char (c : N) (s : str) : bool := existsb (N.eqb c) s.

Fixpoint drop_while (p : N -> bool) (s : str) : str :=
  match s with
  | [] => []
  | c :: t => if p c then drop_while p t else s
  end.

Fixpoint take_while (p : N -> bool) (s : str) : str :=
  match s with
  | [] => []
  | c :: t => if p c then c :: take_while p t else []
  end.

(** Removal of a trailing run of characters of class [p]. *)
Fixpoint rstrip_by (p : N -> bool) (s : str) : str :=
  match s with
  | [] => []
  | c :: t =>
      match rstrip_by p t with
      | [] => if p c then [] else [c]
      | r => c :: r
      end
  end.

(** [s.lstrip()], [s.rstrip()], [s.strip()] *)
Definition lstrip (s : str) : str := drop_while is_space s.
Definition rstrip (s : str) : str := rstrip_by is_space s.
Definition strip (s : str) : str := lstrip (rstrip s).

(** [s.replace(a, b)] for single characters and [s.replace(a, '')]. *)
Definition replace_char (a b : N) (s : str) : str :=
  map (fun c => if c =? a then b else c) s.
Definition remove_char (a : N) (s : str) : str :=
  filter (fun c => negb (c =? a)) s.

(** [s.split(sep)] for a single character [sep]; never the empty list. *)
Fixpoint split_on (sep : N) (s : str) : list str :=
  match s with
  | [] => [[]]
  | c :: t =>
      if c =? sep then [] :: split_on sep t
      else match split_on sep t with
           | [] => [[c]]
           | l :: ls => (c :: l) :: ls
           end
  end.

(** [s.split(sep, 1)] when [sep in s]: the text before and after the first
    separator. *)
Fixpoint split_first (sep : N) (s : str) : str * str :=
  match s with
  | [] => ([], [])
  | c :: t =>
      if c =? sep then ([], t)
      else let '(a, b) := split_first sep t in (c :: a, b)
  end.

(** [s.split()]: the maximal runs of non-space characters. *)
Fixpoint words (s : str) : list str :=
  match s with
  | [] => []
  | c :: t =>
      if is_space c then words t
      else match t with
           | [] => [[c]]
           | c' :: _ =>
               if is_space c' then [c] :: words t
               else match words t with
                    | [] => [[c]]
                    | w :: ws => (c :: w) :: ws
                    end
           end
  end.

(** [sep.join(l)] *)
Fixpoint join (sep : str) (l : list str) : str :=
  match l with
  | [] => []
  | [a] => a
  | a :: t => a ++ sep ++ join sep t
  end.

(** [s.rfind(sub)]: the highest index at which [sub] occurs. *)
Fixpoint rfind_from (i : nat) (sub s : str) : option nat :=
  match s with
  | [] => if starts_with sub [] then Some i else None
  | _ :: t =>
      match rfind_from (S i) sub t with
      | Some j => Some j
      | None => if starts_with sub s then Some i else None
      end
  end.
Definition rfind (sub s : str) : option nat := rfind_from 0 sub s.

(** [list(dict.fromkeys(l))]: duplicates dropped, first occurrences kept in
    order.  It is also one iteration order of [set(l)]. *)
Fixpoint dedupe_acc (seen : list str) (l : list str) : list str :=
  match l with
  | [] => []
  | a :: t =>
      if existsb (str_eqb a) seen then dedupe_acc seen t
      else a :: dedupe_acc (a :: seen) t
  end.
Definition dedupe (l : list str) : list str := dedupe_acc [] l.

(** [sorted(l)] on strings. *)
Fixpoint insert_sorted (a : str) (l : list str) : list str :=
  match l with
  | [] => [a]
  | b :: t => if str_ltb b a then b :: insert_sorted a t else a :: l
  end.
Fixpoint sorted (l : list str) : list str :=
  match l with
  | [] => []
  | a :: t => insert_sorted a (sorted t)
  end.

End Str.
Export Str.

(** ** Python values, dictionaries and exceptions *)

Module Py.

(** *** Exceptions *)

Inductive exn : Type :=
| AttributeError
| TypeError
| OverflowError
| ValueError.

Inductive result (A : Type) : Type :=
| Ok (a : A)
| Raise (e : exn).
Arguments Ok {A} a.
Arguments Raise {A} e.

Definition bind {A B : Type} (r : result A) (f : A -> result B) : result B :=
  match r with
  | Ok a => f a
  | Raise e => Raise e
  end.

Notation "x <- r ;; k" := (bind r (fun x => k))
  (at level 61, r at next level, right associativity).

(** *** Floats

    A binary64 number by its value.  The finite ones are the rationals
    [k * 2^j] with [|k| <= 2^53] and [-1074 <= j <= 971]; [Finite] holds such
    a rational in lowest terms. *)
Inductive float : Type :=
| Finite (q : Q)
| PosInf
| NegInf
| NaN.

(** [n / d] rounded to the nearest integer, a tie going to the even one
    ([0 <= n], [0 < d]). *)
Definition round_half_even (n d : Z) : Z :=
  let q := (n / d)%Z in
  match (2 * (n mod d) ?= d)%Z with
  | Lt => q
  | Gt => (q + 1)%Z
  | Eq => if Z.even q then q else (q + 1)%Z
  end.

(** [2^e <= n / d] *)
Definition pow2_le (e n d : Z) : bool :=
  if (0 <=? e)%Z then (d * 2 ^ e <=? n)%Z else (d <=? n * 2 ^ (- e))%Z.

(** The exponent [e] of the binade of [n / d]: [2^e <= n / d < 2^(e+1)]. *)
Definition floor_log2 (n d : positive) : Z :=
  let e := (Z.log2 (Zpos n) - Z.log2 (Zpos d))%Z in
  if pow2_le e (Zpos n) (Zpos d) then e else (e - 1)%Z.

(** The float nearest to the positive rational [n / d]: a multiple of the
    unit in the last place [2^j] of its binade (of the subnormal binade below
    [2^-1022]), infinity from [2^1024] on. *)
Definition round_pos (n d : positive) : float :=
  let e := Z.max (floor_log2 n d) (-1022) in
  let j := (e - 52)%Z in
  let value :=
    if (0 <=? j)%Z
    then inject_Z (round_half_even (Zpos n) (Zpos d * 2 ^ j) * 2 ^ j)
    else Qred (Qmake (round_half_even (Zpos n * 2 ^ (- j)) (Zpos d))
                     (Z.to_pos (2 ^ (- j)))) in
  if Qle_bool (inject_Z (2 ^ 1024)) value then PosInf else Finite value.

Definition float_opp (f : float) : float :=
  match f with
  | Finite q => Finite (- q)
  | PosInf => NegInf
  | NegInf => PosInf
  | NaN => NaN
  end.

(** Rounding to nearest, ties to even. *)
Definition round64 (q : Q) : float :=
  match Qnum q with
  | Z0 => Finite 0
  | Zpos n => round_pos n (Qden q)
  | Zneg n => float_opp (round_pos n (Qden q))
  end.

(** [a - b] on floats. *)
Definition float_sub (a b : float) : float :=
  match a, b with
  | Finite x, Finite y => round64 (x - y)
  | NaN, _ | _, NaN => NaN
  | PosInf, PosInf | NegInf, NegInf => NaN
  | PosInf, _ | _, NegInf => PosInf
  | NegInf, _ | _, PosInf => NegInf
  end.

(** The conversion of an [int] to a float, as in [z - f]: the nearest
    float, exact up to [2^53]; an [int] too large for a float raises. *)
Definition float_of_int (z : Z) : result float :=
  match round64 (inject_Z z) with
  | Finite q => Ok (Finite q)
  | _ => Raise OverflowError
  end.

(** Truncation toward zero. *)
Definition trunc (q : Q) : Z := Z.quot (Qnum q) (Zpos (Qden q)).

(** [int(f)]: the truncation of a finite float; an infinity and a NaN
    raise. *)
Definition int_of_float (f : float) : result Z :=
  match f with
  | Finite q => Ok (trunc q)
  | NaN => Raise ValueError
  | _ => Raise OverflowError
  end.

(** A number: an [int] or a [float]. *)
Inductive number : Type :=
| Int (z : Z)
| Float (f : float).

(** [not v] *)
Definition is_zero (v : number) : bool :=
  match v with
  | Int z => Z.eqb z 0
  | Float (Finite q) => Qeq_bool q 0
  | Float _ => false
  end.

(** [a <= v], [v <= b], [a < v] and [v < b] for an [int] bound: Python
    compares an [int] and a [float] by their exact values, and nothing
    compares with a NaN. *)
Definition le_number (a : Z) (v : number) : bool :=
  match v with
  | Int z => Z.leb a z
  | Float (Finite q) => Qle_bool (inject_Z a) q
  | Float PosInf => true
  | Float _ => false
  end.
Definition number_le (v : number) (b : Z) : bool :=
  match v with
  | Int z => Z.leb z b
  | Float (Finite q) => Qle_bool q (inject_Z b)
  | Float NegInf => true
  | Float _ => false
  end.
Definition lt_number (a : Z) (v : number) : bool :=
  match v with
  | Int z => Z.ltb a z
  | Float (Finite q) => negb (Qle_bool q (inject_Z a))
  | Float PosInf => true
  | Float _ => false
  end.
Definition number_lt (v : number) (b : Z) : bool :=
  match v with
  | Int z => Z.ltb z b
  | Float (Finite q) => negb (Qle_bool (inject_Z b) q)
  | Float NegInf => true
  | Float _ => false
  end.

(** [int(v)] *)
Definition int_of_number (v : number) : result Z :=
  match v with
  | Int z => Ok z
  | Float f => int_of_float f
  end.

(** [y - v] for an [int] [y]: exact on integers; with a float, [y] is
    converted and the floats subtracted. *)
Definition int_minus (y : Z) (v : number) : result number :=
  match v with
  | Int z => Ok (Int (y - z))
  | Float f => a <- float_of_int y ;; Ok (Float (float_sub a f))
  end.

(** The values a record field can hold: [None], an [int], a [float], a
    [str], a list of strings, or the flag dictionary of the segmenter. *)
Inductive Value : Type :=
| VNone
| VInt (z : Z)
| VFloat (f : float)
| VStr (s : str)
| VList (l : list str)
| VDict (d : list (str * bool)).

(** A dictionary keyed by strings, in insertion order. *)
Definition dict (V : Type) := list (str * V).

Section Dict.
Variable V : Type.

(** [d.get(k)] *)
Fixpoint get (k : str) (d : dict V) : option V :=
  match d with
  | [] => None
  | (k', v) :: t => if str_eqb k k' then Some v else get k t
  end.

(** [k in d] *)
Definition mem (k : str) (d : dict V) : bool :=
  match get k d with
  | Some _ => true
  | None => false
  end.

(** [d[k] = v] *)
Fixpoint set (k : str) (v : V) (d : dict V) : dict V :=
  match d with
  | [] => [(k, v)]
  | (k', v') :: t =>
      if str_eqb k k' then (k, v) :: t else (k', v') :: set k v t
  end.

(** [del d[k]], the dictionary left by [d.pop(k, default)]. *)
Fixpoint remove (k : str) (d : dict V) : dict V :=
  match d with
  | [] => []
  | (k', v') :: t =>
      if str_eqb k k' then t else (k', v') :: remove k t
  end.

(** [d.update(e)] *)
Definition update (d e : dict V) : dict V :=
  fold_left (fun acc kv => set (fst kv) (snd kv) acc) e d.

Definition keys (d : dict V) : list str := map fst d.
End Dict.

(** Truthiness: [bool(v)]. *)
Definition truthy (v : Value) : bool :=
  match v with
  | VNone => false
  | VInt z => negb (Z.eqb z 0)
  | VFloat f => negb (is_zero (Float f))
  | VStr s => negb (str_eqb s [])
  | VList l => match l with [] => false | _ => true end
  | VDict d => match d with [] => false | _ => true end
  end.

(** [v in [None, [], "", {}]] *)
Definition is_empty_value (v : Value) : bool :=
  match v with
  | VNone => true
  | VStr [] => true
  | VList [] => true
  | VDict [] => true
  | _ => false
  end.

(** [list(v)]: iterating a value yields the items of a list, the characters
    of a string, the keys of a dictionary; anything else is not iterable. *)
Definition iterate (v : Value) : result (list str) :=
  match v with
  | VList l => Ok l
  | VStr s => Ok (map (fun c => [c]) s)
  | VDict d => Ok (map fst d)
  | _ => Raise TypeError
  end.

(** [v.extend(w)]: only a list has the method. *)
Definition extend (v w : Value) : result Value :=
  match v with
  | VList l => l' <- iterate w ;; Ok (VList (l ++ l'))
  | _ => Raise AttributeError
  end.

End Py.
Export Py.

(** ** TextNormalizer *)

(** [re.sub] of the zero-width marks by the empty string. *)
Definition remove_invisible (s : str) : str :=
  filter (fun c => negb (is_invisible c)) s.

(** [re.sub(r'\s+', ' ', text)] *)
Fixpoint collapse_ws (s : str) : str :=
  match s with
  | [] => []
  | c :: t =>
      if is_space c then
        match t with
        | [] => [SP]
        | c' :: _ => if is_space c' then collapse_ws t else SP :: collapse_ws t
        end
      else c :: collapse_ws t
  end.

(** [re.sub(r'\n{3,}', '\n\n', text)]: of a run of three or more line
    breaks only the last two remain. *)
Fixpoint collapse_breaks (s : str) : str :=
  match s with
  | [] => []
  | c :: t =>
      match t with
      | c1 :: c2 :: _ =>
          if (c =? LF)%N && (c1 =? LF)%N && (c2 =? LF)%N
          then collapse_breaks t
          else c :: collapse_breaks t
      | _ => c :: collapse_breaks t
      end
  end.

Definition _clean_text (text : str) : str :=
  match text with
  | [] => []
  | _ => strip (collapse_ws (remove_invisible text))
  end.

Definition _clean_description_text (text : str) : str :=
  match text with
  | [] => []
  | _ =>
      let text := remove_invisible text in
      let lines := split_on LF text in
      let cleaned_lines := map (fun line => strip (collapse_ws line)) lines in
      let text_joined := join [LF] cleaned_lines in
      strip (collapse_breaks text_joined)
  end.

(** The value of a decimal digit string. *)
Definition digits_value (ds : str) : N :=
  fold_left (fun acc d => (acc * 10 + digit_value d)%N) ds 0%N.

(** [float(m)] for a numeral [m] made of the digits [ip], then possibly a
    point and the digits [fp]: the float nearest to its value. *)
Definition float_of_numeral (ip fp : str) : float :=
  round64 (Qmake (Z.of_N (digits_value (ip ++ fp)))
                 (Z.to_pos (10 ^ Z.of_nat (length fp)))).

Definition _extract_number (text : str) : option float :=
  match text with
  | [] => None
  | _ =>
      let text := remove_char COMMA text in
      (* re.search: the leftmost digit run, an optional point, more digits *)
      match drop_while (fun c => negb (is_digit c)) text with
      | [] => None
      | m =>
          let ip := take_while is_digit m in
          let fp := match drop_while is_digit m with
                    | d :: r => if (d =? DOT)%N then take_while is_digit r
                                else []
                    | [] => []
                    end in
          Some (float_of_numeral ip fp)
      end
  end.

Definition _calculate_construction_year (current_year : Z)
  (year_or_age : number) : result (option Z) :=
  if is_zero year_or_age then Ok None
  else if le_number 1900 year_or_age
          && number_le year_or_age (current_year + 2)
  then z <- int_of_number year_or_age ;; Ok (Some z)
  else if lt_number 0 year_or_age && number_lt year_or_age 100
  then d <- int_minus current_year year_or_age ;;
       z <- int_of_number d ;;
       Ok (Some z)
  else Ok None.

(** ** String constants of the scraper *)

Module K.
Definition precio : str := Eval vm_compute in u "precio".
Definition operacion : str := Eval vm_compute in u "operacion".
Definition cuota : str := Eval vm_compute in u "cuota".
Definition precio_de_venta : str := Eval vm_compute in u "precio_de_venta".
Definition precio_de_renta : str := Eval vm_compute in u "precio_de_renta".
Definition Venta : str := Eval vm_compute in u "Venta".
Definition Renta : str := Eval vm_compute in u "Renta".
Definition comma_space : str := Eval vm_compute in u ", ".
Definition y_between : str := Eval vm_compute in u " y ".
Definition la_propiedad_cuenta_con : str :=
  Eval vm_compute in u "La propiedad cuenta con ".
Definition descripcion_amenidades : str :=
  Eval vm_compute in u "descripcion_amenidades".
Definition amenidades_estructurales : str :=
  Eval vm_compute in u "amenidades_estructurales".
Definition amenidades_extraidas : str :=
  Eval vm_compute in u "amenidades_extraidas".
Definition amenidades : str := Eval vm_compute in u "amenidades".
Definition equipamiento : str := Eval vm_compute in u "equipamiento".
Definition cercanias : str := Eval vm_compute in u "cercanias".
Definition cercania : str := Eval vm_compute in u "cercania".
Definition planta_baja : str := Eval vm_compute in u "planta_baja".
Definition planta_alta : str := Eval vm_compute in u "planta_alta".
Definition caracteristicas_adicionales : str :=
  Eval vm_compute in u "caracteristicas_adicionales".
Definition precio_negociable : str := Eval vm_compute in u "precio_negociable".
Definition no_paga_mantenimiento : str :=
  Eval vm_compute in u "no_paga_mantenimiento".
Definition kw_precio_a_tratar_starred : str :=
  Eval vm_compute in u "*precio a tratar*".
Definition kw_precio_a_tratar : str := Eval vm_compute in u "precio a tratar".
Definition kw_precio_negociable : str :=
  Eval vm_compute in u "precio negociable".
Definition kw_no_paga_mantenimiento : str :=
  Eval vm_compute in u "no paga mantenimiento".
Definition url : str := Eval vm_compute in u "url".
Definition titulo : str := Eval vm_compute in u "titulo".
Definition subtitulo : str := Eval vm_compute in u "subtitulo".
Definition direccion : str := Eval vm_compute in u "direccion".
Definition moneda : str := Eval vm_compute in u "moneda".
Definition MXN : str := Eval vm_compute in u "MXN".
Definition USD : str := Eval vm_compute in u "USD".
Definition mxn : str := Eval vm_compute in u "mxn".
Definition usd : str := Eval vm_compute in u "usd".
Definition descripcion : str := Eval vm_compute in u "descripcion".
Definition anio_de_construccion : str :=
  Eval vm_compute in u "año_de_construcción".
Definition terreno : str := Eval vm_compute in u "terreno".
Definition m2_terreno : str := Eval vm_compute in u "m²_terreno".
Definition construccion : str := Eval vm_compute in u "construcción".
Definition m2_construccion : str := Eval vm_compute in u "m²_construcción".
Definition tipo : str := Eval vm_compute in u "tipo".
Definition tipo_propiedad : str := Eval vm_compute in u "tipo_propiedad".
Definition edo_conservacion_raw : str :=
  Eval vm_compute in u "edo._conservación".
Definition edo_conservacion : str := Eval vm_compute in u "edo_conservacion".
(** The alternatives of the section-name pattern of [_find_header]. *)
Definition header_names : list str :=
  Eval vm_compute in
    [u "Cercanias"; u "Cercanías"; u "Planta Alta"; u "Planta Baja";
     u "Equipamiento"; u "Distribución"; u "Servicios en la zona"].
Definition nearby_names : list str :=
  Eval vm_compute in
    [u "Cercanias"; u "Cercanías"; u "Servicios en la zona"].
Definition equipment_names : list str :=
  Eval vm_compute in [u "Equipamiento"].
End K.

(** ** The DOM as the scraper queries it *)

Inductive TagKind : Type :=
| Icon        (* a tag named i *)
| ValueSpan   (* a tag equal to the cell's bold value span *)
| OtherTag.

Inductive Node : Type :=
| NavigableString (s : str)
| Tag (k : TagKind).

(** An item of the summary row: the text of its muted label and the
    siblings that follow the label, when the label exists. *)
Record SummaryItem : Type := {
  key_tag : option (str * list Node)
}.

(** A detail cell: the text of its first bold span, its direct children,
    and [item.get_text(separator=' ', strip=True)]. *)
Record DetailItem : Type := {
  value_tag : option str;
  contents : list Node;
  get_text : str
}.

(** The content area of a page. *)
Record Page : Type := {
  h1 : option str;
  subtitle_tag : option str;
  address_tag : option str;
  price_tag : option str;
  summary_block : option (list SummaryItem);
  detail_items : list DetailItem;
  description_tag : option str;     (* get_text(separator='\n') *)
  meta_description : option str     (* content of the og:description meta *)
}.

Definition nonempty (s : str) : bool :=
  match s with
  | [] => false
  | _ => true
  end.

Definition float_or_none (o : option float) : Value :=
  match o with
  | Some q => VFloat q
  | None => VNone
  end.

(** ** StructuralExtractor *)

(** The sibling walk of [_parse_main_summary]: text nodes are stripped and
    accumulated with a trailing space until an icon is met. *)
Fixpoint summary_value_text (sibs : list Node) : str :=
  match sibs with
  | [] => []
  | NavigableString s :: t => strip s ++ [SP] ++ summary_value_text t
  | Tag Icon :: _ => []
  | Tag _ :: t => summary_value_text t
  end.

Definition normalize_key (s : str) : str := replace_char SP UNDERSCORE (lower s).

Definition summary_step (data : dict Value) (item : SummaryItem) : dict Value :=
  match key_tag item with
  | Some (key_text, sibs) =>
      let key := normalize_key (_clean_text key_text) in
      let value_text := _clean_text (summary_value_text sibs) in
      set key (float_or_none (_extract_number value_text)) data
  | None => data
  end.

Definition _parse_main_summary (summary_block : option (list SummaryItem))
  : dict Value :=
  match summary_block with
  | None => []
  | Some items => fold_left summary_step items []
  end.

(** First loop over [item.contents]: the text nodes before the value span. *)
Fixpoint key_before_value (cs : list Node) : str :=
  match cs with
  | [] => []
  | Tag ValueSpan :: _ => []
  | NavigableString s :: t => strip s ++ [SP] ++ key_before_value t
  | Tag _ :: t => key_before_value t
  end.

(** Second loop over [item.contents]: every text node, icons skipped. *)
Fixpoint key_text_parts (cs : list Node) : list str :=
  match cs with
  | [] => []
  | NavigableString s :: t => strip s :: key_text_parts t
  | Tag _ :: t => key_text_parts t
  end.

(** The extraction logic of one cell: its key text and value text. *)
Definition cell_key_value (item : DetailItem) : str * str :=
  let '(key_text, value_text) :=
    match value_tag item with
    | Some vt =>
        (strip (rstrip_by (N.eqb COLON)
                 (_clean_text (key_before_value (contents item)))),
         _clean_text vt)
    | None => ([], [])
    end in
  if nonempty key_text then (key_text, value_text)
  else
    let text := _clean_text (get_text item) in
    if has_char COLON text && negb (nonempty value_text) then
      let '(a, b) := split_first COLON text in (_clean_text a, _clean_text b)
    else if nonempty text then
      (strip (join [SP] (key_text_parts (contents item))), [])
    else (key_text, value_text).

Record DetailState : Type := {
  d_data : dict Value;
  d_amenities : list str;
  d_parts : list str     (* amenities_description_parts *)
}.

Definition is_excluded (key_normalized : str) : bool :=
  contains K.precio key_normalized || contains K.operacion key_normalized
  || contains K.cuota key_normalized.

(** Narrative generation and structured extraction for one cell. *)
Definition process_cell (st : DetailState) (key_text value_text : str)
  : DetailState :=
  if nonempty key_text then
    let key_normalized := normalize_key key_text in
    let narrative_part :=
      if is_excluded key_normalized then []
      else if nonempty value_text
           then lower key_text ++ [SP] ++ lower value_text
           else lower key_text in
    let parts :=
      if nonempty narrative_part then d_parts st ++ [narrative_part]
      else d_parts st in
    if nonempty value_text then
      let numeric_value := _extract_number value_text in
      let data :=
        if contains K.precio_de_venta key_normalized
        then set K.operacion (VStr K.Venta) (d_data st)
        else if contains K.precio_de_renta key_normalized
        then set K.operacion (VStr K.Renta) (d_data st)
        else if negb (contains K.precio key_normalized)
        then set key_normalized
               (match numeric_value with
                | Some q => VFloat q
                | None => VStr value_text
                end) (d_data st)
        else d_data st in
      {| d_data := data; d_amenities := d_amenities st; d_parts := parts |}
    else
      {| d_data := d_data st;
         d_amenities := d_amenities st ++ [key_text];
         d_parts := parts |}
  else st.

Definition detail_step (st : DetailState) (item : DetailItem) : DetailState :=
  let '(key_text, value_text) := cell_key_value item in
  process_cell st key_text value_text.

Definition detail_loop (items : list DetailItem) : DetailState :=
  fold_left detail_step items
    {| d_data := []; d_amenities := []; d_parts := [] |}.

(** [s[:i] + ' y ' + s[i+2:]] at the last [', '] of [s], if any. *)
Definition replace_last_comma (description_text : str) : str :=
  if contains K.comma_space description_text then
    match rfind K.comma_space description_text with
    | Some last_comma_index =>
        firstn last_comma_index description_text ++ K.y_between
        ++ skipn (last_comma_index + 2) description_text
    | None => description_text     (* not reached: see [rfind_from_spec] *)
    end
  else description_text.

(** The narrative sentence built from the accumulated fragments. *)
Definition narrative (amenities_description_parts : list str) : str :=
  let unique_parts := dedupe amenities_description_parts in
  let description_text := join K.comma_space unique_parts in
  K.la_propiedad_cuenta_con ++ replace_last_comma description_text.

Definition detail_finish (st : DetailState) : dict Value :=
  let data :=
    match d_parts st with
    | [] => d_data st
    | _ => set K.descripcion_amenidades (VStr (narrative (d_parts st)))
             (d_data st)
    end in
  match d_amenities st with
  | [] => data
  | amenities =>
      let filtered_amenities :=
        filter (fun a => negb (mem (normalize_key a) data)) amenities in
      set K.amenidades_estructurales (VList filtered_amenities) data
  end.

Definition _parse_details_and_features (items : list DetailItem)
  : dict Value :=
  detail_finish (detail_loop items).

(** ** HeuristicTextSegmenter *)

Definition word_or_space (c : N) : bool := is_word c || is_space c.

(** The tail of the first header pattern: spaces, an optional colon, the end
    of the text (or the line break that ends it). *)
Definition header_tail (r : str) : bool :=
  match drop_while is_space r with
  | [] => true
  | [c] => (c =? COLON)%N
  | [c; c'] => (c =? COLON)%N && (c' =? LF)%N
  | _ => false
  end.

(** The lazy group of the first header pattern: the shortest prefix of [n],
    [n+1], ... characters, all word characters or spaces, after which the
    tail matches; [k] bounds the number of lengths tried. *)
Fixpoint lazy_group (k n : nat) (text : str) : option str :=
  match k with
  | O => None
  | S k' =>
      if (n <=? length text)%nat && forallb word_or_space (firstn n text)
         && header_tail (skipn n text)
      then Some (firstn n text)
      else lazy_group k' (S n) text
  end.

(** The first alternative, matched ignoring case, that starts [text]: the
    matched prefix of [text]. *)
Fixpoint match_names (names : list str) (text : str) : option str :=
  match names with
  | [] => None
  | name :: rest =>
      if starts_with_ci name text
      then Some (firstn (length name) text)
      else match_names rest text
  end.

(** [_find_header]: group 1 of the match, if the line is a header. *)
Definition _find_header (text : str) : option str :=
  let text_cleaned := _clean_text text in
  match lazy_group 39 2 text_cleaned with
  | Some g => Some g
  | None => match_names K.header_names text_cleaned
  end.

(** Line breaks before bullets in a description that has none: each bullet
    glyph not at position 0 swallows the spaces before it and is preceded by
    a line break. *)
Fixpoint break_before_bullets_go (pending : str) (s : str) : str :=
  match s with
  | [] => pending
  | c :: t =>
      if is_space c then break_before_bullets_go (pending ++ [c]) t
      else if is_bullet_or_hyphen c
           then LF :: c :: break_before_bullets_go [] t
           else pending ++ c :: break_before_bullets_go [] t
  end.

Definition break_before_bullets (s : str) : str :=
  match s with
  | [] => []
  | c :: t => c :: break_before_bullets_go [] t
  end.

Record SegState : Type := {
  s_data : dict (list str);
  s_current_section : str;
  s_flags : dict bool     (* caracteristicas_adicionales *)
}.

(** [data[k].append(x)]; the key is present whenever the segmenter appends
    (lemma [seg_current_present]). *)
Fixpoint append_item (k : str) (x : str) (d : dict (list str))
  : dict (list str) :=
  match d with
  | [] => []
  | (k', l) :: t =>
      if str_eqb k k' then (k', l ++ [x]) :: t
      else (k', l) :: append_item k x t
  end.

Definition has_negotiable_keyword (lc : str) : bool :=
  contains K.kw_precio_a_tratar_starred lc
  || contains K.kw_precio_a_tratar lc
  || contains K.kw_precio_negociable lc.

Definition has_no_fee_keyword (lc : str) : bool :=
  contains K.kw_no_paga_mantenimiento lc.

(** Replacement of a leading bullet glyph by a hyphen. *)
Definition normalize_bullet (line : str) : str :=
  match line with
  | c :: t => if is_bullet c then HYPHEN :: t else line
  | [] => []
  end.

(** Group 1 of the list-item pattern: a hyphen, spaces, then at least one
    character.  On a stripped line the remainder after the spaces is empty
    only when nothing follows the hyphen (lemma [item_remainder_nonempty]),
    so the pattern never has to give a space back to the group. *)
Definition item_match (line_normalized : str) : option str :=
  match line_normalized with
  | c :: t =>
      if (c =? HYPHEN)%N then
        match drop_while is_space t with
        | [] => None
        | g => Some g
        end
      else None
  | [] => None
  end.

Definition section_of_header (header_text : str) : str :=
  match match_names K.nearby_names header_text with
  | Some _ => K.cercanias
  | None =>
      match match_names K.equipment_names header_text with
      | Some _ => K.equipamiento
      | None => normalize_key (_clean_text header_text)
      end
  end.

(** The body of the line loop. *)
Definition seg_step (st : SegState) (line_raw : str) : SegState :=
  let line_stripped := strip line_raw in
  if nonempty line_stripped then
    let line_cleaned := _clean_text line_stripped in
    let kw1 := has_negotiable_keyword (lower line_cleaned) in
    let kw2 := has_no_fee_keyword (lower line_cleaned) in
    let flags := if kw1 then set K.precio_negociable true (s_flags st)
                 else s_flags st in
    let flags := if kw2 then set K.no_paga_mantenimiento true flags
                 else flags in
    let is_keyword_line := kw1 || kw2 in
    let line_normalized := normalize_bullet line_stripped in
    match _find_header line_normalized with
    | Some g =>
        let header_text := if nonempty g then g else line_normalized in
        let header_text := strip (rstrip_by (N.eqb COLON) header_text) in
        let current_section := section_of_header header_text in
        {| s_data := if mem current_section (s_data st) then s_data st
                     else set current_section [] (s_data st);
           s_current_section := current_section;
           s_flags := flags |}
    | None =>
        match item_match line_normalized with
        | Some g =>
            let item := _clean_text g in
            {| s_data := if nonempty item && negb is_keyword_line
                         then append_item (s_current_section st) item
                                (s_data st)
                         else s_data st;
               s_current_section := s_current_section st;
               s_flags := flags |}
        | None =>
            {| s_data :=
                 if (length (words line_cleaned) <? 15)%nat
                    && negb (str_eqb (s_current_section st)
                               K.amenidades_extraidas)
                    && nonempty line_cleaned && negb is_keyword_line
                 then append_item (s_current_section st) line_cleaned
                        (s_data st)
                 else s_data st;
               s_current_section := s_current_section st;
               s_flags := flags |}
        end
    end
  else st.

Definition seg_init : SegState :=
  {| s_data := [(K.amenidades_extraidas, [])];
     s_current_section := K.amenidades_extraidas;
     s_flags := [] |}.

(** The text the line loop runs over. *)
Definition seg_preprocess (description_raw : str) : str :=
  let description_cleaned := remove_invisible description_raw in
  if negb (has_char LF (strip description_cleaned))
     && existsb is_bullet_or_hyphen description_cleaned
  then break_before_bullets description_cleaned
  else description_cleaned.

Definition seg_lines (description_raw : str) : list str :=
  split_on LF (seg_preprocess description_raw).

Definition seg_loop (description_raw : str) : SegState :=
  fold_left seg_step (seg_lines description_raw) seg_init.

Definition known_sections : list str :=
  [K.cercanias; K.planta_baja; K.planta_alta; K.equipamiento].

Definition fold_key (key : str) : str :=
  if contains K.cercania key then K.cercanias
  else if contains K.planta_baja key then K.planta_baja
  else if contains K.planta_alta key then K.planta_alta
  else key.

(** The consolidation loop over the sections: the known sections (in order
    of first appearance) and the default bucket. *)
Definition fold_section (acc : dict (list str) * list str)
  (kv : str * list str) : dict (list str) * list str :=
  let '(sections, amenities) := acc in
  let '(key, value) := kv in
  match value with
  | [] => acc
  | _ =>
      let normalized_key := fold_key key in
      if existsb (str_eqb normalized_key) known_sections then
        match get normalized_key sections with
        | Some l => (set normalized_key (l ++ value) sections, amenities)
        | None => (set normalized_key value sections, amenities)
        end
      else (sections, amenities ++ value)
  end.

(** The dictionary returned after the loop: the flags when one is set, the
    known sections, the default bucket when it is not empty. *)
Definition seg_finish (st : SegState) : dict Value :=
  let amenities :=
    match get K.amenidades_extraidas (s_data st) with
    | Some l => l
    | None => []
    end in
  let data := remove K.amenidades_extraidas (s_data st) in
  let '(sections, amenities) := fold_left fold_section data ([], amenities) in
  (match s_flags st with
   | [] => []
   | flags => [(K.caracteristicas_adicionales, VDict flags)]
   end)
  ++ map (fun kv => (fst kv, VList (snd kv))) sections
  ++ (match amenities with
      | [] => []
      | _ => [(K.amenidades_extraidas,
               VList (filter (fun a => (2 <? length a)%nat) amenities))]
      end).

Definition _parse_description_heuristics (description_raw : str)
  : dict Value :=
  match description_raw with
  | [] => [(K.amenidades_extraidas, VList [])]
  | _ => seg_finish (seg_loop description_raw)
  end.

(** ** RecordConsolidator: [parse_property_html] *)

(** [self.current_year], set by the constructor. *)
Definition current_year : Z := 2025.

Definition clean_or_none (o : option str) : Value :=
  match o with
  | Some t => VStr (_clean_text t)
  | None => VNone
  end.

(** Page identity fields. *)
Definition stage_identity (page : Page) (url : str) : dict Value :=
  let data := [(K.url, VStr url)] in
  let data := set K.titulo (clean_or_none (h1 page)) data in
  let data := set K.subtitulo (clean_or_none (subtitle_tag page)) data in
  set K.direccion (clean_or_none (address_tag page)) data.

Definition detect_currency (price_text : str) : Value :=
  if contains K.mxn (lower price_text) then VStr K.MXN
  else if contains K.usd (lower price_text) then VStr K.USD
  else VNone.

(** Price and currency. *)
Definition stage_price (page : Page) (data : dict Value) : dict Value :=
  match price_tag page with
  | Some t =>
      let price_text := _clean_text t in
      let data := set K.precio (float_or_none (_extract_number price_text))
                    data in
      set K.moneda (detect_currency price_text) data
  | None => data
  end.

Definition stage_summary (page : Page) (data : dict Value) : dict Value :=
  update data (_parse_main_summary (summary_block page)).

Definition stage_details (page : Page) (data : dict Value) : dict Value :=
  update data (_parse_details_and_features (detail_items page)).

(** The description text: the description element, else the meta tag; the
    empty string stands for a missing or empty description. *)
Definition description_raw (page : Page) : str :=
  let from_tag := match description_tag page with
                  | Some t => t
                  | None => []
                  end in
  if nonempty from_tag then from_tag
  else match meta_description page with
       | Some c => c
       | None => []
       end.

Definition stage_heuristics (page : Page) (data : dict Value) : dict Value :=
  let raw := description_raw page in
  if nonempty raw then update data (_parse_description_heuristics raw)
  else data.

Definition stage_description (page : Page) (data : dict Value) : dict Value :=
  let raw := description_raw page in
  if nonempty raw then set K.descripcion (VStr (_clean_description_text raw)) data
  else data.

(** The record before consolidation: the merge stages in order. *)
Definition merge_stages (page : Page) (url : str) : dict Value :=
  stage_description page
    (stage_heuristics page
       (stage_details page
          (stage_summary page
             (stage_price page (stage_identity page url))))).

Definition key_mapping : dict str :=
  [(K.terreno, K.m2_terreno);
   (K.construccion, K.m2_construccion);
   (K.tipo, K.tipo_propiedad);
   (K.edo_conservacion_raw, K.edo_conservacion)].

Definition is_none (v : Value) : bool :=
  match v with
  | VNone => true
  | _ => false
  end.

(** [key_mapping.get(k, k)] *)
Definition final_key (k : str) : str :=
  match get k key_mapping with
  | Some k' => k'
  | None => k
  end.

(** The body of the renaming loop. *)
Definition rename_step (final_data : dict Value) (kv : str * Value)
  : dict Value :=
  let '(k, v) := kv in
  match get (final_key k) final_data with
  | Some old =>
      if negb (is_none v) && is_none old then set (final_key k) v final_data
      else final_data
  | None => set (final_key k) v final_data
  end.

(** The cleaned amenity list: [sorted(list(set(cleaned_amenities)))]. *)
Definition clean_amenities (all_amenities : list str) : list str :=
  let cleaned_amenities :=
    map (fun a => capitalize (_clean_text a)) (filter nonempty all_amenities) in
  sorted (dedupe cleaned_amenities).

Definition int_or_none (o : option Z) : Value :=
  match o with
  | Some z => VInt z
  | None => VNone
  end.

(** Merging of the three amenity sources into [all_amenities]. *)
Definition gather_amenities (data : dict Value)
  : result (Value * dict Value) :=
  let all_amenities := match get K.amenidades_estructurales data with
                       | Some v => v
                       | None => VList []
                       end in
  let data := remove K.amenidades_estructurales data in
  r <- match get K.amenidades_extraidas data with
       | Some v =>
           a <- extend all_amenities v ;;
           Ok (a, remove K.amenidades_extraidas data)
       | None => Ok (all_amenities, data)
       end ;;
  match get K.equipamiento (snd r) with
  | Some (VList l) =>
      a <- extend (fst r) (VList l) ;;
      Ok (a, remove K.equipamiento (snd r))
  | _ => Ok r
  end.

Definition store_amenities (all_amenities : Value) (data : dict Value)
  : result (dict Value) :=
  if truthy all_amenities then
    items <- iterate all_amenities ;;
    Ok (set K.amenidades (VList (clean_amenities items)) data)
  else Ok data.

Definition fix_construction_year (data : dict Value)
  : result (dict Value) :=
  match get K.anio_de_construccion data with
  | Some (VInt z) =>
      y <- _calculate_construction_year current_year (Int z) ;;
      Ok (set K.anio_de_construccion (int_or_none y) data)
  | Some (VFloat f) =>
      y <- _calculate_construction_year current_year (Float f) ;;
      Ok (set K.anio_de_construccion (int_or_none y) data)
  | _ => Ok data
  end.

Definition rename_keys (data : dict Value) : dict Value :=
  fold_left rename_step data [].

Definition prune (final_data : dict Value) : dict Value :=
  filter (fun kv => negb (is_empty_value (snd kv))) final_data.

(** Consolidation and final cleaning. *)
Definition consolidate (data : dict Value) : result (dict Value) :=
  r <- gather_amenities data ;;
  data <- store_amenities (fst r) (snd r) ;;
  data <- fix_construction_year data ;;
  Ok (prune (rename_keys data)).

(** [parse_property_html]: [None] stands for a document with neither the
    listing container nor a body, on which the first query raises. *)
Definition parse_property_html (doc : option Page) (url : str)
  : result (dict Value) :=
  match doc with
  | None => Raise AttributeError
  | Some page => consolidate (merge_stages page url)
  end.

Unset Implicit Arguments.

(** ** Specification-side definitions

    The definitions below follow the words of the specification; the
    properties compare them with the code above. *)

(** The value of a number, when it is finite. *)
Definition value_of (v : number) : option Q :=
  match v with
  | Int z => Some (inject_Z z)
  | Float (Finite q) => Some q
  | Float _ => None
  end.

(** The value is an absolute year: it lies in [[1900, current_year + 2]]. *)
Definition absolute_year (y : Z) (v : number) : Prop :=
  exists q, value_of v = Some q
            /\ (inject_Z 1900 <= q)%Q /\ (q <= inject_Z (y + 2))%Q.

(** The value is a building age: it lies in [(0, 100)]. *)
Definition building_age (v : number) : Prop :=
  exists q, value_of v = Some q /\ (0 < q)%Q /\ (q < inject_Z 100)%Q.

(** A float that is not negative. *)
Definition nonnegative (f : float) : Prop :=
  match f with
  | Finite q => (0 <= q)%Q
  | PosInf => True
  | _ => False
  end.

(** [clean_multiline] in the words of the specification: invisible marks
    stripped; each physical line reduced to its words separated by single
    spaces; lines rejoined with line breaks; runs of three or more breaks
    collapsed; the whole trimmed. *)
Definition clean_multiline_spec (text : str) : str :=
  let lines := split_on LF (remove_invisible text) in
  let cleaned := map (fun line => join [SP] (words line)) lines in
  strip (collapse_breaks (join [LF] cleaned)).

(** [ip] is the first number of [text]: it follows a prefix without digits,
    is a non-empty run of digits, and no digit follows it. *)
Definition first_numeral (text pre ip rest : str) : Prop :=
  text = pre ++ ip ++ rest
  /\ forallb (fun c => negb (is_digit c)) pre = true
  /\ ip <> []
  /\ forallb is_digit ip = true
  /\ match rest with
     | c :: _ => is_digit c = false
     | [] => True
     end.

(** The decimals that follow the first number: the digits after a point
    that comes right after it. *)
Definition fraction_digits (rest : str) : str :=
  match rest with
  | d :: r => if (d =? DOT)%N then take_while is_digit r else []
  | [] => []
  end.

(** Deduplication preserving first-seen order: a fragment stays where it
    first appears and its later copies are removed. *)
Fixpoint first_seen (l : list str) : list str :=
  match l with
  | [] => []
  | a :: t => a :: filter (fun b => negb (str_eqb b a)) (first_seen t)
  end.

(** Replacement of the last occurrence of [sep] in [s] by [new]. *)
Fixpoint replace_last (sep new s : str) : str :=
  match s with
  | [] => []
  | c :: t =>
      if contains sep t then c :: replace_last sep new t
      else if starts_with sep s then new ++ skipn (length sep) s
      else s
  end.

(** The narrative sentence in the words of the specification. *)
Definition narrative_spec (fragments : list str) : str :=
  K.la_propiedad_cuenta_con
  ++ replace_last K.comma_space K.y_between
       (join K.comma_space (first_seen fragments)).

(** The order of [sorted]: strictly before, by code points. *)
Definition str_lt (a b : str) : Prop := str_ltb a b = true.

(** An entry is capitalized when capitalizing it changes nothing. *)
Definition capitalized (e : str) : Prop := capitalize e = e.

(** The three amenity sources of a merged record, taken as lists. *)
Definition list_or_absent (k : str) (data : dict Value) : Prop :=
  match get k data with
  | None | Some (VList _) => True
  | Some _ => False
  end.

Definition source_list (k : str) (data : dict Value) : list str :=
  match get k data with
  | Some (VList l) => l
  | _ => []
  end.

Definition amenity_sources (data : dict Value) : list str :=
  source_list K.amenidades_estructurales data
  ++ source_list K.amenidades_extraidas data
  ++ source_list K.equipamiento data.

(** What the consolidator leaves of a merged record once the amenity
    sources are popped. *)
Definition without_sources (data : dict Value) : dict Value :=
  let data := remove K.amenidades_extraidas
                (remove K.amenidades_estructurales data) in
  match get K.equipamiento data with
  | Some (VList _) => remove K.equipamiento data
  | _ => data
  end.

(** The line, once stripped, is a non-empty line whose single-line
    lower-case form mentions a negotiable price, respectively the absence of
    a maintenance fee. *)
Definition negotiable_line (line : str) : Prop :=
  strip line <> []
  /\ has_negotiable_keyword (lower (_clean_text (strip line))) = true.

Definition no_fee_line (line : str) : Prop :=
  strip line <> []
  /\ has_no_fee_keyword (lower (_clean_text (strip line))) = true.

(** The flag [name] is set in the segmenter's result. *)
Definition flag_set (name : str) (out : dict Value) : Prop :=
  exists flags,
    get K.caracteristicas_adicionales out = Some (VDict flags)
    /\ get name flags = Some true.

(** The text mentions none of the keywords. *)
Definition keyword_free (item : str) : Prop :=
  has_negotiable_keyword (lower item) = false
  /\ has_no_fee_keyword (lower item) = false.

(** The record after each merge stage. *)
Definition data_after_price (page : Page) (url : str) : dict Value :=
  stage_price page (stage_identity page url).
Definition data_after_summary (page : Page) (url : str) : dict Value :=
  stage_summary page (data_after_price page url).
Definition data_after_details (page : Page) (url : str) : dict Value :=
  stage_details page (data_after_summary page url).
Definition data_after_heuristics (page : Page) (url : str) : dict Value :=
  stage_heuristics page (data_after_details page url).

(** A stage only adds: a key holding a non-null value keeps it. *)
Definition only_adds (before after : dict Value) : Prop :=
  forall k v, get k before = Some v -> v <> VNone -> get k after = Some v.

(** Every later merge stage of a page only adds. *)
Definition later_stages_only_add (page : Page) (url : str) : Prop :=
  only_adds (data_after_price page url) (data_after_summary page url)
  /\ only_adds (data_after_summary page url) (data_after_details page url)
  /\ only_adds (data_after_details page url) (data_after_heuristics page url)
  /\ only_adds (data_after_heuristics page url) (merge_stages page url).

(** ** Example pages *)

Definition example_url : str :=
  Eval vm_compute in u "https://century21.example/propiedad/1".

(** A bare cell: an icon followed by a label. *)
Definition bare_cell (label : str) : DetailItem :=
  {| value_tag := None;
     contents := [Tag Icon; NavigableString label];
     get_text := strip label |}.

(** A cell with a label and a bold value. *)
Definition valued_cell (label value : str) : DetailItem :=
  {| value_tag := Some value;
     contents := [NavigableString (label ++ [COLON; SP]); Tag ValueSpan];
     get_text := label ++ [COLON; SP] ++ value |}.

Definition summary_item (label value : str) : SummaryItem :=
  {| key_tag := Some (label, [NavigableString value; Tag Icon]) |}.

(** A listing with every block present. *)
Definition example_page : Page :=
  Eval vm_compute in
  {| h1 := Some (u " Casa   en venta ");
     subtitle_tag := None;
     address_tag := Some (u "Calle 1, Centro");
     price_tag := Some (u "$1,234,567 MXN");
     summary_block :=
       Some [summary_item (u "Terreno") (u " 200 m² ");
             summary_item (u "Recámaras") (u "3")];
     detail_items :=
       [valued_cell (u "Año de construcción") (u "15");
        bare_cell (u " alberca ");
        bare_cell (u "Alberca");
        valued_cell (u "Tipo") (u "Casa")];
     description_tag :=
       Some (u "Linda casa." ++ [LF] ++ u "*Precio a tratar*" ++ [LF]
             ++ u "- jardín" ++ [LF]);
     meta_description := None |}.

Definition example_record : dict Value :=
  Eval vm_compute in
    match parse_property_html (Some example_page) example_url with
    | Ok r => r
    | Raise _ => []
    end.

(** A listing whose summary row and detail cells both give the bedrooms. *)
Definition conflicting_page : Page :=
  Eval vm_compute in
  {| h1 := Some (u "Casa");
     subtitle_tag := None; address_tag := None; price_tag := None;
     summary_block := Some [summary_item (u "Recámaras") (u "3")];
     detail_items := [valued_cell (u "Recámaras") (u "4")];
     description_tag := None; meta_description := None |}.

(** A listing reduced to its price block. *)
Definition price_only_page : Page :=
  Eval vm_compute in
  {| h1 := None; subtitle_tag := None; address_tag := None;
     price_tag := Some (u "$1,234,567 MXN");
     summary_block := None; detail_items := [];
     description_tag := None; meta_description := None |}.

(** A listing whose only detail cell is the bare label "Precio". *)
Definition precio_cell_page : Page :=
  Eval vm_compute in
  {| h1 := None; subtitle_tag := None; address_tag := None;
     price_tag := None; summary_block := None;
     detail_items := [bare_cell (u "Precio")];
     description_tag := None; meta_description := None |}.

(** A listing whose only detail cell is labelled "Amenidades". *)
Definition amenidades_cell_page : Page :=
  Eval vm_compute in
  {| h1 := None; subtitle_tag := None; address_tag := None;
     price_tag := None; summary_block := None;
     detail_items := [valued_cell (u "Amenidades") (u "varias")];
     description_tag := None; meta_description := None |}.

(** The [amenidades] field of every record returned for a page is a list,
    strictly sorted and capitalized. *)
Definition amenidades_always_normalized (page : Page) (url : str) : Prop :=
  forall r, parse_property_html (Some page) url = Ok r ->
    match get K.amenidades r with
    | None => True
    | Some v =>
        exists l, v = VList l /\ StronglySorted str_lt l
                  /\ Forall capitalized l
    end.

(** A description with a section, a starred keyword line and an item. *)
Definition keyword_description : str :=
  Eval vm_compute in
    u "Equipamiento:" ++ [LF] ++ u "*Precio a tratar*" ++ [LF]
    ++ u "- Alberca techada".

(** ** Invariants used in the proofs *)

(** The sections folded so far have distinct keys, all of them known. *)
Definition sections_inv (acc : dict (list str) * list str) : Prop :=
  NoDup (keys (fst acc))
  /\ forall k, In k (keys (fst acc)) -> In k known_sections.

(** No key of the detail field map contains "precio". *)
Definition no_precio_key (data : dict Value) : Prop :=
  forall k, In k (keys data) -> contains K.precio k = false.

(** [k0] is not the new name of any renamed key. *)
Definition not_a_new_name (k0 : str) : bool :=
  forallb (fun kv => negb (str_eqb k0 (snd kv))) key_mapping.

(** The keys of a dictionary are left alone by the renaming. *)
Definition keys_stable (d : dict Value) : Prop :=
  forall k, In k (keys d) -> get k key_mapping = None.

(** The shape of a final record: distinct keys, none of them a key the
    renaming would change; no empty value; no amenity source left; a
    construction year, if an integer, within the accepted years. *)
Definition final_shape (r : dict Value) : Prop :=
  NoDup (keys r)
  /\ keys_stable r
  /\ (forall k v, In (k, v) r -> is_empty_value v = false)
  /\ get K.amenidades_estructurales r = None
  /\ get K.amenidades_extraidas r = None
  /\ (forall l, get K.equipamiento r <> Some (VList l))
  /\ (forall q, get K.anio_de_construccion r <> Some (VFloat q))
  /\ (forall z, get K.anio_de_construccion r = Some (VInt z) ->
      (1900 <= z <= current_year + 2)%Z).

(** Every item of every section satisfies [P]. *)
Definition all_items (P : str -> Prop) (data : dict (list str)) : Prop :=
  forall k l item, In (k, l) data -> In item l -> P item.

(** The construction year inferred with the reference year of the scraper,
    with which the inference never raises. *)
Definition inferred_year (v : number) : option Z :=
  match _calculate_construction_year current_year v with
  | Ok o => o
  | Raise _ => None
  end.

(** The record after the construction-year step. *)
Definition fixed_year (data : dict Value) : dict Value :=
  match get K.anio_de_construccion data with
  | Some (VInt z) =>
      set K.anio_de_construccion (int_or_none (inferred_year (Int z))) data
  | Some (VFloat f) =>
      set K.anio_de_construccion (int_or_none (inferred_year (Float f))) data
  | _ => data
  end.

(** ** Further specification-side definitions *)

(** A text in single-line normal form: no invisible mark, no whitespace
    other than single spaces between visible characters. *)
Definition tidy_char (c : N) : Prop :=
  is_invisible c = false /\ (is_space c = true -> c = SP).

Definition tidy (s : str) : Prop :=
  Forall tidy_char s /\ contains [SP; SP] s = false /\ strip s = s.

(** A physical line that the per-line cleaning of the description leaves
    unchanged. *)
Definition line_fixed (l : str) : Prop := strip (collapse_ws l) = l.

(** The first line of a text and the lines after it. *)
Definition first_line (s : str) : str := hd [] (split_on LF s).
Definition other_lines (s : str) : list str := tl (split_on LF s).

(** A key as the extractors normalize it: no whitespace, no upper-case
    letter. *)
Definition normalized_key (k : str) : Prop :=
  Forall (fun c => is_space c = false /\ is_upper c = false) k.

(** A value of the summary map: null or a number that is not negative. *)
Definition number_or_none (v : Value) : Prop :=
  v = VNone \/ exists f, v = VFloat f /\ nonnegative f.

(** A value of the detail field map while the cells are read: a number or a
    string. *)
Definition scalar_value (v : Value) : Prop :=
  (exists q, v = VFloat q) \/ (exists s, v = VStr s).

Definition scalar_values (data : dict Value) : Prop :=
  forall k v, In (k, v) data -> scalar_value v.

(** The flags of the segmenter: only the two known names, only [True]. *)
Definition flags_ok (flags : dict bool) : Prop :=
  forall name b, In (name, b) flags ->
    b = true
    /\ (name = K.precio_negociable \/ name = K.no_paga_mantenimiento).

(** No section of the dictionary is empty. *)
Definition sections_nonempty (sections : dict (list str)) : Prop :=
  forall k l, In (k, l) sections -> l <> [].

(** An item as the segmenter emits it: not empty, in single-line normal
    form. *)
Definition clean_item (item : str) : Prop := item <> [] /\ tidy item.

(** A segmenter state in which nothing has been collected and no header has
    been seen. *)
Definition idle (st : SegState) : Prop :=
  s_data st = [(K.amenidades_extraidas, [])]
  /\ s_current_section st = K.amenidades_extraidas.

(** The characters of a text that are not whitespace. *)
Definition visible (s : str) : str := filter (fun c => negb (is_space c)) s.

(** Every bullet glyph or hyphen of [s] comes right after a line break,
    [prev] being the character before [s]. *)
Fixpoint bullets_after_breaks (prev : N) (s : str) : bool :=
  match s with
  | [] => true
  | c :: t =>
      (negb (is_bullet_or_hyphen c) || (prev =? LF)%N)
      && bullets_after_breaks c t
  end.

(** ** RecordConsolidator *)

(** The entries of [d] that the renaming stores under [k0], in order. *)
Definition renamed_to (k0 : str) (d : dict Value) : dict Value :=
  filter (fun kv => str_eqb (final_key (fst kv)) k0) d.

Definition non_null (kv : str * Value) : bool := negb (is_none (snd kv)).

(** The first value that is not [None]; [None] itself when every entry
    holds it. *)
Definition first_non_null (l : dict Value) : option Value :=
  match find non_null l with
  | Some kv => Some (snd kv)
  | None => match l with
            | [] => None
            | _ => Some VNone
            end
  end.

Definition renamed_value (k0 : str) (d : dict Value) : option Value :=
  first_non_null (renamed_to k0 d).

(** What the final record holds for the text of an optional element. *)
Definition text_field (o : option str) : option Value :=
  match o with
  | Some t =>
      if nonempty (_clean_text t) then Some (VStr (_clean_text t)) else None
  | None => None
  end.

(** Neither the summary row nor the detail cells produce the key [k]. *)
Definition unused_label (k : str) (page : Page) : Prop :=
  get k (_parse_main_summary (summary_block page)) = None
  /\ get k (_parse_details_and_features (detail_items page)) = None.

(** A listing whose summary row has an item labelled like the segmenter's
    default bucket. *)
Definition amenity_label_page : Page :=
  Eval vm_compute in
  {| h1 := Some (u "Casa");
     subtitle_tag := None; address_tag := None; price_tag := None;
     summary_block := Some [summary_item (u "Amenidades extraidas") (u "3")];
     detail_items := [];
     description_tag := None; meta_description := None |}.

(** ** StructuralExtractor *)

(** The entry a summary item contributes: none when it has no label. *)
Definition summary_entry (item : SummaryItem) : option (str * Value) :=
  match key_tag item with
  | Some (key_text, sibs) =>
      Some (normalize_key (_clean_text key_text),
            float_or_none
              (_extract_number (_clean_text (summary_value_text sibs))))
  | None => None
  end.

(** The value of the last item whose key is [k]. *)
Fixpoint last_entry (k : str) (items : list SummaryItem) : option Value :=
  match items with
  | [] => None
  | item :: t =>
      match last_entry k t with
      | Some v => Some v
      | None =>
          match summary_entry item with
          | Some (k', v) => if str_eqb k k' then Some v else None
          | None => None
          end
      end
  end.

(** The detail cell is labelled "operacion" and carries the value [v]. *)
Definition operation_cell (item : DetailItem) (v : Value) : Prop :=
  normalize_key (fst (cell_key_value item)) = K.operacion
  /\ snd (cell_key_value item) <> []
  /\ v = match _extract_number (snd (cell_key_value item)) with
         | Some q => VFloat q
         | None => VStr (snd (cell_key_value item))
         end.

(** ** TextNormalizer: words *)

(** The text is empty or begins with a whitespace character. *)
Definition starts_space (s : str) : bool :=
  match s with
  | [] => true
  | c :: _ => is_space c
  end.

(** ** HeuristicTextSegmenter: what is reported *)

(** The item is in one of the lists collected so far. *)
Definition collected (item : str) (data : dict (list str)) : Prop :=
  exists k l, get k data = Some l /\ In item l.

(** The item is in one of the folded sections or in the default bucket. *)
Definition reported (item : str) (acc : dict (list str) * list str) : Prop :=
  collected item (fst acc) \/ In item (snd acc).

(** ** Case mappings *)

(** The state of the lower-casing after the text [s]. *)
Fixpoint state_after (st : bool) (s : str) : bool :=
  match s with
  | [] => st
  | c :: t => state_after (if case_ignorable c then st else cased c) t
  end.

(** A text without capital sigma, whose lower case needs no context. *)
Definition plain (s : str) : bool := forallb (fun c => negb (c =? SIGMA)%N) s.

Definition is_sigma (x : N) : bool :=
  (x =? FINAL_SIGMA)%N || (x =? SMALL_SIGMA)%N.

(** Two texts that are equal but for the form of their small sigmas. *)
Definition sigma_alike (a b : str) : Prop :=
  Forall2 (fun x y => x = y \/ (is_sigma x = true /\ is_sigma y = true)) a b.

(** A text without small sigma. *)
Definition no_sigma (kw : str) : bool :=
  forallb (fun c => negb (is_sigma c)) kw.

(** A text whose first character has a title case of one character: all
    but the few characters, such as the sharp s and the ligatures, that
    title-casing expands. *)
Definition simple_initial (s : str) : bool :=
  match s with
  | [] => true
  | c :: _ => match title_full c with [_] => true | _ => false end
  end.

(** No character of a lower-case mapping is itself lower-cased further. *)
Definition lowercase_closed : bool :=
  forallb (fun e : N * list N =>
             forallb (fun x => match Unicode.lookup x Unicode.lowercase with
                               | None => negb (x =? SIGMA)%N
                               | Some _ => false
                               end) (snd e))
    Unicode.lowercase.

(** A title case of one character is its own title case. *)
Definition titlecase_closed : bool :=
  forallb (fun e : N * list N =>
             match snd e with
             | [x] => match Unicode.lookup x Unicode.titlecase with
                      | None => true
                      | Some _ => false
                      end
             | _ => true
             end)
    Unicode.titlecase.

(** ** Price *)

(** A listing with a price block and a summary item labelled "Precio". *)
Definition precio_summary_page : Page :=
  Eval vm_compute in
  {| h1 := None; subtitle_tag := None; address_tag := None;
     price_tag := Some (u "$1,234,567 MXN");
     summary_block := Some [summary_item (u "Precio") (u "3")];
     detail_items := [];
     description_tag := None; meta_description := None |}.

(** On a page with a price block, the [precio] of the returned record is
    the first number of the price text. *)
Definition price_from_price_text (page : Page) (url : str) : Prop :=
  forall t r,
    price_tag page = Some t ->
    parse_property_html (Some page) url = Ok r ->
    get K.precio r
    = match _extract_number (_clean_text t) with
      | Some f => Some (VFloat f)
      | None => None
      end.

(** No character of a lower-case mapping is a whitespace character or an
    upper-case letter of Latin-1. *)
Definition lowercase_plain : bool :=
  forallb (fun e : N * list N =>
             forallb (fun x => negb (is_upper x) && negb (is_space x))
               (snd e))
    Unicode.lowercase.

(** Every upper-case letter of Latin-1 has a lower-case mapping. *)
Definition upper_is_mapped : bool :=
  forallb (fun c => negb (is_upper c)
                    || match Unicode.lookup c Unicode.lowercase with
                       | Some _ => true
                       | None => false
                       end)
    (map N.of_nat (seq 0 256)).

(** ** Amenity normalization *)

(** A character that is neither whitespace nor an invisible mark. *)
Definition visible_char (c : N) : Prop :=
  is_space c = false /\ is_invisible c = false.

(** A case mapping gives every character it changes at least one character,
    none of them whitespace or an invisible mark. *)
Definition visible_mapping (t : list (N * list N)) : bool :=
  forallb (fun e : N * list N =>
             nonempty (snd e)
             && forallb (fun x => negb (is_space x) && negb (is_invisible x))
                  (snd e))
    t.

(** [s'] is [s] with each character that is no space replaced by one or
    more visible characters. *)
Inductive expands : str -> str -> Prop :=
| expands_nil : expands [] []
| expands_space (t t' : str) :
    expands t t' -> expands (SP :: t) (SP :: t')
| expands_block (c : N) (b t t' : str) :
    is_space c = false -> b <> [] -> Forall visible_char b ->
    expands t t' -> expands (c :: t) (b ++ t').

(** * Properties *)

(** ** Floats: rounding between two integers *)

Lemma round_half_even_sandwich (n d a b : Z) :
  (0 <= n)%Z -> (0 < d)%Z -> (a * d <= n <= b * d)%Z ->
  (a <= round_half_even n d <= b)%Z.
Proof.
  intros Hn Hd [Ha Hb]. unfold round_half_even.
  pose proof (Z.div_mod n d ltac:(lia)) as E.
  pose proof (Z.mod_pos_bound n d Hd) as R.
  assert (A : (a <= n / d)%Z) by (apply Z.div_le_lower_bound; lia).
  assert (B : (n / d <= b)%Z) by (apply Z.div_le_upper_bound; lia).
  assert (B' : (n mod d <> 0 -> n / d + 1 <= b)%Z) by nia.
  destruct (2 * (n mod d) ?= d)%Z eqn:C.
  - apply Z.compare_eq_iff in C. destruct (Z.even (n / d)); lia.
  - lia.
  - apply Z.compare_gt_iff in C. lia.
Qed.

Lemma floor_log2_lower (n d : positive) :
  (0 <= floor_log2 n d)%Z ->
  (Zpos d * 2 ^ floor_log2 n d <= Zpos n)%Z.
Proof.
  unfold floor_log2, pow2_le.
  set (e0 := (Z.log2 (Zpos n) - Z.log2 (Zpos d))%Z).
  destruct (Z.leb_spec 0 e0) as [H0|H0].
  - destruct (Z.leb_spec (Zpos d * 2 ^ e0) (Zpos n)) as [H|H]; [auto|].
    intro He.
    destruct (Z.log2_spec (Zpos n) ltac:(lia)) as [N1 _].
    destruct (Z.log2_spec (Zpos d) ltac:(lia)) as [_ D2].
    pose proof (Z.log2_nonneg (Zpos d)) as Ld.
    assert (P : (2 ^ Z.succ (Z.log2 (Zpos d)) * 2 ^ (e0 - 1)
                 = 2 ^ Z.log2 (Zpos n))%Z).
    { rewrite <- Z.pow_add_r by lia. f_equal. unfold e0. lia. }
    assert (Q : (0 < 2 ^ (e0 - 1))%Z) by (apply Z.pow_pos_nonneg; lia).
    nia.
  - destruct (Z.leb_spec (Zpos d) (Zpos n * 2 ^ (- e0))); lia.
Qed.

Lemma pow2_53_1024 : (2 ^ 53 < 2 ^ 1024)%Z.
Proof. apply Z.pow_lt_mono_r; lia. Qed.

Lemma round_pos_sandwich (n d : positive) (a b : Z) :
  (0 <= a)%Z -> (a * Zpos d <= Zpos n <= b * Zpos d)%Z -> (b < 2 ^ 53)%Z ->
  exists q, round_pos n d = Finite q
            /\ (inject_Z a <= q)%Q /\ (q <= inject_Z b)%Q.
Proof.
  intros Ha [H1 H2] Hb. unfold round_pos.
  set (e := Z.max (floor_log2 n d) (-1022)).
  assert (He : (e <= 52)%Z).
  { destruct (Z_le_gt_dec e 52) as [H|H]; [exact H|exfalso].
    assert (Ef : floor_log2 n d = e) by (unfold e in *; lia).
    pose proof (floor_log2_lower n d ltac:(lia)) as L. rewrite Ef in L.
    assert (P : (2 ^ 53 <= 2 ^ e)%Z) by (apply Z.pow_le_mono_r; lia).
    nia. }
  pose proof pow2_53_1024 as Hp.
  set (P53 := (2 ^ 53)%Z) in *. set (P1024 := (2 ^ 1024)%Z) in *.
  destruct (Z.leb_spec 0 (e - 52)) as [Hj|Hj].
  - assert (Ej : (e - 52 = 0)%Z) by lia. rewrite Ej.
    change (2 ^ 0)%Z with 1%Z. rewrite !Z.mul_1_r.
    pose proof (round_half_even_sandwich (Zpos n) (Zpos d) a b
                  ltac:(lia) ltac:(lia) (conj H1 H2)) as [K1 K2].
    set (k := round_half_even (Zpos n) (Zpos d)) in *.
    assert (F : Qle_bool (inject_Z P1024) (inject_Z k) = false).
    { apply not_true_is_false. intro F. apply Qle_bool_iff in F.
      rewrite <- Zle_Qle in F. lia. }
    rewrite F. exists (inject_Z k).
    split; [reflexivity|]. split; rewrite <- Zle_Qle; lia.
  - set (s := (- (e - 52))%Z).
    assert (Hs : (0 < 2 ^ s)%Z) by (apply Z.pow_pos_nonneg; unfold s; lia).
    pose proof (round_half_even_sandwich (Zpos n * 2 ^ s) (Zpos d)
                  (a * 2 ^ s) (b * 2 ^ s) ltac:(lia) ltac:(lia)
                  ltac:(nia)) as [K1 K2].
    set (k := round_half_even (Zpos n * 2 ^ s) (Zpos d)) in *.
    assert (Ep : Zpos (Z.to_pos (2 ^ s)) = (2 ^ s)%Z)
      by (apply Z2Pos.id; exact Hs).
    assert (L1 : (inject_Z a <= Qred (k # Z.to_pos (2 ^ s)))%Q).
    { rewrite Qred_correct. unfold Qle. cbn [Qnum Qden inject_Z].
      rewrite Ep. lia. }
    assert (L2 : (Qred (k # Z.to_pos (2 ^ s)) <= inject_Z b)%Q).
    { rewrite Qred_correct. unfold Qle. cbn [Qnum Qden inject_Z].
      rewrite Ep. lia. }
    assert (F : Qle_bool (inject_Z P1024) (Qred (k # Z.to_pos (2 ^ s)))
                = false).
    { apply not_true_is_false. intro F. apply Qle_bool_iff in F.
      pose proof (Qle_trans _ _ _ F L2) as T.
      rewrite <- Zle_Qle in T. lia. }
    rewrite F. eauto.
Qed.

(** Rounding is monotone around the integers a float holds exactly: a
    rational between two integers below [2^53] in size rounds to a float
    between them. *)
Lemma round64_sandwich (x : Q) (a b : Z) :
  (- 2 ^ 53 < a)%Z -> (b < 2 ^ 53)%Z ->
  (inject_Z a <= x)%Q -> (x <= inject_Z b)%Q ->
  exists q, round64 x = Finite q
            /\ (inject_Z a <= q)%Q /\ (q <= inject_Z b)%Q.
Proof.
  intros Ha Hb H1 H2. destruct x as [num den]. unfold round64.
  unfold Qle in H1, H2. cbn [Qnum Qden inject_Z] in *.
  set (P53 := (2 ^ 53)%Z) in *.
  destruct num as [|n|n].
  - exists 0%Q. split; [reflexivity|].
    split; unfold Qle; cbn [Qnum Qden inject_Z]; lia.
  - destruct (round_pos_sandwich n den (Z.max a 0) b) as (q & E & L1 & L2);
      [lia|nia|exact Hb|].
    exists q. split; [exact E|]. split; [|exact L2].
    apply Qle_trans with (inject_Z (Z.max a 0)); [|exact L1].
    rewrite <- Zle_Qle. lia.
  - destruct (round_pos_sandwich n den (Z.max (- b) 0) (- a))
      as (q & E & L1 & L2); [lia|nia|fold P53; lia|].
    rewrite E. exists (- q)%Q. split; [reflexivity|].
    assert (L0 : (inject_Z (- b) <= q)%Q).
    { apply Qle_trans with (inject_Z (Z.max (- b) 0)); [|exact L1].
      rewrite <- Zle_Qle. lia. }
    destruct q as [qn qd]. unfold Qle in *.
    cbn [Qnum Qden inject_Z Qopp] in *. lia.
Qed.

Lemma quot_bounds (a lo hi : Z) (d : positive) :
  (lo * Z.pos d <= a <= hi * Z.pos d)%Z -> (lo <= a ÷ Z.pos d <= hi)%Z.
Proof.
  intros [H1 H2].
  pose proof (Z.quot_rem' a (Z.pos d)) as E.
  destruct (Z_le_gt_dec 0 a) as [Ha|Ha].
  - pose proof (Z.rem_bound_pos a (Z.pos d) Ha ltac:(lia)) as R. nia.
  - pose proof (Z.rem_bound_pos_neg a (Z.pos d) ltac:(lia) ltac:(lia)) as R. nia.
Qed.

Lemma trunc_bounds (q : Q) (a b : Z) :
  (inject_Z a <= q)%Q -> (q <= inject_Z b)%Q -> (a <= trunc q <= b)%Z.
Proof.
  intros H1 H2. destruct q as [n d]. unfold Qle, trunc in *.
  cbn [Qnum Qden inject_Z] in *. apply quot_bounds. lia.
Qed.

Lemma trunc_inject_Z (n : Z) : trunc (inject_Z n) = n.
Proof. unfold trunc. cbn [inject_Z Qnum Qden]. apply Z.quot_1_r. Qed.

(** Up to [2^52] in size a year is a float. *)
Lemma float_of_int_exact (y : Z) :
  (Z.abs y <= 2 ^ 52)%Z ->
  exists qy, float_of_int y = Ok (Finite qy) /\ (qy == inject_Z y)%Q.
Proof.
  intro Hy. unfold float_of_int.
  assert (P : (2 ^ 52 < 2 ^ 53)%Z) by (apply Z.pow_lt_mono_r; lia).
  destruct (round64_sandwich (inject_Z y) y y) as (qy & E & L1 & L2);
    [lia|lia|apply Qle_refl|apply Qle_refl|].
  rewrite E. exists qy. split; [reflexivity|].
  apply Qle_antisym; assumption.
Qed.

(** The year as a float, then the difference with an age, stay between the
    integers around the exact difference. *)
Lemma year_minus_age (y : Z) (q : Q) (a b : Z) :
  (Z.abs y <= 2 ^ 52)%Z -> (- 2 ^ 53 < a)%Z -> (b < 2 ^ 53)%Z ->
  (inject_Z a <= inject_Z y - q)%Q -> (inject_Z y - q <= inject_Z b)%Q ->
  exists z,
    (d <- int_minus y (Float (Finite q)) ;; int_of_number d) = Ok z
    /\ (a <= z <= b)%Z.
Proof.
  intros Hy Ha Hb H1 H2. cbn [int_minus].
  destruct (float_of_int_exact y Hy) as (qy & -> & Eq).
  cbn [bind float_sub].
  destruct (round64_sandwich (qy - q) a b) as (r & Er & R1 & R2);
    [exact Ha|exact Hb|now rewrite Eq|now rewrite Eq|].
  rewrite Er. cbn [int_of_number int_of_float]. exists (trunc r).
  split; [reflexivity|]. now apply trunc_bounds.
Qed.

(** ** TextNormalizer: year inference *)

Lemma Qle_bool_false (a b : Q) : Qle_bool a b = false <-> (b < a)%Q.
Proof.
  split; intro H.
  - apply Qnot_le_lt. intro Hle. apply Qle_bool_iff in Hle. congruence.
  - apply not_true_is_false. intro E. apply Qle_bool_iff in E.
    exact (Qlt_not_le _ _ H E).
Qed.

Lemma le_number_iff (a : Z) (v : number) :
  le_number a v = true
  <-> v = Float PosInf
      \/ exists q, value_of v = Some q /\ (inject_Z a <= q)%Q.
Proof.
  destruct v as [z|[q| | |]]; cbn [le_number value_of].
  - rewrite Z.leb_le, Zle_Qle. split.
    + intro H. right. eauto.
    + intros [H|(q & [= <-] & H)]; [discriminate H|exact H].
  - rewrite Qle_bool_iff. split.
    + intro H. right. eauto.
    + intros [H|(q' & [= <-] & H)]; [discriminate H|exact H].
  - split; [now left|reflexivity].
  - split; [discriminate|]. intros [H|(q & H & _)]; discriminate H.
  - split; [discriminate|]. intros [H|(q & H & _)]; discriminate H.
Qed.

Lemma number_le_iff (v : number) (b : Z) :
  number_le v b = true
  <-> v = Float NegInf
      \/ exists q, value_of v = Some q /\ (q <= inject_Z b)%Q.
Proof.
  destruct v as [z|[q| | |]]; cbn [number_le value_of].
  - rewrite Z.leb_le, Zle_Qle. split.
    + intro H. right. eauto.
    + intros [H|(q & [= <-] & H)]; [discriminate H|exact H].
  - rewrite Qle_bool_iff. split.
    + intro H. right. eauto.
    + intros [H|(q' & [= <-] & H)]; [discriminate H|exact H].
  - split; [discriminate|]. intros [H|(q & H & _)]; discriminate H.
  - split; [now left|reflexivity].
  - split; [discriminate|]. intros [H|(q & H & _)]; discriminate H.
Qed.

Lemma lt_number_iff (a : Z) (v : number) :
  lt_number a v = true
  <-> v = Float PosInf
      \/ exists q, value_of v = Some q /\ (inject_Z a < q)%Q.
Proof.
  destruct v as [z|[q| | |]]; cbn [lt_number value_of].
  - rewrite Z.ltb_lt, Zlt_Qlt. split.
    + intro H. right. eauto.
    + intros [H|(q & [= <-] & H)]; [discriminate H|exact H].
  - rewrite negb_true_iff, Qle_bool_false. split.
    + intro H. right. eauto.
    + intros [H|(q' & [= <-] & H)]; [discriminate H|exact H].
  - split; [now left|reflexivity].
  - split; [discriminate|]. intros [H|(q & H & _)]; discriminate H.
  - split; [discriminate|]. intros [H|(q & H & _)]; discriminate H.
Qed.

Lemma number_lt_iff (v : number) (b : Z) :
  number_lt v b = true
  <-> v = Float NegInf
      \/ exists q, value_of v = Some q /\ (q < inject_Z b)%Q.
Proof.
  destruct v as [z|[q| | |]]; cbn [number_lt value_of].
  - rewrite Z.ltb_lt, Zlt_Qlt. split.
    + intro H. right. eauto.
    + intros [H|(q & [= <-] & H)]; [discriminate H|exact H].
  - rewrite negb_true_iff, Qle_bool_false. split.
    + intro H. right. eauto.
    + intros [H|(q' & [= <-] & H)]; [discriminate H|exact H].
  - split; [discriminate|]. intros [H|(q & H & _)]; discriminate H.
  - split; [now left|reflexivity].
  - split; [discriminate|]. intros [H|(q & H & _)]; discriminate H.
Qed.

Lemma absolute_year_iff (y : Z) (v : number) :
  le_number 1900 v && number_le v (y + 2) = true <-> absolute_year y v.
Proof.
  rewrite andb_true_iff, le_number_iff, number_le_iff. unfold absolute_year.
  split.
  - intros [[A|(q & E & H1)] [B|(q' & E' & H2)]].
    + subst v. discriminate B.
    + subst v. discriminate E'.
    + subst v. discriminate E.
    + rewrite E in E'. injection E' as <-. eauto.
  - intros (q & E & H1 & H2). split; right; eauto.
Qed.

Lemma building_age_iff (v : number) :
  lt_number 0 v && number_lt v 100 = true <-> building_age v.
Proof.
  rewrite andb_true_iff, lt_number_iff, number_lt_iff. unfold building_age.
  split.
  - intros [[A|(q & E & H1)] [B|(q' & E' & H2)]].
    + subst v. discriminate B.
    + subst v. discriminate E'.
    + subst v. discriminate E.
    + rewrite E in E'. injection E' as <-. eauto.
  - intros (q & E & H1 & H2). split; right; eauto.
Qed.

Lemma positive_not_zero (v : number) (q : Q) :
  value_of v = Some q -> (0 < q)%Q -> is_zero v = false.
Proof.
  destruct v as [z|[q'| | |]]; cbn [value_of is_zero]; intros [= <-] H.
  - apply Z.eqb_neq. intros ->. now apply Qlt_irrefl in H.
  - apply not_true_is_false. intro E. apply Qeq_bool_iff in E.
    rewrite E in H. now apply Qlt_irrefl in H.
Qed.

Section ConstructionYear.
Variable y : Z.
Variable v : number.

Lemma year_absolute :
  absolute_year y v ->
  exists q, value_of v = Some q
            /\ _calculate_construction_year y v = Ok (Some (trunc q)).
Proof.
  intro H. unfold _calculate_construction_year.
  rewrite (proj2 (absolute_year_iff y v) H).
  destruct H as (q & E & H1 & _). exists q. split; [exact E|].
  rewrite (positive_not_zero v q E).
  - destruct v as [n|[q'| | |]]; try discriminate E; injection E as <-.
    + cbn [int_of_number bind]. now rewrite trunc_inject_Z.
    + reflexivity.
  - apply Qlt_le_trans with (inject_Z 1900); [reflexivity|exact H1].
Qed.



End ConstructionYear.

Lemma bind_assoc {A B C : Type} (r : result A) (f : A -> result B)
  (g : B -> result C) :
  (b <- (a <- r ;; f a) ;; g b) = (a <- r ;; b <- f a ;; g b).
Proof. now destruct r. Qed.

Lemma year_absolute_integer (y n : Z) :
  (1900 <= n <= y + 2)%Z ->
  _calculate_construction_year y (Int n) = Ok (Some n)
  /\ _calculate_construction_year y (Float (Finite (inject_Z n)))
     = Ok (Some n).
Proof.
  intros [H1 H2].
  assert (A : forall v, value_of v = Some (inject_Z n) ->
                        _calculate_construction_year y v = Ok (Some n)).
  { intros v E. destruct (year_absolute y v) as (q & E' & ->).
    - exists (inject_Z n). split; [exact E|]. now rewrite <- !Zle_Qle.
    - rewrite E in E'. injection E' as <-. now rewrite trunc_inject_Z. }
  split; apply A; reflexivity.
Qed.

(** The difference of the year and an age, as the code computes it, is the
    exact difference rounded to an integer next to it. *)
Lemma year_age_float (y : Z) (q : Q) :
  (Z.abs y <= 2 ^ 52)%Z -> (0 < q)%Q -> (q < inject_Z 100)%Q ->
  exists z,
    (d <- int_minus y (Float (Finite q)) ;; int_of_number d) = Ok z
    /\ (Qfloor (inject_Z y - q) <= z <= Qceiling (inject_Z y - q))%Z
    /\ (y - 100 <= Qfloor (inject_Z y - q))%Z
    /\ (Qceiling (inject_Z y - q) <= y)%Z.
Proof.
  intros Hy H1 H2.
  assert (P : (2 ^ 52 < 2 ^ 53)%Z) by (apply Z.pow_lt_mono_r; lia).
  assert (P' : (2 ^ 52 = 4503599627370496)%Z) by reflexivity.
  assert (F : (y - 100 <= Qfloor (inject_Z y - q))%Z).
  { rewrite <- (Qfloor_Z (y - 100)). apply Qfloor_resp_le.
    unfold Zminus. rewrite inject_Z_plus, inject_Z_opp.
    apply Qplus_le_r, Qopp_le_compat, Qlt_le_weak, H2. }
  assert (C : (Qceiling (inject_Z y - q) <= y)%Z).
  { rewrite <- (Qceiling_Z y) at 2. apply Qceiling_resp_le.
    rewrite <- (Qplus_0_r (inject_Z y)) at 2.
    apply Qplus_le_r. apply (Qopp_le_compat 0 q), Qlt_le_weak, H1. }
  destruct (year_minus_age y q (Qfloor (inject_Z y - q))
              (Qceiling (inject_Z y - q)) Hy)
    as (z & E & B); try lia.
  - apply Qfloor_le.
  - apply Qle_ceiling.
  - exists z. auto.
Qed.




(** With the reference year of the scraper the inference never raises. *)
Lemma inferred_year_total (v : number) :
  _calculate_construction_year current_year v = Ok (inferred_year v).
Proof.
  unfold inferred_year.
  destruct (_calculate_construction_year current_year v) as [o|e] eqn:E;
    [reflexivity|exfalso].
  unfold _calculate_construction_year in E.
  destruct (is_zero v); [discriminate E|].
  destruct (le_number 1900 v && number_le v (current_year + 2)) eqn:A.
  - apply absolute_year_iff in A. destruct A as (q & Hq & _).
    destruct v as [n|[q'| | |]]; discriminate.
  - destruct (lt_number 0 v && number_lt v 100) eqn:B; [|discriminate E].
    apply building_age_iff in B. destruct B as (q & Hq & H1 & H2).
    destruct v as [n|[q'| | |]]; try discriminate.
    injection Hq as <-.
    destruct (year_age_float current_year q' ltac:(vm_compute; congruence)
                H1 H2) as (z & Ez & _).
    rewrite <- bind_assoc, Ez in E. discriminate E.
Qed.

Lemma fix_construction_year_total (d : dict Value) :
  fix_construction_year d = Ok (fixed_year d).
Proof.
  unfold fix_construction_year, fixed_year.
  destruct (get K.anio_de_construccion d) as [[| z | f | | |]|];
    try reflexivity; now rewrite inferred_year_total.
Qed.

(** Consolidation, with the construction-year step that cannot fail. *)
Lemma consolidate_eq (data : dict Value) :
  consolidate data
  = (r <- gather_amenities data ;;
     data <- store_amenities (fst r) (snd r) ;;
     Ok (prune (rename_keys (fixed_year data)))).
Proof.
  unfold consolidate.
  destruct (gather_amenities data) as [r|]; [|reflexivity]. cbn [bind].
  destruct (store_amenities (fst r) (snd r)) as [d|]; [|reflexivity].
  cbn [bind]. now rewrite fix_construction_year_total.
Qed.



(** ** Strings *)

Lemma str_eqb_eq (a b : str) : str_eqb a b = true <-> a = b.
Proof.
  revert b. induction a as [|x a IH]; intros [|y b]; simpl;
    try (split; [discriminate|discriminate]); [tauto|].
  rewrite andb_true_iff, N.eqb_eq, IH. split.
  - intros [-> ->]. reflexivity.
  - intros [= -> ->]. auto.
Qed.

Lemma str_eqb_refl (a : str) : str_eqb a a = true.
Proof. now apply str_eqb_eq. Qed.

Lemma str_eqb_neq (a b : str) : str_eqb a b = false <-> a <> b.
Proof.
  rewrite <- str_eqb_eq. destruct (str_eqb a b); split; congruence.
Qed.

Lemma str_eqb_sym (a b : str) : str_eqb a b = str_eqb b a.
Proof.
  destruct (str_eqb a b) eqn:E.
  - apply str_eqb_eq in E. subst. symmetry. apply str_eqb_refl.
  - symmetry. apply str_eqb_neq. apply str_eqb_neq in E. congruence.
Qed.

(** Boolean character-class tests as arithmetic facts. *)
Ltac char_prop H :=
  repeat first
    [ rewrite orb_true_iff in H | rewrite andb_true_iff in H
    | rewrite negb_true_iff in H
    | rewrite N.leb_le in H | rewrite N.eqb_eq in H | rewrite N.ltb_lt in H
    | rewrite N.eqb_neq in H ].

Lemma space_not_invisible (c : N) : is_space c = true -> is_invisible c = false.
Proof.
  intro H. apply not_true_is_false. intro E.
  unfold is_space in H. unfold is_invisible in E.
  char_prop H. char_prop E. lia.
Qed.

Lemma SP_is_space : is_space SP = true.
Proof. reflexivity. Qed.

Lemma LF_is_space : is_space LF = true.
Proof. reflexivity. Qed.

(** *** Stripping *)

Lemma drop_while_idem (p : N -> bool) (s : str) :
  drop_while p (drop_while p s) = drop_while p s.
Proof.
  induction s as [|c t IH]; simpl; [reflexivity|].
  destruct (p c) eqn:E; [exact IH|]. simpl. now rewrite E.
Qed.

Lemma rstrip_by_cons_keep (p : N -> bool) (c : N) (t : str) :
  p c = false -> rstrip_by p (c :: t) = c :: rstrip_by p t.
Proof. intro H. simpl. rewrite H. now destruct (rstrip_by p t). Qed.

Lemma rstrip_by_idem (p : N -> bool) (s : str) :
  rstrip_by p (rstrip_by p s) = rstrip_by p s.
Proof.
  induction s as [|c t IH]; simpl; [reflexivity|].
  destruct (rstrip_by p t) as [|x r] eqn:E.
  - destruct (p c) eqn:Ep; simpl; [reflexivity|]. now rewrite Ep.
  - change (rstrip_by p (c :: x :: r)) with
      (match rstrip_by p (x :: r) with
       | [] => if p c then [] else [c]
       | r' => c :: r'
       end).
    now rewrite IH.
Qed.

Lemma strip_cons_space (c : N) (x : str) :
  is_space c = true -> strip (c :: x) = strip x.
Proof.
  intro H. unfold strip, rstrip, lstrip.
  change (rstrip_by is_space (c :: x)) with
    (match rstrip_by is_space x with
     | [] => if is_space c then [] else [c]
     | r => c :: r
     end).
  destruct (rstrip_by is_space x) as [|a r].
  - now rewrite H.
  - cbn [drop_while]. now rewrite H.
Qed.

Lemma strip_cons_keep (c : N) (x : str) :
  is_space c = false -> strip (c :: x) = c :: rstrip x.
Proof.
  intro H. unfold strip, rstrip, lstrip.
  rewrite rstrip_by_cons_keep by exact H. simpl. now rewrite H.
Qed.

Lemma lstrip_rstrip_comm (s : str) : lstrip (rstrip s) = rstrip (lstrip s).
Proof.
  induction s as [|c t IH]; [reflexivity|].
  destruct (is_space c) eqn:E.
  - change (lstrip (rstrip (c :: t))) with (strip (c :: t)).
    rewrite strip_cons_space by exact E.
    unfold lstrip at 1. simpl. rewrite E. exact IH.
  - change (lstrip (rstrip (c :: t))) with (strip (c :: t)).
    rewrite strip_cons_keep by exact E.
    unfold lstrip. simpl. rewrite E.
    unfold rstrip. now rewrite rstrip_by_cons_keep.
Qed.

Lemma strip_idem (s : str) : strip (strip s) = strip s.
Proof.
  unfold strip. rewrite (lstrip_rstrip_comm (lstrip (rstrip s))).
  unfold lstrip at 1 2. rewrite drop_while_idem.
  fold (lstrip (rstrip s)). rewrite lstrip_rstrip_comm.
  unfold rstrip. now rewrite rstrip_by_idem.
Qed.

(** Stripping keeps a contiguous part of the text. *)
Lemma drop_while_suffix (p : N -> bool) (s : str) :
  exists pre, s = pre ++ drop_while p s.
Proof.
  induction s as [|c t [pre IH]]; simpl.
  - now exists [].
  - destruct (p c).
    + exists (c :: pre). simpl. now f_equal.
    + now exists [].
Qed.

Lemma rstrip_by_prefix (p : N -> bool) (s : str) :
  exists suf, s = rstrip_by p s ++ suf.
Proof.
  induction s as [|c t [suf IH]]; simpl.
  - now exists [].
  - destruct (rstrip_by p t) as [|x r].
    + destruct (p c).
      * now exists (c :: t).
      * exists t. reflexivity.
    + exists suf. simpl. now f_equal.
Qed.

Lemma strip_infix (s : str) : exists pre suf, s = pre ++ strip s ++ suf.
Proof.
  unfold strip, lstrip, rstrip.
  destruct (rstrip_by_prefix is_space s) as [suf Hs].
  destruct (drop_while_suffix is_space (rstrip_by is_space s)) as [pre Hp].
  exists pre, suf. rewrite app_assoc, <- Hp. exact Hs.
Qed.

(** *** Substrings *)

Lemma starts_with_app (p s t : str) :
  starts_with p s = true -> starts_with p (s ++ t) = true.
Proof.
  revert s. induction p as [|a p IH]; intros [|b s]; simpl; try easy.
  rewrite !andb_true_iff. intros [H1 H2]. auto.
Qed.

Lemma contains_app_r (sub s t : str) :
  contains sub s = true -> contains sub (s ++ t) = true.
Proof.
  induction s as [|c s IH]; simpl.
  - rewrite orb_false_r. intro H. destruct sub; [|discriminate].
    now destruct t.
  - rewrite !orb_true_iff. intros [H|H].
    + left. now apply (starts_with_app sub (c :: s) t).
    + right. auto.
Qed.

Lemma contains_app_l (sub s t : str) :
  contains sub t = true -> contains sub (s ++ t) = true.
Proof.
  intro H. induction s as [|c s IH]; simpl; [exact H|].
  rewrite IH. apply orb_true_r.
Qed.

Lemma contains_infix (sub pre s suf : str) :
  contains sub s = true -> contains sub (pre ++ s ++ suf) = true.
Proof. intro H. apply contains_app_l. now apply contains_app_r. Qed.

Lemma not_contains_strip (sub s : str) :
  contains sub s = false -> contains sub (strip s) = false.
Proof.
  intro H. destruct (contains sub (strip s)) eqn:E; [|reflexivity].
  destruct (strip_infix s) as (pre & suf & Hs).
  rewrite Hs in H. now rewrite contains_infix in H.
Qed.

(** ** TextNormalizer: whitespace *)

(** *** Words of a line *)

Lemma words_cons_keep (c : N) (t : str) :
  is_space c = false -> exists w ws, words (c :: t) = (c :: w) :: ws.
Proof.
  intro H. simpl. rewrite H. destruct t as [|c' t'].
  - now exists [], [].
  - destruct (is_space c').
    + now exists [], (words (c' :: t')).
    + destruct (words (c' :: t')) as [|w ws].
      * now exists [], [].
      * now exists w, ws.
Qed.

Lemma words_head (l : str) (w : str) (ws : list str) :
  words l = w :: ws -> exists c w', w = c :: w' /\ is_space c = false.
Proof.
  induction l as [|c t IH]; [discriminate|].
  destruct (is_space c) eqn:E.
  - simpl. rewrite E. exact IH.
  - destruct (words_cons_keep c t E) as (w0 & ws0 & Hw). rewrite Hw.
    intros [= <- <-]. now exists c, w0.
Qed.

Lemma join_cons_cons (sep : str) (c : N) (w : str) (ws : list str) :
  join sep ((c :: w) :: ws) = c :: join sep (w :: ws).
Proof. simpl. now destruct ws. Qed.

Lemma lstrip_join_words (l : str) :
  lstrip (join [SP] (words l)) = join [SP] (words l).
Proof.
  destruct (words l) as [|w ws] eqn:E; [reflexivity|].
  destruct (words_head l w ws E) as (c & w' & -> & Hc).
  rewrite join_cons_cons. unfold lstrip. simpl. now rewrite Hc.
Qed.

Lemma lstrip_cons_space (c : N) (x : str) :
  is_space c = true -> lstrip (c :: x) = lstrip x.
Proof. intro H. unfold lstrip. simpl. now rewrite H. Qed.

(** What right-stripping leaves of a collapsed line: its words, after a
    single space when the line began with one. *)
Lemma rstrip_collapse_ws (l : str) :
  rstrip (collapse_ws l) =
  match l with
  | [] => []
  | c :: _ =>
      if is_space c then
        match words l with
        | [] => []
        | _ => SP :: join [SP] (words l)
        end
      else join [SP] (words l)
  end.
Proof.
  induction l as [|c t IH]; [reflexivity|].
  destruct (is_space c) eqn:E.
  - destruct t as [|c' t'].
    + simpl. rewrite E. reflexivity.
    + destruct (is_space c') eqn:E'.
      * replace (collapse_ws (c :: c' :: t')) with (collapse_ws (c' :: t'))
          by (simpl; now rewrite E, E').
        replace (words (c :: c' :: t')) with (words (c' :: t'))
          by (simpl; now rewrite E).
        rewrite IH. reflexivity.
      * replace (collapse_ws (c :: c' :: t'))
          with (SP :: collapse_ws (c' :: t'))
          by (simpl; now rewrite E, E').
        replace (words (c :: c' :: t')) with (words (c' :: t'))
          by (simpl; now rewrite E).
        destruct (words_cons_keep c' t' E') as (w & ws & Hw).
        unfold rstrip in *.
        change (rstrip_by is_space (SP :: collapse_ws (c' :: t'))) with
          (match rstrip_by is_space (collapse_ws (c' :: t')) with
           | [] => if is_space SP then [] else [SP]
           | r => SP :: r
           end).
        rewrite IH, Hw, join_cons_cons. reflexivity.
  - replace (collapse_ws (c :: t)) with (c :: collapse_ws t)
      by (simpl; now rewrite E).
    unfold rstrip in *. rewrite rstrip_by_cons_keep by exact E. rewrite IH.
    destruct t as [|c' t']; [simpl; now rewrite E|].
    destruct (is_space c') eqn:E'.
    + replace (words (c :: c' :: t')) with ([c] :: words (c' :: t'))
        by (simpl; now rewrite E, E').
      now destruct (words (c' :: t')).
    + destruct (words_cons_keep c' t' E') as (w & ws & Hw).
      replace (words (c :: c' :: t')) with ((c :: c' :: w) :: ws).
      * rewrite Hw. now rewrite !join_cons_cons.
      * change (words (c :: c' :: t')) with
          (if is_space c then words (c' :: t')
           else if is_space c' then [c] :: words (c' :: t')
                else match words (c' :: t') with
                     | [] => [[c]]
                     | w0 :: ws0 => (c :: w0) :: ws0
                     end).
        now rewrite E, E', Hw.
Qed.

(** Collapsing the whitespace of a line and trimming it leaves its words
    separated by single spaces. *)
Lemma strip_collapse_ws (l : str) :
  strip (collapse_ws l) = join [SP] (words l).
Proof.
  unfold strip. rewrite rstrip_collapse_ws.
  destruct l as [|c t]; [reflexivity|].
  destruct (is_space c) eqn:E.
  - destruct (words (c :: t)) as [|w ws] eqn:Hw; [reflexivity|].
    rewrite <- Hw. rewrite lstrip_cons_space by reflexivity.
    apply lstrip_join_words.
  - apply lstrip_join_words.
Qed.

(** *** Runs of line breaks *)

Lemma collapse_breaks_cons (c : N) (t : str) :
  collapse_breaks (c :: t) =
  if (c =? LF)%N && starts_with [LF; LF] t then collapse_breaks t
  else c :: collapse_breaks t.
Proof.
  destruct t as [|c1 [|c2 t']].
  - simpl. now rewrite andb_false_r.
  - simpl. now rewrite !andb_false_r.
  - change (collapse_breaks (c :: c1 :: c2 :: t')) with
      (if (c =? LF)%N && (c1 =? LF)%N && (c2 =? LF)%N
       then collapse_breaks (c1 :: c2 :: t')
       else c :: collapse_breaks (c1 :: c2 :: t')).
    cbn [starts_with].
    rewrite (N.eqb_sym LF c1), (N.eqb_sym LF c2), andb_true_r.
    now rewrite andb_assoc.
Qed.

Lemma starts_with_cons (a b : N) (p s : str) :
  starts_with (a :: p) (b :: s) = (a =? b)%N && starts_with p s.
Proof. reflexivity. Qed.

Lemma starts_with_nil (s : str) : starts_with [] s = true.
Proof. now destruct s. Qed.

Lemma contains_cons (sub : str) (c : N) (s : str) :
  contains sub (c :: s) = starts_with sub (c :: s) || contains sub s.
Proof. reflexivity. Qed.

Lemma collapse_breaks_head1 (t : str) :
  starts_with [LF] (collapse_breaks t) = true -> starts_with [LF] t = true.
Proof.
  induction t as [|c t IH]; [easy|].
  rewrite collapse_breaks_cons.
  destruct ((c =? LF)%N && starts_with [LF; LF] t) eqn:E.
  - intros _. apply andb_true_iff in E. destruct E as [E _].
    rewrite starts_with_cons, starts_with_nil, N.eqb_sym. now rewrite E.
  - rewrite !starts_with_cons, !starts_with_nil. easy.
Qed.

Lemma collapse_breaks_head2 (t : str) :
  starts_with [LF; LF] (collapse_breaks t) = true ->
  starts_with [LF; LF] t = true.
Proof.
  induction t as [|c t IH]; [easy|].
  rewrite collapse_breaks_cons.
  destruct ((c =? LF)%N && starts_with [LF; LF] t) eqn:E.
  - intros _. apply andb_true_iff in E. destruct E as [E1 E2].
    apply N.eqb_eq in E1. subst c.
    destruct t as [|c1 t1]; [discriminate|].
    rewrite starts_with_cons in E2.
    apply andb_true_iff in E2. destruct E2 as [E2 _].
    rewrite !starts_with_cons, starts_with_nil, E2. reflexivity.
  - intro H. rewrite starts_with_cons in H.
    apply andb_true_iff in H. destruct H as [H1 H2].
    apply collapse_breaks_head1 in H2.
    rewrite starts_with_cons. now rewrite H1, H2.
Qed.

(** No run of three line breaks survives. *)
Lemma collapse_breaks_no_triple (s : str) :
  contains [LF; LF; LF] (collapse_breaks s) = false.
Proof.
  induction s as [|c t IH]; [reflexivity|].
  rewrite collapse_breaks_cons.
  destruct ((c =? LF)%N && starts_with [LF; LF] t) eqn:E; [exact IH|].
  rewrite contains_cons, starts_with_cons.
  rewrite IH, orb_false_r.
  destruct ((LF =? c)%N) eqn:E1; [|reflexivity].
  destruct (starts_with [LF; LF] (collapse_breaks t)) eqn:E2; [|reflexivity].
  apply collapse_breaks_head2 in E2.
  rewrite N.eqb_sym in E1. now rewrite E1, E2 in E.
Qed.

(** *** Characters of the result *)

Section Chars.
Variable P : N -> Prop.

Lemma Forall_drop_while (p : N -> bool) (s : str) :
  Forall P s -> Forall P (drop_while p s).
Proof.
  induction 1 as [|c t Hc Ht IH]; simpl; [constructor|].
  destruct (p c); [exact IH|now constructor].
Qed.

Lemma Forall_rstrip_by (p : N -> bool) (s : str) :
  Forall P s -> Forall P (rstrip_by p s).
Proof.
  induction 1 as [|c t Hc Ht IH]; simpl; [constructor|].
  destruct (rstrip_by p t).
  - destruct (p c); [constructor|now constructor].
  - now constructor.
Qed.

Lemma Forall_strip (s : str) : Forall P s -> Forall P (strip s).
Proof. intro H. now apply Forall_drop_while, Forall_rstrip_by. Qed.

Lemma Forall_collapse_ws (s : str) :
  P SP -> Forall P s -> Forall P (collapse_ws s).
Proof.
  intros Hsp. induction 1 as [|c t Hc Ht IH]; simpl; [constructor|].
  destruct (is_space c).
  - destruct t as [|c' t']; [now constructor|].
    destruct (is_space c'); [exact IH|now constructor].
  - now constructor.
Qed.

Lemma Forall_collapse_breaks (s : str) :
  Forall P s -> Forall P (collapse_breaks s).
Proof.
  induction 1 as [|c t Hc Ht IH]; [constructor|].
  rewrite collapse_breaks_cons.
  destruct ((c =? LF)%N && starts_with [LF; LF] t); [exact IH|].
  now constructor.
Qed.

Lemma Forall_split_on (sep : N) (s : str) :
  Forall P s -> Forall (Forall P) (split_on sep s).
Proof.
  induction 1 as [|c t Hc Ht IH]; simpl; [repeat constructor|].
  destruct (c =? sep)%N; [now constructor|].
  destruct (split_on sep t) as [|l ls]; [repeat constructor; assumption|].
  inversion IH; subst. constructor; [now constructor|assumption].
Qed.

Lemma Forall_join (sep : str) (ls : list str) :
  Forall P sep -> Forall (Forall P) ls -> Forall P (join sep ls).
Proof.
  intros Hsep. induction 1 as [|a t Ha Ht IH]; [constructor|].
  destruct t as [|b t']; [exact Ha|].
  change (join sep (a :: b :: t')) with (a ++ sep ++ join sep (b :: t')).
  rewrite !Forall_app. auto.
Qed.
End Chars.

Lemma remove_invisible_clean (s : str) :
  Forall (fun c => is_invisible c = false) (remove_invisible s).
Proof.
  unfold remove_invisible. apply Forall_forall. intros c H.
  apply filter_In in H. destruct H as [_ H]. now apply negb_true_iff in H.
Qed.

Lemma clean_description_as_spec (text : str) :
  _clean_description_text text = clean_multiline_spec text.
Proof.
  unfold _clean_description_text, clean_multiline_spec.
  destruct text as [|c t]; [reflexivity|].
  do 3 f_equal. apply map_ext. intro l. apply strip_collapse_ws.
Qed.

(** C8. [clean_multiline] strips invisible marks, reduces each physical line
    to its words separated by single spaces, rejoins the lines with line
    breaks, collapses three or more consecutive breaks to one blank line and
    trims the result: the result has no invisible mark, no run of three line
    breaks and no leading or trailing whitespace; and
    [clean_multiline("a\n\n\n\nb") = "a\n\nb"]. *)
Theorem clean_multiline_correct (text : str) :
  _clean_description_text text = clean_multiline_spec text
  /\ Forall (fun c => is_invisible c = false) (_clean_description_text text)
  /\ contains [LF; LF; LF] (_clean_description_text text) = false
  /\ strip (_clean_description_text text) = _clean_description_text text
  /\ _clean_description_text [97; LF; LF; LF; LF; 98]%N = [97; LF; LF; 98]%N.
Proof.
  split; [apply clean_description_as_spec|].
  split; [|split; [|split; [|reflexivity]]].
  - unfold _clean_description_text. destruct text as [|c t]; [constructor|].
    apply Forall_strip, Forall_collapse_breaks, Forall_join.
    + now repeat constructor.
    + apply Forall_forall. intros l Hl. apply in_map_iff in Hl.
      destruct Hl as (l0 & <- & Hl0).
      apply Forall_strip, Forall_collapse_ws; [reflexivity|].
      pose proof (Forall_split_on _ LF _ (remove_invisible_clean (c :: t))) as H.
      rewrite Forall_forall in H. now apply H.
  - unfold _clean_description_text. destruct text as [|c t]; [reflexivity|].
    apply not_contains_strip, collapse_breaks_no_triple.
  - unfold _clean_description_text. destruct text as [|c t]; [reflexivity|].
    apply strip_idem.
Qed.

(** ** Dictionaries *)

Section DictFacts.
Variable V : Type.
Implicit Types (d e : dict V) (k : str) (v : V).

Lemma get_set_same k v d : get k (set k v d) = Some v.
Proof.
  induction d as [|[k' v'] t IH]; simpl.
  - now rewrite str_eqb_refl.
  - destruct (str_eqb k k') eqn:E; simpl.
    + now rewrite str_eqb_refl.
    + now rewrite E.
Qed.

Lemma get_set_other k k' v d : k <> k' -> get k (set k' v d) = get k d.
Proof.
  intro H. induction d as [|[k0 v0] t IH]; simpl.
  - apply str_eqb_neq in H. now rewrite H.
  - destruct (str_eqb k' k0) eqn:E; simpl.
    + apply str_eqb_eq in E. subst k0.
      apply str_eqb_neq in H. now rewrite H.
    + now rewrite IH.
Qed.

Lemma get_set k k' v d :
  get k (set k' v d) = if str_eqb k k' then Some v else get k d.
Proof.
  destruct (str_eqb k k') eqn:E.
  - apply str_eqb_eq in E. subst. apply get_set_same.
  - apply get_set_other. now apply str_eqb_neq.
Qed.

Lemma get_None_not_in k d : get k d = None <-> ~ In k (keys d).
Proof.
  induction d as [|[k' v'] t IH]; simpl; [tauto|].
  destruct (str_eqb k k') eqn:E.
  - apply str_eqb_eq in E. subst. split; [discriminate|tauto].
  - apply str_eqb_neq in E. rewrite IH. split.
    + intros H [H1|H1]; [congruence|tauto].
    + tauto.
Qed.

Lemma get_In k v d : get k d = Some v -> In (k, v) d.
Proof.
  induction d as [|[k' v'] t IH]; simpl; [discriminate|].
  destruct (str_eqb k k') eqn:E.
  - apply str_eqb_eq in E. subst. intros [= ->]. now left.
  - auto.
Qed.

Lemma In_get k v d : NoDup (keys d) -> In (k, v) d -> get k d = Some v.
Proof.
  induction d as [|[k' v'] t IH]; simpl; [tauto|].
  intros Hnd [H|H].
  - injection H as -> ->. now rewrite str_eqb_refl.
  - inversion Hnd as [|? ? Hk Ht]; subst.
    destruct (str_eqb k k') eqn:E.
    + apply str_eqb_eq in E. subst. exfalso. apply Hk.
      now apply (in_map fst) in H.
    + auto.
Qed.

Lemma keys_set k v d :
  keys (set k v d) = if mem k d then keys d else keys d ++ [k].
Proof.
  unfold mem. induction d as [|[k' v'] t IH]; simpl; [reflexivity|].
  destruct (str_eqb k k') eqn:E; simpl.
  - apply str_eqb_eq in E. now subst.
  - rewrite IH. now destruct (get k t).
Qed.

Lemma NoDup_set k v d : NoDup (keys d) -> NoDup (keys (set k v d)).
Proof.
  intro H. rewrite keys_set. unfold mem.
  destruct (get k d) eqn:E; [exact H|].
  apply get_None_not_in in E.
  apply NoDup_app; [exact H|repeat constructor; easy|].
  intros x Hx [<-|[]]. contradiction.
Qed.

Lemma update_cons d kv e :
  update d (kv :: e) = update (set (fst kv) (snd kv) d) e.
Proof. reflexivity. Qed.

Lemma NoDup_update d e : NoDup (keys d) -> NoDup (keys (update d e)).
Proof.
  revert d. induction e as [|kv e IH]; intros d H; [exact H|].
  rewrite update_cons. apply IH. now apply NoDup_set.
Qed.

(** A dictionary update is last-writer-wins. *)
Lemma get_update k d e :
  NoDup (keys e) ->
  get k (update d e) =
  match get k e with
  | Some v => Some v
  | None => get k d
  end.
Proof.
  revert d. induction e as [|[k' v'] e IH]; intros d H; [reflexivity|].
  rewrite update_cons. inversion H as [|? ? Hk He]; subst.
  rewrite IH by exact He. simpl.
  destruct (str_eqb k k') eqn:E.
  - apply str_eqb_eq in E. subst k'.
    apply get_None_not_in in Hk. rewrite Hk. apply get_set_same.
  - destruct (get k e); [reflexivity|].
    apply get_set_other. now apply str_eqb_neq.
Qed.

Lemma get_remove_other k k' d : k <> k' -> get k (remove k' d) = get k d.
Proof.
  intro H. induction d as [|[k0 v0] t IH]; simpl; [reflexivity|].
  destruct (str_eqb k' k0) eqn:E; simpl.
  - apply str_eqb_eq in E. subst k0. apply str_eqb_neq in H. now rewrite H.
  - now rewrite IH.
Qed.

Lemma remove_absent k d : get k d = None -> remove k d = d.
Proof.
  induction d as [|[k0 v0] t IH]; simpl; [reflexivity|].
  destruct (str_eqb k k0); [discriminate|]. intro H. now rewrite IH.
Qed.

Lemma keys_remove_incl k d x : In x (keys (remove k d)) -> In x (keys d).
Proof.
  induction d as [|[k0 v0] t IH]; simpl; [tauto|].
  destruct (str_eqb k k0); simpl; tauto.
Qed.

Lemma NoDup_remove k d : NoDup (keys d) -> NoDup (keys (remove k d)).
Proof.
  induction d as [|[k0 v0] t IH]; simpl; [auto|].
  intro H. inversion H as [|? ? Hk Ht]; subst.
  destruct (str_eqb k k0); simpl; [exact Ht|].
  constructor; [|auto]. intro Hx. apply Hk. eapply keys_remove_incl, Hx.
Qed.

Lemma get_remove_same k d : NoDup (keys d) -> get k (remove k d) = None.
Proof.
  induction d as [|[k0 v0] t IH]; simpl; [reflexivity|].
  intro H. inversion H as [|? ? Hk Ht]; subst.
  destruct (str_eqb k k0) eqn:E; simpl.
  - apply str_eqb_eq in E. subst. now apply get_None_not_in.
  - rewrite E. auto.
Qed.
End DictFacts.

Arguments get_set_same {V}.
Arguments get_set_other {V}.
Arguments get_set {V}.
Arguments get_None_not_in {V}.
Arguments get_In {V}.
Arguments In_get {V}.
Arguments keys_set {V}.
Arguments NoDup_set {V}.
Arguments update_cons {V}.
Arguments NoDup_update {V}.
Arguments get_update {V}.
Arguments get_remove_other {V}.
Arguments remove_absent {V}.
Arguments keys_remove_incl {V}.
Arguments NoDup_remove {V}.
Arguments get_remove_same {V}.

Lemma NoDup_fold_set {V A : Type} (f : dict V -> A -> dict V) (l : list A)
  (d : dict V) :
  (forall d a, NoDup (keys d) -> NoDup (keys (f d a))) ->
  NoDup (keys d) -> NoDup (keys (fold_left f l d)).
Proof.
  intro Hf. revert d. induction l as [|a l IH]; intros d H; simpl; auto.
Qed.

(** ** RecordConsolidator: pruning *)

Lemma prune_In (d : dict Value) (k : str) (v : Value) :
  In (k, v) (prune d) <-> In (k, v) d /\ is_empty_value v = false.
Proof.
  unfold prune. rewrite filter_In. simpl. now rewrite negb_true_iff.
Qed.

Lemma consolidate_Ok (data r : dict Value) :
  consolidate data = Ok r ->
  exists d, r = prune d.
Proof.
  unfold consolidate, bind.
  destruct (gather_amenities data) as [p|]; [|discriminate].
  destruct (store_amenities (fst p) (snd p)) as [d|]; [|discriminate].
  destruct (fix_construction_year d) as [d'|]; [|discriminate].
  intros [= <-]. eauto.
Qed.

(** C2. The record returned by [parse_property_html] has no field whose
    value is null, the empty string, the empty list or the empty mapping. *)
Theorem final_record_has_no_empty_field
  (doc : option Page) (url : str) (r : dict Value) :
  parse_property_html doc url = Ok r ->
  forall k v, In (k, v) r ->
    v <> VNone /\ v <> VStr [] /\ v <> VList [] /\ v <> VDict [].
Proof.
  intros H k v Hin. destruct doc as [page|]; [|discriminate].
  apply consolidate_Ok in H. destruct H as [d ->].
  apply prune_In in Hin. destruct Hin as [_ Hv].
  repeat split; intros ->; discriminate.
Qed.

Lemma final_record_has_no_empty_field_witness :
  parse_property_html (Some example_page) example_url = Ok example_record
  /\ forall k v, In (k, v) example_record ->
       v <> VNone /\ v <> VStr [] /\ v <> VList [] /\ v <> VDict [].
Proof.
  split; [reflexivity|].
  exact (final_record_has_no_empty_field (Some example_page) example_url
           example_record eq_refl).
Defined.

(** ** Key uniqueness of the extractors' results *)

Lemma summary_keys_unique (b : option (list SummaryItem)) :
  NoDup (keys (_parse_main_summary b)).
Proof.
  destruct b as [items|]; simpl; [|constructor].
  apply NoDup_fold_set; [|constructor].
  intros d a H. unfold summary_step.
  destruct (key_tag a) as [[kt sibs]|]; [now apply NoDup_set|exact H].
Qed.

Lemma process_cell_keys_unique (st : DetailState) (k v : str) :
  NoDup (keys (d_data st)) -> NoDup (keys (d_data (process_cell st k v))).
Proof.
  intro H. unfold process_cell.
  destruct (nonempty k); [|exact H].
  destruct (nonempty v); simpl; [|exact H].
  repeat match goal with
         | |- context [if ?b then _ else _] => destruct b
         end; try exact H; now apply NoDup_set.
Qed.

Lemma detail_loop_keys_unique (items : list DetailItem) :
  NoDup (keys (d_data (detail_loop items))).
Proof.
  unfold detail_loop.
  set (st0 := {| d_data := []; d_amenities := []; d_parts := [] |}).
  assert (H0 : NoDup (keys (d_data st0))) by constructor.
  clearbody st0. revert st0 H0.
  induction items as [|i items IH]; intros st H; simpl; [exact H|].
  apply IH. unfold detail_step. destruct (cell_key_value i) as [k v].
  now apply process_cell_keys_unique.
Qed.

Lemma details_keys_unique (items : list DetailItem) :
  NoDup (keys (_parse_details_and_features items)).
Proof.
  unfold _parse_details_and_features, detail_finish.
  pose proof (detail_loop_keys_unique items) as H.
  destruct (d_parts (detail_loop items));
    destruct (d_amenities (detail_loop items));
    repeat apply NoDup_set; exact H.
Qed.

Lemma in_known_sections (k : str) :
  existsb (str_eqb k) known_sections = true -> In k known_sections.
Proof.
  intro H. apply existsb_exists in H. destruct H as (x & Hx & E).
  apply str_eqb_eq in E. now subst.
Qed.

Lemma fold_left_invariant {A B : Type} (P : A -> Prop) (f : A -> B -> A)
  (l : list B) (a : A) :
  (forall a x, P a -> P (f a x)) -> P a -> P (fold_left f l a).
Proof.
  intro Hf. revert a. induction l as [|x l IH]; intros a H; simpl; auto.
Qed.

Lemma fold_section_inv (acc : dict (list str) * list str)
  (kv : str * list str) :
  sections_inv acc -> sections_inv (fold_section acc kv).
Proof.
  destruct acc as [sections am], kv as [key value]. intros [H1 H2].
  unfold fold_section. destruct value as [|x value]; [now split|].
  destruct (existsb (str_eqb (fold_key key)) known_sections) eqn:E;
    [|now split].
  apply in_known_sections in E. cbn [fst] in H1, H2.
  assert (Hk : forall v k, In k (keys (set (fold_key key) v sections)) ->
                           In k known_sections).
  { intros v k Hk. rewrite keys_set in Hk. destruct (mem _ _); [auto|].
    apply in_app_or in Hk. destruct Hk as [Hk|[<-|[]]]; auto. }
  destruct (get (fold_key key) sections); split; cbn [fst];
    try (now apply NoDup_set); apply Hk.
Qed.

Lemma fold_section_sections (l : dict (list str))
  (acc : dict (list str) * list str) :
  sections_inv acc -> sections_inv (fold_left fold_section l acc).
Proof. apply fold_left_invariant. apply fold_section_inv. Qed.

Lemma keys_map_VList (sections : dict (list str)) :
  keys (map (fun kv => (fst kv, VList (snd kv))) sections) = keys sections.
Proof. unfold keys. rewrite map_map. reflexivity. Qed.

Lemma seg_finish_keys_unique (st : SegState) : NoDup (keys (seg_finish st)).
Proof.
  unfold seg_finish.
  set (am0 := match get K.amenidades_extraidas (s_data st) with
              | Some l => l
              | None => []
              end).
  destruct (fold_section_sections (remove K.amenidades_extraidas (s_data st))
              ([], am0)) as [H1 H2]; [split; [constructor|intros k []]|].
  destruct (fold_left fold_section _ _) as [sections amenities].
  cbn [fst] in H1, H2. unfold keys. rewrite !map_app. fold (keys sections).
  change (map fst (map (fun kv => (fst kv, VList (snd kv))) sections))
    with (keys (map (fun kv => (fst kv, VList (snd kv))) sections)).
  rewrite keys_map_VList.
  assert (Hc : ~ In K.caracteristicas_adicionales known_sections)
    by (intro H; repeat (destruct H as [H|H]; [discriminate H|]); exact H).
  assert (Ha : ~ In K.amenidades_extraidas known_sections)
    by (intro H; repeat (destruct H as [H|H]; [discriminate H|]); exact H).
  apply NoDup_app.
  - destruct (s_flags st); simpl; repeat constructor. intros [].
  - apply NoDup_app; [exact H1| |].
    + destruct amenities; simpl; repeat constructor. intros [].
    + intros k Hk Hk'. destruct amenities; [exact Hk'|].
      destruct Hk' as [<-|[]]. auto.
  - intros k Hk Hk'. destruct (s_flags st); [exact Hk|].
    destruct Hk as [<-|[]]. apply in_app_or in Hk'. destruct Hk' as [Hk'|Hk'].
    + auto.
    + destruct amenities; [exact Hk'|]. destruct Hk' as [Hk'|[]].
      discriminate Hk'.
Qed.

Lemma heuristics_keys_unique (raw : str) :
  NoDup (keys (_parse_description_heuristics raw)).
Proof.
  unfold _parse_description_heuristics. destruct raw.
  - repeat constructor. easy.
  - apply seg_finish_keys_unique.
Qed.

(** ** RecordConsolidator: the merge stages *)

(** Each later merge stage is a dictionary update; the description stage is
    a single assignment. *)
Lemma get_stage_summary (page : Page) (data : dict Value) (k : str) :
  get k (stage_summary page data)
  = match get k (_parse_main_summary (summary_block page)) with
    | Some v => Some v
    | None => get k data
    end.
Proof. apply get_update, summary_keys_unique. Qed.

Lemma get_stage_details (page : Page) (data : dict Value) (k : str) :
  get k (stage_details page data)
  = match get k (_parse_details_and_features (detail_items page)) with
    | Some v => Some v
    | None => get k data
    end.
Proof. apply get_update, details_keys_unique. Qed.

Lemma get_stage_heuristics (page : Page) (data : dict Value) (k : str) :
  get k (stage_heuristics page data)
  = if nonempty (description_raw page) then
      match get k (_parse_description_heuristics (description_raw page)) with
      | Some v => Some v
      | None => get k data
      end
    else get k data.
Proof.
  unfold stage_heuristics. destruct (nonempty (description_raw page)).
  - apply get_update, heuristics_keys_unique.
  - reflexivity.
Qed.

Lemma get_stage_description (page : Page) (data : dict Value) (k : str) :
  get k (stage_description page data)
  = if nonempty (description_raw page) && str_eqb k K.descripcion
    then Some (VStr (_clean_description_text (description_raw page)))
    else get k data.
Proof.
  unfold stage_description. destruct (nonempty (description_raw page)).
  - apply get_set.
  - reflexivity.
Qed.

(** C1, as the specification states it, fails: on a page whose summary row
    and detail cells both give the bedrooms, the detail stage replaces the
    non-null value stored by the summary stage. *)
Lemma later_stage_overwrites :
  ~ later_stages_only_add conflicting_page example_url.
Proof.
  intros (_ & H & _).
  specialize (H [114; 101; 99; 225; 109; 97; 114; 97; 115]%N (VFloat (Finite (3 # 1)))
                eq_refl).
  assert (E : VFloat (Finite (3 # 1)) <> VNone) by discriminate.
  specialize (H E). vm_compute in H. discriminate H.
Qed.

(** C1, amended.  Each later merge stage is a dictionary update: a key the
    stage does not itself produce keeps its value, and a key it produces
    takes the value of the later stage. *)
Theorem later_stages_update (page : Page) (data : dict Value) (k : str) :
  get k (stage_summary page data)
  = match get k (_parse_main_summary (summary_block page)) with
    | Some v => Some v
    | None => get k data
    end
  /\ get k (stage_details page data)
     = match get k (_parse_details_and_features (detail_items page)) with
       | Some v => Some v
       | None => get k data
       end
  /\ get k (stage_heuristics page data)
     = (if nonempty (description_raw page) then
          match get k (_parse_description_heuristics (description_raw page))
          with
          | Some v => Some v
          | None => get k data
          end
        else get k data)
  /\ get k (stage_description page data)
     = (if nonempty (description_raw page) && str_eqb k K.descripcion
        then Some (VStr (_clean_description_text (description_raw page)))
        else get k data).
Proof.
  split; [apply get_stage_summary|].
  split; [apply get_stage_details|].
  split; [apply get_stage_heuristics|apply get_stage_description].
Qed.


(** ** Price and currency *)

Lemma drop_while_app_all (p : N -> bool) (pre s : str) :
  forallb p pre = true ->
  match s with
  | c :: _ => p c = false
  | [] => True
  end ->
  drop_while p (pre ++ s) = s.
Proof.
  intros Hpre Hs. induction pre as [|a pre IH]; simpl.
  - destruct s as [|c s]; [reflexivity|]. simpl. now rewrite Hs.
  - simpl in Hpre. apply andb_true_iff in Hpre. destruct Hpre as [Ha Hp].
    rewrite Ha. auto.
Qed.

Lemma take_while_app_all (p : N -> bool) (pre s : str) :
  forallb p pre = true ->
  match s with
  | c :: _ => p c = false
  | [] => True
  end ->
  take_while p (pre ++ s) = pre.
Proof.
  intros Hpre Hs. induction pre as [|a pre IH]; simpl.
  - destruct s as [|c s]; [reflexivity|]. simpl. now rewrite Hs.
  - simpl in Hpre. apply andb_true_iff in Hpre. destruct Hpre as [Ha Hp].
    rewrite Ha. f_equal. auto.
Qed.

(** [_extract_number] returns the first number of the text. *)
Lemma extract_number_first (text pre ip rest : str) :
  first_numeral (remove_char COMMA text) pre ip rest ->
  _extract_number text = Some (float_of_numeral ip (fraction_digits rest)).
Proof.
  intros (Ht & Hpre & Hip & Hd & Hrest).
  unfold _extract_number. destruct text as [|c0 t0].
  - simpl in Ht. destruct pre; destruct ip; try discriminate Ht.
    congruence.
  - rewrite Ht. destruct ip as [|i ip]; [congruence|].
    assert (Hi : is_digit i = true)
      by (simpl in Hd; now apply andb_true_iff in Hd).
    rewrite drop_while_app_all;
      [|exact Hpre|simpl; now rewrite Hi].
    change ((i :: ip) ++ rest) with (i :: (ip ++ rest)). cbv iota beta zeta.
    change (i :: (ip ++ rest)) with ((i :: ip) ++ rest).
    rewrite take_while_app_all by assumption.
    rewrite drop_while_app_all by assumption.
    reflexivity.
Qed.

(** *** Lower case *)

Lemma lookup_In (c : N) (t : list (N * list N)) (v : list N) :
  Unicode.lookup c t = Some v -> In (c, v) t.
Proof.
  induction t as [|[k w] t IH]; [discriminate|]. cbn [Unicode.lookup].
  destruct (N.eqb_spec c k) as [->|Hk].
  - intros [= ->]. now left.
  - destruct (c <? k)%N; [discriminate|]. intro H. right. auto.
Qed.

Lemma lower_from_cons (st : bool) (c : N) (t : str) :
  lower_from st (c :: t)
  = (if (c =? SIGMA)%N
     then [if st && final_after t then FINAL_SIGMA else SMALL_SIGMA]
     else lower_full c)
    ++ lower_from (if case_ignorable c then st else cased c) t.
Proof. reflexivity. Qed.

(** The lower case of a text ends with the lower case of any of its
    suffixes, taken from the state the prefix leaves. *)
Lemma lower_from_app (pre rest : str) : forall st,
  exists x, lower_from st (pre ++ rest)
            = x ++ lower_from (state_after st pre) rest.
Proof.
  induction pre as [|c pre IH]; intro st; [now exists []|].
  cbn [app]. rewrite lower_from_cons. cbn [state_after].
  destruct (IH (if case_ignorable c then st else cased c)) as [x ->].
  eexists. now rewrite app_assoc.
Qed.

Lemma lower_from_app_plain (sub suf : str) : forall st,
  plain sub = true ->
  lower_from st (sub ++ suf)
  = flat_map lower_full sub ++ lower_from (state_after st sub) suf.
Proof.
  induction sub as [|c sub IH]; intros st Hp; [reflexivity|].
  cbn [plain forallb] in Hp. apply andb_prop in Hp. destruct Hp as [Hc Hp].
  apply negb_true_iff in Hc.
  cbn [app flat_map state_after]. rewrite lower_from_cons, Hc.
  rewrite (IH _ Hp). now rewrite app_assoc.
Qed.

Lemma starts_with_split (p s : str) :
  starts_with p s = true -> exists suf, s = p ++ suf.
Proof.
  revert s. induction p as [|a p IH]; intros s H; [now exists s|].
  destruct s as [|b s]; [discriminate H|].
  rewrite starts_with_cons in H. apply andb_prop in H. destruct H as [E H].
  apply N.eqb_eq in E. subst b. destruct (IH s H) as [suf ->].
  now exists suf.
Qed.

Lemma contains_split (sub s : str) :
  contains sub s = true -> exists pre suf, s = pre ++ sub ++ suf.
Proof.
  induction s as [|c s IH].
  - cbn [contains]. rewrite orb_false_r. intro H.
    destruct (starts_with_split sub [] H) as [suf E]. now exists [], suf.
  - rewrite contains_cons. intro H. apply orb_prop in H.
    destruct H as [H|H].
    + destruct (starts_with_split sub (c :: s) H) as [suf E].
      now exists [], suf.
    + destruct (IH H) as (pre & suf & ->). now exists (c :: pre), suf.
Qed.

Lemma starts_with_refl (s t : str) : starts_with s (s ++ t) = true.
Proof.
  induction s as [|c s IH]; [apply starts_with_nil|].
  cbn [app]. now rewrite starts_with_cons, N.eqb_refl.
Qed.

Lemma contains_prefix (s t : str) : contains s (s ++ t) = true.
Proof.
  destruct s as [|c s]; [now destruct t|].
  cbn [app]. rewrite contains_cons.
  change (c :: s ++ t) with ((c :: s) ++ t).
  now rewrite starts_with_refl.
Qed.

(** A text that holds a word without capital sigma holds, in lower case,
    the lower case of the word. *)
Lemma contains_lower (sub s : str) :
  plain sub = true -> contains sub s = true ->
  contains (flat_map lower_full sub) (lower s) = true.
Proof.
  intros Hp H. destruct (contains_split sub s H) as (pre & suf & ->).
  unfold lower.
  destruct (lower_from_app pre (sub ++ suf) false) as [x ->].
  rewrite (lower_from_app_plain sub suf _ Hp).
  apply contains_app_l, contains_prefix.
Qed.

Lemma sigma_alike_refl (a : str) : sigma_alike a a.
Proof. induction a; constructor; auto. Qed.

Lemma sigma_alike_app (a a' b b' : str) :
  sigma_alike a a' -> sigma_alike b b' -> sigma_alike (a ++ b) (a' ++ b').
Proof. apply Forall2_app. Qed.

(** The state in which lower-casing starts only changes the form of small
    sigmas. *)
Lemma lower_from_alike (s : str) : forall st st',
  sigma_alike (lower_from st s) (lower_from st' s).
Proof.
  induction s as [|c s IH]; intros st st'; [constructor|].
  rewrite !lower_from_cons. apply sigma_alike_app; [|apply IH].
  destruct (c =? SIGMA)%N; [|apply sigma_alike_refl].
  constructor; [|constructor]. right.
  split; [destruct (st && _)|destruct (st' && _)]; reflexivity.
Qed.

Lemma starts_with_alike (kw a b : str) :
  no_sigma kw = true -> sigma_alike a b ->
  starts_with kw a = starts_with kw b.
Proof.
  intros Hk H. revert kw Hk.
  induction H as [|x y a b Hxy Hab IH]; intros kw Hk; [reflexivity|].
  destruct kw as [|k kw]; [reflexivity|].
  cbn [no_sigma forallb] in Hk. apply andb_prop in Hk.
  destruct Hk as [Hk Hkw]. apply negb_true_iff in Hk.
  rewrite !starts_with_cons, (IH kw Hkw). f_equal.
  destruct Hxy as [->|[Hx Hy]]; [reflexivity|].
  destruct (N.eqb_spec k x) as [->|_]; [congruence|].
  destruct (N.eqb_spec k y) as [->|_]; [congruence|reflexivity].
Qed.

Lemma contains_alike (kw a b : str) :
  no_sigma kw = true -> sigma_alike a b ->
  contains kw a = contains kw b.
Proof.
  intros Hk H. induction H as [|x y a b Hxy Hab IH].
  - reflexivity.
  - rewrite !contains_cons, IH.
    now rewrite (starts_with_alike kw (x :: a) (y :: b) Hk
                   (Forall2_cons _ _ Hxy Hab)).
Qed.

(** A keyword without sigma found in the lower case of a suffix of a text
    is found in the lower case of the text. *)
Lemma contains_lower_suffix (kw pre item : str) :
  no_sigma kw = true -> contains kw (lower item) = true ->
  contains kw (lower (pre ++ item)) = true.
Proof.
  intros Hk H. unfold lower in *.
  destruct (lower_from_app pre item false) as [x ->].
  apply contains_app_l.
  now rewrite (contains_alike kw _ _ Hk
                 (lower_from_alike item (state_after false pre) false)).
Qed.

(** Where the characters of a lower-cased text come from. *)
Lemma lower_from_In (x : N) (s : str) : forall st,
  In x (lower_from st s) ->
  is_sigma x = true \/ exists c, In c s /\ In x (lower_full c).
Proof.
  induction s as [|c s IH]; intros st H; [destruct H|].
  rewrite lower_from_cons in H. apply in_app_or in H.
  destruct H as [H|H].
  - destruct (c =? SIGMA)%N.
    + left. destruct H as [<-|[]]. now destruct (st && _).
    + right. exists c. split; [now left|exact H].
  - destruct (IH _ H) as [Hs|(c' & Hc & Hx)]; [now left|].
    right. exists c'. split; [now right|exact Hx].
Qed.

(** ** StructuralExtractor: the narrative sentence *)

Lemma filter_filter {A : Type} (f g : A -> bool) (l : list A) :
  filter f (filter g l) = filter (fun x => g x && f x) l.
Proof.
  induction l as [|a l IH]; simpl; [reflexivity|].
  destruct (g a); simpl; [destruct (f a)|]; now rewrite IH.
Qed.

Lemma dedupe_acc_first_seen (seen l : list str) :
  dedupe_acc seen l
  = filter (fun b => negb (existsb (str_eqb b) seen)) (first_seen l).
Proof.
  revert seen. induction l as [|a t IH]; intro seen; simpl; [reflexivity|].
  destruct (existsb (str_eqb a) seen) eqn:E; simpl.
  - rewrite IH, filter_filter. apply filter_ext_in. intros b _.
    destruct (str_eqb b a) eqn:Eb; simpl; [|reflexivity].
    apply str_eqb_eq in Eb. subst b. now rewrite E.
  - rewrite IH, filter_filter. f_equal. apply filter_ext. intro b. simpl.
    rewrite negb_orb. reflexivity.
Qed.

(** The code's deduplication keeps the first occurrences in order. *)
Lemma dedupe_first_seen (l : list str) : dedupe l = first_seen l.
Proof.
  unfold dedupe. rewrite dedupe_acc_first_seen.
  induction (first_seen l) as [|a t IH]; simpl; [reflexivity|]. now f_equal.
Qed.

Section ReplaceLast.
Variables (s0 : N) (sep' new : str).
Let sep := s0 :: sep'.

Lemma rfind_from_spec (s : str) (i : nat) :
  match rfind_from i sep s with
  | Some j =>
      exists k, j = (i + k)%nat
                /\ firstn k s ++ new ++ skipn (k + length sep) s
                   = replace_last sep new s
                /\ contains sep s = true
  | None => contains sep s = false /\ replace_last sep new s = s
  end.
Proof.
  revert i. induction s as [|c t IH]; intro i.
  - simpl. auto.
  - change (rfind_from i sep (c :: t)) with
      (match rfind_from (S i) sep t with
       | Some j => Some j
       | None => if starts_with sep (c :: t) then Some i else None
       end).
    specialize (IH (S i)).
    change (replace_last sep new (c :: t)) with
      (if contains sep t then c :: replace_last sep new t
       else if starts_with sep (c :: t)
            then new ++ skipn (length sep) (c :: t)
            else c :: t).
    rewrite contains_cons.
    destruct (rfind_from (S i) sep t) as [j|].
    + destruct IH as (k & -> & Hk & Hc). exists (S k).
      rewrite Hc, orb_true_r. repeat split; [lia|].
      change (firstn (S k) (c :: t)) with (c :: firstn k t).
      change (skipn (S k + length sep) (c :: t))
        with (skipn (k + length sep) t).
      simpl. f_equal. exact Hk.
    + destruct IH as (Hc & Hr). rewrite Hc, orb_false_r.
      destruct (starts_with sep (c :: t)) eqn:E.
      * exists 0%nat. repeat split. lia.
      * now split.
Qed.

Lemma replace_last_app (x last : str) :
  contains sep (sep' ++ last) = false ->
  replace_last sep new (x ++ sep ++ last) = x ++ new ++ last.
Proof.
  intro H. assert (Hs : starts_with sep (sep ++ last) = true).
  { clear H. subst sep. generalize (s0 :: sep'). intro p.
    induction p as [|a p IH]; simpl; [now destruct last|].
    now rewrite N.eqb_refl. }
  induction x as [|c x IH].
  - change ([] ++ sep ++ last) with (s0 :: (sep' ++ last)).
    change (replace_last sep new (s0 :: (sep' ++ last))) with
      (if contains sep (sep' ++ last)
       then s0 :: replace_last sep new (sep' ++ last)
       else if starts_with sep (s0 :: (sep' ++ last))
            then new ++ skipn (length sep) (s0 :: (sep' ++ last))
            else s0 :: (sep' ++ last)).
    rewrite H. change (s0 :: (sep' ++ last)) with (sep ++ last).
    rewrite Hs. rewrite skipn_app, skipn_all, Nat.sub_diag. reflexivity.
  - change ((c :: x) ++ sep ++ last) with (c :: (x ++ sep ++ last)).
    change (replace_last sep new (c :: (x ++ sep ++ last))) with
      (if contains sep (x ++ sep ++ last)
       then c :: replace_last sep new (x ++ sep ++ last)
       else if starts_with sep (c :: (x ++ sep ++ last))
            then new ++ skipn (length sep) (c :: (x ++ sep ++ last))
            else c :: (x ++ sep ++ last)).
    rewrite contains_app_l.
    + rewrite IH. reflexivity.
    + destruct (sep ++ last) eqn:E; [discriminate|].
      rewrite contains_cons, Hs. reflexivity.
Qed.
End ReplaceLast.

(** The code's index arithmetic replaces the last separator. *)
Lemma replace_last_comma_spec (s : str) :
  replace_last_comma s = replace_last K.comma_space K.y_between s.
Proof.
  unfold replace_last_comma, rfind.
  pose proof (rfind_from_spec 44 [32]%N K.y_between s 0) as H.
  change (44 :: [32])%N with K.comma_space in H.
  destruct (rfind_from 0 K.comma_space s) as [j|].
  - destruct H as (k & -> & Hk & Hc). rewrite Hc. exact Hk.
  - destruct H as (Hc & Hr). now rewrite Hc, Hr.
Qed.

Lemma narrative_as_spec (parts : list str) :
  narrative parts = narrative_spec parts.
Proof.
  unfold narrative, narrative_spec.
  now rewrite replace_last_comma_spec, dedupe_first_seen.
Qed.

Lemma join_snoc (sep : str) (init : list str) (last : str) :
  init <> [] -> join sep (init ++ [last]) = join sep init ++ sep ++ last.
Proof.
  induction init as [|a init IH]; [congruence|]. intros _.
  destruct init as [|b init]; [reflexivity|].
  change (join sep ((a :: b :: init) ++ [last]))
    with (a ++ sep ++ join sep ((b :: init) ++ [last])).
  rewrite IH by discriminate.
  change (join sep (a :: b :: init)) with (a ++ sep ++ join sep (b :: init)).
  now rewrite <- !app_assoc.
Qed.

(** With several fragments, all but the last are joined by commas and the
    last one follows [" y "]. *)
Lemma narrative_spec_last (parts init : list str) (last : str) :
  first_seen parts = init ++ [last] -> init <> [] ->
  contains K.comma_space last = false ->
  narrative_spec parts
  = K.la_propiedad_cuenta_con ++ join K.comma_space init
    ++ K.y_between ++ last.
Proof.
  intros Hf Hi Hl. unfold narrative_spec. rewrite Hf, join_snoc by exact Hi.
  f_equal.
  apply (replace_last_app 44 [32]%N K.y_between (join K.comma_space init) last).
  change (contains K.comma_space (32 :: last)%N = false).
  rewrite contains_cons, Hl. reflexivity.
Qed.

Lemma get_descripcion_amenidades (st : DetailState) :
  d_parts st <> [] ->
  get K.descripcion_amenidades (detail_finish st)
  = Some (VStr (narrative (d_parts st))).
Proof.
  intro H. unfold detail_finish.
  destruct (d_parts st) as [|p ps] eqn:E; [congruence|].
  destruct (d_amenities st).
  - apply get_set_same.
  - rewrite get_set_other by discriminate. apply get_set_same.
Qed.

(** C6. When the detail extractor has accumulated fragments,
    [descripcion_amenidades] is "La propiedad cuenta con " followed by the
    fragments, deduplicated in first-seen order and joined with ", ", the
    last ", " being replaced by " y ".  With several fragments the last one
    follows " y " and the others are separated by ", "; the fragments
    "alberca" and "2 recámaras" give "La propiedad cuenta con alberca y 2
    recámaras". *)
Theorem narrative_sentence (items : list DetailItem) :
  d_parts (detail_loop items) <> [] ->
  get K.descripcion_amenidades (_parse_details_and_features items)
  = Some (VStr (narrative_spec (d_parts (detail_loop items))))
  /\ (forall init last,
        first_seen (d_parts (detail_loop items)) = init ++ [last] ->
        init <> [] -> contains K.comma_space last = false ->
        get K.descripcion_amenidades (_parse_details_and_features items)
        = Some (VStr (K.la_propiedad_cuenta_con ++ join K.comma_space init
                      ++ K.y_between ++ last)))
  /\ narrative_spec [u "alberca"; u "2 recámaras"]
     = u "La propiedad cuenta con alberca y 2 recámaras"
  /\ narrative_spec [u "alberca"; u "2 recámaras"; u "jardín"]
     = u "La propiedad cuenta con alberca, 2 recámaras y jardín".
Proof.
  intro H.
  assert (G : get K.descripcion_amenidades (_parse_details_and_features items)
              = Some (VStr (narrative_spec (d_parts (detail_loop items))))).
  { unfold _parse_details_and_features.
    rewrite get_descripcion_amenidades by exact H.
    now rewrite narrative_as_spec. }
  split; [exact G|]. split; [|split; reflexivity].
  intros init last Hf Hi Hl. rewrite G.
  now rewrite (narrative_spec_last _ init last Hf Hi Hl).
Qed.

Lemma narrative_sentence_witness :
  get K.descripcion_amenidades
    (_parse_details_and_features (detail_items example_page))
  = Some (VStr (u "La propiedad cuenta con año de construcción 15, alberca y tipo casa")).
Proof.
  assert (H : d_parts (detail_loop (detail_items example_page)) <> [])
    by (vm_compute; discriminate).
  destruct (narrative_sentence (detail_items example_page) H) as (_ & G & _).
  exact (G [u "año de construcción 15"; u "alberca"] (u "tipo casa")
           eq_refl ltac:(discriminate) eq_refl).
Defined.

(** ** StructuralExtractor: valueless keys *)

Lemma nonempty_true (s : str) : nonempty s = true <-> s <> [].
Proof. destruct s; simpl; split; congruence. Qed.

(** A valueless key goes to the bare-amenity list, excluded or not; when it
    is excluded it only stays out of the narrative. *)
Lemma process_cell_valueless (st : DetailState) (key : str) :
  key <> [] ->
  d_amenities (process_cell st key []) = d_amenities st ++ [key]
  /\ d_data (process_cell st key []) = d_data st
  /\ (is_excluded (normalize_key key) = true ->
      d_parts (process_cell st key []) = d_parts st).
Proof.
  intro H. apply nonempty_true in H. unfold process_cell. rewrite H. simpl.
  repeat split. intros ->. reflexivity.
Qed.

Lemma process_cell_amenities_grow (st : DetailState) (k v x : str) :
  In x (d_amenities st) -> In x (d_amenities (process_cell st k v)).
Proof.
  intro H. unfold process_cell. destruct (nonempty k); [|exact H].
  destruct (nonempty v); simpl; [exact H|].
  apply in_or_app. now left.
Qed.

Lemma detail_fold_amenities_grow (items : list DetailItem) (st : DetailState)
  (x : str) :
  In x (d_amenities st) ->
  In x (d_amenities (fold_left detail_step items st)).
Proof.
  revert st. induction items as [|i items IH]; intros st H; [exact H|].
  simpl. apply IH. unfold detail_step. destruct (cell_key_value i).
  now apply process_cell_amenities_grow.
Qed.

Lemma valueless_key_collected (items : list DetailItem) (item : DetailItem)
  (key : str) :
  In item items -> cell_key_value item = (key, []) -> key <> [] ->
  In key (d_amenities (detail_loop items)).
Proof.
  intros Hin Hc Hk. apply in_split in Hin. destruct Hin as (l1 & l2 & ->).
  unfold detail_loop. rewrite fold_left_app. cbn [fold_left].
  apply detail_fold_amenities_grow. unfold detail_step at 1. rewrite Hc.
  destruct (process_cell_valueless
              (fold_left detail_step l1
                 {| d_data := []; d_amenities := []; d_parts := [] |})
              key Hk) as (-> & _).
  apply in_or_app. right. now left.
Qed.

Lemma no_precio_key_set (data : dict Value) (k : str) (v : Value) :
  contains K.precio k = false -> no_precio_key data ->
  no_precio_key (set k v data).
Proof.
  intros Hk H x Hx. rewrite keys_set in Hx. destruct (mem k data); [auto|].
  apply in_app_or in Hx. destruct Hx as [Hx|[<-|[]]]; auto.
Qed.

Lemma process_cell_no_precio_key (st : DetailState) (k v : str) :
  no_precio_key (d_data st) -> no_precio_key (d_data (process_cell st k v)).
Proof.
  intro H. unfold process_cell. destruct (nonempty k); [|exact H].
  destruct (nonempty v); [|exact H]. cbn [d_data].
  destruct (contains K.precio_de_venta (normalize_key k));
    [now apply no_precio_key_set|].
  destruct (contains K.precio_de_renta (normalize_key k));
    [now apply no_precio_key_set|].
  destruct (contains K.precio (normalize_key k)) eqn:E; [exact H|].
  now apply no_precio_key_set.
Qed.

Lemma detail_loop_no_precio_key (items : list DetailItem) :
  no_precio_key (d_data (detail_loop items)).
Proof.
  unfold detail_loop.
  apply (fold_left_invariant (fun st => no_precio_key (d_data st))).
  - intros st i H. unfold detail_step. destruct (cell_key_value i).
    now apply process_cell_no_precio_key.
  - intros k [].
Qed.

(** A bare key that contains "precio" is never filtered out of the
    structural amenity list. *)
Lemma precio_key_kept (items : list DetailItem) (key : str) :
  In key (d_amenities (detail_loop items)) ->
  contains K.precio (normalize_key key) = true ->
  exists l,
    get K.amenidades_estructurales (_parse_details_and_features items)
    = Some (VList l) /\ In key l.
Proof.
  intros Hin Hp. unfold _parse_details_and_features, detail_finish.
  pose proof (detail_loop_no_precio_key items) as Hd.
  set (st := detail_loop items) in *.
  set (data := match d_parts st with
               | [] => d_data st
               | _ :: _ =>
                   set K.descripcion_amenidades
                     (VStr (narrative (d_parts st))) (d_data st)
               end).
  assert (Hdata : no_precio_key data).
  { subst data. destruct (d_parts st); [exact Hd|].
    now apply no_precio_key_set. }
  destruct (d_amenities st) as [|a am] eqn:E; [destruct Hin|].
  eexists. split; [apply get_set_same|].
  apply filter_In. split; [exact Hin|].
  apply negb_true_iff. unfold mem.
  destruct (get (normalize_key key) data) eqn:G; [|reflexivity].
  apply get_In in G. apply (in_map fst) in G. apply Hdata in G.
  simpl in G. congruence.
Qed.

(** C10. A detail cell that yields a key without a value adds the key to the
    bare-amenity list even when the key contains "precio", "operacion" or
    "cuota": the exclusion only keeps it out of the narrative.  A bare key
    that contains "precio" is never filtered out afterwards, and the bare
    label "Precio" reaches the final [amenidades] list. *)
Theorem valueless_financial_key_is_amenity
  (items : list DetailItem) (item : DetailItem) (key : str) :
  In item items -> cell_key_value item = (key, []) -> key <> [] ->
  In key (d_amenities (detail_loop items))
  /\ (forall st,
        d_amenities (process_cell st key []) = d_amenities st ++ [key]
        /\ (is_excluded (normalize_key key) = true ->
            d_parts (process_cell st key []) = d_parts st))
  /\ (contains K.precio (normalize_key key) = true ->
      exists l,
        get K.amenidades_estructurales (_parse_details_and_features items)
        = Some (VList l) /\ In key l)
  /\ parse_property_html (Some precio_cell_page) example_url
     = Ok [(K.url, VStr example_url); (K.amenidades, VList [u "Precio"])].
Proof.
  intros Hin Hc Hk.
  pose proof (valueless_key_collected items item key Hin Hc Hk) as Ha.
  split; [exact Ha|]. split; [|split; [|reflexivity]].
  - intro st. destruct (process_cell_valueless st key Hk) as (H1 & _ & H3).
    now split.
  - intro Hp. now apply precio_key_kept.
Qed.

Lemma valueless_financial_key_is_amenity_witness :
  exists l,
    get K.amenidades_estructurales
      (_parse_details_and_features (detail_items precio_cell_page))
    = Some (VList l) /\ In (u "Precio") l.
Proof.
  destruct (valueless_financial_key_is_amenity
              (detail_items precio_cell_page) (bare_cell (u "Precio"))
              (u "Precio") (or_introl eq_refl) eq_refl
              ltac:(discriminate)) as (_ & _ & H & _).
  exact (H eq_refl).
Defined.

(** ** Sorting and deduplication *)

Lemma str_ltb_irrefl (a : str) : str_ltb a a = false.
Proof.
  induction a as [|x a IH]; simpl; [reflexivity|].
  now rewrite N.ltb_irrefl, N.eqb_refl, IH.
Qed.

Lemma str_ltb_trans (a b c : str) :
  str_ltb a b = true -> str_ltb b c = true -> str_ltb a c = true.
Proof.
  revert b c. induction a as [|x a IH]; intros [|y b] [|z c]; simpl;
    try easy.
  rewrite !orb_true_iff, !andb_true_iff, !N.ltb_lt, !N.eqb_eq.
  intros [H1|[H1 H1']] [H2|[H2 H2']].
  - left. lia.
  - left. lia.
  - left. lia.
  - right. split; [lia|]. eapply IH; eassumption.
Qed.

Lemma str_ltb_total (a b : str) :
  str_ltb a b = false -> a <> b -> str_ltb b a = true.
Proof.
  revert b. induction a as [|x a IH]; intros [|y b]; simpl; try easy.
  rewrite orb_false_iff, andb_false_iff, orb_true_iff, andb_true_iff.
  rewrite N.ltb_ge, N.ltb_lt, N.eqb_neq, !N.eqb_eq.
  intros [H1 H2] Hne.
  destruct (N.eq_dec x y) as [->|Hxy].
  - right. split; [reflexivity|]. apply IH.
    + destruct H2 as [H2|H2]; [congruence|exact H2].
    + congruence.
  - left. lia.
Qed.

Lemma insert_sorted_In (a x : str) (l : list str) :
  In x (insert_sorted a l) <-> x = a \/ In x l.
Proof.
  induction l as [|b t IH]; simpl; [intuition|].
  destruct (str_ltb b a); simpl; [rewrite IH|]; intuition.
Qed.

Lemma sorted_In (x : str) (l : list str) : In x (sorted l) <-> In x l.
Proof.
  induction l as [|a t IH]; simpl; [tauto|].
  rewrite insert_sorted_In, IH. intuition.
Qed.

Lemma insert_sorted_HdRel (a b : str) (l : list str) :
  str_lt b a -> HdRel str_lt b l -> HdRel str_lt b (insert_sorted a l).
Proof.
  intros Hba H. destruct l as [|c t]; simpl; [now constructor|].
  inversion H; subst. destruct (str_ltb c a); now constructor.
Qed.

Lemma insert_sorted_Sorted (a : str) (l : list str) :
  ~ In a l -> Sorted str_lt l -> Sorted str_lt (insert_sorted a l).
Proof.
  intros Hn H. induction H as [|b t Ht IH Hb]; simpl.
  - repeat constructor.
  - destruct (str_ltb b a) eqn:E.
    + constructor.
      * apply IH. intro Hin. apply Hn. now right.
      * now apply insert_sorted_HdRel.
    + constructor; [now constructor|]. constructor.
      apply str_ltb_total; [exact E|]. intros ->. apply Hn. now left.
Qed.

Lemma sorted_Sorted (l : list str) : NoDup l -> Sorted str_lt (sorted l).
Proof.
  induction 1 as [|a t Ha Ht IH]; simpl; [constructor|].
  apply insert_sorted_Sorted; [|exact IH]. now rewrite sorted_In.
Qed.

Lemma sorted_StronglySorted (l : list str) :
  NoDup l -> StronglySorted str_lt (sorted l).
Proof.
  intro H. apply Sorted_StronglySorted; [|now apply sorted_Sorted].
  intros a b c. apply str_ltb_trans.
Qed.

Lemma first_seen_In (x : str) (l : list str) :
  In x (first_seen l) <-> In x l.
Proof.
  induction l as [|a t IH]; simpl; [tauto|].
  rewrite filter_In, IH. split.
  - intuition.
  - intros [->|H]; [now left|].
    destruct (str_eqb x a) eqn:E.
    + apply str_eqb_eq in E. now left.
    + right. split; [exact H|reflexivity].
Qed.

Lemma first_seen_NoDup (l : list str) : NoDup (first_seen l).
Proof.
  induction l as [|a t IH]; simpl; constructor.
  - rewrite filter_In. intros [_ H]. now rewrite str_eqb_refl in H.
  - now apply NoDup_filter.
Qed.

Lemma dedupe_In (x : str) (l : list str) : In x (dedupe l) <-> In x l.
Proof. rewrite dedupe_first_seen. apply first_seen_In. Qed.

Lemma dedupe_NoDup (l : list str) : NoDup (dedupe l).
Proof. rewrite dedupe_first_seen. apply first_seen_NoDup. Qed.

(** A strictly sorted list is determined by its elements: the result of
    [sorted(list(set(l)))] does not depend on the iteration order of the
    set. *)
Lemma strictly_sorted_unique (l1 l2 : list str) :
  StronglySorted str_lt l1 -> StronglySorted str_lt l2 ->
  (forall x, In x l1 <-> In x l2) -> l1 = l2.
Proof.
  intros H1. revert l2. induction H1 as [|a t Ht IH Ha]; intros l2 H2 Hin.
  - destruct l2 as [|b t2]; [reflexivity|].
    exfalso. apply (Hin b). now left.
  - destruct H2 as [|b t2 Ht2 Hb].
    + exfalso. apply (Hin a). now left.
    + rewrite Forall_forall in Ha, Hb.
      assert (E : a = b).
      { destruct (proj1 (Hin a) (or_introl eq_refl)) as [E|Hab];
          [now symmetry|].
        destruct (proj2 (Hin b) (or_introl eq_refl)) as [E|Hba];
          [exact E|].
        apply Hb in Hab. apply Ha in Hba.
        pose proof (str_ltb_trans _ _ _ Hab Hba) as C.
        now rewrite str_ltb_irrefl in C. }
      subst b. f_equal. apply IH; [exact Ht2|].
      intro x. split; intro Hx.
      * destruct (proj1 (Hin x) (or_intror Hx)) as [<-|H]; [|exact H].
        apply Ha in Hx. unfold str_lt in Hx.
        now rewrite str_ltb_irrefl in Hx.
      * destruct (proj2 (Hin x) (or_intror Hx)) as [<-|H]; [|exact H].
        apply Hb in Hx. unfold str_lt in Hx.
        now rewrite str_ltb_irrefl in Hx.
Qed.

(** Sorting a set gives the same list whatever the order in which the set
    is listed. *)
Lemma sorted_set_order_irrelevant (l1 l2 : list str) :
  NoDup l1 -> NoDup l2 -> (forall x, In x l1 <-> In x l2) ->
  sorted l1 = sorted l2.
Proof.
  intros H1 H2 H. apply strictly_sorted_unique.
  - now apply sorted_StronglySorted.
  - now apply sorted_StronglySorted.
  - intro x. rewrite !sorted_In. apply H.
Qed.

(** The cleaned amenity list is strictly sorted (hence sorted and free of
    duplicates) and holds exactly the capitalized clean texts of the
    non-empty entries. *)
Lemma clean_amenities_In (all : list str) (e : str) :
  In e (clean_amenities all)
  <-> exists a, In a all /\ a <> [] /\ e = capitalize (_clean_text a).
Proof.
  unfold clean_amenities. rewrite sorted_In, dedupe_In, in_map_iff. split.
  - intros (a & <- & H). apply filter_In in H. destruct H as [H1 H2].
    exists a. repeat split; [exact H1|now apply nonempty_true].
  - intros (a & H1 & H2 & ->). exists a. split; [reflexivity|].
    apply filter_In. split; [exact H1|now apply nonempty_true].
Qed.

Lemma clean_amenities_sorted (all : list str) :
  StronglySorted str_lt (clean_amenities all).
Proof. apply sorted_StronglySorted, dedupe_NoDup. Qed.

(** *** Capitalization *)

Lemma lowercase_closed_true : lowercase_closed = true.
Proof. vm_compute. reflexivity. Qed.

Lemma titlecase_closed_true : titlecase_closed = true.
Proof. vm_compute. reflexivity. Qed.

(** The characters of a lower-case mapping are in lower case. *)
Lemma lower_full_stable (c x : N) :
  c <> SIGMA -> In x (lower_full c) -> lower_full x = [x] /\ x <> SIGMA.
Proof.
  intros Hc H. unfold lower_full in H.
  assert (HN : Unicode.lookup x Unicode.lowercase = None /\ x <> SIGMA).
  { destruct (Unicode.lookup c Unicode.lowercase) as [l|] eqn:E.
    - apply lookup_In in E.
      pose proof lowercase_closed_true as T. unfold lowercase_closed in T.
      rewrite forallb_forall in T. specialize (T _ E). cbn [snd] in T.
      rewrite forallb_forall in T. specialize (T _ H).
      destruct (Unicode.lookup x Unicode.lowercase); [discriminate T|].
      split; [reflexivity|]. apply N.eqb_neq. now apply negb_true_iff.
    - destruct H as [<-|[]]. now split. }
  destruct HN as [HN Hx].
  split; [unfold lower_full; now rewrite HN|exact Hx].
Qed.

Lemma lower_from_stable (x : N) (s : str) (st : bool) :
  In x (lower_from st s) -> lower_full x = [x] /\ x <> SIGMA.
Proof.
  revert st. induction s as [|c s IH]; intros st H; [destruct H|].
  rewrite lower_from_cons in H. apply in_app_or in H.
  destruct H as [H|H]; [|eauto].
  destruct (N.eqb_spec c SIGMA) as [_|Hc].
  - destruct H as [<-|[]]. destruct (st && _); now vm_compute.
  - now apply (lower_full_stable c).
Qed.

Lemma lower_from_fixed (s : str) : forall st,
  (forall x, In x s -> lower_full x = [x] /\ x <> SIGMA) ->
  lower_from st s = s.
Proof.
  induction s as [|c s IH]; intros st H; [reflexivity|].
  rewrite lower_from_cons.
  destruct (H c (or_introl eq_refl)) as [E Hc].
  apply N.eqb_neq in Hc. rewrite Hc, E. cbn [app]. f_equal.
  apply IH. intros x Hx. apply H. now right.
Qed.

(** Lower-casing twice is lower-casing once. *)
Lemma lower_from_idem (s : str) (st st' : bool) :
  lower_from st' (lower_from st s) = lower_from st s.
Proof. apply lower_from_fixed. intro x. apply lower_from_stable. Qed.

Lemma title_full_stable (c x : N) :
  title_full c = [x] -> title_full x = [x].
Proof.
  unfold title_full at 1.
  destruct (Unicode.lookup c Unicode.titlecase) as [l|] eqn:E.
  - intros ->. apply lookup_In in E.
    pose proof titlecase_closed_true as T. unfold titlecase_closed in T.
    rewrite forallb_forall in T. specialize (T _ E). cbn [snd] in T.
    unfold title_full. now destruct (Unicode.lookup x Unicode.titlecase).
  - intros [= <-]. unfold title_full. now rewrite E.
Qed.

(** Capitalizing changes nothing in a capitalized text whose first
    character has a title case of one character. *)
Lemma capitalize_idem (s : str) :
  simple_initial s = true -> capitalized (capitalize s).
Proof.
  unfold capitalized. destruct s as [|c t]; [reflexivity|].
  cbn [simple_initial]. destruct (title_full c) as [|x [|]] eqn:E;
    try discriminate. intros _.
  cbn [capitalize]. rewrite E. cbn [app capitalize].
  rewrite (title_full_stable c x E). cbn [app]. f_equal.
  apply lower_from_idem.
Qed.

Lemma clean_amenities_capitalized (all : list str) :
  Forall (fun a => simple_initial (_clean_text a) = true) all ->
  Forall capitalized (clean_amenities all).
Proof.
  intro H. rewrite Forall_forall in H. apply Forall_forall. intros e He.
  apply clean_amenities_In in He. destruct He as (a & Ha & _ & ->).
  apply capitalize_idem. now apply H.
Qed.

(** ** RecordConsolidator: renaming and pruning *)

Lemma set_absent {V : Type} (k : str) (v : V) (d : dict V) :
  get k d = None -> set k v d = d ++ [(k, v)].
Proof.
  induction d as [|[k' v'] t IH]; simpl; [reflexivity|].
  destruct (str_eqb k k'); [discriminate|]. intro H. now rewrite IH.
Qed.

Lemma set_same_value {V : Type} (k : str) (v : V) (d : dict V) :
  get k d = Some v -> set k v d = d.
Proof.
  induction d as [|[k' v'] t IH]; simpl; [discriminate|].
  destruct (str_eqb k k') eqn:E.
  - apply str_eqb_eq in E. subst. now intros [= ->].
  - intro H. now rewrite IH.
Qed.

Lemma get_app_None {V : Type} (k : str) (d e : dict V) :
  get k (d ++ e) = match get k d with
                   | Some v => Some v
                   | None => get k e
                   end.
Proof.
  induction d as [|[k' v'] t IH]; simpl; [reflexivity|].
  now destruct (str_eqb k k').
Qed.

(** The renamed keys are never renamed again. *)
Lemma final_key_stable (k : str) : get (final_key k) key_mapping = None.
Proof.
  unfold final_key. destruct (get k key_mapping) as [k'|] eqn:E; [|exact E].
  apply get_In in E. simpl in E.
  repeat (destruct E as [E|E]; [injection E as _ <-; reflexivity|]).
  destruct E.
Qed.

Lemma final_key_fixed (k : str) : get k key_mapping = None -> final_key k = k.
Proof. unfold final_key. now intros ->. Qed.

Lemma final_key_inv (k k0 : str) :
  not_a_new_name k0 = true -> final_key k = k0 -> k = k0.
Proof.
  intros Hn. unfold final_key.
  destruct (get k key_mapping) as [k'|] eqn:E; [|auto].
  intros ->. apply get_In in E. unfold not_a_new_name in Hn.
  rewrite forallb_forall in Hn. apply Hn in E. simpl in E.
  now rewrite str_eqb_refl in E.
Qed.

Lemma rename_step_get_other (acc : dict Value) (k k0 : str) (v : Value) :
  final_key k <> k0 -> get k0 (rename_step acc (k, v)) = get k0 acc.
Proof.
  intro H. unfold rename_step.
  destruct (get (final_key k) acc) as [old|].
  - destruct (negb (is_none v) && is_none old); [|reflexivity].
    apply get_set_other. congruence.
  - apply get_set_other. congruence.
Qed.

(** A key that the renaming neither changes nor produces keeps its value. *)
Lemma get_rename_fold (k0 : str) (d acc : dict Value) :
  get k0 key_mapping = None -> not_a_new_name k0 = true ->
  NoDup (keys d) ->
  get k0 acc = None \/ ~ In k0 (keys d) ->
  get k0 (fold_left rename_step d acc)
  = match get k0 acc with
    | Some v => Some v
    | None => get k0 d
    end.
Proof.
  intros Hd Hn. revert acc.
  induction d as [|[k v] t IH]; intros acc Hnd Hor.
  - simpl. now destruct (get k0 acc).
  - inversion Hnd as [|? ? Hk Ht]; subst. cbn [fold_left].
    destruct (str_eqb k0 k) eqn:E.
    + apply str_eqb_eq in E. subst k.
      destruct Hor as [Hacc|Hin]; [|exfalso; apply Hin; now left].
      rewrite IH; [|exact Ht|right; exact Hk].
      unfold rename_step. rewrite (final_key_fixed k0 Hd), Hacc.
      rewrite get_set_same. simpl. now rewrite str_eqb_refl.
    + apply str_eqb_neq in E.
      assert (Hf : final_key k <> k0).
      { intro F. apply (final_key_inv k k0 Hn) in F. congruence. }
      rewrite IH; [|exact Ht|].
      * rewrite (rename_step_get_other acc k k0 v Hf).
        simpl. apply str_eqb_neq in E. now rewrite E.
      * rewrite (rename_step_get_other acc k k0 v Hf).
        destruct Hor as [Hacc|Hin]; [now left|].
        right. intro Hx. apply Hin. now right.
Qed.

Lemma get_rename_keys (k0 : str) (d : dict Value) :
  get k0 key_mapping = None -> not_a_new_name k0 = true ->
  NoDup (keys d) -> get k0 (rename_keys d) = get k0 d.
Proof.
  intros Hd Hn Hnd. unfold rename_keys.
  rewrite get_rename_fold by (auto; now left). reflexivity.
Qed.

Lemma rename_step_NoDup (acc : dict Value) (kv : str * Value) :
  NoDup (keys acc) -> NoDup (keys (rename_step acc kv)).
Proof.
  intro H. destruct kv as [k v]. unfold rename_step.
  destruct (get (final_key k) acc) as [old|].
  - destruct (negb (is_none v) && is_none old); [now apply NoDup_set|exact H].
  - now apply NoDup_set.
Qed.

Lemma rename_keys_NoDup (d : dict Value) : NoDup (keys (rename_keys d)).
Proof.
  unfold rename_keys. apply NoDup_fold_set; [|constructor].
  intros acc a. apply rename_step_NoDup.
Qed.

Lemma keys_stable_set (d : dict Value) (k : str) (v : Value) :
  get k key_mapping = None -> keys_stable d -> keys_stable (set k v d).
Proof.
  intros Hk H x Hx. rewrite keys_set in Hx. destruct (mem k d); [auto|].
  apply in_app_or in Hx. destruct Hx as [Hx|[<-|[]]]; auto.
Qed.

Lemma rename_keys_stable (d : dict Value) : keys_stable (rename_keys d).
Proof.
  unfold rename_keys. apply (fold_left_invariant keys_stable).
  - intros acc [k v] H. unfold rename_step.
    destruct (get (final_key k) acc) as [old|].
    + destruct (negb (is_none v) && is_none old); [|exact H].
      apply keys_stable_set; [apply final_key_stable|exact H].
    + apply keys_stable_set; [apply final_key_stable|exact H].
  - intros k [].
Qed.

(** Renaming a record whose keys are stable changes nothing. *)
Lemma rename_fold_id (d acc : dict Value) :
  NoDup (keys (acc ++ d)) -> keys_stable d ->
  fold_left rename_step d acc = acc ++ d.
Proof.
  revert acc. induction d as [|[k v] t IH]; intros acc Hnd Hs.
  - simpl. now rewrite app_nil_r.
  - cbn [fold_left].
    assert (Hk : get k key_mapping = None) by (apply Hs; now left).
    assert (Hacc : get k acc = None).
    { apply get_None_not_in. unfold keys in Hnd. rewrite map_app in Hnd.
      apply NoDup_remove_2 in Hnd. intro Hin. apply Hnd.
      apply in_or_app. now left. }
    unfold rename_step. rewrite (final_key_fixed k Hk), Hacc.
    rewrite (set_absent k v acc Hacc).
    rewrite IH.
    + now rewrite <- app_assoc.
    + now rewrite <- app_assoc.
    + intros x Hx. apply Hs. now right.
Qed.

Lemma rename_keys_id (d : dict Value) :
  NoDup (keys d) -> keys_stable d -> rename_keys d = d.
Proof. intros H1 H2. unfold rename_keys. now rewrite rename_fold_id. Qed.

Lemma keys_prune_incl (d : dict Value) (k : str) :
  In k (keys (prune d)) -> In k (keys d).
Proof.
  unfold keys, prune. rewrite !in_map_iff. intros ([k' v] & <- & H).
  apply filter_In in H. destruct H as [H _]. now exists (k', v).
Qed.

Lemma prune_NoDup (d : dict Value) : NoDup (keys d) -> NoDup (keys (prune d)).
Proof.
  induction d as [|[k v] t IH]; simpl; [auto|]. intro H.
  inversion H as [|? ? Hk Ht]; subst.
  destruct (negb (is_empty_value v)); simpl; [|auto].
  constructor; [|auto]. intro Hin. apply Hk. now apply keys_prune_incl.
Qed.

Lemma get_prune (d : dict Value) (k : str) :
  NoDup (keys d) ->
  get k (prune d) = match get k d with
                    | Some v => if is_empty_value v then None else Some v
                    | None => None
                    end.
Proof.
  induction d as [|[k' v'] t IH]; simpl; [reflexivity|]. intro H.
  inversion H as [|? ? Hk Ht]; subst.
  destruct (str_eqb k k') eqn:E.
  - apply str_eqb_eq in E. subst k'.
    destruct (is_empty_value v'); simpl.
    + rewrite IH by exact Ht.
      apply get_None_not_in in Hk. now rewrite Hk.
    + now rewrite str_eqb_refl.
  - destruct (is_empty_value v'); simpl; [|rewrite E]; now apply IH.
Qed.

Lemma prune_id (d : dict Value) :
  (forall k v, In (k, v) d -> is_empty_value v = false) -> prune d = d.
Proof.
  induction d as [|[k v] t IH]; intro H; simpl; [reflexivity|].
  rewrite (H k v) by now left. simpl. f_equal. apply IH.
  intros k' v' Hin. apply (H k' v'). now right.
Qed.

(** ** RecordConsolidator: amenity unification *)

Lemma merge_stages_NoDup (page : Page) (url : str) :
  NoDup (keys (merge_stages page url)).
Proof.
  unfold merge_stages, stage_description, stage_heuristics, stage_details,
    stage_summary, stage_price, stage_identity.
  assert (H0 : NoDup (keys [(K.url, VStr url)]))
    by (repeat constructor; intros []).
  destruct (nonempty (description_raw page)); destruct (price_tag page);
    repeat first [apply NoDup_set | apply NoDup_update]; exact H0.
Qed.

Lemma without_sources_NoDup (d : dict Value) :
  NoDup (keys d) -> NoDup (keys (without_sources d)).
Proof.
  intro H. unfold without_sources.
  destruct (get K.equipamiento _) as [[]|]; repeat apply NoDup_remove;
    exact H.
Qed.

Lemma gather_Ok (d d' : dict Value) (a : Value) :
  gather_amenities d = Ok (a, d') -> d' = without_sources d.
Proof.
  unfold gather_amenities, without_sources, bind.
  set (d1 := remove K.amenidades_estructurales d).
  set (all := match get K.amenidades_estructurales d with
              | Some v => v
              | None => VList []
              end).
  destruct (get K.amenidades_extraidas d1) as [v|] eqn:E.
  - destruct (extend all v) as [a0|]; [|discriminate]. cbn [fst snd].
    destruct (get K.equipamiento (remove K.amenidades_extraidas d1))
      as [[| | | |l|]|].
    5: destruct (extend a0 (VList l)); [|discriminate].
    all: now intros [= _ <-].
  - rewrite (remove_absent _ _ E). cbn [fst snd].
    destruct (get K.equipamiento d1) as [[| | | |l|]|].
    5: destruct (extend all (VList l)); [|discriminate].
    all: now intros [= _ <-].
Qed.

(** When the sources are lists, they are concatenated in order. *)
Lemma gather_typed (d : dict Value) :
  list_or_absent K.amenidades_estructurales d ->
  list_or_absent K.amenidades_extraidas d ->
  gather_amenities d = Ok (VList (amenity_sources d), without_sources d).
Proof.
  unfold list_or_absent, amenity_sources, source_list, gather_amenities,
    without_sources.
  rewrite (get_remove_other K.amenidades_extraidas K.amenidades_estructurales)
    by discriminate.
  intros H1 H2.
  destruct (get K.amenidades_estructurales d) as [[| | | |a|]|];
    try contradiction;
    destruct (get K.amenidades_extraidas d) as [[| | | |b|]|] eqn:E;
    try contradiction; cbn [bind extend iterate fst snd].
  all: try rewrite (remove_absent K.amenidades_extraidas
                      (remove K.amenidades_estructurales d))
      by (rewrite get_remove_other by discriminate; exact E).
  all: try rewrite (get_remove_other K.equipamiento K.amenidades_extraidas)
      by discriminate.
  all: rewrite (get_remove_other K.equipamiento K.amenidades_estructurales)
      by discriminate.
  all: destruct (get K.equipamiento d) as [[| | | |c|]|];
    cbn [bind extend iterate fst snd app];
    rewrite ?app_nil_r, ?app_assoc; reflexivity.
Qed.

Lemma get_fix_year_other (k : str) (d : dict Value) :
  k <> K.anio_de_construccion -> get k (fixed_year d) = get k d.
Proof.
  intro H. unfold fixed_year.
  destruct (get K.anio_de_construccion d) as [[]|]; try reflexivity;
    now apply get_set_other.
Qed.

Lemma fix_year_NoDup (d : dict Value) :
  NoDup (keys d) -> NoDup (keys (fixed_year d)).
Proof.
  intro H. unfold fixed_year.
  destruct (get K.anio_de_construccion d) as [[]|]; try exact H;
    now apply NoDup_set.
Qed.

(** The [amenidades] field of the record consolidated from [d], when the
    sources are lists and not all empty. *)
Lemma consolidate_amenidades (d : dict Value) :
  NoDup (keys d) ->
  list_or_absent K.amenidades_estructurales d ->
  list_or_absent K.amenidades_extraidas d ->
  amenity_sources d <> [] ->
  exists r,
    consolidate d = Ok r
    /\ get K.amenidades r
       = match clean_amenities (amenity_sources d) with
         | [] => None
         | l => Some (VList l)
         end.
Proof.
  intros Hnd H1 H2 Hne. rewrite consolidate_eq.
  rewrite (gather_typed d H1 H2). cbn [bind fst snd].
  unfold store_amenities. cbn [truthy iterate].
  destruct (amenity_sources d) as [|a0 all0] eqn:E; [congruence|].
  cbn [bind]. eexists. split; [reflexivity|].
  rewrite get_prune by apply rename_keys_NoDup.
  rewrite get_rename_keys; [|reflexivity|reflexivity|].
  - rewrite get_fix_year_other by discriminate. rewrite get_set_same.
    now destruct (clean_amenities (a0 :: all0)).
  - apply fix_year_NoDup, NoDup_set. now apply without_sources_NoDup.
Qed.

(** C5, as the specification states it, fails: a detail cell labelled
    "Amenidades" stores its text under [amenidades], and without any amenity
    source the consolidator leaves that string in the final record. *)
Lemma amenidades_can_be_a_string :
  ~ amenidades_always_normalized amenidades_cell_page example_url.
Proof.
  intro H. specialize (H _ eq_refl). cbv beta iota in H.
  change (get K.amenidades _) with (Some (VStr (u "varias"))) in H.
  destruct H as (l & E & _). discriminate E.
Qed.

(** C5, amended.  On every page whose amenity sources (the structural
    bare-amenity list, the heuristic default bucket, the "equipamiento"
    section) are lists and are not all empty, the final [amenidades] field is
    built from their concatenation in that order, empty entries skipped, each
    entry cleaned to a single line and capitalized, duplicates removed, the
    result sorted; the field is omitted when that list is empty.  The list is
    strictly sorted (sorted and duplicate-free) and its entries are the
    capitalized clean texts of the source entries; they are fixed points of
    the capitalization when the clean texts start with characters whose
    title case is one character, and need not be otherwise: "ŉ a" gives
    "ʼN a", which capitalization changes again.  The entries "alberca",
    "Alberca", "jardín" give "Alberca", "Jardín". *)
Theorem amenidades_unified (page : Page) (url : str) :
  list_or_absent K.amenidades_estructurales (merge_stages page url) ->
  list_or_absent K.amenidades_extraidas (merge_stages page url) ->
  amenity_sources (merge_stages page url) <> [] ->
  (exists r,
     parse_property_html (Some page) url = Ok r
     /\ get K.amenidades r
        = match clean_amenities (amenity_sources (merge_stages page url)) with
          | [] => None
          | l => Some (VList l)
          end)
  /\ StronglySorted str_lt
       (clean_amenities (amenity_sources (merge_stages page url)))
  /\ (forall e,
        In e (clean_amenities (amenity_sources (merge_stages page url)))
        <-> exists a, In a (amenity_sources (merge_stages page url))
                      /\ a <> [] /\ e = capitalize (_clean_text a))
  /\ (Forall (fun a => simple_initial (_clean_text a) = true)
        (amenity_sources (merge_stages page url)) ->
      Forall capitalized
        (clean_amenities (amenity_sources (merge_stages page url))))
  /\ (clean_amenities [u "ŉ a"] = [u "ʼN a"] /\ ~ capitalized (u "ʼN a"))
  /\ clean_amenities [u "ßtrand"] = [u "Sstrand"]
  /\ clean_amenities [u "alberca"; u "Alberca"; u "jardín"]
     = [u "Alberca"; u "Jardín"].
Proof.
  intros H1 H2 H3. split.
  - apply consolidate_amenidades; auto. apply merge_stages_NoDup.
  - split; [apply clean_amenities_sorted|].
    split; [apply clean_amenities_In|].
    split; [apply clean_amenities_capitalized|].
    split; [split; [reflexivity|]|split; reflexivity].
    unfold capitalized. vm_compute. discriminate.
Qed.

Lemma amenidades_unified_witness :
  exists r,
    parse_property_html (Some example_page) example_url = Ok r
    /\ get K.amenidades r = Some (VList [u "Alberca"; u "Jardín"]).
Proof.
  assert (H1 : list_or_absent K.amenidades_estructurales
                 (merge_stages example_page example_url))
    by (vm_compute; exact I).
  assert (H2 : list_or_absent K.amenidades_extraidas
                 (merge_stages example_page example_url))
    by (vm_compute; exact I).
  assert (H3 : amenity_sources (merge_stages example_page example_url) <> [])
    by (vm_compute; discriminate).
  destruct (amenidades_unified example_page example_url H1 H2 H3)
    as ((r & Hr & Hg) & _).
  exists r. split; [exact Hr|]. rewrite Hg. reflexivity.
Defined.

(** ** RecordConsolidator: idempotence *)

(** An inferred construction year is an accepted absolute year. *)
Lemma construction_year_range (v : number) (z : Z) :
  inferred_year v = Some z -> (1900 <= z <= current_year + 2)%Z.
Proof.
  intro H. pose proof (inferred_year_total v) as T. rewrite H in T.
  unfold _calculate_construction_year in T.
  destruct (is_zero v); [discriminate|].
  destruct (le_number 1900 v && number_le v (current_year + 2)) eqn:E.
  - apply absolute_year_iff in E. destruct E as (q & Hq & H1 & H2).
    destruct v as [n|[q'| | |]]; try discriminate Hq; injection Hq as <-;
      cbn [int_of_number int_of_float bind] in T; injection T as <-.
    + now rewrite <- Zle_Qle in H1, H2.
    + now apply trunc_bounds.
  - destruct (lt_number 0 v && number_lt v 100) eqn:F; [|discriminate].
    apply building_age_iff in F. destruct F as (q & Hq & H1 & H2).
    destruct v as [n|[q'| | |]]; try discriminate Hq; injection Hq as <-.
    + unfold int_minus, bind, int_of_number in T.
      assert (Ez : z = (current_year - n)%Z) by congruence.
      change 0%Q with (inject_Z 0) in H1.
      rewrite <- Zlt_Qlt in H1, H2. unfold current_year in Ez |- *. lia.
    + destruct (year_minus_age current_year q' 1925 2025) as (z' & Ez & B);
        try (unfold current_year; vm_compute; congruence).
      * unfold current_year.
        change (inject_Z 1925) with (inject_Z 2025 - inject_Z 100)%Q.
        apply Qplus_le_r, Qopp_le_compat. now apply Qlt_le_weak.
      * unfold current_year. rewrite <- (Qplus_0_r (inject_Z 2025)) at 2.
        apply Qplus_le_r. change 0%Q with (- 0)%Q.
        apply Qopp_le_compat. now apply Qlt_le_weak.
      * rewrite <- bind_assoc, Ez in T. injection T as <-.
        unfold current_year. lia.
Qed.

Lemma inferred_year_absolute (z : Z) :
  (1900 <= z <= current_year + 2)%Z -> inferred_year (Int z) = Some z.
Proof.
  intro H. pose proof (inferred_year_total (Int z)) as T.
  rewrite (proj1 (year_absolute_integer current_year z H)) in T.
  now injection T.
Qed.

Lemma consolidate_inv (d r : dict Value) :
  consolidate d = Ok r ->
  exists d4,
    r = prune (rename_keys (fixed_year d4))
    /\ (d4 = without_sources d
        \/ exists l, d4 = set K.amenidades (VList l) (without_sources d)).
Proof.
  rewrite consolidate_eq. unfold bind.
  destruct (gather_amenities d) as [[a d3]|] eqn:G; [|discriminate].
  apply gather_Ok in G. subst d3. cbn [fst snd].
  unfold store_amenities, bind.
  destruct (truthy a).
  - destruct (iterate a) as [items|]; [|discriminate].
    intros [= <-]. eexists. split; [reflexivity|]. right. eauto.
  - intros [= <-]. eexists. split; [reflexivity|]. now left.
Qed.

Lemma get_after_store (k : str) (d d4 : dict Value) :
  k <> K.amenidades ->
  (d4 = without_sources d
   \/ exists l, d4 = set K.amenidades (VList l) (without_sources d)) ->
  get k d4 = get k (without_sources d).
Proof.
  intros Hk [->|(l & ->)]; [reflexivity|]. now apply get_set_other.
Qed.

Lemma store_NoDup (d d4 : dict Value) :
  NoDup (keys d) ->
  (d4 = without_sources d
   \/ exists l, d4 = set K.amenidades (VList l) (without_sources d)) ->
  NoDup (keys d4).
Proof.
  intros H [->|(l & ->)]; [|apply NoDup_set]; now apply without_sources_NoDup.
Qed.

Lemma without_sources_estructurales (d : dict Value) :
  NoDup (keys d) -> get K.amenidades_estructurales (without_sources d) = None.
Proof.
  intro H. unfold without_sources.
  destruct (get K.equipamiento _) as [[]|];
    rewrite ?(get_remove_other K.amenidades_estructurales K.equipamiento)
      by discriminate;
    rewrite (get_remove_other K.amenidades_estructurales
               K.amenidades_extraidas) by discriminate;
    now apply get_remove_same.
Qed.

Lemma without_sources_extraidas (d : dict Value) :
  NoDup (keys d) -> get K.amenidades_extraidas (without_sources d) = None.
Proof.
  intro H. unfold without_sources.
  destruct (get K.equipamiento _) as [[]|];
    rewrite ?(get_remove_other K.amenidades_extraidas K.equipamiento)
      by discriminate;
    now apply get_remove_same, NoDup_remove.
Qed.

Lemma without_sources_equipamiento (d : dict Value) (l : list str) :
  NoDup (keys d) -> get K.equipamiento (without_sources d) <> Some (VList l).
Proof.
  intro H. unfold without_sources.
  destruct (get K.equipamiento
              (remove K.amenidades_extraidas
                 (remove K.amenidades_estructurales d)))
    as [[| | | |l0|]|] eqn:E; try (rewrite E; discriminate).
  rewrite get_remove_same; [discriminate|]. now repeat apply NoDup_remove.
Qed.

(** What a field of the final record was before renaming and pruning. *)
Lemma get_final (k : str) (d4 : dict Value) (v : Value) :
  get k key_mapping = None -> not_a_new_name k = true ->
  NoDup (keys d4) ->
  get k (prune (rename_keys (fixed_year d4))) = Some v ->
  get k (fixed_year d4) = Some v.
Proof.
  intros Hk Hn Hnd. rewrite get_prune by apply rename_keys_NoDup.
  rewrite get_rename_keys by (auto using fix_year_NoDup).
  destruct (get k (fixed_year d4)) as [w|]; [|discriminate].
  destruct (is_empty_value w); [discriminate|auto].
Qed.

(** Every consolidated record has the shape of a final record. *)
Lemma consolidate_final_shape (d r : dict Value) :
  NoDup (keys d) -> consolidate d = Ok r -> final_shape r.
Proof.
  intros Hnd Hc. destruct (consolidate_inv d r Hc) as (d4 & -> & Hd4).
  pose proof (store_NoDup d d4 Hnd Hd4) as Hnd4.
  unfold final_shape. repeat split.
  - apply prune_NoDup, rename_keys_NoDup.
  - intros k Hk. apply keys_prune_incl in Hk.
    exact (rename_keys_stable _ k Hk).
  - intros k v H. now apply prune_In in H.
  - destruct (get K.amenidades_estructurales _) as [v|] eqn:E; [|reflexivity].
    apply get_final in E; [|reflexivity|reflexivity|exact Hnd4].
    rewrite get_fix_year_other in E by discriminate.
    rewrite (get_after_store _ d d4) in E by (discriminate || exact Hd4).
    now rewrite without_sources_estructurales in E.
  - destruct (get K.amenidades_extraidas _) as [v|] eqn:E; [|reflexivity].
    apply get_final in E; [|reflexivity|reflexivity|exact Hnd4].
    rewrite get_fix_year_other in E by discriminate.
    rewrite (get_after_store _ d d4) in E by (discriminate || exact Hd4).
    now rewrite without_sources_extraidas in E.
  - intros l E.
    apply get_final in E; [|reflexivity|reflexivity|exact Hnd4].
    rewrite get_fix_year_other in E by discriminate.
    rewrite (get_after_store _ d d4) in E by (discriminate || exact Hd4).
    now apply without_sources_equipamiento in E.
  - intros q E.
    apply get_final in E; [|reflexivity|reflexivity|exact Hnd4].
    unfold fixed_year in E.
    destruct (get K.anio_de_construccion d4) as [[| z0 | q0 | | |]|] eqn:G;
      try (rewrite G in E; discriminate);
      rewrite get_set_same in E;
      destruct (inferred_year _); discriminate.
  - apply get_final in H; [|reflexivity|reflexivity|exact Hnd4].
    unfold fixed_year in H.
    destruct (get K.anio_de_construccion d4) as [[| z0 | q0 | | |]|] eqn:G;
      try (rewrite G in H; discriminate);
      rewrite get_set_same in H;
      destruct (inferred_year _) eqn:C;
      try discriminate; injection H as ->;
      apply construction_year_range in C; lia.
  - apply get_final in H; [|reflexivity|reflexivity|exact Hnd4].
    unfold fixed_year in H.
    destruct (get K.anio_de_construccion d4) as [[| z0 | q0 | | |]|] eqn:G;
      try (rewrite G in H; discriminate);
      rewrite get_set_same in H;
      destruct (inferred_year _) eqn:C;
      try discriminate; injection H as ->;
      apply construction_year_range in C; lia.
Qed.

(** Consolidating a record of final shape returns it unchanged. *)
Lemma consolidate_fixpoint (r : dict Value) :
  final_shape r -> consolidate r = Ok r.
Proof.
  intros (Hnd & Hst & Hval & He & Hx & Hq & Hf & Hy).
  rewrite consolidate_eq. unfold gather_amenities.
  rewrite He, (remove_absent _ _ He), Hx. cbn [bind fst snd].
  assert (G : match get K.equipamiento r with
              | Some (VList l) =>
                  bind (extend (VList []) (VList l))
                    (fun a => Ok (a, remove K.equipamiento r))
              | _ => Ok (VList [], r)
              end = Ok (VList [], r)).
  { destruct (get K.equipamiento r) as [[| | | |l|]|] eqn:E; try reflexivity.
    exfalso. exact (Hq l eq_refl). }
  rewrite G. cbn [bind fst snd store_amenities truthy].
  assert (F : fixed_year r = r).
  { unfold fixed_year.
    destruct (get K.anio_de_construccion r) as [[| z | q | | |]|] eqn:E;
      try reflexivity.
    - rewrite (inferred_year_absolute z (Hy z eq_refl)).
      now apply set_same_value.
    - exfalso. exact (Hf q eq_refl). }
  rewrite F, (rename_keys_id r Hnd Hst), (prune_id r Hval). reflexivity.
Qed.

Lemma consolidate_idempotent (d r : dict Value) :
  NoDup (keys d) -> consolidate d = Ok r -> consolidate r = Ok r.
Proof.
  intros Hnd Hc. apply consolidate_fixpoint.
  now apply (consolidate_final_shape d r).
Qed.

(** C9. Consolidation is idempotent: consolidating again a record returned
    by [parse_property_html] (amenity unification, construction year,
    synonym renaming, final pruning) returns the same record. *)
Theorem reconsolidation_changes_nothing
  (doc : option Page) (url : str) (r : dict Value) :
  parse_property_html doc url = Ok r -> consolidate r = Ok r.
Proof.
  destruct doc as [page|]; [|discriminate]. simpl.
  apply consolidate_idempotent, merge_stages_NoDup.
Qed.

Lemma reconsolidation_changes_nothing_witness :
  consolidate example_record = Ok example_record.
Proof.
  exact (reconsolidation_changes_nothing (Some example_page) example_url
           example_record eq_refl).
Defined.

(** ** HeuristicTextSegmenter: keyword lines *)

(** *** The flags *)

(** The flag dictionary computed for a line, whatever the line turns out to
    be. *)
Lemma seg_step_flags (st : SegState) (line : str) :
  s_flags (seg_step st line)
  = if nonempty (strip line) then
      let lc := lower (_clean_text (strip line)) in
      let flags := if has_negotiable_keyword lc
                   then set K.precio_negociable true (s_flags st)
                   else s_flags st in
      if has_no_fee_keyword lc then set K.no_paga_mantenimiento true flags
      else flags
    else s_flags st.
Proof.
  unfold seg_step. destruct (nonempty (strip line)); [|reflexivity].
  cbv zeta. destruct (_find_header _); [reflexivity|].
  destruct (item_match _); reflexivity.
Qed.

Lemma seg_step_flag_kept (st : SegState) (line name : str) :
  get name (s_flags st) = Some true ->
  get name (s_flags (seg_step st line)) = Some true.
Proof.
  intro H. rewrite seg_step_flags.
  destruct (nonempty (strip line)); [|exact H]. cbv zeta.
  destruct (has_no_fee_keyword _), (has_negotiable_keyword _);
    rewrite ?get_set;
    repeat match goal with
           | |- context [str_eqb ?a ?b] => destruct (str_eqb a b)
           end; auto.
Qed.

Lemma seg_fold_flag_kept (lines : list str) (st : SegState) (name : str) :
  get name (s_flags st) = Some true ->
  get name (s_flags (fold_left seg_step lines st)) = Some true.
Proof.
  apply (fold_left_invariant
           (fun st => get name (s_flags st) = Some true)).
  intros a x. apply seg_step_flag_kept.
Qed.

Lemma seg_step_negotiable (st : SegState) (line : str) :
  negotiable_line line ->
  get K.precio_negociable (s_flags (seg_step st line)) = Some true.
Proof.
  intros [Hn Hk]. apply nonempty_true in Hn. rewrite seg_step_flags, Hn.
  cbv zeta. rewrite Hk.
  destruct (has_no_fee_keyword _);
    [rewrite get_set_other by discriminate|]; apply get_set_same.
Qed.

Lemma seg_step_no_fee (st : SegState) (line : str) :
  no_fee_line line ->
  get K.no_paga_mantenimiento (s_flags (seg_step st line)) = Some true.
Proof.
  intros [Hn Hk]. apply nonempty_true in Hn. rewrite seg_step_flags, Hn.
  cbv zeta. rewrite Hk. apply get_set_same.
Qed.

Lemma seg_finish_flag (st : SegState) (name : str) :
  get name (s_flags st) = Some true -> flag_set name (seg_finish st).
Proof.
  intro H. exists (s_flags st). split; [|exact H]. unfold seg_finish.
  destruct (fold_left fold_section _ _) as [sections amenities].
  destruct (s_flags st) as [|f fs]; [discriminate H|]. reflexivity.
Qed.

Lemma seg_lines_nonempty_raw (raw line : str) :
  In line (seg_lines raw) -> strip line <> [] -> raw <> [].
Proof.
  intros Hin Hs ->. destruct Hin as [<-|[]]. now apply Hs.
Qed.

(** A keyword line anywhere in the description sets its flag. *)
Lemma keyword_line_sets_flag (raw line name : str) :
  In line (seg_lines raw) -> strip line <> [] ->
  (forall st, get name (s_flags (seg_step st line)) = Some true) ->
  flag_set name (_parse_description_heuristics raw).
Proof.
  intros Hin Hs Hstep.
  pose proof (seg_lines_nonempty_raw raw line Hin Hs) as Hraw.
  unfold _parse_description_heuristics. destruct raw as [|c t]; [congruence|].
  apply seg_finish_flag. unfold seg_loop.
  apply in_split in Hin. destruct Hin as (l1 & l2 & ->).
  rewrite fold_left_app. cbn [fold_left].
  apply seg_fold_flag_kept, Hstep.
Qed.

(** *** The emitted items *)

Lemma In_set {V : Type} (k k' : str) (v v' : V) (d : dict V) :
  In (k, v) (set k' v' d) -> (k, v) = (k', v') \/ In (k, v) d.
Proof.
  induction d as [|[k0 v0] t IH]; simpl.
  - intros [H|[]]. now left.
  - destruct (str_eqb k' k0); simpl; intuition.
Qed.

Lemma In_remove {V : Type} (k k' : str) (v : V) (d : dict V) :
  In (k, v) (remove k' d) -> In (k, v) d.
Proof.
  induction d as [|[k0 v0] t IH]; simpl; [tauto|].
  destruct (str_eqb k' k0); simpl; intuition.
Qed.

Lemma In_append_item (k cs x : str) (l : list str) (d : dict (list str)) :
  In (k, l) (append_item cs x d) ->
  In (k, l) d \/ exists l0, In (k, l0) d /\ l = l0 ++ [x].
Proof.
  induction d as [|[k0 l0] t IH]; simpl; [tauto|].
  destruct (str_eqb cs k0); simpl.
  - intros [H|H]; [|now left; right].
    injection H as <- <-. right. exists l0. split; [now left|reflexivity].
  - intros [H|H]; [now left; left|].
    destruct (IH H) as [H'|(l1 & H1 & H2)]; [now left; right|].
    right. exists l1. split; [now right|exact H2].
Qed.

Section Items.
Variable P : str -> Prop.

Lemma all_items_set_nil (cs : str) (d : dict (list str)) :
  all_items P d -> all_items P (set cs [] d).
Proof.
  intros H k l item Hin Hi. apply In_set in Hin.
  destruct Hin as [E|Hin]; [|eauto]. injection E as _ ->. destruct Hi.
Qed.

Lemma all_items_append (cs x : str) (d : dict (list str)) :
  P x -> all_items P d -> all_items P (append_item cs x d).
Proof.
  intros Hx H k l item Hin Hi. apply In_append_item in Hin.
  destruct Hin as [Hin|(l0 & Hin & ->)]; [eauto|].
  apply in_app_or in Hi. destruct Hi as [Hi|[<-|[]]]; eauto.
Qed.

Lemma fold_section_items (acc : dict (list str) * list str)
  (kv : str * list str) :
  (forall item, In item (snd kv) -> P item) ->
  all_items P (fst acc) /\ (forall item, In item (snd acc) -> P item) ->
  all_items P (fst (fold_section acc kv))
  /\ (forall item, In item (snd (fold_section acc kv)) -> P item).
Proof.
  destruct acc as [sections am], kv as [key value]. cbn [fst snd].
  intros Hv [Hs Ha]. unfold fold_section.
  destruct value as [|x value]; [now split|].
  destruct (existsb (str_eqb (fold_key key)) known_sections).
  - destruct (get (fold_key key) sections) as [l|] eqn:G; cbn [fst snd];
      (split; [|exact Ha]); intros k l' item Hin Hi;
      apply In_set in Hin; destruct Hin as [E|Hin]; eauto;
      injection E as _ ->.
    + apply in_app_or in Hi. destruct Hi as [Hi|Hi]; [|auto].
      apply get_In in G. eauto.
    + auto.
  - cbn [fst snd]. split; [exact Hs|]. intros item Hi.
    apply in_app_or in Hi. destruct Hi; auto.
Qed.

Lemma fold_sections_items (data : dict (list str))
  (acc : dict (list str) * list str) :
  all_items P data ->
  all_items P (fst acc) /\ (forall item, In item (snd acc) -> P item) ->
  all_items P (fst (fold_left fold_section data acc))
  /\ (forall item, In item (snd (fold_left fold_section data acc)) -> P item).
Proof.
  revert acc. induction data as [|[k l] t IH]; intros acc Hd Hacc;
    [exact Hacc|].
  cbn [fold_left]. apply IH.
  - intros k' l' item Hin. apply (Hd k' l' item). now right.
  - apply fold_section_items; [|exact Hacc].
    intros item Hi. apply (Hd k l item); [now left|exact Hi].
Qed.

(** The lists of the result only hold items of the sections. *)
Lemma seg_finish_items (st : SegState) (k : str) (l : list str) (item : str) :
  all_items P (s_data st) ->
  In (k, VList l) (seg_finish st) -> In item l -> P item.
Proof.
  intros Hd Hin Hi. unfold seg_finish in Hin.
  set (am0 := match get K.amenidades_extraidas (s_data st) with
              | Some l0 => l0
              | None => []
              end) in *.
  assert (Ham : forall x, In x am0 -> P x).
  { subst am0. destruct (get K.amenidades_extraidas (s_data st)) eqn:G;
      [|intros x []].
    apply get_In in G. intros x Hx. eapply Hd; eassumption. }
  destruct (fold_sections_items
              (remove K.amenidades_extraidas (s_data st)) ([], am0))
    as [Hs Ha].
  - intros k' l' x Hin'. apply In_remove in Hin'. eapply Hd; eassumption.
  - split; [intros k' l' x []|exact Ham].
  - destruct (fold_left fold_section _ _) as [sections amenities].
    cbn [fst snd] in Hs, Ha.
    apply in_app_or in Hin. destruct Hin as [Hin|Hin].
    + destruct (s_flags st); [destruct Hin|].
      destruct Hin as [E|[]]. discriminate E.
    + apply in_app_or in Hin. destruct Hin as [Hin|Hin].
      * apply in_map_iff in Hin. destruct Hin as ([k' l'] & E & Hin).
        injection E as -> ->. eapply Hs; eassumption.
      * destruct amenities as [|a am]; [destruct Hin|].
        destruct Hin as [E|[]].
        assert (Hl : l = filter (fun x => (2 <? length x)%nat) (a :: am))
          by (injection E; auto).
        rewrite Hl in Hi. apply filter_In in Hi. destruct Hi as [Hi _]. auto.
Qed.
End Items.

(** *** A list item is the end of its line *)

Lemma words_drop_spaces (t : str) :
  words (remove_invisible (drop_while is_space t))
  = words (remove_invisible t).
Proof.
  induction t as [|c t IH]; [reflexivity|].
  cbn [drop_while]. destruct (is_space c) eqn:E; [|reflexivity].
  rewrite IH. unfold remove_invisible. cbn [filter].
  rewrite (space_not_invisible c E). cbn [negb].
  change (words (c :: filter (fun c0 => negb (is_invisible c0)) t))
    with (if is_space c
          then words (filter (fun c0 => negb (is_invisible c0)) t)
          else match filter (fun c0 => negb (is_invisible c0)) t with
               | [] => [[c]]
               | c' :: _ =>
                   if is_space c'
                   then [c] :: words (filter (fun c0 => negb (is_invisible c0)) t)
                   else match words (filter (fun c0 => negb (is_invisible c0)) t) with
                        | [] => [[c]]
                        | w :: ws => (c :: w) :: ws
                        end
               end).
  now rewrite E.
Qed.

Lemma rstrip_collapse_words (x : str) :
  exists pre, rstrip (collapse_ws x) = pre ++ join [SP] (words x).
Proof.
  rewrite rstrip_collapse_ws. destruct x as [|c t]; [now exists []|].
  destruct (is_space c).
  - destruct (words (c :: t)); [now exists []|now exists [SP]].
  - now exists [].
Qed.

Lemma bullet_not_space (c : N) :
  is_bullet_or_hyphen c = true -> is_space c = false /\ is_invisible c = false.
Proof.
  intro H. unfold is_bullet_or_hyphen, is_bullet, HYPHEN in H. char_prop H.
  split; apply not_true_is_false; intro E;
    [unfold is_space in E|unfold is_invisible in E]; char_prop E; lia.
Qed.

Lemma item_match_bullet (line g : str) :
  item_match (normalize_bullet line) = Some g ->
  exists c t, line = c :: t /\ is_bullet_or_hyphen c = true
              /\ g = drop_while is_space t /\ g <> [].
Proof.
  destruct line as [|c t]; [discriminate|]. unfold normalize_bullet.
  unfold is_bullet_or_hyphen.
  destruct (is_bullet c) eqn:B; unfold item_match.
  - rewrite N.eqb_refl. destruct (drop_while is_space t) eqn:D;
      [discriminate|]. intros [= <-]. exists c, t. rewrite B.
    repeat split; try reflexivity; [now symmetry|discriminate].
  - destruct (c =? HYPHEN)%N eqn:E; [|discriminate].
    destruct (drop_while is_space t) eqn:D; [discriminate|].
    intros [= <-]. exists c, t. rewrite B, E.
    repeat split; try reflexivity; [now symmetry|discriminate].
Qed.

(** The cleaned item ends the cleaned line. *)
Lemma item_is_suffix (line g : str) :
  item_match (normalize_bullet line) = Some g ->
  exists pre, _clean_text line = pre ++ _clean_text g.
Proof.
  intro H. destruct (item_match_bullet line g H) as (c & t & -> & Hc & -> & Hg).
  destruct (bullet_not_space c Hc) as [Hs Hi].
  unfold _clean_text at 1. unfold remove_invisible. cbn [filter].
  rewrite Hi. cbn [negb]. fold (remove_invisible t).
  replace (collapse_ws (c :: remove_invisible t))
    with (c :: collapse_ws (remove_invisible t))
    by (simpl; now rewrite Hs).
  rewrite strip_cons_keep by exact Hs.
  assert (E : _clean_text (drop_while is_space t)
              = join [SP] (words (remove_invisible t))).
  { unfold _clean_text. destruct (drop_while is_space t) eqn:D; [congruence|].
    rewrite <- D. now rewrite strip_collapse_ws, words_drop_spaces. }
  rewrite E.
  destruct (rstrip_collapse_words (remove_invisible t)) as [pre ->].
  now exists (c :: pre).
Qed.

Lemma keyword_free_suffix (pre item : str) :
  keyword_free (pre ++ item) -> keyword_free item.
Proof.
  unfold keyword_free, has_negotiable_keyword, has_no_fee_keyword.
  intros [H1 H2].
  apply orb_false_iff in H1. destruct H1 as [H1 H1c].
  apply orb_false_iff in H1. destruct H1 as [H1a H1b].
  assert (F : forall kw, no_sigma kw = true ->
                         contains kw (lower (pre ++ item)) = false ->
                         contains kw (lower item) = false).
  { intros kw Hs Hk. destruct (contains kw (lower item)) eqn:E; [|reflexivity].
    now rewrite (contains_lower_suffix kw pre item Hs E) in Hk. }
  rewrite (F K.kw_precio_a_tratar_starred eq_refl H1a),
    (F K.kw_precio_a_tratar eq_refl H1b),
    (F K.kw_precio_negociable eq_refl H1c),
    (F K.kw_no_paga_mantenimiento eq_refl H2).
  now split.
Qed.

(** One step keeps every item free of keywords. *)
Lemma seg_step_keyword_free (st : SegState) (line : str) :
  all_items keyword_free (s_data st) ->
  all_items keyword_free (s_data (seg_step st line)).
Proof.
  intro H. unfold seg_step.
  destruct (nonempty (strip line)) eqn:Hn; [|exact H]. cbv zeta.
  destruct (_find_header (normalize_bullet (strip line))) as [h|].
  - cbn [s_data]. destruct (mem _ _); [exact H|].
    now apply all_items_set_nil.
  - set (kw1 := has_negotiable_keyword (lower (_clean_text (strip line)))).
    set (kw2 := has_no_fee_keyword (lower (_clean_text (strip line)))).
    assert (Hfree : kw1 || kw2 = false ->
                    keyword_free (_clean_text (strip line))).
    { intro E. apply orb_false_iff in E. exact E. }
    destruct (item_match (normalize_bullet (strip line))) as [g|] eqn:M;
      cbn [s_data].
    + destruct (nonempty (_clean_text g) && negb (kw1 || kw2)) eqn:E;
        [|exact H].
      apply andb_true_iff in E. destruct E as [_ E].
      apply negb_true_iff in E. apply all_items_append; [|exact H].
      destruct (item_is_suffix (strip line) g M) as [pre Hp].
      apply (keyword_free_suffix pre). rewrite <- Hp. now apply Hfree.
    + match goal with
      | |- context [if ?b then _ else _] => destruct b eqn:E
      end; [|exact H].
      apply andb_true_iff in E. destruct E as [_ E].
      apply negb_true_iff in E. apply all_items_append; [|exact H].
      now apply Hfree.
Qed.

Lemma seg_loop_keyword_free (raw : str) :
  all_items keyword_free (s_data (seg_loop raw)).
Proof.
  unfold seg_loop.
  apply (fold_left_invariant
           (fun st => all_items keyword_free (s_data st))).
  - intros st line. apply seg_step_keyword_free.
  - intros k l item [E|[]]. injection E as _ <-. intros [].
Qed.

(** A keyword line leaves every section list as it was. *)
Lemma keyword_line_emits_nothing (st : SegState) (line : str) (k : str)
  (l : list str) :
  negotiable_line line \/ no_fee_line line ->
  get k (s_data st) = Some l ->
  get k (s_data (seg_step st line)) = Some l.
Proof.
  intros Hk Hg. unfold seg_step.
  assert (Hn : nonempty (strip line) = true)
    by (apply nonempty_true; destruct Hk as [[]|[]]; assumption).
  rewrite Hn. cbv zeta.
  assert (Hkw : has_negotiable_keyword (lower (_clean_text (strip line)))
                || has_no_fee_keyword (lower (_clean_text (strip line)))
                = true).
  { destruct Hk as [[_ ->]|[_ ->]]; [reflexivity|apply orb_true_r]. }
  destruct (_find_header (normalize_bullet (strip line))) as [h|].
  - cbn [s_data].
    set (cs := section_of_header _).
    destruct (mem cs (s_data st)) eqn:M; [exact Hg|].
    rewrite get_set_other; [exact Hg|].
    intros ->. unfold mem in M. now rewrite Hg in M.
  - destruct (item_match (normalize_bullet (strip line)));
      cbn [s_data]; rewrite Hkw; cbn [negb];
      rewrite ?andb_false_r; exact Hg.
Qed.

(** C3. In the segmenter, a line whose single-line lower-case form contains
    "precio a tratar" or "precio negociable" sets
    [caracteristicas_adicionales.precio_negociable], and one that contains
    "no paga mantenimiento" sets
    [caracteristicas_adicionales.no_paga_mantenimiento]; such a line adds
    nothing to any section list, and no item of any list of the result
    mentions a keyword.  The line "*Precio a tratar*" sets the flag and
    appears in no list. *)
Theorem keyword_lines_flag_and_never_emit (raw : str) :
  (forall line, In line (seg_lines raw) -> negotiable_line line ->
     flag_set K.precio_negociable (_parse_description_heuristics raw))
  /\ (forall line, In line (seg_lines raw) -> no_fee_line line ->
        flag_set K.no_paga_mantenimiento (_parse_description_heuristics raw))
  /\ (forall st line k l,
        negotiable_line line \/ no_fee_line line ->
        get k (s_data st) = Some l ->
        get k (s_data (seg_step st line)) = Some l)
  /\ (forall k l item,
        In (k, VList l) (_parse_description_heuristics raw) ->
        In item l -> keyword_free item)
  /\ _parse_description_heuristics keyword_description
     = [(K.caracteristicas_adicionales, VDict [(K.precio_negociable, true)]);
        (K.equipamiento, VList [u "Alberca techada"])].
Proof.
  split; [|split; [|split; [|split; [|reflexivity]]]].
  - intros line Hin [Hs Hk].
    apply (keyword_line_sets_flag raw line _ Hin Hs).
    intro st. now apply seg_step_negotiable.
  - intros line Hin [Hs Hk].
    apply (keyword_line_sets_flag raw line _ Hin Hs).
    intro st. now apply seg_step_no_fee.
  - intros st line k l. apply keyword_line_emits_nothing.
  - intros k l item Hin Hi. unfold _parse_description_heuristics in Hin.
    destruct raw as [|c t].
    + destruct Hin as [E|[]]. injection E as _ <-. destruct Hi.
    + exact (seg_finish_items keyword_free _ k l item
               (seg_loop_keyword_free (c :: t)) Hin Hi).
Qed.

Lemma keyword_lines_flag_and_never_emit_witness :
  flag_set K.precio_negociable
    (_parse_description_heuristics keyword_description).
Proof.
  destruct (keyword_lines_flag_and_never_emit keyword_description)
    as (H & _).
  apply (H (u "*Precio a tratar*")).
  - vm_compute. right. now left.
  - split; [vm_compute; discriminate|reflexivity].
Defined.

(** ** The segmenter never appends to a missing section *)

Lemma mem_append_item (k cs x : str) (d : dict (list str)) :
  mem k (append_item cs x d) = mem k d.
Proof.
  unfold mem. induction d as [|[k0 l0] t IH]; simpl; [reflexivity|].
  destruct (str_eqb cs k0); simpl; destruct (str_eqb k k0); auto.
Qed.

Lemma seg_current_present_step (st : SegState) (line : str) :
  mem (s_current_section st) (s_data st) = true ->
  mem (s_current_section (seg_step st line)) (s_data (seg_step st line))
  = true.
Proof.
  intro H. unfold seg_step. destruct (nonempty (strip line)); [|exact H].
  cbv zeta. destruct (_find_header _) as [h|].
  - cbn [s_data s_current_section].
    set (cs := section_of_header _).
    destruct (mem cs (s_data st)) eqn:M; [exact M|].
    unfold mem. now rewrite get_set_same.
  - destruct (item_match _); cbn [s_data s_current_section];
      match goal with
      | |- context [if ?b then _ else _] => destruct b
      end; rewrite ?mem_append_item; exact H.
Qed.

(** In every state the line loop reaches, the current section is a key of
    the sections: [data[current_section].append] never fails. *)
Lemma seg_current_present (lines : list str) :
  mem (s_current_section (fold_left seg_step lines seg_init))
      (s_data (fold_left seg_step lines seg_init)) = true.
Proof.
  apply (fold_left_invariant
           (fun st => mem (s_current_section st) (s_data st) = true)).
  - intros st line. apply seg_current_present_step.
  - reflexivity.
Qed.

Lemma drop_while_nil_rstrip (p : N -> bool) (t : str) :
  drop_while p t = [] -> rstrip_by p t = [].
Proof.
  induction t as [|c t IH]; simpl; [reflexivity|].
  destruct (p c) eqn:E; [|discriminate]. intro H. now rewrite IH.
Qed.

Lemma drop_while_head (p : N -> bool) (s : str) (c : N) (t : str) :
  drop_while p s = c :: t -> p c = false.
Proof.
  induction s as [|a s IH]; simpl; [discriminate|].
  destruct (p a) eqn:E; [exact IH|]. now intros [= <- _].
Qed.

(** On a stripped line, something other than spaces follows a leading
    hyphen as soon as anything follows it. *)
Lemma item_remainder_nonempty (raw : str) (c : N) (t : str) :
  strip raw = c :: t -> t <> [] -> drop_while is_space t <> [].
Proof.
  intros Hs Ht Hd. apply drop_while_nil_rstrip in Hd.
  assert (Hr : rstrip (strip raw) = strip raw).
  { unfold strip. rewrite <- lstrip_rstrip_comm. unfold rstrip.
    now rewrite rstrip_by_idem. }
  assert (Hc : is_space c = false)
    by (exact (drop_while_head is_space (rstrip raw) c t Hs)).
  rewrite Hs in Hr. unfold rstrip in Hr.
  rewrite rstrip_by_cons_keep in Hr by exact Hc.
  injection Hr as Hr. rewrite Hd in Hr. congruence.
Qed.

(** ** Fields that only the price stage writes *)

Lemma seg_finish_keys (st : SegState) (k : str) :
  In k (keys (seg_finish st)) ->
  k = K.caracteristicas_adicionales \/ In k known_sections
  \/ k = K.amenidades_extraidas.
Proof.
  unfold seg_finish.
  set (am0 := match get K.amenidades_extraidas (s_data st) with
              | Some l => l
              | None => []
              end).
  destruct (fold_section_sections (remove K.amenidades_extraidas (s_data st))
              ([], am0)) as [_ H2]; [split; [constructor|intros x []]|].
  destruct (fold_left fold_section _ _) as [sections amenities].
  cbn [fst] in H2. unfold keys. rewrite !map_app. intro H.
  apply in_app_or in H. destruct H as [H|H].
  - destruct (s_flags st); [destruct H|]. destruct H as [<-|[]]. now left.
  - apply in_app_or in H. destruct H as [H|H].
    + right. left. apply H2.
      change (In k (keys (map (fun kv => (fst kv, VList (snd kv))) sections)))
        in H.
      now rewrite keys_map_VList in H.
    + destruct amenities; [destruct H|]. destruct H as [<-|[]].
      right. now right.
Qed.

Lemma heuristics_get_other (raw k : str) :
  k <> K.caracteristicas_adicionales -> ~ In k known_sections ->
  k <> K.amenidades_extraidas ->
  get k (_parse_description_heuristics raw) = None.
Proof.
  intros H1 H2 H3. apply get_None_not_in. intro H.
  unfold _parse_description_heuristics in H. destruct raw.
  - destruct H as [H|[]]. simpl in H. symmetry in H. contradiction.
  - apply seg_finish_keys in H. tauto.
Qed.

Lemma detail_finish_no_precio_key (st : DetailState) :
  no_precio_key (d_data st) -> no_precio_key (detail_finish st).
Proof.
  intro H. unfold detail_finish.
  destruct (d_parts st); destruct (d_amenities st);
    repeat (apply no_precio_key_set; [reflexivity|]); exact H.
Qed.

(** The detail map never holds a price. *)
Lemma details_no_precio (items : list DetailItem) :
  get K.precio (_parse_details_and_features items) = None.
Proof.
  apply get_None_not_in. intro H.
  apply (detail_finish_no_precio_key _ (detail_loop_no_precio_key items)) in H.
  discriminate H.
Qed.

Lemma get_without_sources_other (k : str) (d : dict Value) :
  k <> K.amenidades_estructurales -> k <> K.amenidades_extraidas ->
  k <> K.equipamiento -> get k (without_sources d) = get k d.
Proof.
  intros H1 H2 H3. unfold without_sources.
  destruct (get K.equipamiento _) as [[]|];
    now rewrite ?(get_remove_other k K.equipamiento),
      (get_remove_other k K.amenidades_extraidas),
      (get_remove_other k K.amenidades_estructurales).
Qed.

(** A field that consolidation neither pops, sets nor renames is kept when
    its value is not empty and dropped otherwise. *)
Lemma get_consolidate_other (k : str) (d r : dict Value) :
  NoDup (keys d) -> consolidate d = Ok r ->
  k <> K.amenidades_estructurales -> k <> K.amenidades_extraidas ->
  k <> K.equipamiento -> k <> K.amenidades -> k <> K.anio_de_construccion ->
  get k key_mapping = None -> not_a_new_name k = true ->
  get k r = match get k d with
            | Some v => if is_empty_value v then None else Some v
            | None => None
            end.
Proof.
  intros Hnd Hc H1 H2 H3 H4 H5 Hk Hn.
  destruct (consolidate_inv d r Hc) as (d4 & -> & Hd4).
  rewrite get_prune by apply rename_keys_NoDup.
  rewrite get_rename_keys;
    [|exact Hk|exact Hn|apply fix_year_NoDup, (store_NoDup d d4 Hnd Hd4)].
  rewrite get_fix_year_other by exact H5.
  rewrite (get_after_store k d d4 H4 Hd4).
  now rewrite get_without_sources_other.
Qed.

(** A field that no later stage produces reaches the end of the merge
    unchanged. *)
Lemma get_merge_stages_unwritten (k : str) (page : Page) (url : str) :
  k <> K.descripcion -> k <> K.caracteristicas_adicionales ->
  ~ In k known_sections -> k <> K.amenidades_extraidas ->
  get k (_parse_main_summary (summary_block page)) = None ->
  get k (_parse_details_and_features (detail_items page)) = None ->
  get k (merge_stages page url) = get k (data_after_price page url).
Proof.
  intros H1 H2 H3 H4 Hs Hd. unfold merge_stages.
  fold (data_after_price page url).
  rewrite get_stage_description, get_stage_heuristics, get_stage_details,
    get_stage_summary.
  apply str_eqb_neq in H1. rewrite H1, andb_false_r.
  rewrite (heuristics_get_other _ k H2 H3 H4), Hd, Hs.
  now destruct (nonempty (description_raw page)).
Qed.

(** C7, as the specification states it, fails for the returned record: the
    summary row is merged after the price block, so a summary item labelled
    "Precio" replaces the number of the price text by its own. *)
Lemma summary_price_overrides :
  ~ price_from_price_text precio_summary_page example_url.
Proof.
  intro H.
  specialize (H (u "$1,234,567 MXN")
                [(K.url, VStr example_url);
                 (K.precio, VFloat (Finite (3 # 1)));
                 (K.moneda, VStr K.MXN)] eq_refl eq_refl).
  vm_compute in H. discriminate H.
Qed.

(** C7, amended.  On a page with a price block, the price stage stores as
    [precio] the first number of the price text once the thousands
    separators are dropped, and as [moneda] MXN when the text mentions it,
    else USD when the text mentions it, else nothing (the match ignores
    case).  The price reaches the returned record unless a summary label is
    itself named "precio", and the currency unless a summary label or a
    detail key is named "moneda".  The price text ["$1,234,567 MXN"] gives
    [precio = 1234567.0] and [moneda = "MXN"]. *)
Theorem price_and_currency (page : Page) (url : str) (t : str) :
  price_tag page = Some t ->
  get K.precio (data_after_price page url)
  = Some (float_or_none (_extract_number (_clean_text t)))
  /\ get K.moneda (data_after_price page url)
     = Some (detect_currency (_clean_text t))
  /\ (forall pre ip rest,
        first_numeral (remove_char COMMA (_clean_text t)) pre ip rest ->
        get K.precio (data_after_price page url)
        = Some (VFloat (float_of_numeral ip (fraction_digits rest))))
  /\ (contains K.MXN (_clean_text t) = true ->
      get K.moneda (data_after_price page url) = Some (VStr K.MXN))
  /\ (contains K.mxn (lower (_clean_text t)) = false ->
      contains K.USD (_clean_text t) = true ->
      get K.moneda (data_after_price page url) = Some (VStr K.USD))
  /\ (contains K.mxn (lower (_clean_text t)) = false ->
      contains K.usd (lower (_clean_text t)) = false ->
      get K.moneda (data_after_price page url) = Some VNone)
  /\ (forall r,
        get K.precio (_parse_main_summary (summary_block page)) = None ->
        parse_property_html (Some page) url = Ok r ->
        get K.precio r
        = match _extract_number (_clean_text t) with
          | Some q => Some (VFloat q)
          | None => None
          end)
  /\ (forall r,
        get K.moneda (_parse_main_summary (summary_block page)) = None ->
        get K.moneda (_parse_details_and_features (detail_items page))
        = None ->
        parse_property_html (Some page) url = Ok r ->
        get K.moneda r
        = match detect_currency (_clean_text t) with
          | VNone => None
          | v => Some v
          end)
  /\ parse_property_html (Some price_only_page) example_url
     = Ok [(K.url, VStr example_url);
           (K.precio, VFloat (Finite (1234567 # 1)));
           (K.moneda, VStr K.MXN)].
Proof.
  intro Hp.
  assert (Hprecio : get K.precio (data_after_price page url)
                    = Some (float_or_none (_extract_number (_clean_text t)))).
  { unfold data_after_price, stage_price. rewrite Hp.
    rewrite get_set_other by discriminate. apply get_set_same. }
  assert (Hmoneda : get K.moneda (data_after_price page url)
                    = Some (detect_currency (_clean_text t))).
  { unfold data_after_price, stage_price. rewrite Hp. apply get_set_same. }
  assert (Hk : ~ In K.precio known_sections /\ ~ In K.moneda known_sections).
  { split; intro H; repeat (destruct H as [H|H]; [discriminate H|]);
      exact H. }
  split; [exact Hprecio|]. split; [exact Hmoneda|].
  split; [|split; [|split; [|split; [|split; [|split; [|reflexivity]]]]]].
  - intros pre ip rest H. rewrite Hprecio.
    now rewrite (extract_number_first _ pre ip rest H).
  - intro H. rewrite Hmoneda. unfold detect_currency.
    apply (contains_lower K.MXN _ eq_refl) in H.
    change (flat_map lower_full K.MXN) with K.mxn in H.
    now rewrite H.
  - intros H1 H2. rewrite Hmoneda. unfold detect_currency. rewrite H1.
    apply (contains_lower K.USD _ eq_refl) in H2.
    change (flat_map lower_full K.USD) with K.usd in H2.
    now rewrite H2.
  - intros H1 H2. rewrite Hmoneda. unfold detect_currency.
    now rewrite H1, H2.
  - intros r Hs Hr. simpl in Hr.
    rewrite (get_consolidate_other K.precio _ r (merge_stages_NoDup page url)
               Hr) by (discriminate || reflexivity).
    rewrite get_merge_stages_unwritten, Hprecio;
      try discriminate; try tauto; try apply details_no_precio.
    now destruct (_extract_number (_clean_text t)).
  - intros r Hs Hd Hr. simpl in Hr.
    rewrite (get_consolidate_other K.moneda _ r (merge_stages_NoDup page url)
               Hr) by (discriminate || reflexivity).
    rewrite get_merge_stages_unwritten, Hmoneda;
      try discriminate; try tauto.
    unfold detect_currency.
    destruct (contains K.mxn _); [reflexivity|].
    now destruct (contains K.usd _).
Qed.

Lemma price_and_currency_witness :
  get K.precio (data_after_price price_only_page example_url)
  = Some (VFloat (Finite (1234567 # 1)))
  /\ get K.moneda (data_after_price price_only_page example_url)
     = Some (VStr K.MXN).
Proof.
  pose proof (price_and_currency price_only_page example_url
                [36; 49; 44; 50; 51; 52; 44; 53; 54; 55; 32; 77; 88; 78]%N
                eq_refl) as (H1 & H2 & _).
  split; [exact H1|exact H2].
Defined.

(** ** TextNormalizer: the single-line normal form *)

Lemma collapse_ws_cons_keep (c : N) (t : str) :
  is_space c = false -> collapse_ws (c :: t) = c :: collapse_ws t.
Proof. intro H. simpl. now rewrite H. Qed.

Lemma collapse_ws_cons_space (c : N) (t : str) :
  is_space c = true ->
  collapse_ws (c :: t)
  = match t with
    | [] => [SP]
    | c' :: _ => if is_space c' then collapse_ws t else SP :: collapse_ws t
    end.
Proof. intro H. simpl. now rewrite H. Qed.

Lemma collapse_ws_spaces (s : str) :
  Forall (fun c => is_space c = true -> c = SP) (collapse_ws s).
Proof.
  induction s as [|c t IH]; [constructor|].
  destruct (is_space c) eqn:E.
  - rewrite collapse_ws_cons_space by exact E.
    destruct t as [|c' t']; [now repeat constructor|].
    destruct (is_space c'); [exact IH|now constructor].
  - rewrite collapse_ws_cons_keep by exact E.
    constructor; [congruence|exact IH].
Qed.

Lemma collapse_ws_head_keep (c : N) (t : str) :
  is_space c = false -> starts_with [SP] (collapse_ws (c :: t)) = false.
Proof.
  intro H. rewrite collapse_ws_cons_keep by exact H.
  rewrite starts_with_cons. destruct (N.eqb_spec SP c) as [<-|]; [|reflexivity].
  discriminate H.
Qed.

Lemma collapse_ws_no_double (s : str) :
  contains [SP; SP] (collapse_ws s) = false.
Proof.
  induction s as [|c t IH]; [reflexivity|].
  destruct (is_space c) eqn:E.
  - rewrite collapse_ws_cons_space by exact E.
    destruct t as [|c' t']; [reflexivity|].
    destruct (is_space c') eqn:E'; [exact IH|].
    rewrite contains_cons, IH, orb_false_r, starts_with_cons.
    now rewrite (collapse_ws_head_keep c' t' E'), andb_false_r.
  - rewrite collapse_ws_cons_keep by exact E.
    rewrite contains_cons, IH, orb_false_r, starts_with_cons.
    destruct (N.eqb_spec SP c) as [<-|]; [discriminate E|reflexivity].
Qed.

Lemma clean_text_tidy (s : str) : tidy (_clean_text s).
Proof.
  unfold _clean_text. destruct s as [|c t].
  - repeat split. constructor.
  - repeat split.
    + apply Forall_strip.
      pose proof (Forall_collapse_ws (fun c => is_invisible c = false)
                    (remove_invisible (c :: t)) eq_refl
                    (remove_invisible_clean (c :: t))) as H1.
      pose proof (collapse_ws_spaces (remove_invisible (c :: t))) as H2.
      rewrite Forall_forall in *. intros x Hx. split; auto.
    + apply not_contains_strip, collapse_ws_no_double.
    + apply strip_idem.
Qed.

Lemma filter_all {A : Type} (f : A -> bool) (l : list A) :
  Forall (fun x => f x = true) l -> filter f l = l.
Proof.
  induction 1 as [|a l Ha Hl IH]; simpl; [reflexivity|].
  now rewrite Ha, IH.
Qed.

Lemma collapse_ws_fixed (s : str) :
  Forall (fun c => is_space c = true -> c = SP) s ->
  contains [SP; SP] s = false -> collapse_ws s = s.
Proof.
  induction 1 as [|c t Hc Ht IH]; [reflexivity|]. intro Hd.
  rewrite contains_cons in Hd. apply orb_false_iff in Hd.
  destruct Hd as [Hs Hd].
  destruct (is_space c) eqn:E.
  - rewrite collapse_ws_cons_space by exact E. rewrite (Hc eq_refl) in *.
    destruct t as [|c' t']; [reflexivity|].
    destruct (is_space c') eqn:E'.
    + inversion Ht as [|? ? Hc' _]; subst. rewrite (Hc' E') in Hs.
      discriminate Hs.
    + f_equal. now apply IH.
  - rewrite collapse_ws_cons_keep by exact E. f_equal. now apply IH.
Qed.

Lemma tidy_fixed (s : str) : tidy s -> _clean_text s = s.
Proof.
  intros (Hc & Hd & Hs). unfold _clean_text. destruct s as [|c t]; [reflexivity|].
  assert (Hr : remove_invisible (c :: t) = c :: t).
  { apply filter_all. eapply Forall_impl; [|exact Hc].
    intros x [Hx _]. now rewrite Hx. }
  rewrite Hr, collapse_ws_fixed; [exact Hs| |exact Hd].
  eapply Forall_impl; [|exact Hc]. now intros x [_ Hx].
Qed.

(** X1. [_clean_text] returns a text in single-line normal form: it has no
    invisible mark, its only whitespace is the plain space, never two in a
    row and never at either end; it is the words of the input, invisible
    marks removed, joined by single spaces. *)
Theorem clean_text_normal_form (s : str) :
  Forall (fun c => is_invisible c = false) (_clean_text s)
  /\ Forall (fun c => is_space c = true -> c = SP) (_clean_text s)
  /\ contains [SP; SP] (_clean_text s) = false
  /\ strip (_clean_text s) = _clean_text s
  /\ _clean_text s = join [SP] (words (remove_invisible s)).
Proof.
  destruct (clean_text_tidy s) as (Hc & Hd & Hs).
  split; [eapply Forall_impl; [|exact Hc]; now intros x [Hx _]|].
  split; [eapply Forall_impl; [|exact Hc]; now intros x [_ Hx]|].
  split; [exact Hd|]. split; [exact Hs|].
  unfold _clean_text. destruct s as [|c t]; [reflexivity|].
  apply strip_collapse_ws.
Qed.

(** X2. [_clean_text] is idempotent, and the texts it leaves unchanged are
    exactly the texts in single-line normal form. *)
Theorem clean_text_idempotent (s : str) :
  _clean_text (_clean_text s) = _clean_text s
  /\ (tidy s <-> _clean_text s = s).
Proof.
  split; [apply tidy_fixed, clean_text_tidy|].
  split; [apply tidy_fixed|]. intros <-. apply clean_text_tidy.
Qed.

(** ** TextNormalizer: the description is cleaned once and for all *)

Lemma split_on_cons (c : N) (t : str) :
  split_on LF (c :: t)
  = if (c =? LF)%N then [] :: split_on LF t
    else (c :: first_line t) :: other_lines t.
Proof.
  unfold first_line, other_lines. simpl.
  destruct (c =? LF)%N; [reflexivity|]. now destruct (split_on LF t).
Qed.

Lemma split_on_first_other (s : str) :
  split_on LF s = first_line s :: other_lines s.
Proof.
  unfold first_line, other_lines. destruct s as [|c t]; [reflexivity|].
  simpl. destruct (c =? LF)%N; [reflexivity|]. now destruct (split_on LF t).
Qed.

Lemma first_line_cons (c : N) (t : str) :
  first_line (c :: t) = if (c =? LF)%N then [] else c :: first_line t.
Proof.
  unfold first_line at 1. rewrite split_on_cons. now destruct (c =? LF)%N.
Qed.

Lemma other_lines_cons (c : N) (t : str) :
  other_lines (c :: t)
  = if (c =? LF)%N then split_on LF t else other_lines t.
Proof.
  unfold other_lines at 1. rewrite split_on_cons. now destruct (c =? LF)%N.
Qed.

(** Splitting and joining on line breaks are inverse to each other. *)
Lemma join_split_on (s : str) : join [LF] (split_on LF s) = s.
Proof.
  induction s as [|c t IH]; [reflexivity|].
  rewrite split_on_cons. rewrite split_on_first_other in IH.
  destruct (N.eqb_spec c LF) as [->|Hc].
  - rewrite split_on_first_other.
    change (join [LF] ([] :: first_line t :: other_lines t))
      with (LF :: join [LF] (first_line t :: other_lines t)).
    now rewrite IH.
  - rewrite join_cons_cons. now rewrite IH.
Qed.

Lemma has_char_cons (a c : N) (t : str) :
  has_char a (c :: t) = (a =? c)%N || has_char a t.
Proof. reflexivity. Qed.

Lemma split_on_no_break (l : str) :
  has_char LF l = false -> split_on LF l = [l].
Proof.
  induction l as [|c t IH]; [reflexivity|]. rewrite has_char_cons.
  intro H. apply orb_false_iff in H. destruct H as [H1 H2].
  rewrite N.eqb_sym in H1. rewrite split_on_cons, H1.
  unfold first_line, other_lines. now rewrite (IH H2).
Qed.

Lemma split_on_app_break (l rest : str) :
  has_char LF l = false ->
  split_on LF (l ++ LF :: rest) = l :: split_on LF rest.
Proof.
  induction l as [|c t IH]; intro H.
  - change ([] ++ LF :: rest) with (LF :: rest).
    now rewrite split_on_cons, N.eqb_refl.
  - rewrite has_char_cons in H. apply orb_false_iff in H.
    destruct H as [H1 H2]. rewrite N.eqb_sym in H1.
    change ((c :: t) ++ LF :: rest) with (c :: (t ++ LF :: rest)).
    rewrite split_on_cons, H1. unfold first_line, other_lines.
    now rewrite (IH H2).
Qed.

Lemma split_on_join (ls : list str) :
  ls <> [] -> Forall (fun l => has_char LF l = false) ls ->
  split_on LF (join [LF] ls) = ls.
Proof.
  induction ls as [|a t IH]; [congruence|]. intros _ H.
  inversion H as [|? ? Ha Ht]; subst.
  destruct t as [|b t']; [now apply split_on_no_break|].
  change (join [LF] (a :: b :: t')) with (a ++ LF :: join [LF] (b :: t')).
  rewrite split_on_app_break by exact Ha. f_equal. apply IH; [discriminate|].
  exact Ht.
Qed.

(** *** Cleaned lines *)

Lemma line_fixed_clean (l : str) : line_fixed (strip (collapse_ws l)).
Proof.
  unfold line_fixed. rewrite collapse_ws_fixed.
  - apply strip_idem.
  - apply Forall_strip, collapse_ws_spaces.
  - apply not_contains_strip, collapse_ws_no_double.
Qed.

Lemma line_fixed_no_break (l : str) : line_fixed l -> has_char LF l = false.
Proof.
  unfold line_fixed. intro H. rewrite <- H.
  pose proof (Forall_strip _ _ (collapse_ws_spaces l)) as F.
  unfold has_char. destruct (existsb _ _) eqn:E; [|reflexivity].
  apply existsb_exists in E. destruct E as (x & Hx & Ex).
  apply N.eqb_eq in Ex. subst x. rewrite Forall_forall in F.
  now specialize (F LF Hx eq_refl).
Qed.

Lemma rstrip_strip (s : str) : rstrip (strip s) = strip s.
Proof.
  unfold strip. rewrite <- lstrip_rstrip_comm. unfold rstrip.
  now rewrite rstrip_by_idem.
Qed.

Lemma line_fixed_rstrip (l : str) : line_fixed l -> rstrip l = l.
Proof. unfold line_fixed. intros <-. apply rstrip_strip. Qed.

Lemma line_fixed_head (c : N) (l : str) :
  line_fixed (c :: l) -> is_space c = false.
Proof.
  unfold line_fixed, strip, lstrip. intro H.
  exact (drop_while_head is_space _ c l H).
Qed.

(** *** Lines through the collapse of breaks and the trimming *)

Lemma collapse_breaks_lines (P : str -> Prop) (t : str) :
  Forall P (other_lines t) ->
  first_line (collapse_breaks t) = first_line t
  /\ Forall P (other_lines (collapse_breaks t)).
Proof.
  induction t as [|c t IH]; [auto|]. intro H.
  rewrite collapse_breaks_cons. rewrite other_lines_cons in H.
  destruct (N.eqb_spec c LF) as [->|Hc].
  - rewrite split_on_first_other in H. inversion H as [|? ? H1 H2]; subst.
    destruct (IH H2) as [IH1 IH2].
    destruct (starts_with [LF; LF] t) eqn:E; cbn [andb].
    + rewrite first_line_cons, N.eqb_refl. split; [|exact IH2].
      rewrite IH1. destruct t as [|c1 t1]; [discriminate|].
      rewrite starts_with_cons in E. apply andb_true_iff in E.
      destruct E as [E _]. apply N.eqb_eq in E. subst c1.
      now rewrite first_line_cons, N.eqb_refl.
    + rewrite first_line_cons, other_lines_cons, N.eqb_refl.
      split; [reflexivity|]. rewrite split_on_first_other, IH1.
      now constructor.
  - apply N.eqb_neq in Hc. cbn [andb].
    destruct (IH H) as [IH1 IH2].
    rewrite !first_line_cons, other_lines_cons, Hc, IH1. now split.
Qed.

Lemma rstrip_cons_fixed (c : N) (y : str) :
  rstrip (c :: y) = c :: y -> rstrip y = y.
Proof.
  unfold rstrip. simpl. destruct (rstrip_by is_space y) as [|a r] eqn:E.
  - destruct (is_space c); [discriminate|]. now intros [= <-].
  - now intros [= <-].
Qed.

Lemma rstrip_cons (c : N) (t : str) :
  rstrip (c :: t)
  = match rstrip t with
    | [] => if is_space c then [] else [c]
    | r => c :: r
    end.
Proof. reflexivity. Qed.

Lemma rstrip_lines (P : str -> Prop) (x : str) :
  (forall l, P l -> rstrip l = l) ->
  rstrip (first_line x) = first_line x -> Forall P (other_lines x) ->
  first_line (rstrip x) = first_line x /\ Forall P (other_lines (rstrip x)).
Proof.
  intro HP. induction x as [|c t IH]; intros H1 H2.
  - split; [reflexivity|constructor].
  - rewrite rstrip_cons. rewrite first_line_cons in H1 |- *.
    rewrite other_lines_cons in H2.
    destruct (N.eqb_spec c LF) as [->|Hc].
    + rewrite split_on_first_other in H2.
      inversion H2 as [|? ? Ha Hb]; subst.
      destruct (IH (HP _ Ha) Hb) as [IH1 IH2].
      destruct (rstrip t) as [|a r] eqn:E.
      * change (is_space LF) with true. cbv iota.
        split; [reflexivity|constructor].
      * rewrite first_line_cons, other_lines_cons, N.eqb_refl.
        split; [reflexivity|]. rewrite split_on_first_other, IH1.
        now constructor.
    + apply N.eqb_neq in Hc.
      destruct (IH (rstrip_cons_fixed c _ H1) H2) as [IH1 IH2].
      destruct (rstrip t) as [|a r] eqn:E.
      * change (first_line []) with (@nil N) in IH1. rewrite <- IH1 in *.
        rewrite rstrip_cons in H1. change (rstrip []) with (@nil N) in H1.
        destruct (is_space c); [discriminate H1|].
        rewrite first_line_cons, other_lines_cons, Hc.
        split; [reflexivity|exact IH2].
      * rewrite first_line_cons, other_lines_cons, Hc, IH1. now split.
Qed.

Lemma lstrip_lines (x : str) :
  Forall line_fixed (split_on LF x) ->
  Forall line_fixed (split_on LF (lstrip x)).
Proof.
  unfold lstrip. induction x as [|c t IH]; [auto|]. intro H.
  cbn [drop_while]. destruct (is_space c) eqn:E; [|exact H].
  apply IH. rewrite split_on_cons in H.
  destruct (N.eqb_spec c LF) as [->|Hc].
  - now inversion H.
  - inversion H as [|? ? Ha Hb]; subst. apply line_fixed_head in Ha.
    congruence.
Qed.

Lemma strip_lines (x : str) :
  Forall line_fixed (split_on LF x) ->
  Forall line_fixed (split_on LF (strip x)).
Proof.
  intro H. unfold strip. apply lstrip_lines.
  rewrite split_on_first_other in *. inversion H as [|? ? Ha Hb]; subst.
  destruct (rstrip_lines line_fixed x line_fixed_rstrip
              (line_fixed_rstrip _ Ha) Hb) as [-> H2].
  now constructor.
Qed.

Lemma collapse_breaks_fixed (s : str) :
  contains [LF; LF; LF] s = false -> collapse_breaks s = s.
Proof.
  induction s as [|c t IH]; [reflexivity|]. intro H.
  rewrite contains_cons in H. apply orb_false_iff in H. destruct H as [H1 H2].
  rewrite collapse_breaks_cons, (IH H2). rewrite starts_with_cons in H1.
  rewrite N.eqb_sym in H1. now rewrite H1.
Qed.

Lemma map_fixed {A : Type} (f : A -> A) (l : list A) :
  Forall (fun x => f x = x) l -> map f l = l.
Proof.
  induction 1 as [|a l Ha Hl IH]; simpl; [reflexivity|]. now rewrite Ha, IH.
Qed.

(** The lines of a cleaned description. *)
Lemma clean_description_lines (text : str) :
  Forall line_fixed (split_on LF (_clean_description_text text)).
Proof.
  unfold _clean_description_text. destruct text as [|c t].
  - repeat constructor.
  - set (cleaned := map (fun line => strip (collapse_ws line))
                      (split_on LF (remove_invisible (c :: t)))).
    assert (Hc : Forall line_fixed cleaned).
    { subst cleaned. apply Forall_forall. intros l Hl.
      apply in_map_iff in Hl. destruct Hl as (l0 & <- & _).
      apply line_fixed_clean. }
    assert (Hne : cleaned <> []).
    { subst cleaned. rewrite split_on_first_other. discriminate. }
    apply strip_lines.
    assert (Hs : split_on LF (join [LF] cleaned) = cleaned).
    { apply split_on_join; [exact Hne|].
      eapply Forall_impl; [|exact Hc]. apply line_fixed_no_break. }
    rewrite split_on_first_other in Hs |- *.
    destruct (collapse_breaks_lines line_fixed (join [LF] cleaned))
      as [-> H2].
    + rewrite <- Hs in Hc. now inversion Hc.
    + rewrite <- Hs in Hc. inversion Hc. now constructor.
Qed.

(** The result has no invisible mark, no run of three line breaks and no
    outer whitespace. *)
Lemma clean_multiline_parts (text : str) :
  Forall (fun c => is_invisible c = false) (_clean_description_text text)
  /\ contains [LF; LF; LF] (_clean_description_text text) = false
  /\ strip (_clean_description_text text) = _clean_description_text text.
Proof.
  unfold _clean_description_text. destruct text as [|c t].
  - repeat split. constructor.
  - repeat split.
    + apply Forall_strip, Forall_collapse_breaks, Forall_join.
      * now repeat constructor.
      * apply Forall_forall. intros l Hl. apply in_map_iff in Hl.
        destruct Hl as (l0 & <- & Hl0).
        apply Forall_strip, Forall_collapse_ws; [reflexivity|].
        pose proof (Forall_split_on _ LF _ (remove_invisible_clean (c :: t)))
          as H.
        rewrite Forall_forall in H. now apply H.
    + apply not_contains_strip, collapse_breaks_no_triple.
    + apply strip_idem.
Qed.

Lemma clean_description_fixed (out : str) :
  Forall (fun c => is_invisible c = false) out ->
  Forall line_fixed (split_on LF out) ->
  contains [LF; LF; LF] out = false -> strip out = out ->
  _clean_description_text out = out.
Proof.
  intros Hi Hl Ht Hs. unfold _clean_description_text.
  destruct out as [|c t]; [reflexivity|]. cbv zeta.
  unfold remove_invisible. rewrite filter_all.
  - rewrite (map_fixed _ _ Hl), join_split_on.
    now rewrite (collapse_breaks_fixed _ Ht).
  - eapply Forall_impl; [|exact Hi]. intros x Hx. now rewrite Hx.
Qed.

(** X3. [_clean_description_text] is idempotent, and every line of its
    result is in single-line normal form. *)
Theorem clean_description_idempotent (text : str) :
  _clean_description_text (_clean_description_text text)
  = _clean_description_text text
  /\ Forall tidy (split_on LF (_clean_description_text text)).
Proof.
  pose proof (clean_description_lines text) as Hl.
  destruct (clean_multiline_parts text) as (Hi & Ht & Hs).
  split.
  - now apply clean_description_fixed.
  - apply Forall_forall. intros l Hin.
    rewrite Forall_forall in Hl. specialize (Hl l Hin).
    unfold line_fixed in Hl. repeat split.
    + pose proof (Forall_split_on _ LF _ Hi) as F.
      rewrite Forall_forall in F. specialize (F l Hin).
      rewrite <- Hl.
      pose proof (Forall_strip _ _ (collapse_ws_spaces l)) as G.
      rewrite Hl in *. rewrite Forall_forall in *. intros x Hx.
      split; auto.
    + rewrite <- Hl. apply not_contains_strip, collapse_ws_no_double.
    + rewrite <- Hl. apply strip_idem.
Qed.

(** ** TextNormalizer: numbers *)

Lemma drop_while_nil_iff (p : N -> bool) (s : str) :
  drop_while p s = [] <-> forallb p s = true.
Proof.
  induction s as [|c t IH]; simpl; [tauto|].
  destruct (p c); simpl; [exact IH|]. split; discriminate.
Qed.

Lemma no_digit_without_commas (text : str) :
  forallb (fun c => negb (is_digit c)) (remove_char COMMA text)
  = forallb (fun c => negb (is_digit c)) text.
Proof.
  unfold remove_char. induction text as [|c t IH]; [reflexivity|].
  cbn [filter forallb]. destruct (N.eqb_spec c COMMA) as [->|Hc]; cbn [negb].
  - rewrite IH. reflexivity.
  - cbn [forallb]. now rewrite IH.
Qed.

Lemma remove_char_idem (a : N) (s : str) :
  remove_char a (remove_char a s) = remove_char a s.
Proof.
  unfold remove_char. apply filter_all, Forall_forall. intros x Hx.
  now apply filter_In in Hx.
Qed.

Lemma round_half_even_nonneg (n d : Z) :
  (0 <= n)%Z -> (0 < d)%Z -> (0 <= round_half_even n d)%Z.
Proof.
  intros Hn Hd.
  apply (round_half_even_sandwich n d 0 n Hn Hd). nia.
Qed.

(** Rounding keeps the sign. *)
Lemma round_pos_nonneg (n d : positive) : nonnegative (round_pos n d).
Proof.
  unfold round_pos.
  set (j := (Z.max (floor_log2 n d) (-1022) - 52)%Z).
  cbv zeta. destruct (Qle_bool _ _); [exact I|]. cbn [nonnegative].
  destruct (Z.leb_spec 0 j) as [Hj|Hj].
  - change 0%Q with (inject_Z 0). rewrite <- Zle_Qle.
    apply Z.mul_nonneg_nonneg; [|apply Z.pow_nonneg; lia].
    apply round_half_even_nonneg; [lia|].
    apply Z.mul_pos_pos; [lia|apply Z.pow_pos_nonneg; lia].
  - rewrite Qred_correct. unfold Qle. cbn [Qnum Qden]. rewrite Z.mul_1_r.
    apply round_half_even_nonneg; [|lia].
    apply Z.mul_nonneg_nonneg; [lia|apply Z.pow_nonneg; lia].
Qed.

Lemma round64_nonneg (x : Q) : (0 <= Qnum x)%Z -> nonnegative (round64 x).
Proof.
  intro H. unfold round64. destruct (Qnum x) as [|n|n].
  - cbn [nonnegative]. apply Qle_refl.
  - apply round_pos_nonneg.
  - lia.
Qed.

Lemma float_of_numeral_nonneg (ip fp : str) :
  nonnegative (float_of_numeral ip fp).
Proof.
  unfold float_of_numeral. apply round64_nonneg. cbn [Qnum]. lia.
Qed.

Lemma extract_number_None (text : str) :
  _extract_number text = None
  <-> forallb (fun c => negb (is_digit c)) text = true.
Proof.
  unfold _extract_number. destruct text as [|c t]; [simpl; tauto|].
  cbv zeta. rewrite <- no_digit_without_commas, <- drop_while_nil_iff.
  destruct (drop_while _ (remove_char COMMA (c :: t)));
    split; congruence.
Qed.

Lemma extract_number_nonneg (text : str) (f : float) :
  _extract_number text = Some f -> nonnegative f.
Proof.
  unfold _extract_number. destruct text as [|c t]; [discriminate|].
  cbv zeta. destruct (drop_while _ _); [discriminate|].
  intros [= <-]. apply float_of_numeral_nonneg.
Qed.

(** X4. [_extract_number] finds no number exactly when the text has no
    decimal digit, of any script; a number it finds is never negative (a
    sign before the digits is ignored); commas never matter.  The number is
    the float nearest to the numeral: "٣ 500 MXN" gives 3.0 and
    "99.99999999999999999" gives 100.0. *)
Theorem extract_number_edge_cases (text : str) :
  (_extract_number text = None
   <-> forallb (fun c => negb (is_digit c)) text = true)
  /\ (forall f, _extract_number text = Some f -> nonnegative f)
  /\ _extract_number (remove_char COMMA text) = _extract_number text
  /\ _extract_number (u "٣ 500 MXN") = Some (Finite (3 # 1))
  /\ _extract_number (u "99.99999999999999999") = Some (Finite (100 # 1)).
Proof.
  split; [apply extract_number_None|]. split; [|split].
  - apply extract_number_nonneg.
  - unfold _extract_number at 1.
    destruct (remove_char COMMA text) as [|c t] eqn:E.
    + symmetry. apply extract_number_None.
      rewrite <- no_digit_without_commas, E. reflexivity.
    + rewrite <- E, remove_char_idem. unfold _extract_number.
      destruct text as [|c0 t0]; [discriminate E|]. reflexivity.
  - split; vm_compute; reflexivity.
Qed.

Lemma extract_number_edge_cases_witness :
  _extract_number (u "sin precio") = None.
Proof.
  apply (proj1 (extract_number_edge_cases (u "sin precio"))). reflexivity.
Defined.

(** ** TextNormalizer: the range of inferred years *)

Lemma construction_year_bounds (y : Z) (v : number) (z : Z) :
  (exists n, v = Int n) \/ (Z.abs y <= 2 ^ 52)%Z ->
  _calculate_construction_year y v = Ok (Some z) ->
  (1900 <= z <= y + 2)%Z \/ (y - 100 <= z <= y)%Z.
Proof.
  intros Hy T. unfold _calculate_construction_year in T.
  destruct (is_zero v); [discriminate|].
  destruct (le_number 1900 v && number_le v (y + 2)) eqn:E.
  - left. apply absolute_year_iff in E.
    destruct E as (q & Hq & H1 & H2).
    destruct v as [n|[q'| | |]]; try discriminate Hq; injection Hq as <-;
      unfold int_of_number, int_of_float, bind in T.
    + assert (Ez : z = n) by congruence. subst z.
      now rewrite <- Zle_Qle in H1, H2.
    + assert (Ez : z = trunc q') by congruence. subst z.
      now apply trunc_bounds.
  - destruct (lt_number 0 v && number_lt v 100) eqn:F; [|discriminate].
    right. apply building_age_iff in F.
    destruct F as (q & Hq & H1 & H2).
    destruct v as [n|[q'| | |]]; try discriminate Hq; injection Hq as <-.
    + unfold int_minus, int_of_number, bind in T.
      assert (Ez : z = (y - n)%Z) by congruence.
      change 0%Q with (inject_Z 0) in H1.
      rewrite <- Zlt_Qlt in H1, H2. lia.
    + destruct Hy as [(n & Hn)|Hy]; [discriminate Hn|].
      destruct (year_age_float y q' Hy H1 H2) as (z' & Ez & A & B & C).
      rewrite <- bind_assoc, Ez in T.
      assert (z = z') by (unfold bind in T; congruence). lia.
Qed.

(** Beyond [2^53] a float no longer holds every integer, and the year
    computed from an age need not lie in the hundred years before the
    reference year. *)
Example large_reference_year :
  _calculate_construction_year (2 ^ 60 + 200) (Float (Finite 1))
  = Ok (Some (2 ^ 60 + 256)%Z).
Proof. vm_compute. reflexivity. Qed.

(** X5. A year inferred by [_calculate_construction_year] from an integer,
    or from a float with a reference year up to [2^52] in size, lies in
    [[1900, y + 2]] or in [[y - 100, y]]; with a reference year from 2000 on
    (the scraper uses 2025) it is an accepted absolute year, so inferring
    again from the inferred year returns it. *)
Theorem construction_year_is_stable (y : Z) (v : number) (z : Z) :
  (exists n, v = Int n) \/ (Z.abs y <= 2 ^ 52)%Z ->
  _calculate_construction_year y v = Ok (Some z) ->
  ((1900 <= z <= y + 2)%Z \/ (y - 100 <= z <= y)%Z)
  /\ ((2000 <= y)%Z ->
      _calculate_construction_year y (Int z) = Ok (Some z)
      /\ _calculate_construction_year y (Float (Finite (inject_Z z)))
         = Ok (Some z)).
Proof.
  intros Hy H. pose proof (construction_year_bounds y v z Hy H) as B.
  split; [exact B|]. intro H2000. apply year_absolute_integer. lia.
Qed.

Lemma construction_year_is_stable_witness :
  _calculate_construction_year 2025 (Int 2010) = Ok (Some 2010%Z).
Proof.
  assert (Hy : (exists n, Float (Finite (15 # 1)) = Int n)
               \/ (Z.abs 2025 <= 2 ^ 52)%Z)
    by (right; vm_compute; discriminate).
  exact (proj1 (proj2 (construction_year_is_stable 2025
                         (Float (Finite (15 # 1))) 2010 Hy eq_refl)
                  ltac:(lia))).
Defined.

(** ** StructuralExtractor: the summary map *)

Lemma lowercase_plain_true : lowercase_plain = true.
Proof. vm_compute. reflexivity. Qed.

Lemma upper_is_mapped_true : upper_is_mapped = true.
Proof. vm_compute. reflexivity. Qed.

Lemma unmapped_not_upper (c : N) :
  Unicode.lookup c Unicode.lowercase = None -> is_upper c = false.
Proof.
  intro H. destruct (N.ltb_spec c 256) as [Hc|Hc].
  - pose proof upper_is_mapped_true as T. unfold upper_is_mapped in T.
    rewrite forallb_forall in T. specialize (T c).
    rewrite H, orb_false_r in T. apply negb_true_iff, T.
    apply in_map_iff. exists (N.to_nat c). split; [apply N2Nat.id|].
    apply in_seq. lia.
  - apply not_true_is_false. intro F. unfold is_upper in F. char_prop F.
    lia.
Qed.

(** A lower-cased character is no upper-case letter of Latin-1, and is a
    whitespace character only when it was one. *)
Lemma lower_full_plain (c x : N) :
  c <> SIGMA -> In x (lower_full c) ->
  is_upper x = false /\ (is_space x = true -> x = c).
Proof.
  intros Hc H. unfold lower_full in H.
  destruct (Unicode.lookup c Unicode.lowercase) as [l|] eqn:E.
  - apply lookup_In in E.
    pose proof lowercase_plain_true as T. unfold lowercase_plain in T.
    rewrite forallb_forall in T. specialize (T _ E). cbn [snd] in T.
    rewrite forallb_forall in T. specialize (T _ H).
    apply andb_prop in T. destruct T as [T1 T2].
    apply negb_true_iff in T1, T2. split; [exact T1|congruence].
  - destruct H as [<-|[]]. split; [now apply unmapped_not_upper|auto].
Qed.

Lemma lower_from_plain_chars (x : N) (s : str) : forall st,
  In x (lower_from st s) ->
  is_upper x = false /\ (is_space x = true -> In x s).
Proof.
  induction s as [|c s IH]; intros st H; [destruct H|].
  rewrite lower_from_cons in H. apply in_app_or in H.
  destruct H as [H|H].
  - destruct (N.eqb_spec c SIGMA) as [_|Hc].
    + destruct H as [<-|[]].
      destruct (st && _); split; try reflexivity; discriminate.
    + destruct (lower_full_plain c x Hc H) as [U S].
      split; [exact U|]. intro Hs. left. symmetry. now apply S.
  - destruct (IH _ H) as [U S]. split; [exact U|]. intro Hs. right. auto.
Qed.

(** The key made from a cleaned label is normalized. *)
Lemma normalize_key_clean (s : str) :
  normalized_key (normalize_key (_clean_text s)).
Proof.
  destruct (clean_text_tidy s) as (Hc & _ & _).
  unfold normalized_key, normalize_key, replace_char, lower.
  apply Forall_forall. intros x Hx.
  apply in_map_iff in Hx. destruct Hx as (c & <- & Hin).
  destruct (lower_from_plain_chars c _ _ Hin) as [U S].
  destruct (N.eqb_spec c SP) as [E|E].
  - split; reflexivity.
  - split; [|exact U].
    destruct (is_space c) eqn:Es; [|reflexivity].
    exfalso. apply E. rewrite Forall_forall in Hc.
    destruct (Hc c (S eq_refl)) as [_ Hsp]. now apply Hsp.
Qed.

Lemma float_or_none_number (o : option float) :
  (forall f, o = Some f -> nonnegative f) -> number_or_none (float_or_none o).
Proof.
  intro H. destruct o as [f|]; [right|now left].
  exists f. split; [reflexivity|now apply H].
Qed.

Lemma summary_entries_shape (items : list SummaryItem) (k : str) (v : Value) :
  In (k, v) (fold_left summary_step items []) ->
  normalized_key k /\ number_or_none v.
Proof.
  revert k v.
  apply (fold_left_invariant
           (fun d : dict Value =>
              forall k v, In (k, v) d -> normalized_key k /\ number_or_none v)).
  - intros d item Hd k v Hin. unfold summary_step in Hin.
    destruct (key_tag item) as [[kt sibs]|]; [|now apply Hd].
    apply In_set in Hin. destruct Hin as [E|Hin]; [|now apply Hd].
    injection E as -> ->. split; [apply normalize_key_clean|].
    apply float_or_none_number. intros q Hq.
    exact (extract_number_nonneg _ q Hq).
  - intros k v [].
Qed.


(** ** StructuralExtractor: the detail map *)

Lemma scalar_values_set (data : dict Value) (k : str) (v : Value) :
  scalar_value v -> scalar_values data -> scalar_values (set k v data).
Proof.
  intros Hv H k' v' Hin. apply In_set in Hin.
  destruct Hin as [E|Hin]; [injection E as -> ->; exact Hv|eauto].
Qed.

Lemma process_cell_scalar (st : DetailState) (k v : str) :
  scalar_values (d_data st) -> scalar_values (d_data (process_cell st k v)).
Proof.
  intro H. unfold process_cell. destruct (nonempty k); [|exact H].
  destruct (nonempty v); [|exact H]. cbn [d_data].
  destruct (contains K.precio_de_venta (normalize_key k));
    [apply scalar_values_set; [right; eauto|exact H]|].
  destruct (contains K.precio_de_renta (normalize_key k));
    [apply scalar_values_set; [right; eauto|exact H]|].
  destruct (contains K.precio (normalize_key k)); [exact H|].
  apply scalar_values_set; [|exact H].
  destruct (_extract_number v); [left|right]; eauto.
Qed.

Lemma detail_loop_scalar (items : list DetailItem) :
  scalar_values (d_data (detail_loop items)).
Proof.
  unfold detail_loop.
  apply (fold_left_invariant (fun st => scalar_values (d_data st))).
  - intros st i H. unfold detail_step. destruct (cell_key_value i).
    now apply process_cell_scalar.
  - intros k v [].
Qed.

Lemma process_cell_amenities_nonempty (st : DetailState) (k v : str) :
  Forall (fun a => a <> []) (d_amenities st) ->
  Forall (fun a => a <> []) (d_amenities (process_cell st k v)).
Proof.
  intro H. unfold process_cell. destruct (nonempty k) eqn:E; [|exact H].
  destruct (nonempty v); [exact H|]. cbn [d_amenities].
  apply Forall_app. split; [exact H|]. constructor; [|constructor].
  now apply nonempty_true.
Qed.

Lemma detail_loop_amenities_nonempty (items : list DetailItem) :
  Forall (fun a => a <> []) (d_amenities (detail_loop items)).
Proof.
  unfold detail_loop.
  apply (fold_left_invariant
           (fun st => Forall (fun a => a <> []) (d_amenities st))).
  - intros st i H. unfold detail_step. destruct (cell_key_value i).
    now apply process_cell_amenities_nonempty.
  - constructor.
Qed.

(** The structural amenity list, when the detail map has one, is the list of
    the bare keys that are not field keys. *)
Lemma details_amenities_filtered (items : list DetailItem) (l : list str) :
  get K.amenidades_estructurales (_parse_details_and_features items)
  = Some (VList l) ->
  exists data,
    _parse_details_and_features items
    = set K.amenidades_estructurales (VList l) data
    /\ l = filter (fun a => negb (mem (normalize_key a) data))
             (d_amenities (detail_loop items)).
Proof.
  unfold _parse_details_and_features, detail_finish.
  pose proof (detail_loop_scalar items) as Hs.
  set (st := detail_loop items) in *.
  set (data := match d_parts st with
               | [] => d_data st
               | _ :: _ =>
                   set K.descripcion_amenidades
                     (VStr (narrative (d_parts st))) (d_data st)
               end).
  assert (Hdata : scalar_values data).
  { subst data. destruct (d_parts st); [exact Hs|].
    apply scalar_values_set; [right; eauto|exact Hs]. }
  destruct (d_amenities st) as [|a am] eqn:E.
  - intro G. apply get_In in G. apply Hdata in G.
    destruct G as [(q & G)|(s & G)]; discriminate G.
  - rewrite get_set_same. intros [= <-]. exists data. now split.
Qed.

(** X7. In the map returned by the detail extractor no key contains
    "precio"; the structural amenity list holds no empty label, and (apart
    from a label that normalizes to the list's own key) none of its labels
    normalizes to a key of the map. *)
Theorem detail_map_invariants (items : list DetailItem) :
  (forall k, In k (keys (_parse_details_and_features items)) ->
     contains K.precio k = false)
  /\ (forall l a,
        get K.amenidades_estructurales (_parse_details_and_features items)
        = Some (VList l) ->
        In a l ->
        a <> []
        /\ (normalize_key a <> K.amenidades_estructurales ->
            get (normalize_key a) (_parse_details_and_features items) = None)).
Proof.
  split.
  - intros k Hk.
    exact (detail_finish_no_precio_key _ (detail_loop_no_precio_key items)
             k Hk).
  - intros l a Hg Hin.
    destruct (details_amenities_filtered items l Hg) as (data & -> & ->).
    apply filter_In in Hin. destruct Hin as [Hin Hm]. split.
    + pose proof (detail_loop_amenities_nonempty items) as F.
      rewrite Forall_forall in F. now apply F.
    + intro Hne. rewrite get_set_other by exact Hne.
      apply negb_true_iff in Hm. unfold mem in Hm.
      now destruct (get (normalize_key a) data).
Qed.

Lemma detail_map_invariants_witness :
  get (normalize_key (u "alberca"))
    (_parse_details_and_features (detail_items example_page)) = None.
Proof.
  destruct (detail_map_invariants (detail_items example_page)) as [_ H].
  refine (proj2 (H [u "alberca"; u "Alberca"] (u "alberca") eq_refl
                   (or_introl eq_refl)) _).
  discriminate.
Defined.

(** ** HeuristicTextSegmenter: the shape of the result *)

Lemma flags_ok_set (flags : dict bool) (name : str) :
  name = K.precio_negociable \/ name = K.no_paga_mantenimiento ->
  flags_ok flags -> flags_ok (set name true flags).
Proof.
  intros Hn H n b Hin. apply In_set in Hin.
  destruct Hin as [E|Hin]; [injection E as -> ->; auto|eauto].
Qed.

Lemma seg_step_flags_ok (st : SegState) (line : str) :
  flags_ok (s_flags st) -> flags_ok (s_flags (seg_step st line)).
Proof.
  intro H. rewrite seg_step_flags.
  destruct (nonempty (strip line)); [|exact H]. cbv zeta.
  destruct (has_no_fee_keyword _), (has_negotiable_keyword _);
    repeat (apply flags_ok_set; [auto|]); exact H.
Qed.

Lemma seg_loop_flags_ok (raw : str) : flags_ok (s_flags (seg_loop raw)).
Proof.
  unfold seg_loop.
  apply (fold_left_invariant (fun st => flags_ok (s_flags st))).
  - intros st line. apply seg_step_flags_ok.
  - intros n b [].
Qed.

Lemma fold_section_nonempty (acc : dict (list str) * list str)
  (kv : str * list str) :
  sections_nonempty (fst acc) -> sections_nonempty (fst (fold_section acc kv)).
Proof.
  destruct acc as [sections am], kv as [key value]. cbn [fst].
  intro H. unfold fold_section. destruct value as [|x value]; [exact H|].
  destruct (existsb _ known_sections); [|exact H].
  destruct (get (fold_key key) sections) as [l|]; cbn [fst];
    intros k l' Hin; apply In_set in Hin;
    destruct Hin as [E|Hin]; eauto; injection E as _ ->.
  - destruct l; discriminate.
  - discriminate.
Qed.

(** What an entry of the segmenter's result can be. *)
Lemma seg_finish_In (st : SegState) (k : str) (v : Value) :
  In (k, v) (seg_finish st) ->
  (k = K.caracteristicas_adicionales /\ v = VDict (s_flags st))
  \/ (In k known_sections /\ exists l, v = VList l /\ l <> [])
  \/ (k = K.amenidades_extraidas
      /\ exists am, v = VList (filter (fun a => (2 <? length a)%nat) am)).
Proof.
  unfold seg_finish.
  set (am0 := match get K.amenidades_extraidas (s_data st) with
              | Some l => l
              | None => []
              end).
  set (data := remove K.amenidades_extraidas (s_data st)).
  destruct (fold_section_sections data ([], am0)) as [_ H2];
    [split; [constructor|intros x []]|].
  assert (H3 : sections_nonempty (fst (fold_left fold_section data ([], am0)))).
  { apply (fold_left_invariant (fun acc => sections_nonempty (fst acc))).
    - intros acc kv. apply fold_section_nonempty.
    - intros k' l' []. }
  destruct (fold_left fold_section data ([], am0)) as [sections amenities].
  cbn [fst] in H2, H3. intro H.
  apply in_app_or in H. destruct H as [H|H].
  - destruct (s_flags st) as [|f fs]; [destruct H|].
    destruct H as [E|[]]. injection E as <- <-. now left.
  - apply in_app_or in H. destruct H as [H|H].
    + apply in_map_iff in H. destruct H as ([k' l'] & E & Hin).
      injection E as <- <-. right. left. split.
      * apply H2. now apply (in_map fst) in Hin.
      * exists l'. split; [reflexivity|]. exact (H3 _ _ Hin).
    + destruct amenities as [|a am]; [destruct H|].
      destruct H as [E|[]]. injection E as <- <-. right. right.
      split; [reflexivity|]. now exists (a :: am).
Qed.

(** X8. The segmenter's result only has the keys
    [caracteristicas_adicionales], [cercanias], [planta_baja], [planta_alta],
    [equipamiento] and [amenidades_extraidas]; a section it reports is never
    empty; every item of the default bucket is longer than two characters;
    the flags are [True] and carry one of the two known names. *)
Theorem segmenter_result_shape (raw : str) :
  (forall k, In k (keys (_parse_description_heuristics raw)) ->
     k = K.caracteristicas_adicionales \/ In k known_sections
     \/ k = K.amenidades_extraidas)
  /\ (forall k l, In (k, VList l) (_parse_description_heuristics raw) ->
        k <> K.amenidades_extraidas -> l <> [])
  /\ (forall l a,
        In (K.amenidades_extraidas, VList l)
          (_parse_description_heuristics raw) ->
        In a l -> (2 < length a)%nat)
  /\ (forall flags,
        In (K.caracteristicas_adicionales, VDict flags)
          (_parse_description_heuristics raw) ->
        flags <> [] /\ flags_ok flags).
Proof.
  unfold _parse_description_heuristics. destruct raw as [|c t].
  - split; [|split; [|split]].
    + intros k [<-|[]]. right. now right.
    + intros k l [E|[]]. injection E as <- _. congruence.
    + intros l a [E|[]]. injection E as <-. intros [].
    + intros flags [E|[]]. discriminate E.
  - split; [intros k; apply seg_finish_keys|]. split; [|split].
    + intros k l Hin Hk. apply seg_finish_In in Hin.
      destruct Hin as [[_ E]|[[_ (l' & E & Hl)]|[E _]]];
        [discriminate E|injection E as <-; exact Hl|contradiction].
    + intros l a Hin Ha. apply seg_finish_In in Hin.
      destruct Hin as [[E _]|[[E _]|[_ (am & E)]]].
      * discriminate E.
      * exfalso. repeat (destruct E as [E|E]; [discriminate E|]). exact E.
      * injection E as ->. apply filter_In in Ha. destruct Ha as [_ Ha].
        now apply Nat.ltb_lt in Ha.
    + intros flags Hin. pose proof Hin as Hin'.
      apply seg_finish_In in Hin.
      destruct Hin as [[_ E]|[[E _]|[E _]]].
      * injection E as ->. split; [|apply seg_loop_flags_ok].
        intro F. unfold seg_finish in Hin'. rewrite F in Hin'.
        destruct (fold_left fold_section _ _) as [sections amenities].
        apply in_app_or in Hin'. destruct Hin' as [[]|Hin'].
        apply in_app_or in Hin'. destruct Hin' as [Hin'|Hin'].
        -- apply in_map_iff in Hin'. destruct Hin' as (kv & E & _).
           discriminate E.
        -- destruct amenities; [destruct Hin'|].
           destruct Hin' as [E|[]]. discriminate E.
      * exfalso. repeat (destruct E as [E|E]; [discriminate E|]). exact E.
      * discriminate E.
Qed.

(** *** The items *)

Lemma seg_step_items (P : str -> Prop) (st : SegState) (line : str) :
  (forall s, _clean_text s <> [] -> P (_clean_text s)) ->
  all_items P (s_data st) -> all_items P (s_data (seg_step st line)).
Proof.
  intros HP H. unfold seg_step.
  destruct (nonempty (strip line)) eqn:Hn; [|exact H]. cbv zeta.
  destruct (_find_header (normalize_bullet (strip line))) as [h|].
  - cbn [s_data]. destruct (mem _ _); [exact H|].
    now apply all_items_set_nil.
  - destruct (item_match (normalize_bullet (strip line))) as [g|];
      cbn [s_data];
      match goal with
      | |- context [if ?b then _ else _] => destruct b eqn:E
      end; try exact H;
      apply all_items_append; try exact H; apply HP;
      repeat (apply andb_true_iff in E; destruct E as [E ?]);
      now apply nonempty_true.
Qed.

(** X9. Every item of every list in the segmenter's result is a non-empty
    text in single-line normal form. *)
Theorem segmenter_items_are_clean (raw k : str) (l : list str) (item : str) :
  In (k, VList l) (_parse_description_heuristics raw) -> In item l ->
  clean_item item.
Proof.
  intros Hin Hi. unfold _parse_description_heuristics in Hin.
  destruct raw as [|c t].
  - destruct Hin as [E|[]]. injection E as _ <-. destruct Hi.
  - refine (seg_finish_items clean_item (seg_loop (c :: t)) k l item _ Hin Hi).
    unfold seg_loop.
    apply (fold_left_invariant (fun st => all_items clean_item (s_data st))).
    + intros st line. apply seg_step_items. intros s Hs.
      split; [exact Hs|apply clean_text_tidy].
    + intros k' l' x [E|[]]. injection E as _ <-. intros [].
Qed.

Lemma segmenter_items_are_clean_witness :
  clean_item (u "Alberca techada").
Proof.
  apply (segmenter_items_are_clean keyword_description K.equipamiento
           [u "Alberca techada"] (u "Alberca techada")).
  - vm_compute. right. now left.
  - now left.
Defined.

(** ** HeuristicTextSegmenter: bullet items *)

Lemma lazy_group_bad_head (k n : nat) (c : N) (x : str) :
  word_or_space c = false -> (1 <= n)%nat -> lazy_group k n (c :: x) = None.
Proof.
  intros Hc. revert n. induction k as [|k IH]; intros n Hn; [reflexivity|].
  cbn [lazy_group]. destruct n as [|n']; [lia|].
  cbn [firstn forallb]. rewrite Hc, andb_false_r. cbn [andb].
  apply IH. lia.
Qed.

Lemma clean_text_cons_keep (c : N) (t : str) :
  is_space c = false -> is_invisible c = false ->
  _clean_text (c :: t) = c :: rstrip (collapse_ws (remove_invisible t)).
Proof.
  intros Hs Hi. unfold _clean_text, remove_invisible. cbn [filter].
  rewrite Hi. cbn [negb]. rewrite collapse_ws_cons_keep by exact Hs.
  now apply strip_cons_keep.
Qed.

(** A line that begins with a hyphen is never a header. *)
Lemma find_header_hyphen (t : str) : _find_header (HYPHEN :: t) = None.
Proof.
  unfold _find_header.
  rewrite (clean_text_cons_keep HYPHEN t eq_refl eq_refl).
  rewrite lazy_group_bad_head by (reflexivity || lia).
  set (x := rstrip (collapse_ws (remove_invisible t))). clearbody x.
  vm_compute. reflexivity.
Qed.

Lemma normalize_bullet_hyphen (c : N) (t : str) :
  is_bullet_or_hyphen c = true -> normalize_bullet (c :: t) = HYPHEN :: t.
Proof.
  unfold is_bullet_or_hyphen, normalize_bullet.
  destruct (is_bullet c); [reflexivity|]. cbn [orb].
  intro H. apply N.eqb_eq in H. now subst.
Qed.

Lemma get_append_item_same (cs x : str) (d : dict (list str)) (l : list str) :
  get cs d = Some l -> get cs (append_item cs x d) = Some (l ++ [x]).
Proof.
  induction d as [|[k0 l0] t IH]; simpl; [discriminate|].
  destruct (str_eqb cs k0) eqn:E; simpl; rewrite E; [|exact IH].
  now intros [= ->].
Qed.

Lemma seg_step_bullet (st : SegState) (line : str) (c : N) (t : str) :
  strip line = c :: t -> is_bullet_or_hyphen c = true ->
  keyword_free (_clean_text (strip line)) ->
  _clean_text (drop_while is_space t) <> [] ->
  seg_step st line
  = {| s_data := append_item (s_current_section st)
                   (_clean_text (drop_while is_space t)) (s_data st);
       s_current_section := s_current_section st;
       s_flags := s_flags st |}.
Proof.
  intros Hs Hc [Hk1 Hk2] Hi.
  unfold seg_step. rewrite Hs in *. cbn [nonempty]. cbv zeta.
  rewrite Hk1, Hk2, (normalize_bullet_hyphen c t Hc), find_header_hyphen.
  unfold item_match. rewrite N.eqb_refl.
  destruct (drop_while is_space t) as [|g0 g] eqn:D; [now elim Hi|].
  apply nonempty_true in Hi. now rewrite Hi.
Qed.

(** X10. A line that starts with a bullet glyph or a hyphen is never taken
    for a header: unless it is a keyword line, its cleaned remainder (when
    not empty) is appended to the current section, and nothing else
    changes. *)
Theorem bullet_item_is_emitted (st : SegState) (line : str) (c : N)
  (t : str) :
  strip line = c :: t -> is_bullet_or_hyphen c = true ->
  keyword_free (_clean_text (strip line)) ->
  _clean_text (drop_while is_space t) <> [] ->
  seg_step st line
  = {| s_data := append_item (s_current_section st)
                   (_clean_text (drop_while is_space t)) (s_data st);
       s_current_section := s_current_section st;
       s_flags := s_flags st |}
  /\ forall l, get (s_current_section st) (s_data st) = Some l ->
       get (s_current_section st) (s_data (seg_step st line))
       = Some (l ++ [_clean_text (drop_while is_space t)]).
Proof.
  intros Hs Hc Hk Hi.
  pose proof (seg_step_bullet st line c t Hs Hc Hk Hi) as E.
  split; [exact E|]. intros l Hl. rewrite E. cbn [s_data].
  now apply get_append_item_same.
Qed.

Lemma bullet_item_is_emitted_witness :
  get K.amenidades_extraidas (s_data (seg_step seg_init (u "* Alberca")))
  = Some [u "Alberca"].
Proof.
  refine (proj2 (bullet_item_is_emitted seg_init (u "* Alberca") 42
                   (u " Alberca") eq_refl eq_refl _ _) [] eq_refl).
  - split; reflexivity.
  - vm_compute. discriminate.
Defined.

(** ** HeuristicTextSegmenter: headers *)

Lemma rstrip_suffix (a r : str) : rstrip (a ++ r) = a ++ r -> rstrip r = r.
Proof.
  induction a as [|c a IH]; [auto|]. intro H. apply IH.
  exact (rstrip_cons_fixed c _ H).
Qed.

Lemma header_tail_word (r : str) :
  r <> [] -> rstrip r = r ->
  Forall (fun c => word_or_space c = true) r -> header_tail r = false.
Proof.
  intros Hne Hr Hw. unfold header_tail.
  destruct (drop_while is_space r) as [|d ds] eqn:D.
  - apply drop_while_nil_rstrip in D. unfold rstrip in Hr. congruence.
  - pose proof (drop_while_head is_space r d ds D) as Hd.
    destruct (drop_while_suffix is_space r) as [pre Hp]. rewrite D in Hp.
    rewrite Forall_forall in Hw.
    assert (Hwd : word_or_space d = true)
      by (apply Hw; rewrite Hp; apply in_or_app; right; now left).
    unfold word_or_space in Hwd. rewrite Hd, orb_false_r in Hwd.
    assert (Hcol : (d =? COLON)%N = false).
    { destruct (N.eqb_spec d COLON) as [->|]; [discriminate Hwd|reflexivity]. }
    destruct ds as [|d' [|d'' ds']]; rewrite ?Hcol; reflexivity.
Qed.

Lemma lazy_group_whole (c : str) :
  rstrip c = c -> forallb word_or_space c = true ->
  forall k n, (n <= length c)%nat -> (length c - n < k)%nat ->
    lazy_group k n c = Some c.
Proof.
  intros Hr Hw. induction k as [|k IH]; intros n Hn Hk; [lia|].
  cbn [lazy_group].
  destruct (Nat.eq_dec n (length c)) as [->|Hne].
  - rewrite Nat.leb_refl, firstn_all, Hw, skipn_all. reflexivity.
  - assert (Ht : header_tail (skipn n c) = false).
    { apply header_tail_word.
      - intro E. apply (f_equal (@length N)) in E.
        rewrite length_skipn in E. simpl in E. lia.
      - apply (rstrip_suffix (firstn n c)). now rewrite firstn_skipn.
      - apply Forall_forall. intros x Hx. rewrite forallb_forall in Hw.
        apply Hw. rewrite <- (firstn_skipn n c). apply in_or_app. now right. }
    rewrite Ht, andb_false_r. apply IH; lia.
Qed.

Lemma clean_text_rstrip (s : str) : rstrip (_clean_text s) = _clean_text s.
Proof.
  unfold _clean_text. destruct s; [reflexivity|]. apply rstrip_strip.
Qed.

Lemma find_header_plain (text : str) :
  (2 <= length (_clean_text text) <= 40)%nat ->
  forallb word_or_space (_clean_text text) = true ->
  _find_header text = Some (_clean_text text).
Proof.
  intros [H1 H2] Hw. unfold _find_header.
  rewrite (lazy_group_whole _ (clean_text_rstrip text) Hw); [reflexivity| |];
    lia.
Qed.

Lemma seg_step_header (st : SegState) (line g : str) :
  strip line <> [] ->
  _find_header (normalize_bullet (strip line)) = Some g ->
  (forall k l, get k (s_data st) = Some l ->
     get k (s_data (seg_step st line)) = Some l)
  /\ (forall k l, get k (s_data (seg_step st line)) = Some l ->
        get k (s_data st) = Some l \/ l = []).
Proof.
  intros Hn Hh. apply nonempty_true in Hn. unfold seg_step.
  rewrite Hn. cbv zeta. rewrite Hh. cbn [s_data].
  set (cs := section_of_header _).
  destruct (mem cs (s_data st)) eqn:M; [split; auto|].
  split; intros k l; rewrite get_set;
    destruct (str_eqb k cs) eqn:E.
  - apply str_eqb_eq in E. subst k. unfold mem in M. intro G.
    now rewrite G in M.
  - auto.
  - intros [= <-]. now right.
  - auto.
Qed.

(** X11. A line that, once cleaned, is made of 2 to 40 letters, digits,
    underscores and spaces is a header, in any script: [_find_header]
    returns the cleaned line, and the segmenter then adds at most an empty
    section and appends the line to no list (such a line is never collected
    as a loose item).  "Удобства:" and "設備" are headers. *)
Theorem plain_short_line_is_header (st : SegState) (line : str) :
  strip line <> [] ->
  (2 <= length (_clean_text (normalize_bullet (strip line))) <= 40)%nat ->
  forallb word_or_space (_clean_text (normalize_bullet (strip line))) = true ->
  _find_header (normalize_bullet (strip line))
  = Some (_clean_text (normalize_bullet (strip line)))
  /\ (forall k l, get k (s_data st) = Some l ->
        get k (s_data (seg_step st line)) = Some l)
  /\ (forall k l, get k (s_data (seg_step st line)) = Some l ->
        get k (s_data st) = Some l \/ l = [])
  /\ _find_header (u "Удобства:") = Some (u "Удобства")
  /\ _find_header (u "設備") = Some (u "設備").
Proof.
  intros Hn Hlen Hw.
  pose proof (find_header_plain _ Hlen Hw) as Hh.
  split; [exact Hh|].
  destruct (seg_step_header st line _ Hn Hh) as [A B].
  split; [exact A|]. split; [exact B|]. split; vm_compute; reflexivity.
Qed.

Lemma plain_short_line_is_header_witness :
  _find_header (normalize_bullet (strip (u "Closets amplios")))
  = Some (u "Closets amplios").
Proof.
  refine (proj1 (plain_short_line_is_header seg_init (u "Closets amplios")
                   _ _ _)).
  - vm_compute. discriminate.
  - vm_compute. lia.
  - reflexivity.
Defined.

(** ** HeuristicTextSegmenter: text without headers or bullets *)

Lemma seg_step_plain (st : SegState) (line : str) :
  idle st ->
  (strip line <> [] ->
   _find_header (normalize_bullet (strip line)) = None
   /\ item_match (normalize_bullet (strip line)) = None) ->
  idle (seg_step st line).
Proof.
  intros [Hd Hc] H. unfold seg_step.
  destruct (nonempty (strip line)) eqn:N; [|now split].
  assert (Hn : strip line <> []) by (intro E; now rewrite E in N).
  destruct (H Hn) as [Hh Hi]. cbv zeta. rewrite Hh, Hi. unfold idle.
  cbn [s_data s_current_section]. rewrite Hc, str_eqb_refl.
  cbn [negb]. rewrite andb_false_r. cbn [andb]. now split.
Qed.

Lemma seg_fold_plain (lines : list str) : forall st,
  idle st ->
  (forall line, In line lines -> strip line <> [] ->
     _find_header (normalize_bullet (strip line)) = None
     /\ item_match (normalize_bullet (strip line)) = None) ->
  idle (fold_left seg_step lines st).
Proof.
  induction lines as [|l ls IH]; intros st Hst H; [exact Hst|].
  cbn [fold_left]. apply IH.
  - apply seg_step_plain; [exact Hst|]. apply H. now left.
  - intros line Hin. apply H. now right.
Qed.

Lemma seg_finish_idle (st : SegState) (k : str) (v : Value) :
  idle st -> In (k, v) (seg_finish st) -> k = K.caracteristicas_adicionales.
Proof.
  intros [Hd _]. unfold seg_finish. rewrite Hd.
  change (get K.amenidades_extraidas [(K.amenidades_extraidas, [])])
    with (Some (@nil str)).
  change (remove K.amenidades_extraidas [(K.amenidades_extraidas, @nil str)])
    with (@nil (str * list str)).
  cbn [fold_left map app]. rewrite app_nil_r.
  destruct (s_flags st); [intros []|]. intros [E|[]]. now injection E.
Qed.

(** X12. A description in which no non-blank line is a header or a list
    item yields no list at all: loose lines before the first header are
    never collected, and the only entry the result may hold is the flag
    mapping. *)
Theorem plain_text_yields_no_list (raw : str) :
  raw <> [] ->
  (forall line, In line (seg_lines raw) -> strip line <> [] ->
     _find_header (normalize_bullet (strip line)) = None
     /\ item_match (normalize_bullet (strip line)) = None) ->
  forall k v, In (k, v) (_parse_description_heuristics raw) ->
    k = K.caracteristicas_adicionales /\ exists flags, v = VDict flags.
Proof.
  intros Hne H k v Hin. unfold _parse_description_heuristics in Hin.
  destruct raw as [|c t]; [now elim Hne|].
  assert (Hidle : idle (seg_loop (c :: t))).
  { unfold seg_loop. apply seg_fold_plain; [now split|exact H]. }
  pose proof (seg_finish_idle _ k v Hidle Hin) as ->.
  split; [reflexivity|].
  destruct Hidle as [Hd _]. unfold seg_finish in Hin. rewrite Hd in Hin.
  change (get K.amenidades_extraidas [(K.amenidades_extraidas, [])])
    with (Some (@nil str)) in Hin.
  change (remove K.amenidades_extraidas [(K.amenidades_extraidas, @nil str)])
    with (@nil (str * list str)) in Hin.
  cbn [fold_left map app] in Hin. rewrite app_nil_r in Hin.
  destruct (s_flags (seg_loop (c :: t))) as [|f fs]; [destruct Hin|].
  destruct Hin as [E|[]]. injection E as <-. now exists (f :: fs).
Qed.

Lemma plain_text_yields_no_list_witness :
  get K.amenidades_extraidas
    (_parse_description_heuristics
       (u "Hermosa casa en venta, lista para habitar. Precio a tratar."))
  = None.
Proof.
  destruct (get K.amenidades_extraidas _) as [v|] eqn:G; [|reflexivity].
  apply get_In in G.
  apply plain_text_yields_no_list in G.
  - destruct G as [E _]. discriminate E.
  - discriminate.
  - intros line Hin _. vm_compute in Hin. destruct Hin as [<-|[]].
    split; vm_compute; reflexivity.
Defined.

(** ** HeuristicTextSegmenter: preprocessing *)

Lemma visible_spaces (p : str) :
  forallb is_space p = true -> visible p = [].
Proof.
  unfold visible. induction p as [|c p IH]; [reflexivity|].
  cbn [forallb filter]. intro H. apply andb_prop in H. destruct H as [Hc Hp].
  rewrite Hc. cbn [negb]. now apply IH.
Qed.

Lemma visible_app (a b : str) : visible (a ++ b) = visible a ++ visible b.
Proof. unfold visible. apply filter_app. Qed.

Lemma visible_cons_keep (c : N) (t : str) :
  is_space c = false -> visible (c :: t) = c :: visible t.
Proof. intro H. unfold visible. cbn [filter]. now rewrite H. Qed.

Lemma visible_cons_space (c : N) (t : str) :
  is_space c = true -> visible (c :: t) = visible t.
Proof. intro H. unfold visible. cbn [filter]. now rewrite H. Qed.

Lemma break_before_bullets_go_visible (s : str) : forall pending,
  forallb is_space pending = true ->
  visible (break_before_bullets_go pending s) = visible s.
Proof.
  induction s as [|c t IH]; intros pending Hp; cbn [break_before_bullets_go].
  - now apply visible_spaces.
  - destruct (is_space c) eqn:Hc.
    + rewrite IH, (visible_cons_space c t Hc); [reflexivity|].
      rewrite forallb_app, Hp. cbn [forallb]. now rewrite Hc.
    + rewrite (visible_cons_keep c t Hc).
      destruct (is_bullet_or_hyphen c).
      * rewrite (visible_cons_space LF _ LF_is_space),
          (visible_cons_keep c _ Hc), IH; reflexivity.
      * rewrite visible_app, (visible_spaces pending Hp),
          (visible_cons_keep c _ Hc), IH; reflexivity.
Qed.

Lemma break_before_bullets_visible (s : str) :
  visible (break_before_bullets s) = visible s.
Proof.
  destruct s as [|c t]; [reflexivity|]. unfold break_before_bullets.
  destruct (is_space c) eqn:Hc.
  - rewrite !(visible_cons_space c _ Hc).
    now apply break_before_bullets_go_visible.
  - rewrite !(visible_cons_keep c _ Hc). f_equal.
    now apply break_before_bullets_go_visible.
Qed.

Lemma breaks_app_spaces (p rest : str) : forall prev,
  forallb is_space p = true ->
  (forall prev', bullets_after_breaks prev' rest = true) ->
  bullets_after_breaks prev (p ++ rest) = true.
Proof.
  induction p as [|c p IH]; intros prev Hp Hrest; [apply Hrest|].
  cbn [forallb] in Hp. apply andb_prop in Hp. destruct Hp as [Hc Hp].
  cbn [app bullets_after_breaks].
  destruct (is_bullet_or_hyphen c) eqn:B.
  - apply bullet_not_space in B. destruct B as [B _]. congruence.
  - cbn [negb orb andb]. now apply IH.
Qed.

Lemma break_before_bullets_go_breaks (s : str) : forall pending prev,
  forallb is_space pending = true ->
  bullets_after_breaks prev (break_before_bullets_go pending s) = true.
Proof.
  induction s as [|c t IH]; intros pending prev Hp;
    cbn [break_before_bullets_go].
  - rewrite <- (app_nil_r pending). now apply breaks_app_spaces.
  - destruct (is_space c) eqn:Hc.
    + apply IH. rewrite forallb_app, Hp. cbn [forallb]. now rewrite Hc.
    + destruct (is_bullet_or_hyphen c) eqn:B.
      * cbn [bullets_after_breaks]. rewrite B, N.eqb_refl, (IH [] c eq_refl).
        reflexivity.
      * apply breaks_app_spaces; [exact Hp|]. intro prev'.
        cbn [bullets_after_breaks]. rewrite B. cbn [negb orb andb].
        now apply IH.
Qed.

(** X13. Preprocessing a description only touches whitespace and invisible
    marks: the visible characters of the text the line loop runs over are
    those of the raw description, in the same order.  A description that
    already has a line break inside is only stripped of its invisible
    marks; in one that has none, every bullet glyph or hyphen after the
    first character comes right after a line break. *)
Theorem preprocessing_keeps_visible_text (raw : str) :
  visible (seg_preprocess raw) = visible (remove_invisible raw)
  /\ (has_char LF (strip (remove_invisible raw)) = true ->
      seg_preprocess raw = remove_invisible raw)
  /\ (has_char LF (strip (remove_invisible raw)) = false ->
      forall c t, seg_preprocess raw = c :: t ->
        bullets_after_breaks c t = true).
Proof.
  unfold seg_preprocess. cbv zeta. split; [|split].
  - destruct (negb (has_char LF (strip (remove_invisible raw)))
              && existsb is_bullet_or_hyphen (remove_invisible raw));
      [apply break_before_bullets_visible|reflexivity].
  - intros ->. reflexivity.
  - intros ->. cbn [negb andb].
    destruct (existsb is_bullet_or_hyphen (remove_invisible raw)) eqn:E.
    + intros c t H. destruct (remove_invisible raw) as [|c0 t0];
        [discriminate H|].
      unfold break_before_bullets in H. injection H as <- <-.
      now apply break_before_bullets_go_breaks.
    + intros c t H. rewrite H in E. cbn [existsb] in E.
      apply orb_false_elim in E. destruct E as [_ E]. clear H.
      revert c. induction t as [|d t IH]; intro c; [reflexivity|].
      cbn [existsb] in E. apply orb_false_elim in E. destruct E as [Ed Et].
      cbn [bullets_after_breaks]. rewrite Ed. cbn [negb orb andb].
      now apply IH.
Qed.

Lemma preprocessing_keeps_visible_text_witness :
  seg_preprocess (u "Casa nueva - Alberca * Jardin")
  = u "Casa nueva
- Alberca
* Jardin"
  /\ bullets_after_breaks 67 (u "asa nueva
- Alberca
* Jardin") = true.
Proof.
  split; [reflexivity|].
  refine (proj2 (proj2 (preprocessing_keeps_visible_text
                          (u "Casa nueva - Alberca * Jardin"))) eq_refl
            67 _ eq_refl).
Defined.

(** ** RecordConsolidator: synonym renaming *)

Lemma is_none_VNone (v : Value) : is_none v = true -> v = VNone.
Proof. destruct v; (reflexivity || discriminate). Qed.

Lemma find_non_null_cons (k : str) (v : Value) (l : dict Value) :
  find non_null ((k, v) :: l)
  = if is_none v then find non_null l else Some (k, v).
Proof.
  change (find non_null ((k, v) :: l))
    with (if negb (is_none v) then Some (k, v) else find non_null l).
  now destruct (is_none v).
Qed.

Lemma get_rename_fold_general (k0 : str) (d : dict Value) : forall acc,
  get k0 (fold_left rename_step d acc)
  = match get k0 acc with
    | Some old =>
        if is_none old then
          match find non_null (renamed_to k0 d) with
          | Some kv => Some (snd kv)
          | None => Some old
          end
        else Some old
    | None => renamed_value k0 d
    end.
Proof.
  induction d as [|[k v] d IH]; intro acc.
  - cbn. destruct (get k0 acc) as [old|]; [destruct (is_none old)|];
      reflexivity.
  - cbn [fold_left]. rewrite IH. unfold renamed_value, renamed_to.
    cbn [filter fst].
    destruct (str_eqb (final_key k) k0) eqn:E.
    + apply str_eqb_eq in E. unfold rename_step. rewrite E.
      unfold first_non_null. rewrite find_non_null_cons.
      destruct (get k0 acc) as [old|] eqn:G.
      * destruct (is_none v) eqn:Nv; destruct (is_none old) eqn:No;
          cbn [negb andb]; rewrite ?get_set_same, ?G, ?No, ?Nv; reflexivity.
      * rewrite get_set_same. destruct (is_none v) eqn:Nv; cbn [negb].
        -- apply is_none_VNone in Nv. subst v.
           destruct (find non_null _); reflexivity.
        -- reflexivity.
    + rewrite rename_step_get_other; [reflexivity|].
      intro H. rewrite H, str_eqb_refl in E. discriminate.
Qed.

(** X14. Synonym renaming: the value stored under a final name is the
    first value that is not [None] among the entries renamed to it, taken
    in insertion order ([None] when all of them are [None]); a renamed
    key's old name never remains. *)
Theorem rename_keeps_first_non_null (d : dict Value) :
  (forall k0, get k0 (rename_keys d) = renamed_value k0 d)
  /\ (forall old new, In (old, new) key_mapping ->
        get old (rename_keys d) = None).
Proof.
  split.
  - intro k0. unfold rename_keys. now rewrite get_rename_fold_general.
  - intros old new Hin. apply get_None_not_in. intro Hk.
    apply rename_keys_stable in Hk.
    destruct Hin as [E|[E|[E|[E|[]]]]]; injection E as <- <-;
      discriminate Hk.
Qed.

(** ** RecordConsolidator: when consolidation raises *)

Lemma consolidate_returns (d : dict Value) :
  list_or_absent K.amenidades_estructurales d ->
  list_or_absent K.amenidades_extraidas d ->
  exists r, consolidate d = Ok r.
Proof.
  intros H1 H2. rewrite consolidate_eq. rewrite (gather_typed d H1 H2).
  cbn [bind fst snd]. unfold store_amenities.
  destruct (truthy (VList (amenity_sources d))); cbn [iterate bind]; eauto.
Qed.

Lemma get_data_after_price (k : str) (page : Page) (url : str) :
  k <> K.precio -> k <> K.moneda ->
  get k (data_after_price page url) = get k (stage_identity page url).
Proof.
  intros H1 H2. unfold data_after_price, stage_price.
  destruct (price_tag page); [|reflexivity].
  now rewrite !get_set_other.
Qed.

Lemma merged_sources_typed (page : Page) (url : str) :
  get K.amenidades_estructurales (_parse_main_summary (summary_block page))
  = None ->
  get K.amenidades_extraidas (_parse_main_summary (summary_block page))
  = None ->
  list_or_absent K.amenidades_estructurales
    (_parse_details_and_features (detail_items page)) ->
  get K.amenidades_extraidas (_parse_details_and_features (detail_items page))
  = None ->
  list_or_absent K.amenidades_estructurales (merge_stages page url)
  /\ list_or_absent K.amenidades_extraidas (merge_stages page url).
Proof.
  intros H1 H2 H3 H4. unfold list_or_absent in *. unfold merge_stages.
  fold (data_after_price page url).
  rewrite !get_stage_description.
  change (str_eqb K.amenidades_estructurales K.descripcion) with false.
  change (str_eqb K.amenidades_extraidas K.descripcion) with false.
  rewrite !andb_false_r, !get_stage_heuristics, !get_stage_details,
    !get_stage_summary, H1, H2, H4,
    !get_data_after_price by discriminate.
  change (get K.amenidades_estructurales (stage_identity page url))
    with (@None Value).
  change (get K.amenidades_extraidas (stage_identity page url))
    with (@None Value).
  rewrite (heuristics_get_other (description_raw page)
             K.amenidades_estructurales);
    [|discriminate| |discriminate].
  - split.
    + destruct (nonempty (description_raw page));
        destruct (get K.amenidades_estructurales
                    (_parse_details_and_features (detail_items page)));
        auto.
    + destruct (nonempty (description_raw page)) eqn:N; [|exact I].
      destruct (get K.amenidades_extraidas
                  (_parse_description_heuristics (description_raw page)))
        as [v|] eqn:G; [|exact I].
      unfold _parse_description_heuristics in G.
      destruct (description_raw page) as [|c t]; [discriminate N|].
      apply get_In, seg_finish_In in G.
      destruct G as [[E _]|[[Hk _]|[_ (am & ->)]]].
      * discriminate E.
      * destruct Hk as [E|[E|[E|[E|[]]]]]; discriminate E.
      * exact I.
  - intros [E|[E|[E|[E|[]]]]]; discriminate E.
Qed.

(** X15. Parsing returns a record for every page whose summary row and
    detail cells do not use the labels of the two amenity lists. *)
Theorem parse_returns_on_regular_pages (page : Page) (url : str) :
  get K.amenidades_estructurales (_parse_main_summary (summary_block page))
  = None ->
  get K.amenidades_extraidas (_parse_main_summary (summary_block page))
  = None ->
  list_or_absent K.amenidades_estructurales
    (_parse_details_and_features (detail_items page)) ->
  get K.amenidades_extraidas (_parse_details_and_features (detail_items page))
  = None ->
  exists r, parse_property_html (Some page) url = Ok r.
Proof.
  intros H1 H2 H3 H4.
  destruct (merged_sources_typed page url H1 H2 H3 H4) as [Ha Hb].
  unfold parse_property_html. now apply consolidate_returns.
Qed.

Lemma parse_returns_on_regular_pages_witness :
  exists r, parse_property_html (Some example_page) example_url = Ok r.
Proof.
  apply parse_returns_on_regular_pages.
  - reflexivity.
  - reflexivity.
  - vm_compute. exact I.
  - reflexivity.
Defined.

(** X16. Consolidation raises when the default bucket of the merged record
    cannot be appended to the structural list: an [AttributeError] when the
    structural entry is present but not a list, a [TypeError] when the
    structural entry is a list or absent and the default-bucket entry is
    not iterable (a number or [None], as a summary item of that label
    gives). *)
Theorem consolidate_error_cases (d : dict Value) (v : Value) :
  get K.amenidades_extraidas d = Some v ->
  ((forall l, get K.amenidades_estructurales d <> Some (VList l)) ->
   get K.amenidades_estructurales d <> None ->
   consolidate d = Raise AttributeError)
  /\ (list_or_absent K.amenidades_estructurales d ->
      iterate v = Raise TypeError ->
      consolidate d = Raise TypeError).
Proof.
  intro Hv. rewrite consolidate_eq. unfold gather_amenities, list_or_absent.
  rewrite (get_remove_other K.amenidades_extraidas K.amenidades_estructurales)
    by discriminate.
  rewrite Hv. split.
  - intros Hl Hn.
    destruct (get K.amenidades_estructurales d) as [w|]; [|now elim Hn].
    destruct w; try reflexivity. now elim (Hl l).
  - intros Hl Hi.
    destruct (get K.amenidades_estructurales d) as [w|].
    + destruct w; try destruct Hl. cbn [extend bind]. rewrite Hi.
      reflexivity.
    + cbn [extend bind]. rewrite Hi. reflexivity.
Qed.

Lemma consolidate_error_cases_witness :
  parse_property_html (Some amenity_label_page) example_url = Raise TypeError.
Proof.
  refine (proj2 (consolidate_error_cases
                   (merge_stages amenity_label_page example_url)
                   (VFloat (Finite (3 # 1))) _) _ _).
  - reflexivity.
  - vm_compute. exact I.
  - reflexivity.
Defined.

(** ** RecordConsolidator: the final record *)

(** X17. In every record returned for a page the keys are pairwise
    distinct; no key is the old name of a renamed key; the two amenity lists
    of the extractors are gone and [equipamiento] is never a list; the
    construction year is never a float and, when an integer, lies between
    1900 and the current year plus two. *)
Theorem final_record_hygiene (page : Page) (url : str) (r : dict Value) :
  parse_property_html (Some page) url = Ok r ->
  NoDup (keys r)
  /\ (forall old new, In (old, new) key_mapping -> get old r = None)
  /\ get K.amenidades_estructurales r = None
  /\ get K.amenidades_extraidas r = None
  /\ (forall l, get K.equipamiento r <> Some (VList l))
  /\ (forall q, get K.anio_de_construccion r <> Some (VFloat q))
  /\ (forall z, get K.anio_de_construccion r = Some (VInt z) ->
        (1900 <= z <= current_year + 2)%Z).
Proof.
  intro Hp. unfold parse_property_html in Hp.
  destruct (consolidate_final_shape _ r (merge_stages_NoDup page url) Hp)
    as (Hnd & Hst & _ & H1 & H2 & H3 & H4 & H5).
  repeat split; auto.
  - intros old new Hin. apply get_None_not_in. intro Hk. apply Hst in Hk.
    destruct Hin as [E|[E|[E|[E|[]]]]]; injection E as <- <-;
      discriminate Hk.
  - now apply H5.
  - now apply H5.
Qed.

Lemma final_record_hygiene_witness :
  NoDup (keys example_record)
  /\ get K.terreno example_record = None
  /\ get K.anio_de_construccion example_record = Some (VInt 2010).
Proof.
  destruct (final_record_hygiene example_page example_url example_record
              eq_refl) as (H1 & H2 & _).
  split; [exact H1|]. split; [|reflexivity].
  apply (H2 K.terreno K.m2_terreno). now left.
Defined.

Lemma get_stage_identity (page : Page) (url : str) :
  get K.url (stage_identity page url) = Some (VStr url)
  /\ get K.titulo (stage_identity page url) = Some (clean_or_none (h1 page))
  /\ get K.subtitulo (stage_identity page url)
     = Some (clean_or_none (subtitle_tag page))
  /\ get K.direccion (stage_identity page url)
     = Some (clean_or_none (address_tag page)).
Proof.
  unfold stage_identity. rewrite !get_set. repeat split.
Qed.

Lemma text_field_clean_or_none (o : option str) :
  (if is_empty_value (clean_or_none o) then None else Some (clean_or_none o))
  = text_field o.
Proof.
  destruct o as [t|]; [|reflexivity]. unfold clean_or_none, text_field.
  destruct (_clean_text t); reflexivity.
Qed.

Lemma get_identity_final (k : str) (page : Page) (url : str)
  (r : dict Value) (v : Value) :
  consolidate (merge_stages page url) = Ok r ->
  In k [K.url; K.titulo; K.subtitulo; K.direccion] ->
  unused_label k page ->
  get k (stage_identity page url) = Some v ->
  get k r = if is_empty_value v then None else Some v.
Proof.
  intros Hc Hk [Hs Hd] Hv.
  assert (Hget : get k (merge_stages page url) = Some v).
  { rewrite get_merge_stages_unwritten; auto;
      try (destruct Hk as [<-|[<-|[<-|[<-|[]]]]]; discriminate).
    - rewrite get_data_after_price; auto;
        destruct Hk as [<-|[<-|[<-|[<-|[]]]]]; discriminate.
    - intro Hin.
      destruct Hk as [<-|[<-|[<-|[<-|[]]]]];
        destruct Hin as [E|[E|[E|[E|[]]]]]; discriminate E. }
  rewrite (get_consolidate_other k _ r (merge_stages_NoDup page url) Hc);
    try (destruct Hk as [<-|[<-|[<-|[<-|[]]]]]; (discriminate || reflexivity)).
  now rewrite Hget.
Qed.

(** X18. Identity fields: unless the summary row or a detail cell produces
    the same key, the final [titulo], [subtitulo] and [direccion] are the
    single-line cleaned text of their element, and are left out when the
    element is missing or its text is blank; [url] is the URL given. *)
Theorem identity_fields (page : Page) (url : str) (r : dict Value) :
  parse_property_html (Some page) url = Ok r ->
  (unused_label K.url page ->
   get K.url r = if nonempty url then Some (VStr url) else None)
  /\ (unused_label K.titulo page ->
      get K.titulo r = text_field (h1 page))
  /\ (unused_label K.subtitulo page ->
      get K.subtitulo r = text_field (subtitle_tag page))
  /\ (unused_label K.direccion page ->
      get K.direccion r = text_field (address_tag page)).
Proof.
  intro Hp. unfold parse_property_html in Hp.
  destruct (get_stage_identity page url) as (H1 & H2 & H3 & H4).
  split; [|split; [|split]]; intro Hu.
  - rewrite (get_identity_final K.url page url r _ Hp) by
      (auto; cbn; auto).
    now destruct url.
  - rewrite (get_identity_final K.titulo page url r _ Hp
               ltac:(cbn; auto) Hu H2).
    apply text_field_clean_or_none.
  - rewrite (get_identity_final K.subtitulo page url r _ Hp
               ltac:(cbn; auto) Hu H3).
    apply text_field_clean_or_none.
  - rewrite (get_identity_final K.direccion page url r _ Hp
               ltac:(cbn; auto) Hu H4).
    apply text_field_clean_or_none.
Qed.

Lemma identity_fields_witness :
  get K.titulo example_record = Some (VStr (u "Casa en venta"))
  /\ get K.subtitulo example_record = None.
Proof.
  destruct (identity_fields example_page example_url example_record eq_refl)
    as (_ & H2 & H3 & _).
  split.
  - apply H2. split; reflexivity.
  - apply H3. split; reflexivity.
Defined.

(** X19. When the page has a description (the description element, else
    the meta tag), the final [descripcion] is that text cleaned with
    [_clean_description_text], whatever the earlier stages stored under the
    key; it is left out when the cleaned text is empty. *)
Theorem stored_description (page : Page) (url : str) (r : dict Value) :
  parse_property_html (Some page) url = Ok r ->
  description_raw page <> [] ->
  get K.descripcion r
  = if nonempty (_clean_description_text (description_raw page))
    then Some (VStr (_clean_description_text (description_raw page)))
    else None.
Proof.
  intros Hp Hraw. unfold parse_property_html in Hp.
  rewrite (get_consolidate_other K.descripcion _ r
             (merge_stages_NoDup page url) Hp);
    try (discriminate || reflexivity).
  unfold merge_stages. rewrite get_stage_description.
  apply nonempty_true in Hraw. rewrite Hraw, str_eqb_refl. cbn [andb].
  now destruct (_clean_description_text (description_raw page)).
Qed.

Lemma stored_description_witness :
  get K.descripcion example_record
  = Some (VStr (u "Linda casa.
*Precio a tratar*
- jardín")).
Proof.
  refine (stored_description example_page example_url example_record
            eq_refl _).
  discriminate.
Defined.

(** ** StructuralExtractor: lookups in the summary map *)

Lemma summary_step_entry (data : dict Value) (item : SummaryItem) :
  summary_step data item
  = match summary_entry item with
    | Some (k, v) => set k v data
    | None => data
    end.
Proof.
  unfold summary_step, summary_entry.
  now destruct (key_tag item) as [[kt sibs]|].
Qed.

Lemma get_summary_fold (k : str) (items : list SummaryItem) : forall acc,
  get k (fold_left summary_step items acc)
  = match last_entry k items with
    | Some v => Some v
    | None => get k acc
    end.
Proof.
  induction items as [|item t IH]; intro acc; [reflexivity|].
  cbn [fold_left last_entry]. rewrite IH.
  destruct (last_entry k t); [reflexivity|].
  rewrite summary_step_entry.
  destruct (summary_entry item) as [[k' v]|]; [|reflexivity].
  rewrite get_set. now destruct (str_eqb k k').
Qed.

Lemma summary_value_text_icon (a b b' : list Node) :
  summary_value_text (a ++ Tag Icon :: b)
  = summary_value_text (a ++ Tag Icon :: b').
Proof.
  induction a as [|n a IH]; [reflexivity|].
  cbn [app summary_value_text]. destruct n as [s|[]]; now rewrite ?IH.
Qed.

(** X20. In the summary row the value of a label is read from the nodes
    before the first icon only, and when several items have the same
    normalized label the last one gives the value. *)
Theorem summary_last_label_wins (items : list SummaryItem) (k : str) :
  get k (_parse_main_summary (Some items)) = last_entry k items
  /\ forall a b b', summary_value_text (a ++ Tag Icon :: b)
                    = summary_value_text (a ++ Tag Icon :: b').
Proof.
  split; [|apply summary_value_text_icon].
  unfold _parse_main_summary. rewrite get_summary_fold.
  now destruct (last_entry k items).
Qed.

(** ** StructuralExtractor: the operation *)

Lemma process_cell_operacion (S : Value -> Prop) (st : DetailState)
  (item : DetailItem) :
  S (VStr K.Venta) -> S (VStr K.Renta) ->
  (forall v, operation_cell item v -> S v) ->
  (forall v, get K.operacion (d_data st) = Some v -> S v) ->
  forall v, get K.operacion (d_data (detail_step st item)) = Some v -> S v.
Proof.
  intros Hv Hr Hc Hst v. unfold detail_step, operation_cell in *.
  destruct (cell_key_value item) as [k val]. cbn [fst snd] in Hc.
  unfold process_cell. destruct (nonempty k); [|apply Hst].
  destruct (nonempty val) eqn:N; [|apply Hst]. cbn [d_data].
  destruct (contains K.precio_de_venta (normalize_key k)).
  { rewrite get_set_same. now intros [= <-]. }
  destruct (contains K.precio_de_renta (normalize_key k)).
  { rewrite get_set_same. now intros [= <-]. }
  destruct (contains K.precio (normalize_key k)); cbn [negb]; [apply Hst|].
  rewrite get_set. destruct (str_eqb K.operacion (normalize_key k)) eqn:E;
    [|apply Hst].
  apply str_eqb_eq in E. intros [= <-]. apply Hc. split; [auto|].
  split; [|reflexivity]. intro H. now rewrite H in N.
Qed.

Lemma detail_fold_operacion (S : Value -> Prop) (items : list DetailItem) :
  S (VStr K.Venta) -> S (VStr K.Renta) ->
  (forall item v, In item items -> operation_cell item v -> S v) ->
  forall st,
    (forall v, get K.operacion (d_data st) = Some v -> S v) ->
    forall v,
      get K.operacion (d_data (fold_left detail_step items st)) = Some v ->
      S v.
Proof.
  intros Hv Hr. induction items as [|item t IH]; intros Hc st Hst;
    [exact Hst|].
  cbn [fold_left]. apply IH.
  - intros i v Hin. apply Hc. now right.
  - apply process_cell_operacion; auto. intros v. apply Hc. now left.
Qed.

Lemma get_detail_finish_other (k : str) (st : DetailState) :
  k <> K.descripcion_amenidades -> k <> K.amenidades_estructurales ->
  get k (detail_finish st) = get k (d_data st).
Proof.
  intros H1 H2. unfold detail_finish.
  destruct (d_amenities st); destruct (d_parts st);
    now rewrite ?get_set_other.
Qed.

(** X21. The operation reported by the detail cells is "Venta" or "Renta"
    (set by a valued sale-price or rental-price cell), unless it is the
    value of a cell that is itself labelled "operacion". *)
Theorem operation_is_sale_or_rent (items : list DetailItem) (v : Value) :
  get K.operacion (_parse_details_and_features items) = Some v ->
  v = VStr K.Venta \/ v = VStr K.Renta
  \/ exists item, In item items /\ operation_cell item v.
Proof.
  unfold _parse_details_and_features.
  rewrite get_detail_finish_other by discriminate.
  unfold detail_loop. revert v.
  apply (detail_fold_operacion
           (fun v => v = VStr K.Venta \/ v = VStr K.Renta
                     \/ exists item, In item items /\ operation_cell item v)).
  - now left.
  - right. now left.
  - intros item v Hin Hc. right. right. now exists item.
  - intros v H. discriminate H.
Qed.

Lemma operation_is_sale_or_rent_witness :
  VStr K.Venta = VStr K.Venta \/ VStr K.Venta = VStr K.Renta
  \/ exists item,
       In item [valued_cell (u "Precio de venta") (u "$100")]
       /\ operation_cell item (VStr K.Venta).
Proof.
  apply (operation_is_sale_or_rent
           [valued_cell (u "Precio de venta") (u "$100")]).
  reflexivity.
Defined.

(** ** RecordConsolidator: the price *)

Lemma get_precio_merged (page : Page) (url : str) (v : Value) :
  get K.precio (merge_stages page url) = Some v -> number_or_none v.
Proof.
  unfold merge_stages. fold (data_after_price page url).
  rewrite get_stage_description.
  change (str_eqb K.precio K.descripcion) with false.
  rewrite andb_false_r, get_stage_heuristics, get_stage_details,
    get_stage_summary, details_no_precio.
  rewrite heuristics_get_other;
    [|discriminate
     |intros [E|[E|[E|[E|[]]]]]; discriminate E
     |discriminate].
  assert (H : match get K.precio (_parse_main_summary (summary_block page))
              with
              | Some v0 => Some v0
              | None => get K.precio (data_after_price page url)
              end = Some v -> number_or_none v).
  { destruct (get K.precio (_parse_main_summary (summary_block page)))
      as [w|] eqn:G.
    - intros [= <-]. apply get_In in G. unfold _parse_main_summary in G.
      destruct (summary_block page) as [items|]; [|destruct G].
      exact (proj2 (summary_entries_shape items _ _ G)).
    - unfold data_after_price, stage_price.
      destruct (price_tag page) as [t|].
      + rewrite get_set_other by discriminate. rewrite get_set_same.
        intros [= <-]. apply float_or_none_number.
        intros q Hq. exact (extract_number_nonneg _ q Hq).
      + intro H. discriminate H. }
  now destruct (nonempty (description_raw page)).
Qed.

(** X22. The price of a returned record, when present, is a float that is
    not negative, whatever the page holds. *)
Theorem final_price_is_a_number (page : Page) (url : str) (r : dict Value)
  (v : Value) :
  parse_property_html (Some page) url = Ok r ->
  get K.precio r = Some v ->
  exists f, v = VFloat f /\ nonnegative f.
Proof.
  intros Hp Hv. unfold parse_property_html in Hp.
  rewrite (get_consolidate_other K.precio _ r
             (merge_stages_NoDup page url) Hp) in Hv;
    try (discriminate || reflexivity).
  destruct (get K.precio (merge_stages page url)) as [w|] eqn:G;
    [|discriminate Hv].
  destruct (get_precio_merged page url w G) as [->|Hq]; [discriminate Hv|].
  destruct Hq as (q & -> & Hq). injection Hv as <-. now exists q.
Qed.

Lemma final_price_is_a_number_witness :
  exists f, VFloat (Finite (1234567 # 1)) = VFloat f /\ nonnegative f.
Proof.
  apply (final_price_is_a_number example_page example_url example_record).
  - reflexivity.
  - reflexivity.
Defined.

(** ** HeuristicTextSegmenter: where the flags come from *)

Lemma seg_step_flag_origin (st : SegState) (line : str) :
  (get K.precio_negociable (s_flags (seg_step st line)) = Some true ->
   get K.precio_negociable (s_flags st) = Some true \/ negotiable_line line)
  /\ (get K.no_paga_mantenimiento (s_flags (seg_step st line)) = Some true ->
      get K.no_paga_mantenimiento (s_flags st) = Some true
      \/ no_fee_line line).
Proof.
  rewrite seg_step_flags. unfold negotiable_line, no_fee_line.
  destruct (nonempty (strip line)) eqn:N; [|now split; left].
  assert (Hs : strip line <> []) by (intro E; now rewrite E in N).
  cbv zeta.
  destruct (has_negotiable_keyword _) eqn:K1;
    destruct (has_no_fee_keyword _) eqn:K2;
    split; intro H; auto;
    rewrite ?(get_set_other K.precio_negociable K.no_paga_mantenimiento),
      ?(get_set_other K.no_paga_mantenimiento K.precio_negociable) in H
      by discriminate; auto.
Qed.

Lemma seg_fold_flag_origin (lines : list str) : forall st,
  (get K.precio_negociable (s_flags (fold_left seg_step lines st)) = Some true ->
   get K.precio_negociable (s_flags st) = Some true
   \/ exists line, In line lines /\ negotiable_line line)
  /\ (get K.no_paga_mantenimiento (s_flags (fold_left seg_step lines st))
      = Some true ->
      get K.no_paga_mantenimiento (s_flags st) = Some true
      \/ exists line, In line lines /\ no_fee_line line).
Proof.
  induction lines as [|l ls IH]; intro st; [now split; left|].
  cbn [fold_left]. destruct (IH (seg_step st l)) as [IH1 IH2].
  destruct (seg_step_flag_origin st l) as [S1 S2].
  split; intro H.
  - destruct (IH1 H) as [H1|(line & Hin & Hl)].
    + destruct (S1 H1) as [H2|H2]; [now left|].
      right. exists l. split; [now left|exact H2].
    + right. exists line. split; [now right|exact Hl].
  - destruct (IH2 H) as [H1|(line & Hin & Hl)].
    + destruct (S2 H1) as [H2|H2]; [now left|].
      right. exists l. split; [now left|exact H2].
    + right. exists line. split; [now right|exact Hl].
Qed.

Lemma flag_set_loop (raw name : str) :
  flag_set name (_parse_description_heuristics raw) ->
  get name (s_flags (seg_loop raw)) = Some true.
Proof.
  intros (flags & Hg & Hn). unfold _parse_description_heuristics in Hg.
  destruct raw as [|c t]; [discriminate Hg|].
  apply get_In, seg_finish_In in Hg.
  destruct Hg as [[_ E]|[[Hk _]|[E _]]].
  - injection E as <-. exact Hn.
  - destruct Hk as [E|[E|[E|[E|[]]]]]; discriminate E.
  - discriminate E.
Qed.

(** X23. A flag is reported only when the description has a line that
    carries its keyword: [precio_negociable] needs a non-blank line
    mentioning a negotiable price, [no_paga_mantenimiento] a non-blank line
    mentioning that no maintenance fee is paid. *)
Theorem flags_need_a_keyword_line (raw : str) :
  (flag_set K.precio_negociable (_parse_description_heuristics raw) ->
   exists line, In line (seg_lines raw) /\ negotiable_line line)
  /\ (flag_set K.no_paga_mantenimiento (_parse_description_heuristics raw) ->
      exists line, In line (seg_lines raw) /\ no_fee_line line).
Proof.
  destruct (seg_fold_flag_origin (seg_lines raw) seg_init) as [H1 H2].
  split; intro H; apply flag_set_loop in H.
  - destruct (H1 H) as [F|F]; [discriminate F|exact F].
  - destruct (H2 H) as [F|F]; [discriminate F|exact F].
Qed.

Lemma flags_need_a_keyword_line_witness :
  exists line, In line (seg_lines keyword_description) /\ negotiable_line line.
Proof.
  apply (proj1 (flags_need_a_keyword_line keyword_description)).
  exists [(K.precio_negociable, true)]. split; reflexivity.
Defined.

(** ** TextNormalizer: the two cleaners agree on the words *)

Lemma words_cons_space (c : N) (t : str) :
  is_space c = true -> words (c :: t) = words t.
Proof. intro H. cbn [words]. now rewrite H. Qed.

Lemma words_cons_word (c : N) (t : str) :
  is_space c = false ->
  words (c :: t)
  = if starts_space t then [c] :: words t
    else match words t with
         | [] => [[c]]
         | w :: ws => (c :: w) :: ws
         end.
Proof.
  intro H. cbn [words]. rewrite H. destruct t as [|c' t']; reflexivity.
Qed.

(** The words of [c :: t] only depend on [c], on the words of [t] and on
    whether [t] begins with whitespace. *)
Lemma words_cons_congr (c : N) (t t' : str) :
  starts_space t = starts_space t' -> words t = words t' ->
  words (c :: t) = words (c :: t').
Proof.
  intros Hs Hw. destruct (is_space c) eqn:E.
  - now rewrite !words_cons_space.
  - now rewrite !words_cons_word, Hs, Hw.
Qed.

Lemma words_app_sep (a b : str) (c : N) :
  is_space c = true -> words (a ++ c :: b) = words a ++ words b.
Proof.
  intro Hc. induction a as [|x a IH].
  - cbn [app]. now rewrite words_cons_space.
  - cbn [app]. destruct (is_space x) eqn:Hx.
    + now rewrite !words_cons_space.
    + rewrite !words_cons_word, IH by exact Hx.
      destruct a as [|y a'].
      * cbn [app starts_space words]. now rewrite Hc.
      * cbn [app starts_space]. destruct (is_space y) eqn:Hy; [reflexivity|].
        destruct (words_cons_keep y a' Hy) as (w & ws & ->). reflexivity.
Qed.

Lemma words_join (sep : N) (ls : list str) :
  is_space sep = true -> words (join [sep] ls) = concat (map words ls).
Proof.
  intro Hs. induction ls as [|a [|b rest] IH]; [reflexivity| |].
  - cbn [join map concat]. now rewrite app_nil_r.
  - change (join [sep] (a :: b :: rest))
      with (a ++ sep :: join [sep] (b :: rest)).
    rewrite words_app_sep, IH by exact Hs. reflexivity.
Qed.

(** A word is its own only word. *)
Lemma words_of_words (l : str) : Forall (fun w => words w = [w]) (words l).
Proof.
  induction l as [|c t IH]; [constructor|].
  destruct (is_space c) eqn:Hc; [now rewrite words_cons_space|].
  rewrite words_cons_word by exact Hc.
  assert (H1 : words [c] = [[c]]) by (cbn [words]; now rewrite Hc).
  destruct (starts_space t) eqn:Hs; [now constructor|].
  destruct (words t) as [|w ws] eqn:Hw; [now constructor|].
  inversion IH as [|? ? Hw1 Hws]; subst. constructor; [|exact Hws].
  destruct (words_head t w ws Hw) as (c0 & w' & -> & Hc0).
  rewrite words_cons_word by exact Hc. cbn [starts_space].
  now rewrite Hc0, Hw1.
Qed.

Lemma concat_map_single (ws : list str) :
  Forall (fun w => words w = [w]) ws -> concat (map words ws) = ws.
Proof.
  induction 1 as [|w ws Hw _ IH]; [reflexivity|].
  cbn [map concat]. now rewrite Hw, IH.
Qed.

Lemma words_join_words (l : str) : words (join [SP] (words l)) = words l.
Proof.
  rewrite words_join by exact SP_is_space.
  apply concat_map_single, words_of_words.
Qed.

Lemma collapse_breaks_shape (t : str) :
  starts_space (collapse_breaks t) = starts_space t
  /\ words (collapse_breaks t) = words t.
Proof.
  induction t as [|c t [IH1 IH2]]; [now split|].
  rewrite collapse_breaks_cons.
  destruct ((c =? LF)%N && starts_with [LF; LF] t) eqn:E.
  - apply andb_prop in E. destruct E as [Ec Et].
    apply N.eqb_eq in Ec. subst c.
    destruct t as [|c1 t1]; [discriminate Et|].
    rewrite starts_with_cons in Et. apply andb_prop in Et.
    destruct Et as [Ec1 _]. apply N.eqb_eq in Ec1. subst c1.
    rewrite IH1, IH2. split; [reflexivity|].
    now rewrite (words_cons_space LF _ LF_is_space).
  - split; [reflexivity|]. now apply words_cons_congr.
Qed.

Lemma rstrip_shape (t : str) :
  starts_space (rstrip t) = starts_space t /\ words (rstrip t) = words t.
Proof.
  induction t as [|c t [IH1 IH2]]; [now split|].
  rewrite rstrip_cons. destruct (rstrip t) as [|a r] eqn:E.
  - destruct (is_space c) eqn:Hc.
    + split; [cbn [starts_space]; now rewrite Hc|].
      rewrite words_cons_space by exact Hc. exact IH2.
    + split; [reflexivity|]. now apply words_cons_congr.
  - split; [reflexivity|]. now apply words_cons_congr.
Qed.

Lemma words_lstrip (t : str) : words (lstrip t) = words t.
Proof.
  unfold lstrip. induction t as [|c t IH]; [reflexivity|].
  cbn [drop_while]. destruct (is_space c) eqn:Hc; [|reflexivity].
  now rewrite words_cons_space.
Qed.

Lemma words_strip (t : str) : words (strip t) = words t.
Proof.
  unfold strip. rewrite words_lstrip. apply rstrip_shape.
Qed.

Lemma words_lines (y : str) :
  concat (map words (split_on LF y)) = words y.
Proof.
  rewrite <- (words_join LF _ LF_is_space). now rewrite join_split_on.
Qed.

Lemma words_clean_description (text : str) :
  words (_clean_description_text text) = words (remove_invisible text).
Proof.
  rewrite clean_description_as_spec. unfold clean_multiline_spec.
  rewrite words_strip, (proj2 (collapse_breaks_shape _)),
    (words_join LF _ LF_is_space), map_map.
  rewrite <- (words_lines (remove_invisible text)).
  f_equal. apply map_ext. intro l. apply words_join_words.
Qed.

Lemma clean_text_words (s : str) :
  _clean_text s = join [SP] (words (remove_invisible s)).
Proof.
  unfold _clean_text. destruct s as [|c t]; [reflexivity|].
  apply strip_collapse_ws.
Qed.

(** X24. The two cleaners agree on the words: the words of the cleaned
    description are the words of the raw one (invisible marks removed), so
    putting the stored description on a single line gives the same text as
    putting the raw description on a single line. *)
Theorem description_keeps_the_words (text : str) :
  words (_clean_description_text text) = words (remove_invisible text)
  /\ _clean_text (_clean_description_text text) = _clean_text text.
Proof.
  split; [apply words_clean_description|].
  rewrite !clean_text_words. f_equal.
  assert (E : remove_invisible (_clean_description_text text)
              = _clean_description_text text).
  { apply filter_all. destruct (clean_multiline_parts text) as [H _].
    eapply Forall_impl; [|exact H]. intros c Hc. cbv beta. now rewrite Hc. }
  rewrite E. apply words_clean_description.
Qed.

(** ** Amenity normalization applied twice *)

Lemma lowercase_visible : visible_mapping Unicode.lowercase = true.
Proof. vm_compute. reflexivity. Qed.

Lemma titlecase_visible : visible_mapping Unicode.titlecase = true.
Proof. vm_compute. reflexivity. Qed.

(** What a case mapping gives for a visible character. *)
Lemma mapping_block (t : list (N * list N)) (c : N) :
  visible_mapping t = true -> visible_char c ->
  let b := match Unicode.lookup c t with Some l => l | None => [c] end in
  b <> [] /\ Forall visible_char b.
Proof.
  intros T Hc. cbv zeta.
  destruct (Unicode.lookup c t) as [l|] eqn:E.
  - apply lookup_In in E. unfold visible_mapping in T.
    rewrite forallb_forall in T. specialize (T _ E). cbn [snd] in T.
    apply andb_prop in T. destruct T as [T1 T2].
    split; [now apply nonempty_true|].
    apply Forall_forall. intros x Hx. rewrite forallb_forall in T2.
    specialize (T2 x Hx). apply andb_prop in T2. destruct T2 as [A B].
    split; now apply negb_true_iff.
  - split; [discriminate|]. now constructor.
Qed.

Lemma tidy_char_cases (c : N) : tidy_char c -> c = SP \/ visible_char c.
Proof.
  intros [Hi Hs]. destruct (is_space c) eqn:E; [left; auto|right].
  now split.
Qed.

Lemma lower_from_expands (s : str) : forall st,
  Forall tidy_char s -> expands s (lower_from st s).
Proof.
  induction s as [|c s IH]; intros st H; [constructor|].
  inversion H as [|? ? Hc Hs]; subst. rewrite lower_from_cons.
  destruct (tidy_char_cases c Hc) as [->|Hv].
  - change (SP =? SIGMA)%N with false. change (lower_full SP) with [SP].
    cbn [app]. constructor. now apply IH.
  - apply expands_block; [apply Hv| | |now apply IH].
    + destruct (c =? SIGMA)%N; [discriminate|].
      exact (proj1 (mapping_block _ c lowercase_visible Hv)).
    + destruct (c =? SIGMA)%N.
      * constructor; [|constructor].
        destruct (st && _); split; reflexivity.
      * exact (proj2 (mapping_block _ c lowercase_visible Hv)).
Qed.

Lemma capitalize_expands (s : str) :
  Forall tidy_char s -> expands s (capitalize s).
Proof.
  destruct s as [|c s]; intro H; [constructor|].
  inversion H as [|? ? Hc Hs]; subst. cbn [capitalize].
  destruct (tidy_char_cases c Hc) as [->|Hv].
  - change (title_full SP) with [SP]. cbn [app]. constructor.
    now apply lower_from_expands.
  - apply expands_block; [apply Hv| | |now apply lower_from_expands].
    + exact (proj1 (mapping_block _ c titlecase_visible Hv)).
    + exact (proj2 (mapping_block _ c titlecase_visible Hv)).
Qed.

(** *** Expansion keeps the normal form *)

Lemma visible_not_SP (x : N) : visible_char x -> (SP =? x)%N = false.
Proof.
  intros [Hs _]. apply N.eqb_neq. intros <-. discriminate Hs.
Qed.

Lemma expands_tidy_chars (s s' : str) :
  expands s s' -> Forall tidy_char s'.
Proof.
  induction 1 as [|t t' _ IH|c b t t' _ _ Hb _ IH]; [constructor| |].
  - constructor; [|exact IH]. split; [reflexivity|auto].
  - apply Forall_app. split; [|exact IH].
    eapply Forall_impl; [|exact Hb]. intros x [Hs Hi].
    split; [exact Hi|]. intro F. congruence.
Qed.

Lemma expands_head_space (s s' : str) :
  expands s s' -> starts_with [SP] s' = starts_with [SP] s.
Proof.
  destruct 1 as [|t t' _|c b t t' Hc Hn Hb _]; [reflexivity|reflexivity|].
  destruct b as [|x b]; [congruence|]. inversion Hb; subst.
  cbn [app]. rewrite !starts_with_cons, !starts_with_nil, !andb_true_r.
  rewrite (visible_not_SP x) by assumption.
  symmetry. apply N.eqb_neq. intros <-. discriminate Hc.
Qed.

Lemma block_no_double (b t : str) :
  Forall visible_char b -> contains [SP; SP] t = false ->
  contains [SP; SP] (b ++ t) = false.
Proof.
  intros Hb Ht. induction Hb as [|x b Hx _ IH]; [exact Ht|].
  cbn [app]. rewrite contains_cons, IH, orb_false_r, starts_with_cons.
  now rewrite (visible_not_SP x Hx).
Qed.

Lemma expands_no_double (s s' : str) :
  expands s s' -> contains [SP; SP] s = false ->
  contains [SP; SP] s' = false.
Proof.
  induction 1 as [|t t' Ht IH|c b t t' Hc Hn Hb Ht IH]; [auto| |].
  - rewrite !contains_cons. intro H. apply orb_false_iff in H.
    destruct H as [H1 H2]. rewrite (IH H2), orb_false_r.
    rewrite starts_with_cons in H1 |- *.
    now rewrite (expands_head_space t t' Ht).
  - rewrite contains_cons. intro H. apply orb_false_iff in H.
    destruct H as [_ H2]. apply block_no_double; auto.
Qed.

Lemma expands_nonempty (s s' : str) : expands s s' -> s <> [] -> s' <> [].
Proof.
  destruct 1 as [|t t' _|c b t t' _ Hn _ _]; [congruence|discriminate|].
  intros _ E. apply app_eq_nil in E. now destruct E.
Qed.

Lemma rstrip_keep (x : N) (r : str) :
  is_space x = false -> rstrip r = r -> rstrip (x :: r) = x :: r.
Proof.
  intros Hx Hr. rewrite rstrip_cons, Hr, Hx. now destruct r.
Qed.

Lemma rstrip_block (b t : str) :
  Forall visible_char b -> rstrip t = t -> rstrip (b ++ t) = b ++ t.
Proof.
  intros Hb Ht. induction Hb as [|x b [Hx _] _ IH]; [exact Ht|].
  cbn [app]. now apply rstrip_keep.
Qed.

Lemma expands_rstrip (s s' : str) :
  expands s s' -> rstrip s = s -> rstrip s' = s'.
Proof.
  induction 1 as [|t t' Ht IH|c b t t' Hc Hn Hb Ht IH]; [auto| |]; intro H.
  - pose proof (rstrip_cons_fixed _ _ H) as Hr.
    assert (Hne : t <> []) by (intros ->; discriminate H).
    pose proof (expands_nonempty t t' Ht Hne) as Hne'.
    rewrite rstrip_cons, (IH Hr). now destruct t'.
  - apply rstrip_block; [exact Hb|]. apply IH.
    exact (rstrip_cons_fixed _ _ H).
Qed.

Lemma lstrip_fixed_head (c : N) (t : str) :
  lstrip (c :: t) = c :: t -> is_space c = false.
Proof.
  unfold lstrip. cbn [drop_while]. destruct (is_space c); [|reflexivity].
  intro H. exfalso.
  assert (L : forall w, (length (drop_while is_space w) <= length w)%nat).
  { intro w. induction w as [|x w IHw]; simpl; [apply le_n|].
    destruct (is_space x); simpl; [apply le_S, IHw|apply le_n]. }
  specialize (L t). rewrite H in L. simpl in L.
  exact (Nat.nle_succ_diag_l _ L).
Qed.

Lemma expands_lstrip (s s' : str) :
  expands s s' -> lstrip s = s -> lstrip s' = s'.
Proof.
  destruct 1 as [|t t' _|c b t t' _ Hn Hb _]; [auto| |]; intro H.
  - apply lstrip_fixed_head in H. discriminate H.
  - destruct b as [|x b]; [congruence|]. inversion Hb as [|? ? [Hx _] _].
    unfold lstrip. cbn [app drop_while]. now rewrite Hx.
Qed.

Lemma tidy_expands (s s' : str) : expands s s' -> tidy s -> tidy s'.
Proof.
  intros He (Hc & Hd & Hs). split; [|split].
  - now apply (expands_tidy_chars s).
  - now apply (expands_no_double s).
  - assert (Hr : rstrip s = s) by (rewrite <- Hs; apply rstrip_strip).
    assert (Hl : lstrip s = s).
    { rewrite <- Hs at 1. unfold strip, lstrip.
      rewrite drop_while_idem. exact Hs. }
    unfold strip. rewrite (expands_rstrip s s' He Hr).
    exact (expands_lstrip s s' He Hl).
Qed.

(** Capitalizing keeps a text in single-line normal form. *)
Lemma capitalize_tidy (s : str) : tidy s -> tidy (capitalize s).
Proof.
  intro H. apply (tidy_expands s); [|exact H].
  apply capitalize_expands, H.
Qed.

Lemma normalized_amenity_fixed (a : str) :
  simple_initial (_clean_text a) = true ->
  capitalize (_clean_text (capitalize (_clean_text a)))
  = capitalize (_clean_text a).
Proof.
  intro H. rewrite (tidy_fixed (capitalize (_clean_text a))).
  - now apply capitalize_idem.
  - apply capitalize_tidy, clean_text_tidy.
Qed.

Lemma capitalize_nil (s : str) : capitalize s = [] -> s = [].
Proof.
  destruct s as [|c t]; [reflexivity|]. cbn [capitalize]. intro E.
  apply app_eq_nil in E. destruct E as [E _]. exfalso.
  unfold title_full in E.
  destruct (Unicode.lookup c Unicode.titlecase) as [l|] eqn:G;
    [|discriminate E].
  subst l. apply lookup_In in G. pose proof titlecase_visible as T.
  unfold visible_mapping in T. rewrite forallb_forall in T.
  specialize (T _ G). discriminate T.
Qed.

Lemma StronglySorted_filter (f : str -> bool) (l : list str) :
  StronglySorted str_lt l -> StronglySorted str_lt (filter f l).
Proof.
  induction 1 as [|a l Hl IH Ha]; [constructor|].
  cbn [filter]. destruct (f a); [|exact IH].
  constructor; [exact IH|].
  apply Forall_forall. intros x Hx. apply filter_In in Hx.
  rewrite Forall_forall in Ha. now apply Ha.
Qed.

(** X25. Normalizing an amenity list twice gives what normalizing it once
    gives, less the empty entry, when the clean text of every entry starts
    with a character whose title case is one character; it need not
    otherwise: "ŉ a" gives "ʼN a", and this gives "ʼn a".  The normalized
    list holds an empty entry exactly when a source entry that is not empty
    is blank. *)
Theorem clean_amenities_stable (l : list str) :
  (Forall (fun a => simple_initial (_clean_text a) = true) l ->
   clean_amenities (clean_amenities l) = filter nonempty (clean_amenities l))
  /\ (In [] (clean_amenities l)
      <-> exists a, In a l /\ a <> [] /\ _clean_text a = [])
  /\ clean_amenities [u "ŉ a"] = [u "ʼN a"]
  /\ clean_amenities (clean_amenities [u "ŉ a"]) = [u "ʼn a"].
Proof.
  split; [|split; [|split; reflexivity]].
  - intro Hl. rewrite Forall_forall in Hl.
    apply strictly_sorted_unique.
    + apply clean_amenities_sorted.
    + apply StronglySorted_filter, clean_amenities_sorted.
    + intro x. rewrite clean_amenities_In, filter_In. split.
      * intros (a & Ha & Hne & ->). pose proof Ha as Ha'.
        apply clean_amenities_In in Ha'. destruct Ha' as (a0 & H0 & _ & E).
        subst a. rewrite (normalized_amenity_fixed a0 (Hl a0 H0)).
        split; [exact Ha|]. now apply nonempty_true.
      * intros [Hx Hne]. exists x. split; [exact Hx|].
        split; [intro E; now rewrite E in Hne|].
        apply clean_amenities_In in Hx. destruct Hx as (a0 & H0 & _ & ->).
        now rewrite (normalized_amenity_fixed a0 (Hl a0 H0)).
  - rewrite clean_amenities_In. split.
    + intros (a & Ha & Hne & E). exists a. split; [exact Ha|].
      split; [exact Hne|]. now apply capitalize_nil.
    + intros (a & Ha & Hne & E). exists a. split; [exact Ha|].
      split; [exact Hne|]. now rewrite E.
Qed.

Lemma clean_amenities_stable_witness :
  clean_amenities (clean_amenities [u "alberca"; [SP]])
  = filter nonempty (clean_amenities [u "alberca"; [SP]]).
Proof.
  apply (proj1 (clean_amenities_stable [u "alberca"; [SP]])).
  repeat constructor.
Defined.

(** ** HeuristicTextSegmenter: no collected item is lost *)

Lemma get_append_item_keeps (k cs x : str) (d : dict (list str))
  (l : list str) :
  get k d = Some l ->
  exists l', get k (append_item cs x d) = Some l'
             /\ forall i, In i l -> In i l'.
Proof.
  induction d as [|[k0 l0] d IH]; [discriminate|].
  cbn [get append_item].
  destruct (str_eqb cs k0); cbn [get]; destruct (str_eqb k k0).
  - intros [= <-]. exists (l0 ++ [x]). split; [reflexivity|].
    intros i Hi. apply in_or_app. now left.
  - intro H. now exists l.
  - intros [= <-]. now exists l0.
  - exact IH.
Qed.

Lemma collected_append_item (item cs x : str) (d : dict (list str)) :
  collected item d -> collected item (append_item cs x d).
Proof.
  intros (k & l & Hg & Hi).
  destruct (get_append_item_keeps k cs x d l Hg) as (l' & Hg' & Hl).
  exists k, l'. auto.
Qed.

Lemma collected_set_new (item cs : str) (d : dict (list str)) :
  mem cs d = false -> collected item d -> collected item (set cs [] d).
Proof.
  intros Hm (k & l & Hg & Hi). exists k, l. split; [|exact Hi].
  rewrite get_set. destruct (str_eqb k cs) eqn:E; [|exact Hg].
  apply str_eqb_eq in E. subst k. unfold mem in Hm. now rewrite Hg in Hm.
Qed.

Lemma seg_step_keeps (item : str) (st : SegState) (line : str) :
  collected item (s_data st) -> collected item (s_data (seg_step st line)).
Proof.
  intro H. unfold seg_step. destruct (nonempty (strip line)); [|exact H].
  cbv zeta. destruct (_find_header _) as [g|].
  - cbn [s_data]. destruct (mem _ (s_data st)) eqn:M; [exact H|].
    now apply collected_set_new.
  - destruct (item_match _) as [g|]; cbn [s_data];
      match goal with
      | |- collected _ (if ?b then _ else _) => destruct b
      end; auto using collected_append_item.
Qed.

Lemma seg_fold_keeps (item : str) (lines : list str) (st : SegState) :
  collected item (s_data st) ->
  collected item (s_data (fold_left seg_step lines st)).
Proof.
  apply (fold_left_invariant (fun st => collected item (s_data st))).
  intros a x. apply seg_step_keeps.
Qed.

Lemma fold_section_reported (item : str)
  (acc : dict (list str) * list str) (kv : str * list str) :
  reported item acc -> reported item (fold_section acc kv).
Proof.
  destruct acc as [sections amenities]. destruct kv as [key value].
  unfold reported, fold_section. cbn [fst snd].
  destruct value as [|v0 vs]; [auto|].
  destruct (existsb _ known_sections).
  - intros [(k & l & Hg & Hi)|H].
    + left. destruct (get (fold_key key) sections) as [l0|] eqn:G;
        cbn [fst]; destruct (str_eqb k (fold_key key)) eqn:E.
      * apply str_eqb_eq in E. subst k. rewrite G in Hg.
        injection Hg as <-. exists (fold_key key), (l0 ++ v0 :: vs).
        rewrite get_set_same. split; [reflexivity|].
        apply in_or_app. now left.
      * exists k, l. rewrite get_set, E. auto.
      * apply str_eqb_eq in E. subst k. rewrite G in Hg. discriminate Hg.
      * exists k, l. rewrite get_set, E. auto.
    + right. now destruct (get (fold_key key) sections).
  - intros [H|H]; [now left|]. right. cbn [snd]. apply in_or_app. now left.
Qed.

Lemma fold_section_new (item : str)
  (acc : dict (list str) * list str) (kv : str * list str) :
  In item (snd kv) -> reported item (fold_section acc kv).
Proof.
  destruct acc as [sections amenities]. destruct kv as [key value].
  unfold reported, fold_section. cbn [fst snd]. intro Hi.
  destruct value as [|v0 vs]; [destruct Hi|].
  destruct (existsb _ known_sections).
  - left. destruct (get (fold_key key) sections) as [l0|]; cbn [fst].
    + exists (fold_key key), (l0 ++ v0 :: vs). rewrite get_set_same.
      split; [reflexivity|]. apply in_or_app. now right.
    + exists (fold_key key), (v0 :: vs). rewrite get_set_same. auto.
  - right. cbn [snd]. apply in_or_app. now right.
Qed.

Lemma fold_sections_reported (item : str) (data : dict (list str)) :
  forall acc,
    reported item acc \/ (exists k l, In (k, l) data /\ In item l) ->
    reported item (fold_left fold_section data acc).
Proof.
  induction data as [|kv data IH]; intros acc H.
  - destruct H as [H|(k & l & [] & _)]. exact H.
  - cbn [fold_left]. apply IH.
    destruct H as [H|(k & l & [E|Hin] & Hi)].
    + left. now apply fold_section_reported.
    + left. apply fold_section_new. now rewrite E.
    + right. now exists k, l.
Qed.

Lemma seg_finish_reports (item : str) (st : SegState) :
  collected item (s_data st) -> (2 < length item)%nat ->
  exists k l, In (k, VList l) (seg_finish st) /\ In item l.
Proof.
  intros (k & l & Hg & Hi) Hlen. unfold seg_finish.
  pose proof (fold_sections_reported item
                (remove K.amenidades_extraidas (s_data st))
                ([], match get K.amenidades_extraidas (s_data st) with
                     | Some l0 => l0
                     | None => []
                     end)) as Hr.
  destruct (fold_left fold_section _ _) as [sections amenities].
  assert (H : reported item (sections, amenities)).
  { apply Hr. destruct (str_eqb k K.amenidades_extraidas) eqn:E.
    - apply str_eqb_eq in E. subst k. left. right. cbn [snd].
      now rewrite Hg.
    - right. exists k, l. split; [|exact Hi]. apply get_In.
      rewrite get_remove_other; [exact Hg|].
      intro F. rewrite F, str_eqb_refl in E. discriminate E. }
  destruct H as [(k' & l' & Hg' & Hi')|H]; cbn [fst snd] in *.
  - exists k', l'. split; [|exact Hi'].
    apply in_or_app. right. apply in_or_app. left.
    apply get_In in Hg'.
    exact (in_map (fun kv => (fst kv, VList (snd kv))) _ _ Hg').
  - destruct amenities as [|a am]; [destruct H|].
    exists K.amenidades_extraidas,
      (filter (fun a0 => (2 <? length a0)%nat) (a :: am)).
    split.
    + apply in_or_app. right. apply in_or_app. right. now left.
    + apply filter_In. split; [exact H|]. now apply Nat.ltb_lt.
Qed.

(** X26. No bullet item is lost: every line of the description that starts
    with a bullet glyph or a hyphen, is not a keyword line, and whose
    cleaned remainder is longer than two characters, has that remainder in
    one of the lists of the result. *)
Theorem bullet_items_are_reported (raw line : str) (c : N) (t : str) :
  In line (seg_lines raw) ->
  strip line = c :: t -> is_bullet_or_hyphen c = true ->
  keyword_free (_clean_text (strip line)) ->
  (2 < length (_clean_text (drop_while is_space t)))%nat ->
  exists k l,
    In (k, VList l) (_parse_description_heuristics raw)
    /\ In (_clean_text (drop_while is_space t)) l.
Proof.
  intros Hin Hs Hc Hk Hlen.
  assert (Hraw : raw <> []).
  { apply (seg_lines_nonempty_raw raw line Hin). rewrite Hs. discriminate. }
  unfold _parse_description_heuristics.
  destruct raw as [|r0 raw']; [now elim Hraw|].
  apply seg_finish_reports; [|exact Hlen].
  unfold seg_loop. destruct (in_split _ _ Hin) as (pre & post & ->).
  rewrite fold_left_app. cbn [fold_left]. apply seg_fold_keeps.
  pose proof (seg_current_present pre) as Hm.
  set (st := fold_left seg_step pre seg_init) in *.
  assert (Hne : _clean_text (drop_while is_space t) <> [])
    by (intro E; rewrite E in Hlen; cbn in Hlen; lia).
  rewrite (seg_step_bullet st line c t Hs Hc Hk Hne). cbn [s_data].
  unfold mem in Hm.
  destruct (get (s_current_section st) (s_data st)) as [l|] eqn:G;
    [|discriminate Hm].
  exists (s_current_section st), (l ++ [_clean_text (drop_while is_space t)]).
  split; [now apply get_append_item_same|].
  apply in_or_app. right. now left.
Qed.

Lemma bullet_items_are_reported_witness :
  exists k l,
    In (k, VList l) (_parse_description_heuristics keyword_description)
    /\ In (u "Alberca techada") l.
Proof.
  apply (bullet_items_are_reported keyword_description
           (u "- Alberca techada") 45 (u " Alberca techada")).
  - vm_compute. auto.
  - reflexivity.
  - reflexivity.
  - split; reflexivity.
  - vm_compute. lia.
Defined.
